(** * DNAiOS architecture analyzer: the dependency-graph builder

    A shallow embedding of [backend/analyzer.py]: the AST visitors
    ([ImportVisitor], [CallGraphVisitor], [EntrypointVisitor]), the module
    mapper ([module_key_from_path], [_detect_project_roots]), the import
    resolver, the graph assembler ([_analyze_modules],
    [_add_external_nodes]), the depth part of the layout engine
    ([_calculate_layout]) and the archive reader ([should_skip_directory],
    [extract_python_files]).

    Conventions of the embedding.
    - Python [str] is [string]; a Python [dict] is an association list in
      insertion order with unique keys ([Py.dict_set] keeps the position of
      a key that is written again); a Python [set] is a list without
      duplicates.  Python leaves the iteration order of a [set] open, so
      statements about sets speak of membership, and the emitted edges are
      sorted as [build] does it.
    - [lower] follows [str.lower] on the characters below 256, the letters
      of ASCII and of Latin-1.  The archive is given by its list of names
      and by the function that reads and decodes a member.
    - The collaborators the file calls but does not define are parameters:
      [ast_parse] (Python's [ast.parse]; [None] is [SyntaxError], the one
      exception the analyzer catches), [cc_visit] (radon; [None] is a
      raised exception), [is_stdlib]
      (runtime introspection of the interpreter) and [cwd] (the process
      working directory read by [posixpath.abspath]).
    - Fields that are only carried to the presentation layer are left out:
      icon, title, type, content/role, docstring, the floating-point metrics
      and the coordinates x, y; so are the diagnostic counters, which
      [build] never returns.
    - The recursion of [dfs1] and [dfs2] and the queue loop of the layout
      are bounded in the model.  [build] gives the searches one call more
      than there are nodes, a bound they do not reach
      ([build_layout_total]): it describes the artifact of a run that
      returns.  Whether a run returns is the matter of [run_build], which
      gives the searches the nested calls the interpreter has left
      ([RecursionError] beyond) and ends on an exception of [ast.parse]
      that the analyzer does not catch. *)

From Stdlib Require Import List String Ascii Bool Arith ZArith Lia Permutation Sorted.
Import ListNotations.
Local Open Scope string_scope.
Local Open Scope list_scope.

Set Implicit Arguments.
Set Warnings "-register-all".

(* ================================================================== *)
(** * Python built-ins used by the analyzer *)

Module Py.

(** [s.split(sep)] for a one-character separator: never empty. *)
Fixpoint split (sep : ascii) (s : string) : list string :=
  match s with
  | EmptyString => [EmptyString]
  | String c rest =>
      if Ascii.eqb c sep then EmptyString :: split sep rest
      else match split sep rest with
           | [] => [String c EmptyString]
           | h :: t => String c h :: t
           end
  end.

(** [sep.join(parts)]. *)
Definition join (sep : string) (parts : list string) : string :=
  String.concat sep parts.

(** [s.startswith(p)]. *)
Definition startswith (s p : string) : bool := String.prefix p s.

(** [sub in s] on strings. *)
Fixpoint contains (s sub : string) : bool :=
  String.prefix sub s ||
  match s with
  | EmptyString => false
  | String _ rest => contains rest sub
  end.

(** [s.endswith(p)]. *)
Fixpoint endswith (s p : string) : bool :=
  String.eqb s p ||
  match s with
  | EmptyString => false
  | String _ rest => endswith rest p
  end.

(** [s.lstrip(c)]. *)
Fixpoint lstrip (c : ascii) (s : string) : string :=
  match s with
  | EmptyString => EmptyString
  | String a rest => if Ascii.eqb a c then lstrip c rest else s
  end.

(** [s.rstrip(c)]. *)
Fixpoint rstrip (c : ascii) (s : string) : string :=
  match s with
  | EmptyString => EmptyString
  | String a rest =>
      match rstrip c rest with
      | EmptyString => if Ascii.eqb a c then EmptyString else String a EmptyString
      | r => String a r
      end
  end.

(** [c * n] for a character. *)
Fixpoint repeat_char (c : ascii) (n : nat) : string :=
  match n with
  | O => EmptyString
  | S k => String c (repeat_char c k)
  end.

(** [s.count(c)]. *)
Fixpoint count (c : ascii) (s : string) : nat :=
  match s with
  | EmptyString => 0
  | String a rest => (if Ascii.eqb a c then 1 else 0) + count c rest
  end.

(** Truth value of a string: [if s:]. *)
Definition truthy (s : string) : bool := negb (String.eqb s "").

(** [l[0]] and [l[-1]] on the result of a split, which is never empty. *)
Definition first (l : list string) : string := hd "" l.
Definition last (l : list string) : string := List.last l "".

(** [l[:-k]]: all but the last [k] elements.  For [k = 0] Python reads
    [l[:-0]] as [l[:0]], the empty list. *)
Definition drop_last (k : nat) (l : list string) : list string :=
  match k with
  | O => []
  | _ => firstn (List.length l - k) l
  end.

(** Membership in a list of strings. *)
Definition mem (x : string) (l : list string) : bool :=
  existsb (String.eqb x) l.

(** [set.add]. *)
Definition set_add (x : string) (s : list string) : list string :=
  if mem x s then s else s ++ [x].

(** Dictionaries keyed by strings. *)
Definition dict (V : Type) : Type := list (string * V).

Fixpoint dict_get {V} (d : dict V) (k : string) : option V :=
  match d with
  | [] => None
  | (k', v) :: rest => if String.eqb k k' then Some v else dict_get rest k
  end.

Definition dict_mem {V} (d : dict V) (k : string) : bool :=
  match dict_get d k with Some _ => true | None => false end.

(** [d[k] = v]: an existing key keeps its place, a new one goes last. *)
Fixpoint dict_set {V} (d : dict V) (k : string) (v : V) : dict V :=
  match d with
  | [] => [(k, v)]
  | (k', v') :: rest =>
      if String.eqb k k' then (k, v) :: rest else (k', v') :: dict_set rest k v
  end.

(** [d[k].add(x)] on a [defaultdict(set)]. *)
Definition dd_add (d : dict (list string)) (k x : string) : dict (list string) :=
  match dict_get d k with
  | Some s => dict_set d k (set_add x s)
  | None => dict_set d k [x]
  end.

(** [d[k].append(x)] on a [defaultdict(list)]. *)
Definition dd_append (d : dict (list string)) (k x : string) : dict (list string) :=
  match dict_get d k with
  | Some l => dict_set d k (l ++ [x])
  | None => dict_set d k [x]
  end.

(** [d.get(k, default)]. *)
Definition dict_get_default {V} (d : dict V) (k : string) (default : V) : V :=
  match dict_get d k with Some v => v | None => default end.

Definition keys {V} (d : dict V) : list string := map fst d.
Definition values {V} (d : dict V) : list V := map snd d.

(** [sorted(set(l))] on strings: insertion into a strictly increasing list. *)
Fixpoint insert_sorted (x : string) (l : list string) : list string :=
  match l with
  | [] => [x]
  | y :: rest =>
      match String.compare x y with
      | Lt => x :: l
      | Eq => l
      | Gt => y :: insert_sorted x rest
      end
  end.

Definition sorted_set (l : list string) : list string :=
  fold_left (fun acc x => insert_sorted x acc) l [].

End Py.

(* ================================================================== *)
(** * [posixpath] and [os.path] *)

Module posixpath.

Section WithCwd.

(** Components of [os.getcwd()], an absolute normalised path. *)
Variable cwd : list string.

(** [posixpath.dirname]: the text before the last slash, with trailing
    slashes removed unless it consists of slashes only. *)
Fixpoint head_upto_last_slash (p : string) : string :=
  match p with
  | EmptyString => EmptyString
  | String c rest =>
      if Py.contains p "/" then String c (head_upto_last_slash rest)
      else EmptyString
  end.

Definition dirname (p : string) : string :=
  let head := head_upto_last_slash p in
  if Py.truthy head && negb (String.eqb (Py.lstrip "/" head) "")
  then Py.rstrip "/" head else head.

(** The loop of [posixpath.normpath] on the components of an absolute
    path: empty and [.] components are skipped, [..] removes the last kept
    component and is dropped at the root. *)
Fixpoint normpath_comps (comps new_comps : list string) : list string :=
  match comps with
  | [] => new_comps
  | comp :: rest =>
      if String.eqb comp "" || String.eqb comp "." then
        normpath_comps rest new_comps
      else if String.eqb comp ".." then
        normpath_comps rest (removelast new_comps)
      else normpath_comps rest (new_comps ++ [comp])
  end.

(** The non-empty components of [posixpath.abspath(p)]. *)
Definition abspath_comps (p : string) : list string :=
  if Py.startswith p "/" then normpath_comps (Py.split "/" p) []
  else normpath_comps (cwd ++ Py.split "/" p) [].

(** [len(commonprefix([a, b]))] on component lists. *)
Fixpoint common_prefix_len (a b : list string) : nat :=
  match a, b with
  | x :: a', y :: b' => if String.eqb x y then S (common_prefix_len a' b') else 0
  | _, _ => 0
  end.

(** [posixpath.relpath(path, start)] for a non-empty [path]. *)
Definition relpath (path start : string) : string :=
  let start_list := abspath_comps start in
  let path_list := abspath_comps path in
  let i := common_prefix_len start_list path_list in
  let rel_list := repeat ".." (List.length start_list - i) ++ skipn i path_list in
  match rel_list with
  | [] => "."
  | _ => Py.join "/" rel_list
  end.

End WithCwd.

(** [os.path.splitext(p)[0]] on a single path component: the text before
    the last dot, unless only dots precede it. *)
Fixpoint splitext_aux (p : string) (seen_non_dot : bool) : option string :=
  match p with
  | EmptyString => None
  | String c rest =>
      let is_dot := Ascii.eqb c "." in
      match splitext_aux rest (seen_non_dot || negb is_dot) with
      | Some r => Some (String c r)
      | None => if is_dot && seen_non_dot then Some EmptyString else None
      end
  end.

Definition splitext_root (p : string) : string :=
  match splitext_aux p false with
  | Some r => r
  | None => p
  end.

End posixpath.

(* ================================================================== *)
(** * The syntax trees of [ast] *)

Module ast.

Inductive constant : Type :=
| CStr (s : string)
| COther.

Inductive cmpop : Type :=
| Eq
| OtherOp.

(** Expressions.  [OtherExpr] stands for every expression class the
    visitors have no method for, with its child expressions in field
    order; keyword values of a call are among [args]. *)
Inductive expr : Type :=
| Name (id : string)
| Attribute (value : expr) (attr : string)
| Call (func : expr) (args : list expr)
| Compare (left : expr) (ops : list cmpop) (comparators : list expr)
| Constant (value : constant)
| OtherExpr (children : list expr).

Record alias : Type := Alias { alias_name : string; asname : option string }.

(** Statements.  [args] of a definition holds the expressions below its
    [arguments] node (defaults, annotations); [OtherStmt] stands for every
    statement class without a visitor method ([for], [while], [try] with
    its handlers, [with], [return], assignments, ...): its expressions,
    then its statements, as [generic_visit] meets them. *)
Inductive stmt : Type :=
| FunctionDef (name : string) (lineno : nat) (args : list expr)
    (body : list stmt) (decorator_list : list expr)
| AsyncFunctionDef (name : string) (lineno : nat) (args : list expr)
    (body : list stmt) (decorator_list : list expr)
| ClassDef (name : string) (lineno : nat) (bases : list expr)
    (body : list stmt) (decorator_list : list expr)
| Import (names : list alias)
| ImportFrom (module : option string) (names : list alias) (level : nat)
| If (test : expr) (body : list stmt) (orelse : list stmt)
| Expr (value : expr)
| OtherStmt (exprs : list expr) (stmts : list stmt).

(** [ast.Module]: the body of a parsed file. *)
Definition Module_ : Type := list stmt.

End ast.

Import ast.

(* ================================================================== *)
(** * Data models *)

Record Block : Type := mkBlock {
  block_name : string;
  block_classname : option string;
  block_complexity : nat
}.

Record FunctionDetails : Type := mkFunctionDetails {
  fd_name : string;
  fd_lineno : nat;
  fd_complexity : nat;
  fd_calls : list string;
  fd_called_by : list string;
  fd_is_entrypoint : bool
}.

Record ComplexityMetrics : Type := mkComplexityMetrics {
  max_complexity : nat;
  block_count : nat;
  high_complexity_blocks : nat
}.

Record NodeStats : Type := mkNodeStats {
  ns_lines : nat;
  ns_classes : nat;
  ns_functions : nat;
  ns_imports : nat;
  ns_complexity : option ComplexityMetrics
}.

(** The [stats] of a node: [NodeStats.to_dict()] for modules and symbols,
    the literal [{"Type": "External Package"}] for external packages. *)
Inductive Stats : Type :=
| StatsOf (s : NodeStats)
| ExternalPackage.

Record GraphNode : Type := mkGraphNode {
  id : string;
  kind : string;
  path : string;
  project : string;
  stats : Stats;
  parent : option string
}.

(** [GraphEdge] as the builder keeps it: [(source, target, type)]. *)
Definition GraphEdge : Type := (string * string * string)%type.

Record ModuleDetails : Type := mkModuleDetails {
  md_path : string;
  md_imports : list string;
  md_symbols : nat;
  md_stats : NodeStats;
  md_functions : list FunctionDetails;
  md_entrypoints : list string;
  md_call_graph : Py.dict (list string);
  md_dead_functions : list string
}.

(* ================================================================== *)
(** * Complexity *)

Definition default_metrics : ComplexityMetrics := mkComplexityMetrics 0 0 0.

(** ASCII white space as [str.strip()] removes it. *)
Definition is_space (c : ascii) : bool :=
  let n := nat_of_ascii c in
  ((9 <=? n)%nat && (n <=? 13)%nat) || ((28 <=? n)%nat && (n <=? 32)%nat).

(** [not code.strip()]. *)
Fixpoint is_blank (code : string) : bool :=
  match code with
  | EmptyString => true
  | String c rest => is_space c && is_blank rest
  end.

Section Complexity.

Variable RADON_AVAILABLE : bool.
Variable cc_visit : string -> option (list Block).

Definition calculate_module_complexity (code : string)
  : ComplexityMetrics * list Block :=
  if negb RADON_AVAILABLE || is_blank code then (default_metrics, [])
  else
    match cc_visit code with
    | None => (default_metrics, [])
    | Some [] => (mkComplexityMetrics 1 0 0, [])
    | Some blocks =>
        let complexities := map block_complexity blocks in
        (mkComplexityMetrics
           (fold_left Nat.max complexities 0)
           (List.length blocks)
           (List.length (filter (fun c => (10 <? c)%nat) complexities)),
         blocks)
    end.

End Complexity.

Definition map_symbol_complexities (blocks : list Block) : Py.dict nat :=
  fold_left
    (fun mapping block =>
       let key :=
         match block_classname block with
         | Some classname =>
             if Py.truthy classname
             then (classname ++ "." ++ block_name block)%string
             else block_name block
         | None => block_name block
         end in
       Py.dict_set mapping key (block_complexity block))
    blocks [].

(* ================================================================== *)
(** * [ImportVisitor] *)

Record ImportVisitor : Type := mkImportVisitor {
  parent_package : string;
  iv_imports : list string;
  iv_calls : list string
}.

Definition iv_add_import (v : ImportVisitor) (name : string) : ImportVisitor :=
  mkImportVisitor (parent_package v) (iv_imports v ++ [name]) (iv_calls v).

Definition iv_add_call (v : ImportVisitor) (name : string) : ImportVisitor :=
  mkImportVisitor (parent_package v) (iv_imports v) (Py.set_add name (iv_calls v)).

(** The import names one [import a, b.c] statement records. *)
Definition visit_Import (names : list alias) (v : ImportVisitor) : ImportVisitor :=
  fold_left (fun v a => iv_add_import v (alias_name a)) names v.

(** [node.module] when it is present and not empty. *)
Definition module_text (module : option string) : option string :=
  match module with
  | Some m => if Py.truthy m then Some m else None
  | None => None
  end.

(** [base] of [visit_ImportFrom]. *)
Definition import_base (module : option string) (level : nat) : string :=
  match module_text module with
  | Some m => (Py.repeat_char "." level ++ m)%string
  | None => Py.repeat_char "." level
  end.

(** [abs_base] of [visit_ImportFrom]. *)
Definition abs_base (parent_pkg : string) (module : option string) (level : nat)
  : string :=
  let base := import_base module level in
  if Py.startswith base "." then
    let rel_depth := String.length base - String.length (Py.lstrip "." base) in
    let pkg_parts := if Py.truthy parent_pkg then Py.split "." parent_pkg else [] in
    let prefix :=
      if negb (rel_depth =? 0)%nat && (rel_depth <=? List.length pkg_parts)%nat
      then Py.join "." (Py.drop_last rel_depth pkg_parts)
      else parent_pkg in
    (prefix ++ match module_text module with
               | Some m => "." ++ m
               | None => ""
               end)%string
  else base.

(** What one alias of a [from ... import] adds to the import list. *)
Definition import_from_alias (abs : string) (a : alias) : list string :=
  if String.eqb (alias_name a) "*" then
    if Py.truthy abs then [abs] else []
  else
    let fq :=
      (abs ++ (if Py.truthy abs then "." ++ alias_name a else alias_name a))%string in
    [if Py.truthy fq then fq else alias_name a].

Definition visit_ImportFrom (module : option string) (names : list alias)
  (level : nat) (v : ImportVisitor) : ImportVisitor :=
  let abs := abs_base (parent_package v) module level in
  fold_left
    (fun v a => fold_left iv_add_import (import_from_alias abs a) v)
    names v.

(** [ImportVisitor.visit_Call], before its [generic_visit]. *)
Definition iv_call_target (func : expr) (v : ImportVisitor) : ImportVisitor :=
  match func with
  | Attribute (Name receiver) _ => iv_add_call v receiver
  | Name f => iv_add_call v f
  | _ => v
  end.

Fixpoint iv_visit_expr (e : expr) (v : ImportVisitor) : ImportVisitor :=
  match e with
  | Name _ => v
  | Attribute value _ => iv_visit_expr value v
  | Call func args =>
      let v := iv_call_target func v in
      let v := iv_visit_expr func v in
      fold_left (fun v a => iv_visit_expr a v) args v
  | Compare left_ _ comparators =>
      let v := iv_visit_expr left_ v in
      fold_left (fun v a => iv_visit_expr a v) comparators v
  | Constant _ => v
  | OtherExpr children => fold_left (fun v a => iv_visit_expr a v) children v
  end.

Definition iv_visit_exprs (es : list expr) (v : ImportVisitor) : ImportVisitor :=
  fold_left (fun v a => iv_visit_expr a v) es v.

Fixpoint iv_visit (s : stmt) (v : ImportVisitor) : ImportVisitor :=
  match s with
  | FunctionDef _ _ args body decorator_list
  | AsyncFunctionDef _ _ args body decorator_list
  | ClassDef _ _ args body decorator_list =>
      let v := iv_visit_exprs args v in
      let v := fold_left (fun v s => iv_visit s v) body v in
      iv_visit_exprs decorator_list v
  | Import names => visit_Import names v
  | ImportFrom module names level => visit_ImportFrom module names level v
  | If test body orelse =>
      let v := iv_visit_expr test v in
      let v := fold_left (fun v s => iv_visit s v) body v in
      fold_left (fun v s => iv_visit s v) orelse v
  | Expr value => iv_visit_expr value v
  | OtherStmt exprs stmts =>
      let v := iv_visit_exprs exprs v in
      fold_left (fun v s => iv_visit s v) stmts v
  end.

(** [visitor = ImportVisitor(parent_pkg); visitor.visit(tree)]. *)
Definition run_ImportVisitor (parent_pkg : string) (tree : Module_) : ImportVisitor :=
  fold_left (fun v s => iv_visit s v) tree (mkImportVisitor parent_pkg [] []).

(* ================================================================== *)
(** * [CallGraphVisitor] *)

Record CallGraphVisitor : Type := mkCallGraphVisitor {
  cg_calls : Py.dict (list string);
  current_function : option string
}.

(** [self.calls[f].add(target)]. *)
Definition cg_record (calls : Py.dict (list string)) (f target : string)
  : Py.dict (list string) :=
  Py.dd_add calls f target.

(** [CallGraphVisitor.visit_Call], before its [generic_visit]. *)
Definition cg_call_target (func : expr) (v : CallGraphVisitor) : CallGraphVisitor :=
  match current_function v with
  | Some f =>
      if Py.truthy f then
        match func with
        | Name target =>
            mkCallGraphVisitor (cg_record (cg_calls v) f target) (current_function v)
        | Attribute (Name _) method =>
            mkCallGraphVisitor (cg_record (cg_calls v) f method) (current_function v)
        | _ => v
        end
      else v
  | None => v
  end.

Fixpoint cg_visit_expr (e : expr) (v : CallGraphVisitor) : CallGraphVisitor :=
  match e with
  | Name _ => v
  | Attribute value _ => cg_visit_expr value v
  | Call func args =>
      let v := cg_call_target func v in
      let v := cg_visit_expr func v in
      fold_left (fun v a => cg_visit_expr a v) args v
  | Compare left_ _ comparators =>
      let v := cg_visit_expr left_ v in
      fold_left (fun v a => cg_visit_expr a v) comparators v
  | Constant _ => v
  | OtherExpr children => fold_left (fun v a => cg_visit_expr a v) children v
  end.

Definition cg_visit_exprs (es : list expr) (v : CallGraphVisitor) : CallGraphVisitor :=
  fold_left (fun v a => cg_visit_expr a v) es v.

Definition cg_set_current (f : option string) (v : CallGraphVisitor) : CallGraphVisitor :=
  mkCallGraphVisitor (cg_calls v) f.

Fixpoint cg_visit (s : stmt) (v : CallGraphVisitor) : CallGraphVisitor :=
  match s with
  | FunctionDef name _ args body decorator_list
  | AsyncFunctionDef name _ args body decorator_list =>
      let old_function := current_function v in
      let v := cg_set_current (Some name) v in
      let v := cg_visit_exprs args v in
      let v := fold_left (fun v s => cg_visit s v) body v in
      let v := cg_visit_exprs decorator_list v in
      cg_set_current old_function v
  | ClassDef _ _ bases body decorator_list =>
      let v := cg_visit_exprs bases v in
      let v := fold_left (fun v s => cg_visit s v) body v in
      cg_visit_exprs decorator_list v
  | Import _ => v
  | ImportFrom _ _ _ => v
  | If test body orelse =>
      let v := cg_visit_expr test v in
      let v := fold_left (fun v s => cg_visit s v) body v in
      fold_left (fun v s => cg_visit s v) orelse v
  | Expr value => cg_visit_expr value v
  | OtherStmt exprs stmts =>
      let v := cg_visit_exprs exprs v in
      fold_left (fun v s => cg_visit s v) stmts v
  end.

Definition cg_visit_stmts (ss : list stmt) (v : CallGraphVisitor) : CallGraphVisitor :=
  fold_left (fun v s => cg_visit s v) ss v.

(** [call_visitor = CallGraphVisitor(); call_visitor.visit(tree)]. *)
Definition run_CallGraphVisitor (tree : Module_) : CallGraphVisitor :=
  cg_visit_stmts tree (mkCallGraphVisitor [] None).

(* ================================================================== *)
(** * [EntrypointVisitor] *)

Definition route_methods : list string :=
  ["get"; "post"; "put"; "delete"; "patch"; "route"].

(** One decorator makes its function an entry point. *)
Definition decorator_marks (dec : expr) : bool :=
  match dec with
  | Name d => Py.mem d ["app"; "route"]
  | Attribute _ attr => Py.mem attr route_methods
  | Call (Attribute _ attr) _ => Py.mem attr route_methods
  | _ => false
  end.

(** The decorator loop of [visit_FunctionDef]: one [add] per matching
    decorator, all of the same name. *)
Definition ep_decorators (name : string) (decorator_list : list expr)
  (entrypoints : list string) : list string :=
  fold_left
    (fun eps dec => if decorator_marks dec then Py.set_add name eps else eps)
    decorator_list entrypoints.

(** The test of [visit_If]: [__name__] compared by some [==] to some
    constant [__main__]. *)
Definition is_main_guard (test : expr) : bool :=
  match test with
  | Compare (Name n) ops comparators =>
      String.eqb n "__name__" &&
      existsb (fun op => match op with Eq => true | OtherOp => false end) ops &&
      existsb (fun c => match c with
                        | Constant (CStr s) => String.eqb s "__main__"
                        | _ => false
                        end) comparators
  | _ => false
  end.

(** Expressions hold no statement, so the visitor's walk through them
    changes nothing and only statements are followed. *)
Fixpoint ep_visit (s : stmt) (entrypoints : list string) : list string :=
  match s with
  | FunctionDef name _ _ body decorator_list
  | AsyncFunctionDef name _ _ body decorator_list =>
      let eps := ep_decorators name decorator_list entrypoints in
      fold_left (fun eps s => ep_visit s eps) body eps
  | ClassDef _ _ _ body _ => fold_left (fun eps s => ep_visit s eps) body entrypoints
  | Import _ => entrypoints
  | ImportFrom _ _ _ => entrypoints
  | If test body orelse =>
      let eps := if is_main_guard test then Py.set_add "__main__" entrypoints
                 else entrypoints in
      let eps := fold_left (fun eps s => ep_visit s eps) body eps in
      fold_left (fun eps s => ep_visit s eps) orelse eps
  | Expr _ => entrypoints
  | OtherStmt _ stmts => fold_left (fun eps s => ep_visit s eps) stmts entrypoints
  end.

(** [entry_visitor = EntrypointVisitor(); entry_visitor.visit(tree)]. *)
Definition run_EntrypointVisitor (tree : Module_) : list string :=
  fold_left (fun eps s => ep_visit s eps) tree [].

(* ================================================================== *)
(** * Symbols and names *)

(** [extract_symbols]: [(name, kind, lineno)] of the classes and functions
    directly in the module body. *)
Definition extract_symbols (tree : Module_) : list (string * string * nat) :=
  flat_map
    (fun node =>
       match node with
       | ClassDef name lineno _ _ _ => [(name, "class", lineno)]
       | FunctionDef name lineno _ _ _
       | AsyncFunctionDef name lineno _ _ _ => [(name, "function", lineno)]
       | _ => []
       end)
    tree.

(** The fallback set of [is_stdlib]. *)
Definition STDLIB_FALLBACK : list string :=
  ["sys"; "os"; "re"; "json"; "math"; "time"; "typing"; "pathlib"; "logging";
   "itertools"; "functools"; "collections"; "asyncio"; "dataclasses"; "enum";
   "datetime"; "random"; "abc"; "copy"; "decimal"; "fractions"; "statistics";
   "threading"; "multiprocessing"; "subprocess"; "urllib"; "http"; "socket";
   "ssl"; "email"; "html"; "xml"; "sqlite3"; "csv"; "pickle"; "traceback";
   "argparse"; "configparser"; "contextlib"; "io"; "struct"; "weakref"].

(** [is_stdlib] when the interpreter's introspection raises. *)
Definition is_stdlib_fallback (module_name : string) : bool :=
  Py.mem module_name STDLIB_FALLBACK.

Definition get_top_module (full_name : string) : string :=
  if Py.truthy full_name then Py.first (Py.split "." full_name) else "".

Section ModuleKey.

Variable cwd : list string.

Definition module_key_from_path (root filepath : string) : string :=
  let rel_path := Py.rstrip "/" (posixpath.relpath cwd filepath root) in
  let parts := Py.split "/" rel_path in
  let parts :=
    if String.eqb (Py.last parts) "__init__.py" then removelast parts
    else removelast parts ++ [posixpath.splitext_root (Py.last parts)] in
  Py.join "." (filter (fun p => Py.truthy p && negb (String.eqb p ".")) parts).

End ModuleKey.

(* ================================================================== *)
(** * [DependencyGraphBuilder] *)

Definition edge_eqb (a b : GraphEdge) : bool :=
  let '(s1, t1, ty1) := a in
  let '(s2, t2, ty2) := b in
  String.eqb s1 s2 && String.eqb t1 t2 && String.eqb ty1 ty2.

(** [self.edges.add(e)]. *)
Definition edges_add (e : GraphEdge) (edges : list GraphEdge) : list GraphEdge :=
  if existsb (edge_eqb e) edges then edges else edges ++ [e].

(** Tuple order of Python on [(source, target, type)]. *)
Definition edge_compare (a b : GraphEdge) : comparison :=
  let '(s1, t1, ty1) := a in
  let '(s2, t2, ty2) := b in
  match String.compare s1 s2 with
  | Datatypes.Eq =>
      match String.compare t1 t2 with
      | Datatypes.Eq => String.compare ty1 ty2
      | c => c
      end
  | c => c
  end.

Fixpoint insert_edge (e : GraphEdge) (l : list GraphEdge) : list GraphEdge :=
  match l with
  | [] => [e]
  | y :: rest =>
      match edge_compare e y with
      | Gt => y :: insert_edge e rest
      | _ => e :: l
      end
  end.

(** [sorted(self.edges)]. *)
Definition sorted_edges (edges : list GraphEdge) : list GraphEdge :=
  fold_left (fun acc e => insert_edge e acc) edges [].

Record Builder : Type := mkBuilder {
  nodes : list GraphNode;
  edges : list GraphEdge;
  module_map : Py.dict string;
  external_deps : list string;
  module_details : Py.dict ModuleDetails
}.

(** The directory names that are taken as roots when present. *)
Definition root_names : list string := ["src"; "python"; "lib"; "pkg"; "app"].

(** [self.roots] of [_detect_project_roots]. *)
Definition detect_roots (files : Py.dict string) : list string :=
  let dirs := Py.sorted_set (map posixpath.dirname (Py.keys files)) in
  let candidates :=
    fold_left
      (fun candidates d =>
         let top := if Py.contains d "/" then Py.first (Py.split "/" d) else d in
         if Py.mem top root_names then Py.set_add top candidates else candidates)
      dirs [] in
  let candidates :=
    match candidates with
    | [] =>
        match
          fold_left
            (fun c p =>
               if Py.contains p "/" then Py.set_add (Py.first (Py.split "/" p)) c
               else c)
            (Py.keys files) []
        with
        | [] => [""]
        | c => c
        end
    | _ => candidates
    end in
  Py.sorted_set candidates.

(** [_resolve_import]: exact, fuzzy suffix, basename, fuzzy substring, top
    level, in this order; the first key in table order wins. *)
Definition _resolve_import (module_map : Py.dict string) (import_name : string)
  : option string :=
  let keys := Py.keys module_map in
  if Py.dict_mem module_map import_name then Some import_name
  else
    match find (fun key => Py.endswith key ("." ++ import_name)%string) keys with
    | Some key => Some key
    | None =>
        let import_basename := Py.last (Py.split "." import_name) in
        match find (fun key => String.eqb (Py.last (Py.split "." key)) import_basename)
                keys with
        | Some key => Some key
        | None =>
            match find (fun key => Py.contains key import_name) keys with
            | Some key => Some key
            | None =>
                let top := get_top_module import_name in
                if Py.dict_mem module_map top then Some top else None
            end
        end
    end.

(** [target and target != module_id]. *)
Definition usable_target (target : option string) (module_id : string) : option string :=
  match target with
  | Some t => if Py.truthy t && negb (String.eqb t module_id) then Some t else None
  | None => None
  end.

(** The inversion loop of [_analyze_modules]. *)
Definition invert_calls (calls : Py.dict (list string)) : Py.dict (list string) :=
  fold_left
    (fun called_by '(f, targets) =>
       fold_left (fun called_by t => Py.dd_append called_by t f) targets called_by)
    calls [].

(** [set(c for targets in calls.values() for c in targets)]. *)
Definition all_called_of (calls : Py.dict (list string)) : list string :=
  fold_left (fun acc c => Py.set_add c acc) (List.concat (Py.values calls)) [].

Section Build.

Variable cwd : list string.
Variable ast_parse : string -> option Module_.
Variable RADON_AVAILABLE : bool.
Variable cc_visit : string -> option (list Block).
Variable is_stdlib : string -> bool.

Variable files : Py.dict string.
Variable symbol_level : bool.

(** The second loop of [_detect_project_roots]. *)
Definition build_module_map (roots : list string) : Py.dict string :=
  fold_left
    (fun module_map filepath =>
       match find (fun root => Py.startswith filepath root) roots with
       | Some root =>
           Py.dict_set module_map (module_key_from_path cwd root filepath) filepath
       | None => module_map
       end)
    (Py.keys files) [].

Definition _detect_project_roots (b : Builder) : Builder :=
  mkBuilder (nodes b) (edges b) (build_module_map (detect_roots files))
    (external_deps b) (module_details b).

(** The [FunctionDetails] of the top-level functions, before and after
    [called_by] is filled in. *)
Definition make_functions (symbols : list (string * string * nat))
  (symbol_complexities : Py.dict nat) (calls : Py.dict (list string))
  (entrypoints : list string) : list FunctionDetails :=
  flat_map
    (fun '(sym_name, sym_kind, lineno) =>
       if String.eqb sym_kind "function" then
         [mkFunctionDetails sym_name lineno
            (Py.dict_get_default symbol_complexities sym_name 0)
            (Py.dict_get_default calls sym_name [])
            []
            (Py.mem sym_name entrypoints)]
       else [])
    symbols.

Definition fill_called_by (called_by : Py.dict (list string))
  (functions : list FunctionDetails) : list FunctionDetails :=
  map (fun func =>
         mkFunctionDetails (fd_name func) (fd_lineno func) (fd_complexity func)
           (fd_calls func)
           (Py.dict_get_default called_by (fd_name func) [])
           (fd_is_entrypoint func))
    functions.

Definition dead_functions_of (functions : list FunctionDetails)
  (all_called : list string) : list string :=
  map fd_name
    (filter (fun f => negb (Py.mem (fd_name f) all_called) && negb (fd_is_entrypoint f))
       functions).

(** The import loop: an edge for a resolved import, an external package
    for an unresolved one outside the standard library. *)
Definition import_edges (module_id : string) (imports : list string) (b : Builder)
  : Builder :=
  fold_left
    (fun b imp =>
       let target := _resolve_import (module_map b) imp in
       let top_level := get_top_module imp in
       match usable_target target module_id with
       | Some t =>
           mkBuilder (nodes b) (edges_add (module_id, t, "imports") (edges b))
             (module_map b) (external_deps b) (module_details b)
       | None =>
           if negb (is_stdlib top_level) then
             mkBuilder (nodes b) (edges b) (module_map b)
               (Py.set_add top_level (external_deps b)) (module_details b)
           else b
       end)
    imports b.

(** The inner loop of the call promotion, with its [break]. *)
Fixpoint promote_call (module_id call_alias : string) (imports : list string)
  (mm : Py.dict string) (es : list GraphEdge) : list GraphEdge :=
  match imports with
  | [] => es
  | imp :: rest =>
      if String.eqb call_alias (Py.last (Py.split "." imp)) then
        match usable_target (_resolve_import mm imp) module_id with
        | Some t => edges_add (module_id, t, "calls") es
        | None => promote_call module_id call_alias rest mm es
        end
      else promote_call module_id call_alias rest mm es
  end.

Definition call_edges (module_id : string) (calls imports : list string) (b : Builder)
  : Builder :=
  mkBuilder (nodes b)
    (fold_left
       (fun es call_alias => promote_call module_id call_alias imports (module_map b) es)
       calls (edges b))
    (module_map b) (external_deps b) (module_details b).

(** The node of one top-level symbol. *)
Definition symbol_node (module_id filepath : string) (symbol_complexities : Py.dict nat)
  (sym : string * string * nat) : GraphNode :=
  let '(sym_name, sym_kind, lineno) := sym in
  let sym_id := (module_id ++ "." ++ sym_name)%string in
  let sym_complexity_value := Py.dict_get_default symbol_complexities sym_name 0 in
  let sym_complexity :=
    if (0 <? sym_complexity_value)%nat then
      Some (mkComplexityMetrics sym_complexity_value 1
              (if (10 <? sym_complexity_value)%nat then 1 else 0))
    else None in
  mkGraphNode sym_id sym_kind filepath (get_top_module module_id)
    (StatsOf (mkNodeStats 0 0 0 0 sym_complexity)) (Some module_id).

(** The symbol loop, entered when [self.symbol_level and blocks]. *)
Definition symbol_nodes (module_id filepath : string)
  (symbols : list (string * string * nat)) (symbol_complexities : Py.dict nat)
  (b : Builder) : Builder :=
  fold_left
    (fun b sym =>
       let sym_node := symbol_node module_id filepath symbol_complexities sym in
       mkBuilder (nodes b ++ [sym_node])
         (edges_add (module_id, id sym_node, "defines") (edges b))
         (module_map b) (external_deps b) (module_details b))
    symbols b.

(** What [_analyze_modules] computes from the tree of one module before
    it touches the graph: the statistics and the [module_details] entry. *)
Definition module_stats (code : string) (tree : Module_) (parent_pkg : string)
  (complexity : ComplexityMetrics) : NodeStats :=
  let symbols := extract_symbols tree in
  mkNodeStats (Py.count "010" code + 1)
    (List.length (filter (fun '(_, k, _) => String.eqb k "class") symbols))
    (List.length (filter (fun '(_, k, _) => String.eqb k "function") symbols))
    (List.length (iv_imports (run_ImportVisitor parent_pkg tree)))
    (Some complexity).

Definition make_details (module_id filepath code : string) (tree : Module_)
  (complexity : ComplexityMetrics) (blocks : list Block) : ModuleDetails :=
  let parent_pkg := Py.join "." (removelast (Py.split "." module_id)) in
  let visitor := run_ImportVisitor parent_pkg tree in
  let call_visitor := run_CallGraphVisitor tree in
  let entrypoints := run_EntrypointVisitor tree in
  let symbols := extract_symbols tree in
  let symbol_complexities := map_symbol_complexities blocks in
  let functions :=
    make_functions symbols symbol_complexities (cg_calls call_visitor) entrypoints in
  let called_by := invert_calls (cg_calls call_visitor) in
  let functions := fill_called_by called_by functions in
  let all_called := all_called_of (cg_calls call_visitor) in
  let dead := dead_functions_of functions all_called in
  mkModuleDetails filepath (iv_imports visitor) (List.length symbols)
    (module_stats code tree parent_pkg complexity)
    functions entrypoints (cg_calls call_visitor) dead.

(** The body of the loop of [_analyze_modules] once [ast.parse] has
    returned [tree] and the metrics are known. *)
Definition analyze_parsed (b : Builder) (module_id filepath code : string)
  (tree : Module_) (metrics : ComplexityMetrics * list Block) : Builder :=
  let '(complexity, blocks) := metrics in
  let parent_pkg := Py.join "." (removelast (Py.split "." module_id)) in
  let visitor := run_ImportVisitor parent_pkg tree in
  let symbols := extract_symbols tree in
  let symbol_complexities := map_symbol_complexities blocks in
  let node :=
    mkGraphNode module_id "module" filepath (get_top_module module_id)
      (StatsOf (module_stats code tree parent_pkg complexity)) None in
  let details := make_details module_id filepath code tree complexity blocks in
  let b :=
    mkBuilder (nodes b ++ [node]) (edges b) (module_map b) (external_deps b)
      (Py.dict_set (module_details b) module_id details) in
  let b := import_edges module_id (iv_imports visitor) b in
  let b := call_edges module_id (iv_calls visitor) (iv_imports visitor) b in
  if symbol_level && negb (match blocks with [] => true | _ => false end)
  then symbol_nodes module_id filepath symbols symbol_complexities b
  else b.

(** One turn of the loop of [_analyze_modules]: a file that does not
    parse is skipped by [continue]. *)
Definition analyze_module (b : Builder) (item : string * string) : Builder :=
  let '(module_id, filepath) := item in
  let code := Py.dict_get_default files filepath "" in
  match ast_parse code with
  | None => b
  | Some tree =>
      analyze_parsed b module_id filepath code tree
        (calculate_module_complexity RADON_AVAILABLE cc_visit code)
  end.

Definition _analyze_modules (b : Builder) : Builder :=
  fold_left analyze_module (module_map b) b.

(** The edge loop of [_add_external_nodes] for one package. *)
Definition external_edges (ext_pkg : string) (details : Py.dict ModuleDetails)
  (es : list GraphEdge) : list GraphEdge :=
  fold_left
    (fun es '(module_id, d) =>
       if existsb (fun imp => String.eqb (get_top_module imp) ext_pkg) (md_imports d)
       then edges_add (module_id, ("external:" ++ ext_pkg)%string, "external") es
       else es)
    details es.

Definition _add_external_nodes (b : Builder) : Builder :=
  fold_left
    (fun b ext_pkg =>
       let ext_node :=
         mkGraphNode ("external:" ++ ext_pkg)%string "external"
           ("external/" ++ ext_pkg)%string "external" ExternalPackage None in
       mkBuilder (nodes b ++ [ext_node])
         (external_edges ext_pkg (module_details b) (edges b))
         (module_map b) (external_deps b) (module_details b))
    (Py.sorted_set (external_deps b)) b.

End Build.

(* ================================================================== *)
(** * [_calculate_layout]: components and depths *)

Module Layout.

(** Dictionaries keyed by component numbers. *)
Fixpoint nget {V} (d : list (nat * V)) (k : nat) : option V :=
  match d with
  | [] => None
  | (k', v) :: rest => if Nat.eqb k k' then Some v else nget rest k
  end.

Fixpoint nset {V} (d : list (nat * V)) (k : nat) (v : V) : list (nat * V) :=
  match d with
  | [] => [(k, v)]
  | (k', v') :: rest =>
      if Nat.eqb k k' then (k, v) :: rest else (k', v') :: nset rest k v
  end.

Definition nget_default {V} (d : list (nat * V)) (k : nat) (default : V) : V :=
  match nget d k with Some v => v | None => default end.

Definition nmem (x : nat) (l : list nat) : bool := existsb (Nat.eqb x) l.

Definition nset_add (x : nat) (l : list nat) : list nat :=
  if nmem x l then l else l ++ [x].

(** [graph[node]] for reading. *)
Definition adj (graph : Py.dict (list string)) (node : string) : list string :=
  Py.dict_get_default graph node [].

Definition layout_kind (k : string) : bool := Py.mem k ["module"; "external"].

Definition layout_edge_type (t : string) : bool :=
  Py.mem t ["imports"; "calls"; "external"].

(** [all_nodes]. *)
Definition all_nodes_of (nodes : list GraphNode) : list string :=
  fold_left
    (fun acc n => if layout_kind (kind n) then Py.set_add (id n) acc else acc)
    nodes [].

(** [graph] and [reverse_graph]. *)
Definition build_graphs (all_nodes : list string) (edges : list GraphEdge)
  : Py.dict (list string) * Py.dict (list string) :=
  fold_left
    (fun '(graph, reverse_graph) '(src, dst, edge_type) =>
       if layout_edge_type edge_type && Py.mem src all_nodes && Py.mem dst all_nodes
       then (Py.dd_add graph src dst, Py.dd_add reverse_graph dst src)
       else (graph, reverse_graph))
    edges ([], []).

(** [dfs1]; the state is [(visited, order)].  The recursion of the model
    is bounded by [fuel]; [None] means the bound was reached.  Every nested
    call marks a node that was not visited, so the nesting never exceeds
    the number of nodes, which is the bound [first_pass] gives.  The
    recursion limit of the interpreter is the bound of
    [first_pass_within]. *)
Fixpoint dfs1 (fuel : nat) (graph : Py.dict (list string)) (node : string)
  (st : list string * list string) : option (list string * list string) :=
  match fuel with
  | O => None
  | S fuel' =>
      let st := (Py.set_add node (fst st), snd st) in
      match
        fold_left
          (fun ost neighbor =>
             match ost with
             | Some st =>
                 if Py.mem neighbor (fst st) then Some st
                 else dfs1 fuel' graph neighbor st
             | None => None
             end)
          (adj graph node) (Some st)
      with
      | Some st => Some (fst st, snd st ++ [node])
      | None => None
      end
  end.

(** The first pass: [order]. *)
Definition first_pass (graph : Py.dict (list string)) (all_nodes : list string)
  : option (list string) :=
  option_map snd
    (fold_left
       (fun ost node =>
          match ost with
          | Some st =>
              if Py.mem node (fst st) then Some st
              else dfs1 (S (List.length all_nodes)) graph node st
          | None => None
          end)
       all_nodes (Some ([], []))).

(** [dfs2]; the state is [(visited, component)]. *)
Fixpoint dfs2 (fuel : nat) (reverse_graph : Py.dict (list string)) (node : string)
  (cid : nat) (st : list string * Py.dict nat) : option (list string * Py.dict nat) :=
  match fuel with
  | O => None
  | S fuel' =>
      let st := (Py.set_add node (fst st), Py.dict_set (snd st) node cid) in
      fold_left
        (fun ost neighbor =>
           match ost with
           | Some st =>
               if Py.mem neighbor (fst st) then Some st
               else dfs2 fuel' reverse_graph neighbor cid st
           | None => None
           end)
        (adj reverse_graph node) (Some st)
  end.

(** The second pass: [(component, comp_id)]. *)
Definition second_pass (reverse_graph : Py.dict (list string))
  (all_nodes order : list string) : option (Py.dict nat * nat) :=
  option_map (fun '(_, component, comp_id) => (component, comp_id))
    (fold_left
       (fun ost node =>
          match ost with
          | Some (visited, component, comp_id) =>
              if Py.mem node visited then Some (visited, component, comp_id)
              else
                match dfs2 (S (List.length all_nodes)) reverse_graph node comp_id
                        (visited, component) with
                | Some (visited, component) => Some (visited, component, S comp_id)
                | None => None
                end
          | None => None
          end)
       (rev order) (Some ([], [], 0))).

(** [comp_graph]: every edge of [self.edges], whatever its type, whose two
    ends have a component. *)
Definition build_comp_graph (component : Py.dict nat) (edges : list GraphEdge)
  : list (nat * list nat) :=
  fold_left
    (fun comp_graph '(src, dst, _) =>
       match Py.dict_get component src, Py.dict_get component dst with
       | Some cs, Some cd =>
           if Nat.eqb cs cd then comp_graph
           else nset comp_graph cs (nset_add cd (nget_default comp_graph cs []))
       | _, _ => comp_graph
       end)
    edges [].

Definition build_in_degree (comp_graph : list (nat * list nat)) : list (nat * Z) :=
  fold_left
    (fun in_degree '(_, dsts) =>
       fold_left
         (fun in_degree dst => nset in_degree dst (nget_default in_degree dst 0 + 1)%Z)
         dsts in_degree)
    comp_graph [].

(** The body of the [while queue] loop for one popped component. *)
Definition relax (comp_graph : list (nat * list nat)) (c : nat)
  (st : list (nat * nat) * list (nat * Z) * list nat)
  : list (nat * nat) * list (nat * Z) * list nat :=
  fold_left
    (fun '(comp_depth, in_degree, queue) neighbor =>
       let comp_depth :=
         nset comp_depth neighbor
           (Nat.max (nget_default comp_depth neighbor 0)
                    (nget_default comp_depth c 0 + 1)) in
       let in_degree :=
         nset in_degree neighbor (nget_default in_degree neighbor 0 - 1)%Z in
       if (nget_default in_degree neighbor 0 =? 0)%Z
       then (comp_depth, in_degree, queue ++ [neighbor])
       else (comp_depth, in_degree, queue))
    (nget_default comp_graph c []) st.

(** The [while queue] loop, bounded by [fuel]. *)
Fixpoint kahn (fuel : nat) (comp_graph : list (nat * list nat))
  (st : list (nat * nat) * list (nat * Z) * list nat) : option (list (nat * nat)) :=
  match fuel with
  | O => None
  | S fuel' =>
      match st with
      | (comp_depth, _, []) => Some comp_depth
      | (comp_depth, in_degree, c :: queue) =>
          kahn fuel' comp_graph (relax comp_graph c (comp_depth, in_degree, queue))
      end
  end.

(** The positive part of the in-degrees, summed: a component enters the
    queue only when its in-degree steps from 1 to 0, so the queue length
    plus this sum goes down with every turn of the loop. *)
Definition pending (in_degree : list (nat * Z)) : nat :=
  fold_right (fun '(_, v) acc => Z.to_nat v + acc) 0 in_degree.

Definition comp_depths (comp_graph : list (nat * list nat)) (comp_id : nat)
  : option (list (nat * nat)) :=
  let comp_depth := map (fun i => (i, 0)) (seq 0 comp_id) in
  let in_degree := build_in_degree comp_graph in
  let queue :=
    filter (fun c => (nget_default in_degree c 0 =? 0)%Z) (seq 0 comp_id) in
  kahn (S (List.length queue + pending in_degree)) comp_graph
    (comp_depth, in_degree, queue).

(** The loop that fills [self.layout_depth]. *)
Definition assign_depths (nodes : list GraphNode) (component : Py.dict nat)
  (comp_depth : list (nat * nat)) : Py.dict nat :=
  let depth_of node_id :=
    nget_default comp_depth (Py.dict_get_default component node_id 0) 0 in
  fold_left
    (fun layout_depth node =>
       if layout_kind (kind node) then
         Py.dict_set layout_depth (id node) (depth_of (id node))
       else
         match parent node with
         | Some p =>
             if Py.truthy p then Py.dict_set layout_depth (id node) (depth_of p)
             else layout_depth
         | None => layout_depth
         end)
    nodes [].

(** The depths, given the order in which the sets [all_nodes] and
    [self.edges] are iterated. *)
Definition layout_depths (all_nodes : list string) (edges : list GraphEdge)
  (nodes : list GraphNode) : option (Py.dict nat) :=
  let '(graph, reverse_graph) := build_graphs all_nodes edges in
  match first_pass graph all_nodes with
  | None => None
  | Some order =>
      match second_pass reverse_graph all_nodes order with
      | None => None
      | Some (component, comp_id) =>
          let comp_graph := build_comp_graph component edges in
          option_map (assign_depths nodes component) (comp_depths comp_graph comp_id)
      end
  end.

(** [self.layout_depth] after [_calculate_layout]: empty when there is no
    edge at all. *)
Definition _calculate_layout (nodes : list GraphNode) (edges : list GraphEdge)
  : option (Py.dict nat) :=
  match edges with
  | [] => Some []
  | _ => layout_depths (all_nodes_of nodes) edges nodes
  end.

End Layout.

(* ================================================================== *)
(** * [build] *)

Record Artifact : Type := mkArtifact {
  art_nodes : list GraphNode;
  art_edges : list GraphEdge;
  art_module_details : Py.dict ModuleDetails;
  art_file_contents : Py.dict string;
  art_layout_depth : option (Py.dict nat)
}.

Section Run.

Variable cwd : list string.
Variable ast_parse : string -> option Module_.
Variable RADON_AVAILABLE : bool.
Variable cc_visit : string -> option (list Block).
Variable is_stdlib : string -> bool.

(** The builder after [_detect_project_roots], [_analyze_modules] and
    [_add_external_nodes]. *)
Definition assemble (files : Py.dict string) (symbol_level : bool) : Builder :=
  let b := mkBuilder [] [] [] [] [] in
  let b := _detect_project_roots cwd files b in
  let b := _analyze_modules ast_parse RADON_AVAILABLE cc_visit is_stdlib files
             symbol_level b in
  _add_external_nodes b.

Definition build (files : Py.dict string) (symbol_level : bool) : Artifact :=
  let b := assemble files symbol_level in
  mkArtifact (nodes b) (sorted_edges (edges b)) (module_details b) files
    (Layout._calculate_layout (nodes b) (edges b)).

End Run.

(* ================================================================== *)
(** * Concrete collaborators for closed examples *)

(** A parser given by a finite table from source text to tree; a text
    that is not in the table is a syntax error. *)
Definition parse_table (table : Py.dict (option Module_)) (code : string)
  : option Module_ :=
  match Py.dict_get table code with
  | Some r => r
  | None => None
  end.

(** The metric provider when radon is not installed. *)
Definition no_radon : string -> option (list Block) := fun _ => None.

(** A working directory for the examples. *)
Definition srv : list string := ["srv"].


(* ================================================================== *)
(** * Predicates on the builder *)

(** A step that leaves the tables alone and only adds [imports] and [calls]
    edges from [mid] to other modules of the table. *)
Definition adds_edges_from (mid : string) (b b' : Builder) : Prop :=
  nodes b' = nodes b /\
  module_map b' = module_map b /\
  module_details b' = module_details b /\
  (forall e, In e (edges b) -> In e (edges b')) /\
  (forall e, In e (edges b') ->
     In e (edges b) \/
     exists t ty, e = (mid, t, ty) /\ (ty = "imports" \/ ty = "calls") /\
                  In t (Py.keys (module_map b)) /\ t <> mid).

Section Provenance.

Variable ast_parse : string -> option Module_.
Variable RADON_AVAILABLE : bool.
Variable cc_visit : string -> option (list Block).
Variable files : Py.dict string.

(** [self.files[filepath]]. *)
Definition code_of (filepath : string) : string :=
  Py.dict_get_default files filepath "".

Definition metrics_of (filepath : string) : ComplexityMetrics * list Block :=
  calculate_module_complexity RADON_AVAILABLE cc_visit (code_of filepath).

(** [module_id] is in the module table for [filepath], whose text parses
    to [tree]. *)
Definition analysed (mm : Py.dict string) (module_id filepath : string)
  (tree : Module_) : Prop :=
  In (module_id, filepath) mm /\ ast_parse (code_of filepath) = Some tree.

(** Everything in the builder comes from an analysed module of the table
    [mm]: module and symbol nodes, [module_details] entries (which are
    what [make_details] computes) and the source of every edge. *)
Definition provenance (mm : Py.dict string) (b : Builder) : Prop :=
  module_map b = mm /\
  (forall n, In n (nodes b) ->
     kind n = "external" \/
     exists m fp tree,
       analysed mm m fp tree /\ path n = fp /\
       ((kind n = "module" /\ id n = m) \/
        (kind n <> "module" /\ kind n <> "external" /\ parent n = Some m))) /\
  (forall k d, In (k, d) (module_details b) ->
     exists fp tree,
       analysed mm k fp tree /\
       d = make_details k fp (code_of fp) tree
             (fst (metrics_of fp)) (snd (metrics_of fp))) /\
  (forall s t ty, In (s, t, ty) (edges b) -> exists fp tree, analysed mm s fp tree).

End Provenance.

(* ================================================================== *)
(** * Example inputs *)

(** [pass]. *)
Definition Pass : stmt := OtherStmt [] [].

(** Two files: [a.py] imports [b]; [b.py] has a syntax error on line 1. *)
Definition broken_files : Py.dict string :=
  [("a.py", "import b"); ("b.py", "def (")].

Definition broken_parse : string -> option Module_ :=
  parse_table [("import b", Some [Import [Alias "b" None]])].

(** One file with one top-level function. *)
Definition one_function_files : Py.dict string := [("m.py", "def f(): pass")].

Definition one_function_parse : string -> option Module_ :=
  parse_table [("def f(): pass", Some [FunctionDef "f" 1 [] [Pass] []])].

(** radon's answer on that file: one block for [f]. *)
Definition one_function_cc_visit (code : string) : option (list Block) :=
  if String.eqb code "def f(): pass" then Some [mkBlock "f" None 1] else Some [].

(** A source tree with a [src] directory and a script beside it. *)
Definition src_and_setup_files : Py.dict string :=
  [("src/a.py", ""); ("setup.py", "")].

Definition empty_parse : string -> option Module_ :=
  parse_table [("", Some [])].

(* ================================================================== *)
(** * Relative imports as the specification words them *)

(** The resolved base: split [parent_pkg] into segments; with [k] at most
    their number, the first [len - k] of them joined by dots, otherwise
    [parent_pkg] itself. *)
Definition spec_resolved_base (parent_pkg : string) (k : nat) : string :=
  let segments := Py.split "." parent_pkg in
  if (k <=? List.length segments)%nat
  then Py.join "." (firstn (List.length segments - k) segments)
  else parent_pkg.

(** [M], when present, is appended with a dot. *)
Definition spec_import_base (parent_pkg : string) (module : option string) (k : nat)
  : string :=
  match module with
  | Some m => (spec_resolved_base parent_pkg k ++ "." ++ m)%string
  | None => spec_resolved_base parent_pkg k
  end.

(** What one alias records: the base for [*] when it is not empty,
    otherwise [base.alias], or the alias alone under an empty base. *)
Definition spec_alias_records (base : string) (a : alias) : list string :=
  if String.eqb (alias_name a) "*" then
    if String.eqb base "" then [] else [base]
  else
    if String.eqb base "" then [alias_name a]
    else [(base ++ "." ++ alias_name a)%string].

(** A visitor inside the package [pkg.sub]. *)
Definition visitor_in_pkg_sub : ImportVisitor := mkImportVisitor "pkg.sub" ["os"] [].

(* ================================================================== *)
(** * Function definitions inside a tree *)

(** The statement holds a function definition, at any depth. *)
Fixpoint has_def (s : stmt) : bool :=
  match s with
  | FunctionDef _ _ _ _ _ | AsyncFunctionDef _ _ _ _ _ => true
  | ClassDef _ _ _ body _ => existsb has_def body
  | If _ body orelse => existsb has_def body || existsb has_def orelse
  | OtherStmt _ stmts => existsb has_def stmts
  | Import _ | ImportFrom _ _ _ | Expr _ => false
  end.

(** The names of the function definitions of a statement, at any depth:
    top-level functions, methods and nested functions alike. *)
Fixpoint def_names (s : stmt) : list string :=
  match s with
  | FunctionDef name _ _ body _ | AsyncFunctionDef name _ _ body _ =>
      name :: flat_map def_names body
  | ClassDef _ _ _ body _ => flat_map def_names body
  | If _ body orelse => flat_map def_names body ++ flat_map def_names orelse
  | OtherStmt _ stmts => flat_map def_names stmts
  | Import _ | ImportFrom _ _ _ | Expr _ => []
  end.

(** The names of the top-level functions of a module. *)
Definition top_level_functions (tree : Module_) : list string :=
  flat_map
    (fun node =>
       match node with
       | FunctionDef name _ _ _ _ | AsyncFunctionDef name _ _ _ _ => [name]
       | _ => []
       end)
    tree.

(** Scenario S3: [used] and [dead] are defined, [used()] is called at
    module top level. *)
Definition s3_source : string :=
  "def used(): pass
def dead(): pass
used()".

Definition s3_tree : Module_ :=
  [FunctionDef "used" 1 [] [Pass] [];
   FunctionDef "dead" 2 [] [Pass] [];
   Expr (Call (Name "used") [])].

Definition s3_files : Py.dict string := [("m.py", s3_source)].

Definition s3_parse : string -> option Module_ :=
  parse_table [(s3_source, Some s3_tree)].

(** A method that calls a top-level function. *)
Definition method_source : string :=
  "class C:
    def meth(self):
        helper()
def helper(): pass".

Definition method_tree : Module_ :=
  [ClassDef "C" 1 []
     [FunctionDef "meth" 2 [] [Expr (Call (Name "helper") [])] []] [];
   FunctionDef "helper" 4 [] [Pass] []].

Definition method_files : Py.dict string := [("m.py", method_source)].

Definition method_parse : string -> option Module_ :=
  parse_table [(method_source, Some method_tree)].

(** A visit from [v1] to [v2] restores the current function and records
    calls only under [g] when [g] is the current function or one of the
    names [extra]. *)
Definition cg_step (g : string) (extra : list string) (v1 v2 : CallGraphVisitor) : Prop :=
  current_function v2 = current_function v1 /\
  (In g (Py.keys (cg_calls v2)) ->
   In g (Py.keys (cg_calls v1)) \/ current_function v1 = Some g \/ In g extra).

(* ================================================================== *)
(** * Paths and the working directory *)

(** A component that [normpath] keeps. *)
Definition kept_component (c : string) : bool :=
  negb (String.eqb c "") && negb (String.eqb c ".") && negb (String.eqb c "..").

(** [os.getcwd()] is absolute and normalised. *)
Definition proper_cwd (cwd : list string) : bool := forallb kept_component cwd.

(** A relative path without [..], as the names in an archive are. *)
Definition plain (p : string) : bool :=
  negb (Py.startswith p "/") &&
  forallb (fun c => negb (String.eqb c "..")) (Py.split "/" p).

(** Scenario S2: one file that imports numpy under an alias and calls
    through the alias. *)
Definition s2_source : string :=
  "import numpy as np
np.array([])".

Definition s2_tree : Module_ :=
  [Import [Alias "numpy" (Some "np")];
   Expr (Call (Attribute (Name "np") "array") [OtherExpr []])].

Definition s2_files : Py.dict string := [("m.py", s2_source)].

Definition s2_parse : string -> option Module_ := parse_table [(s2_source, Some s2_tree)].

(** Scenario S1: a package with two modules, one importing the other. *)
Definition s1_import_source : string := "from . import b".

Definition s1_import_tree : Module_ := [ImportFrom None [Alias "b" None] 1].

Definition s1_files : Py.dict string :=
  [("pkg/__init__.py", ""); ("pkg/a.py", s1_import_source); ("pkg/b.py", "")].

Definition s1_parse : string -> option Module_ :=
  parse_table [("", Some []); (s1_import_source, Some s1_import_tree)].

(** The identity and kind of the nodes, in emission order. *)
Definition node_ids (art : Artifact) : list (string * string) :=
  map (fun n => (id n, kind n)) (art_nodes art).

(** A package [a] whose [__init__] defines a function [b], beside a
    submodule [a/b]: the symbol id [a.b] is also a module id. *)
Definition clash_files : Py.dict string :=
  [("src/a/__init__.py", "def b(): pass"); ("src/a/b.py", "")].

Definition clash_parse : string -> option Module_ :=
  parse_table [("def b(): pass", Some [FunctionDef "b" 1 [] [Pass] []]); ("", Some [])].

Definition clash_cc_visit (code : string) : option (list Block) :=
  if String.eqb code "def b(): pass" then Some [mkBlock "b" None 1] else Some [].

(** Scenario S5: [a -> b -> c -> a] and [d -> a]. *)
Definition s5_files : Py.dict string :=
  [("a.py", "import b"); ("b.py", "import c"); ("c.py", "import a");
   ("d.py", "import a")].

Definition s5_parse : string -> option Module_ :=
  parse_table
    [("import b", Some [Import [Alias "b" None]]);
     ("import c", Some [Import [Alias "c" None]]);
     ("import a", Some [Import [Alias "a" None]])].

(* ================================================================== *)
(** * Measures for the bounded loops of the layout *)

(** How many of the nodes [all_nodes] are not in [visited]. *)
Definition unvisited (all_nodes visited : list string) : nat :=
  List.length (filter (fun x => negb (Py.mem x visited)) all_nodes).

(** Every adjacency list of [graph] stays inside [all_nodes]. *)
Definition closed_in (all_nodes : list string) (graph : Py.dict (list string)) : Prop :=
  forall k l x, In (k, l) graph -> In x l -> In x all_nodes.

(* ================================================================== *)
(** * Induction over trees *)

(** Induction over trees, with the hypothesis on every child of a list. *)
Section TreeInduction.

Variable P : expr -> Prop.
Hypothesis HName : forall x, P (Name x).
Hypothesis HAttribute : forall value attr, P value -> P (Attribute value attr).
Hypothesis HCall : forall func args, P func -> Forall P args -> P (Call func args).
Hypothesis HCompare : forall l ops comparators,
  P l -> Forall P comparators -> P (Compare l ops comparators).
Hypothesis HConstant : forall c, P (Constant c).
Hypothesis HOther : forall children, Forall P children -> P (OtherExpr children).

Fixpoint expr_nested_ind (e : expr) : P e :=
  let all :=
    fix all (l : list expr) : Forall P l :=
      match l with
      | [] => Forall_nil P
      | x :: l' => Forall_cons x (expr_nested_ind x) (all l')
      end in
  match e with
  | Name x => HName x
  | Attribute value attr => HAttribute attr (expr_nested_ind value)
  | Call func args => HCall (expr_nested_ind func) (all args)
  | Compare l ops comparators => HCompare ops (expr_nested_ind l) (all comparators)
  | Constant c => HConstant c
  | OtherExpr children => HOther (all children)
  end.

End TreeInduction.

Section StmtInduction.

Variable P : stmt -> Prop.
Hypothesis HFunctionDef : forall name lineno args body decs,
  Forall P body -> P (FunctionDef name lineno args body decs).
Hypothesis HAsyncFunctionDef : forall name lineno args body decs,
  Forall P body -> P (AsyncFunctionDef name lineno args body decs).
Hypothesis HClassDef : forall name lineno bases body decs,
  Forall P body -> P (ClassDef name lineno bases body decs).
Hypothesis HImport : forall names, P (Import names).
Hypothesis HImportFrom : forall module names level, P (ImportFrom module names level).
Hypothesis HIf : forall test body orelse,
  Forall P body -> Forall P orelse -> P (If test body orelse).
Hypothesis HExpr : forall value, P (Expr value).
Hypothesis HOtherStmt : forall exprs stmts, Forall P stmts -> P (OtherStmt exprs stmts).

Fixpoint stmt_nested_ind (s : stmt) : P s :=
  let all :=
    fix all (l : list stmt) : Forall P l :=
      match l with
      | [] => Forall_nil P
      | x :: l' => Forall_cons x (stmt_nested_ind x) (all l')
      end in
  match s with
  | FunctionDef name lineno args body decs =>
      HFunctionDef name lineno args decs (all body)
  | AsyncFunctionDef name lineno args body decs =>
      HAsyncFunctionDef name lineno args decs (all body)
  | ClassDef name lineno bases body decs => HClassDef name lineno bases decs (all body)
  | Import names => HImport names
  | ImportFrom module names level => HImportFrom module names level
  | If test body orelse => HIf test (all body) (all orelse)
  | Expr value => HExpr value
  | OtherStmt exprs stmts => HOtherStmt exprs (all stmts)
  end.

End StmtInduction.


(* ================================================================== *)
(** * Every order of iteration *)

(** All the ways to put [x] into [l]. *)
Fixpoint inserts {A : Type} (x : A) (l : list A) : list (list A) :=
  match l with
  | [] => [[x]]
  | y :: l' => (x :: l) :: map (cons y) (inserts x l')
  end.

(** All the orders in which a set with the elements [l] can be iterated. *)
Fixpoint perms {A : Type} (l : list A) : list (list A) :=
  match l with
  | [] => [[]]
  | x :: l' => flat_map (inserts x) (perms l')
  end.

Definition depths_eqb (a b : option (Py.dict nat)) : bool :=
  match a, b with
  | Some x, Some y =>
      (List.length x =? List.length y)%nat &&
      forallb (fun '((k1, v1), (k2, v2)) => String.eqb k1 k2 && Nat.eqb v1 v2)
        (combine x y)
  | None, None => true
  | _, _ => false
  end.

(** The depths are [expected] whatever the order in which the node set and
    the edge set are iterated. *)
Definition depths_in_every_order (all_nodes : list string) (edges : list GraphEdge)
  (nodes : list GraphNode) (expected : Py.dict nat) : bool :=
  forallb
    (fun ns =>
       forallb
         (fun es => depths_eqb (Layout.layout_depths ns es nodes) (Some expected))
         (perms edges))
    (perms all_nodes).

(** The assembled graphs of scenario S5 and of the package with the
    clashing symbol id. *)
Definition s5_builder : Builder :=
  assemble srv s5_parse false no_radon is_stdlib_fallback s5_files false.

Definition clash_builder : Builder :=
  assemble srv clash_parse true clash_cc_visit is_stdlib_fallback clash_files true.

(* ================================================================== *)
(** * Edge endpoints *)

(** Every [module_details] entry and every edge source has its module
    node; an edge target has a node, or it is the target of an [imports]
    or [calls] edge and a key of the module table. *)
Definition endpoints (b : Builder) : Prop :=
  (forall k d, In (k, d) (module_details b) ->
     exists n, In n (nodes b) /\ id n = k /\ kind n = "module") /\
  (forall s t ty, In (s, t, ty) (edges b) ->
     (exists n, In n (nodes b) /\ id n = s /\ kind n = "module") /\
     ((exists n, In n (nodes b) /\ id n = t) \/
      ((ty = "imports" \/ ty = "calls") /\ In t (Py.keys (module_map b))))).

(* ================================================================== *)
(** * What one module contributes to the graph *)

(** [blocks] is not empty: the second half of [self.symbol_level and blocks]. *)
Definition has_blocks (blocks : list Block) : bool :=
  negb (match blocks with [] => true | _ => false end).

(** The node [_analyze_modules] appends for a module. *)
Definition module_node (module_id filepath code : string) (tree : Module_)
  (complexity : ComplexityMetrics) : GraphNode :=
  mkGraphNode module_id "module" filepath (get_top_module module_id)
    (StatsOf (module_stats code tree
                (Py.join "." (removelast (Py.split "." module_id))) complexity))
    None.

(** The node [_add_external_nodes] appends for a package. *)
Definition external_node (ext_pkg : string) : GraphNode :=
  mkGraphNode ("external:" ++ ext_pkg)%string "external"
    ("external/" ++ ext_pkg)%string "external" ExternalPackage None.

(** The target of the first import, in list order, whose last segment is
    [call_alias] and which resolves to another module: where the inner
    loop of the call promotion stops. *)
Fixpoint promoted (module_id call_alias : string) (imports : list string)
  (mm : Py.dict string) : option string :=
  match imports with
  | [] => None
  | imp :: rest =>
      if String.eqb call_alias (Py.last (Py.split "." imp)) then
        match usable_target (_resolve_import mm imp) module_id with
        | Some t => Some t
        | None => promoted module_id call_alias rest mm
        end
      else promoted module_id call_alias rest mm
  end.

Section Contributions.

Variable ast_parse : string -> option Module_.
Variable RADON_AVAILABLE : bool.
Variable cc_visit : string -> option (list Block).
Variable is_stdlib : string -> bool.
Variable files : Py.dict string.
Variable symbol_level : bool.

(** The visitor of the imports of a module. *)
Definition module_visitor (module_id : string) (tree : Module_) : ImportVisitor :=
  run_ImportVisitor (Py.join "." (removelast (Py.split "." module_id))) tree.

(** The nodes of one entry of the module table: none when the file does
    not parse, otherwise the module node followed by its symbol nodes. *)
Definition item_nodes (item : string * string) : list GraphNode :=
  let '(module_id, filepath) := item in
  match ast_parse (code_of files filepath) with
  | None => []
  | Some tree =>
      let metrics := metrics_of RADON_AVAILABLE cc_visit files filepath in
      module_node module_id filepath (code_of files filepath) tree (fst metrics)
      :: (if symbol_level && has_blocks (snd metrics)
          then map (symbol_node module_id filepath
                      (map_symbol_complexities (snd metrics)))
                 (extract_symbols tree)
          else [])
  end.

(** The symbol nodes of one entry of the module table. *)
Definition item_symbol_nodes (item : string * string) : list GraphNode :=
  tl (item_nodes item).

(** The [module_details] entry of one entry of the module table. *)
Definition item_details (item : string * string) : list (string * ModuleDetails) :=
  let '(module_id, filepath) := item in
  match ast_parse (code_of files filepath) with
  | None => []
  | Some tree =>
      let metrics := metrics_of RADON_AVAILABLE cc_visit files filepath in
      [(module_id,
        make_details module_id filepath (code_of files filepath) tree
          (fst metrics) (snd metrics))]
  end.

(** The [imports], [calls] and [defines] edges of one analysed module. *)
Definition import_edge_list (mm : Py.dict string) (module_id : string)
  (imports : list string) : list GraphEdge :=
  flat_map
    (fun imp =>
       match usable_target (_resolve_import mm imp) module_id with
       | Some t => [(module_id, t, "imports")]
       | None => []
       end)
    imports.

Definition call_edge_list (mm : Py.dict string) (module_id : string)
  (calls imports : list string) : list GraphEdge :=
  flat_map
    (fun call_alias =>
       match promoted module_id call_alias imports mm with
       | Some t => [(module_id, t, "calls")]
       | None => []
       end)
    calls.

Definition define_edge_list (module_id filepath : string) (tree : Module_)
  (blocks : list Block) : list GraphEdge :=
  if symbol_level && has_blocks blocks
  then map (fun sym =>
              (module_id,
               id (symbol_node module_id filepath (map_symbol_complexities blocks) sym),
               "defines"))
         (extract_symbols tree)
  else [].

Definition item_edges (mm : Py.dict string) (item : string * string) : list GraphEdge :=
  let '(module_id, filepath) := item in
  match ast_parse (code_of files filepath) with
  | None => []
  | Some tree =>
      let visitor := module_visitor module_id tree in
      import_edge_list mm module_id (iv_imports visitor)
      ++ call_edge_list mm module_id (iv_calls visitor) (iv_imports visitor)
      ++ define_edge_list module_id filepath tree
           (snd (metrics_of RADON_AVAILABLE cc_visit files filepath))
  end.

(** The packages one analysed module adds to [external_deps]: the top
    segment of every import that does not resolve to another module and
    is not of the standard library. *)
Definition external_list (mm : Py.dict string) (module_id : string)
  (imports : list string) : list string :=
  flat_map
    (fun imp =>
       match usable_target (_resolve_import mm imp) module_id with
       | Some _ => []
       | None =>
           if is_stdlib (get_top_module imp) then [] else [get_top_module imp]
       end)
    imports.

Definition item_externals (mm : Py.dict string) (item : string * string) : list string :=
  let '(module_id, filepath) := item in
  match ast_parse (code_of files filepath) with
  | None => []
  | Some tree => external_list mm module_id (iv_imports (module_visitor module_id tree))
  end.

End Contributions.

(** The [external] edges: one from every module with an import under the
    package. *)
Definition external_edge_list (details : Py.dict ModuleDetails) (ext_pkg : string)
  : list GraphEdge :=
  flat_map
    (fun '(module_id, d) =>
       if existsb (fun imp => String.eqb (get_top_module imp) ext_pkg) (md_imports d)
       then [(module_id, ("external:" ++ ext_pkg)%string, "external")]
       else [])
    details.

(** The [metadata] block of the artifact that is computed from the graph. *)
Record Metadata : Type := mkMetadata {
  total_files : nat;
  total_modules : nat;
  total_symbols : nat;
  total_external : nat;
  total_edges : nat
}.

(** The nodes whose kind is one of [kinds], in emission order. *)
Definition nodes_of_kind (kinds : list string) (nodes : list GraphNode)
  : list GraphNode :=
  filter (fun n => Py.mem (kind n) kinds) nodes.

(** [sum(1 for n in self.nodes if n.kind in kinds)]. *)
Definition count_kind (kinds : list string) (nodes : list GraphNode) : nat :=
  List.length (nodes_of_kind kinds nodes).

(** [build]'s ["metadata"], from the builder it returns the artifact of. *)
Definition build_metadata (files : Py.dict string) (b : Builder) : Metadata :=
  mkMetadata (List.length files)
    (count_kind ["module"] (nodes b))
    (count_kind ["class"; "function"] (nodes b))
    (count_kind ["external"] (nodes b))
    (List.length (edges b)).

(** [a] sorts strictly before [b] in the order of the emitted edges. *)
Definition edge_lt (a b : GraphEdge) : Prop := edge_compare a b = Lt.

(** A small project under [app]: [main] imports [util] and the package
    [requests] and calls [util.run()]; [util] defines [run]. *)
Definition demo_main_source : string :=
  "import util
import requests
util.run()".

Definition demo_main_tree : Module_ :=
  [Import [Alias "util" None];
   Import [Alias "requests" None];
   Expr (Call (Attribute (Name "util") "run") [])].

Definition demo_util_source : string := "def run(): pass".

Definition demo_util_tree : Module_ := [FunctionDef "run" 1 [] [Pass] []].

Definition demo_files : Py.dict string :=
  [("app/main.py", demo_main_source); ("app/util.py", demo_util_source)].

Definition demo_parse : string -> option Module_ :=
  parse_table [(demo_main_source, Some demo_main_tree);
               (demo_util_source, Some demo_util_tree)].

Definition demo_cc_visit (code : string) : option (list Block) :=
  if String.eqb code demo_util_source then Some [mkBlock "run" None 1] else Some [].

Definition demo_builder : Builder :=
  assemble srv demo_parse true demo_cc_visit is_stdlib_fallback demo_files true.

Definition demo_artifact : Artifact :=
  build srv demo_parse true demo_cc_visit is_stdlib_fallback demo_files true.

(* ================================================================== *)
(** * Paths of an archive *)

(** A path component as an archive has it: not empty, not [.] or [..],
    and without a slash. *)
Definition path_component (c : string) : bool :=
  kept_component c && negb (Py.contains c "/").

(** The text has a character other than the dot. *)
Definition has_non_dot (s : string) : bool :=
  negb (String.eqb (Py.lstrip "." s) "").

(** The module id [_detect_project_roots] computes for a file: the key
    relative to the first root, in the order of [self.roots], that is a
    prefix of the path; none when no root is. *)
Definition file_module_id (cwd : list string) (roots : list string) (filepath : string)
  : option string :=
  match find (fun root => Py.startswith filepath root) roots with
  | Some root => Some (module_key_from_path cwd root filepath)
  | None => None
  end.

(** [top] of the first loop of [_detect_project_roots]. *)
Definition top_directory (d : string) : string :=
  if Py.contains d "/" then Py.first (Py.split "/" d) else d.

(** Two files that both map to the module id [a]. *)
Definition shadow_files : Py.dict string :=
  [("src/a.py", ""); ("src/a/__init__.py", "")].

(* ================================================================== *)
(** * Complexity blocks *)

(** The key [map_symbol_complexities] files a block under. *)
Definition block_key (block : Block) : string :=
  match block_classname block with
  | Some classname =>
      if Py.truthy classname
      then (classname ++ "." ++ block_name block)%string
      else block_name block
  | None => block_name block
  end.

(** radon's answer for a file that defines [f] twice. *)
Definition redefined_blocks : list Block :=
  [mkBlock "f" None 3; mkBlock "g" None 1; mkBlock "f" None 12].

(* ================================================================== *)
(** * A run of [build] under the interpreter *)

(** What the body of the loop of [_analyze_modules] meets when it parses
    and visits one source text.  [Parsed tree]: [ast.parse] returns
    [tree] and the visitors return over it.  The loop catches
    [SyntaxError] only: [ast.parse] raising anything else ([ValueError]
    on a NUL byte, [RecursionError] on deep nesting, [MemoryError]), like
    a visitor that exceeds the recursion limit on a deep tree, leaves
    [build] as an exception, which is [RaisesOther]. *)
Inductive ParseOutcome : Type :=
| Parsed (tree : Module_)
| RaisesSyntaxError
| RaisesOther.

(** The view the assembler has of a source: its tree, or none when the
    file is skipped. *)
Definition parsed_tree (parse : string -> ParseOutcome) (code : string)
  : option Module_ :=
  match parse code with
  | Parsed tree => Some tree
  | RaisesSyntaxError => None
  | RaisesOther => None
  end.

(** A parser that raises nothing but [SyntaxError]. *)
Definition as_outcome (ast_parse : string -> option Module_) (code : string)
  : ParseOutcome :=
  match ast_parse code with
  | Some tree => Parsed tree
  | None => RaisesSyntaxError
  end.

(** Some file of the module table raises an exception that the loop does
    not catch. *)
Definition analysis_raises (parse : string -> ParseOutcome) (files : Py.dict string)
  (module_map : Py.dict string) : bool :=
  existsb
    (fun '(_, filepath) =>
       match parse (code_of files filepath) with
       | RaisesOther => true
       | _ => false
       end)
    module_map.

(** The first pass when the interpreter allows [limit] nested calls of
    [dfs1]: [None] is [RecursionError]. *)
Definition first_pass_within (limit : nat) (graph : Py.dict (list string))
  (all_nodes : list string) : option (list string) :=
  option_map snd
    (fold_left
       (fun ost node =>
          match ost with
          | Some st =>
              if Py.mem node (fst st) then Some st
              else Layout.dfs1 limit graph node st
          | None => None
          end)
       all_nodes (Some ([], []))).

(** The second pass when the interpreter allows [limit] nested calls of
    [dfs2]. *)
Definition second_pass_within (limit : nat) (reverse_graph : Py.dict (list string))
  (order : list string) : option (Py.dict nat * nat) :=
  option_map (fun '(_, component, comp_id) => (component, comp_id))
    (fold_left
       (fun ost node =>
          match ost with
          | Some (visited, component, comp_id) =>
              if Py.mem node visited then Some (visited, component, comp_id)
              else
                match Layout.dfs2 limit reverse_graph node comp_id
                        (visited, component) with
                | Some (visited, component) => Some (visited, component, S comp_id)
                | None => None
                end
          | None => None
          end)
       (rev order) (Some ([], [], 0))).

Definition layout_depths_within (limit : nat) (all_nodes : list string)
  (edges : list GraphEdge) (nodes : list GraphNode) : option (Py.dict nat) :=
  let '(graph, reverse_graph) := Layout.build_graphs all_nodes edges in
  match first_pass_within limit graph all_nodes with
  | None => None
  | Some order =>
      match second_pass_within limit reverse_graph order with
      | None => None
      | Some (component, comp_id) =>
          let comp_graph := Layout.build_comp_graph component edges in
          option_map (Layout.assign_depths nodes component)
            (Layout.comp_depths comp_graph comp_id)
      end
  end.

(** [_calculate_layout] under the recursion limit. *)
Definition _calculate_layout_within (limit : nat) (nodes : list GraphNode)
  (edges : list GraphEdge) : option (Py.dict nat) :=
  match edges with
  | [] => Some []
  | _ => layout_depths_within limit (Layout.all_nodes_of nodes) edges nodes
  end.

(** [build] returns its artifact, or an exception leaves it. *)
Inductive Run : Type :=
| Aborted
| Finished (art : Artifact).

(** [DependencyGraphBuilder(files, ..., symbol_level).build()] with the
    ways it has of not returning: a source of the module table that
    raises something else than [SyntaxError], and a depth-first search
    deeper than the [limit] of nested calls the interpreter has left.
    The logging and the memory probe of [build] are no part of the
    model. *)
Definition run_build (limit : nat) (cwd : list string)
  (parse : string -> ParseOutcome) (RADON_AVAILABLE : bool)
  (cc_visit : string -> option (list Block)) (is_stdlib : string -> bool)
  (files : Py.dict string) (symbol_level : bool) : Run :=
  let b := _detect_project_roots cwd files (mkBuilder [] [] [] [] []) in
  if analysis_raises parse files (module_map b) then Aborted
  else
    let b :=
      _add_external_nodes
        (_analyze_modules (parsed_tree parse) RADON_AVAILABLE cc_visit is_stdlib files
           symbol_level b) in
    match _calculate_layout_within limit (nodes b) (edges b) with
    | None => Aborted
    | Some depths =>
        Finished
          (mkArtifact (nodes b) (sorted_edges (edges b)) (module_details b) files
             (Some depths))
    end.

(** One file whose text holds a NUL byte, on which [ast.parse] of
    CPython 3.11 raises [ValueError]. *)
Definition nul_source : string := String "x" (String "000" EmptyString).

Definition nul_files : Py.dict string := [("a.py", nul_source)].

Definition nul_parse (code : string) : ParseOutcome :=
  if String.eqb code nul_source then RaisesOther else RaisesSyntaxError.

(* ================================================================== *)
(** * What the visitors collect, read off the tree *)

(** [for c in names: s.add(c)]. *)
Definition set_add_all (names : list string) (s : list string) : list string :=
  fold_left (fun acc c => Py.set_add c acc) names s.

(** The imports below a statement, in source order. *)
Fixpoint stmt_imports (parent_pkg : string) (s : stmt) : list string :=
  match s with
  | FunctionDef _ _ _ body _
  | AsyncFunctionDef _ _ _ body _
  | ClassDef _ _ _ body _ => flat_map (stmt_imports parent_pkg) body
  | Import names => map alias_name names
  | ImportFrom module names level =>
      flat_map (import_from_alias (abs_base parent_pkg module level)) names
  | If _ body orelse =>
      flat_map (stmt_imports parent_pkg) body
      ++ flat_map (stmt_imports parent_pkg) orelse
  | Expr _ => []
  | OtherStmt _ stmts => flat_map (stmt_imports parent_pkg) stmts
  end.

(** The name a call goes through for [ImportVisitor]: the function name,
    or the receiver of a method call on a name. *)
Definition call_receiver (func : expr) : list string :=
  match func with
  | Attribute (Name receiver) _ => [receiver]
  | Name f => [f]
  | _ => []
  end.

(** The name a call goes to for [CallGraphVisitor]: the function name, or
    the method name of a method call on a name. *)
Definition call_target (func : expr) : list string :=
  match func with
  | Name target => [target]
  | Attribute (Name _) method => [method]
  | _ => []
  end.

(** The names of the calls below an expression, in the order of the
    visit; [name_of] picks the name of one call. *)
Fixpoint expr_calls (name_of : expr -> list string) (e : expr) : list string :=
  match e with
  | Name _ => []
  | Attribute value _ => expr_calls name_of value
  | Call func args =>
      name_of func ++ expr_calls name_of func ++ flat_map (expr_calls name_of) args
  | Compare left_ _ comparators =>
      expr_calls name_of left_ ++ flat_map (expr_calls name_of) comparators
  | Constant _ => []
  | OtherExpr children => flat_map (expr_calls name_of) children
  end.

(** The receivers of the calls below a statement. *)
Fixpoint stmt_receivers (s : stmt) : list string :=
  match s with
  | FunctionDef _ _ args body decorator_list
  | AsyncFunctionDef _ _ args body decorator_list
  | ClassDef _ _ args body decorator_list =>
      flat_map (expr_calls call_receiver) args
      ++ flat_map stmt_receivers body
      ++ flat_map (expr_calls call_receiver) decorator_list
  | Import _ => []
  | ImportFrom _ _ _ => []
  | If test body orelse =>
      expr_calls call_receiver test
      ++ flat_map stmt_receivers body ++ flat_map stmt_receivers orelse
  | Expr value => expr_calls call_receiver value
  | OtherStmt exprs stmts =>
      flat_map (expr_calls call_receiver) exprs ++ flat_map stmt_receivers stmts
  end.

(** The calls of [targets] made under the function [current]: none at
    module level. *)
Definition calls_under (current : option string) (targets : list string)
  : list (string * string) :=
  match current with
  | Some f => if Py.truthy f then map (fun t => (f, t)) targets else []
  | None => []
  end.

(** The pairs (caller, target) below a statement: a call belongs to the
    innermost function definition around it, where the arguments and the
    decorators of a definition count as inside it. *)
Fixpoint stmt_calls (current : option string) (s : stmt) : list (string * string) :=
  match s with
  | FunctionDef name _ args body decorator_list
  | AsyncFunctionDef name _ args body decorator_list =>
      calls_under (Some name) (flat_map (expr_calls call_target) args)
      ++ flat_map (stmt_calls (Some name)) body
      ++ calls_under (Some name) (flat_map (expr_calls call_target) decorator_list)
  | ClassDef _ _ bases body decorator_list =>
      calls_under current (flat_map (expr_calls call_target) bases)
      ++ flat_map (stmt_calls current) body
      ++ calls_under current (flat_map (expr_calls call_target) decorator_list)
  | Import _ => []
  | ImportFrom _ _ _ => []
  | If test body orelse =>
      calls_under current (expr_calls call_target test)
      ++ flat_map (stmt_calls current) body
      ++ flat_map (stmt_calls current) orelse
  | Expr value => calls_under current (expr_calls call_target value)
  | OtherStmt exprs stmts =>
      calls_under current (flat_map (expr_calls call_target) exprs)
      ++ flat_map (stmt_calls current) stmts
  end.

(** [for (f, t) in pairs: calls[f].add(t)]. *)
Definition record_all (pairs : list (string * string)) (calls : Py.dict (list string))
  : Py.dict (list string) :=
  fold_left (fun calls '(f, t) => cg_record calls f t) pairs calls.

(** The entry points below a statement: the functions with a marking
    decorator, and [__main__] for a main guard. *)
Fixpoint stmt_entrypoints (s : stmt) : list string :=
  match s with
  | FunctionDef name _ _ body decorator_list
  | AsyncFunctionDef name _ _ body decorator_list =>
      (if existsb decorator_marks decorator_list then [name] else [])
      ++ flat_map stmt_entrypoints body
  | ClassDef _ _ _ body _ => flat_map stmt_entrypoints body
  | Import _ => []
  | ImportFrom _ _ _ => []
  | If test body orelse =>
      (if is_main_guard test then ["__main__"] else [])
      ++ flat_map stmt_entrypoints body ++ flat_map stmt_entrypoints orelse
  | Expr _ => []
  | OtherStmt _ stmts => flat_map stmt_entrypoints stmts
  end.

(** [ImportVisitor] after it has met the imports [imps] and the calls
    through [receivers]. *)
Definition iv_extend (v : ImportVisitor) (imps receivers : list string)
  : ImportVisitor :=
  mkImportVisitor (parent_package v) (iv_imports v ++ imps)
    (set_add_all receivers (iv_calls v)).

(** [CallGraphVisitor] after it has met the calls [pairs]. *)
Definition cg_extend (v : CallGraphVisitor) (pairs : list (string * string))
  : CallGraphVisitor :=
  mkCallGraphVisitor (record_all pairs (cg_calls v)) (current_function v).

(** A route handler with a nested import and a call in its decorator. *)
Definition handler_tree : Module_ :=
  [FunctionDef "index" 1 []
     [Import [Alias "json" None];
      Expr (Call (Attribute (Name "json") "dumps") [Call (Name "load") []])]
     [Call (Attribute (Name "app") "route") [Constant (CStr "/")]]].

(* ================================================================== *)
(** * File handling: [should_skip_directory] and [extract_python_files] *)

Definition MAX_FILES : Z := 100000.
Definition MAX_SINGLE_FILE_SIZE : Z := 50 * 1024 * 1024.

Definition SKIP_DIRECTORIES : list string :=
  ["venv"; "env"; ".venv"; ".env"; "virtualenv";
   "node_modules";
   ".git"; ".svn"; ".hg";
   "__pycache__"; ".pytest_cache"; ".tox";
   "build"; "dist"; ".egg-info"; "eggs";
   ".mypy_cache"; ".ruff_cache"; ".cache";
   "site-packages"; "lib/python*/site-packages"].

(** [c.lower()] for a character below 256: the letters [A]-[Z] and the
    capital letters of Latin-1 move up by 32, the rest stay. *)
Definition lower_char (c : ascii) : ascii :=
  let n := nat_of_ascii c in
  if ((65 <=? n)%nat && (n <=? 90)%nat)
     || ((192 <=? n)%nat && (n <=? 214)%nat)
     || ((216 <=? n)%nat && (n <=? 222)%nat)
  then ascii_of_nat (n + 32) else c.

(** [s.lower()]. *)
Fixpoint lower (s : string) : string :=
  match s with
  | EmptyString => EmptyString
  | String c rest => String (lower_char c) (lower rest)
  end.

(** [s.replace(old, new)] for single characters. *)
Fixpoint replace_char (old new : ascii) (s : string) : string :=
  match s with
  | EmptyString => EmptyString
  | String c rest =>
      String (if Ascii.eqb c old then new else c) (replace_char old new rest)
  end.

(** The loop returns at the first directory name that is a component of
    the path or a substring of the lowered path. *)
Definition should_skip_directory (path : string) : bool :=
  let path_lower := lower path in
  let path_parts := Py.split "/" (replace_char "\" "/" path) in
  existsb
    (fun skip_dir => Py.mem skip_dir path_parts || Py.contains path_lower skip_dir)
    SKIP_DIRECTORIES.

(** An entry of the ["files"] list of a folder. *)
Record FileEntry : Type := mkFileEntry {
  fe_name : string;
  fe_path : string;
  fe_size : nat
}.

(** A folder of [folder_structure]; its ["type"] is always ["folder"]. *)
Inductive Folder : Type :=
| mkFolder (folder_name : string) (children : list (string * Folder))
    (folder_files : list FileEntry).

Definition folder_name (f : Folder) : string :=
  match f with mkFolder n _ _ => n end.

Definition children (f : Folder) : Py.dict Folder :=
  match f with mkFolder _ c _ => c end.

Definition folder_files (f : Folder) : list FileEntry :=
  match f with mkFolder _ _ fl => fl end.

Definition root_folder : Folder := mkFolder "root" [] [].

(** The walk [for part in parts: ... current = current["children"][part]],
    which creates the folders that are missing, followed by [k] on the
    folder it ends in. *)
Fixpoint with_folder (parts : list string) (k : Folder -> Folder) (f : Folder)
  : Folder :=
  match parts with
  | [] => k f
  | part :: rest =>
      let child :=
        match Py.dict_get (children f) part with
        | Some c => c
        | None => mkFolder part [] []
        end in
      mkFolder (folder_name f)
        (Py.dict_set (children f) part (with_folder rest k child))
        (folder_files f)
  end.

(** [current["files"].append(entry)]. *)
Definition append_file (entry : FileEntry) (f : Folder) : Folder :=
  mkFolder (folder_name f) (children f) (folder_files f ++ [entry]).

(** The folder reached from [f] along [parts]. *)
Fixpoint folder_at (parts : list string) (f : Folder) : option Folder :=
  match parts with
  | [] => Some f
  | part :: rest =>
      match Py.dict_get (children f) part with
      | Some c => folder_at rest c
      | None => None
      end
  end.

(** The folder at [dirs] lists the entry. *)
Definition has_file (dirs : list string) (entry : FileEntry) (f : Folder) : Prop :=
  exists g, folder_at dirs f = Some g /\ In entry (folder_files g).

(** An open archive: its names in order, and [zf.read(name).decode(...)],
    which is [None] when it raises. *)
Record ZipFile : Type := mkZipFile {
  namelist : list string;
  read : string -> option string
}.

(** What the function does: it raises [HTTPException] with a status, or
    returns the files and the folder structure. *)
Inductive Extracted : Type :=
| Raised (status : nat)
| Returned (files : Py.dict string) (folder_structure : Folder).

(** The body of the loop over the names. *)
Definition extract_step (zf : ZipFile) (st : Py.dict string * Folder) (name : string)
  : Py.dict string * Folder :=
  if Py.startswith name "__MACOSX" || Py.contains name "__pycache__" then st
  else
    let name := replace_char "\" "/" name in
    if should_skip_directory name then st
    else if Py.endswith name "/" then
      let parts := filter Py.truthy (Py.split "/" (Py.rstrip "/" name)) in
      (fst st, with_folder parts (fun f => f) (snd st))
    else if Py.endswith name ".py" then
      match read zf name with
      | None => st
      | Some content =>
          if (Z.of_nat (String.length content) >? MAX_SINGLE_FILE_SIZE)%Z then st
          else
            let parts := Py.split "/" name in
            (Py.dict_set (fst st) name content,
             with_folder (removelast parts)
               (append_file (mkFileEntry (Py.last parts) name (String.length content)))
               (snd st))
      end
    else st.

(** [extract_python_files]; [zf] is [None] when the archive cannot be
    opened. *)
Definition extract_python_files (zf : option ZipFile) : Extracted :=
  match zf with
  | None => Raised 400
  | Some zf =>
      if (Z.of_nat (List.length (namelist zf)) >? MAX_FILES)%Z then Raised 400
      else
        let '(files, folder_structure) :=
          fold_left (extract_step zf) (namelist zf) ([], root_folder) in
        Returned files folder_structure
  end.

(** The entry the loop lists for the file [name] with the text [content]. *)
Definition entry_of (name content : string) : FileEntry :=
  mkFileEntry (Py.last (Py.split "/" name)) name (String.length content).

(** The name passes the filters of the loop and is read as a source. *)
Definition accepted (zf : ZipFile) (original : string) : bool :=
  let name := replace_char "\" "/" original in
  negb (Py.startswith original "__MACOSX") &&
  negb (Py.contains original "__pycache__") &&
  negb (should_skip_directory name) &&
  Py.endswith name ".py" &&
  match read zf name with
  | Some content => negb (Z.of_nat (String.length content) >? MAX_SINGLE_FILE_SIZE)%Z
  | None => false
  end.

(** An archive with a project, a virtual environment and a Mac folder. *)
Definition sample_zip : ZipFile :=
  mkZipFile
    ["proj/"; "proj/app.py"; "proj/README.md"; "proj/venv/lib/site.py";
     "__MACOSX/proj/app.py"; "proj\pkg\mod.py"; "proj/environment.py"]
    (fun name =>
       if String.eqb name "proj/app.py" then Some "import pkg.mod"
       else if String.eqb name "proj/pkg/mod.py" then Some ""
       else if String.eqb name "proj/venv/lib/site.py" then Some "x = 1"
       else if String.eqb name "proj/environment.py" then Some "y = 2"
       else None).

(* ================================================================== *)
(** * Checks of the built-ins on small inputs *)

Example split_dotted : Py.split "." "a.b.c" = ["a"; "b"; "c"].
Proof. reflexivity. Qed.
Example split_empty : Py.split "." "" = [""].
Proof. reflexivity. Qed.
Example dirname_file : posixpath.dirname "pkg/sub/a.py" = "pkg/sub".
Proof. reflexivity. Qed.
Example dirname_top : posixpath.dirname "a.py" = "".
Proof. reflexivity. Qed.
Example splitext_py : posixpath.splitext_root "a.b.py" = "a.b".
Proof. reflexivity. Qed.
Example splitext_hidden : posixpath.splitext_root ".py" = ".py".
Proof. reflexivity. Qed.
Example relpath_under : posixpath.relpath ["srv"] "pkg/a.py" "pkg" = "a.py".
Proof. reflexivity. Qed.
Example relpath_empty_start : posixpath.relpath ["srv"] "m.py" "" = "m.py".
Proof. reflexivity. Qed.
Example relpath_sibling : posixpath.relpath ["srv"] "a.py" "a" = "../a.py".
Proof. reflexivity. Qed.
Example splitext_double_dot : posixpath.splitext_root "a..py" = "a.".
Proof. reflexivity. Qed.
Example module_key_package :
  module_key_from_path srv "src" "src/a/__init__.py" = "a".
Proof. reflexivity. Qed.
Example module_key_module :
  module_key_from_path srv "src" "src/a/b.py" = "a.b".
Proof. reflexivity. Qed.
Example module_key_root_package :
  module_key_from_path srv "pkg" "pkg/__init__.py" = "".
Proof. reflexivity. Qed.
Example resolve_exact :
  _resolve_import [("a", "a.py"); ("pkg.b", "pkg/b.py")] "pkg.b" = Some "pkg.b".
Proof. reflexivity. Qed.
Example resolve_basename :
  _resolve_import [("a", "a.py"); ("pkg.b", "pkg/b.py")] "other.b" = Some "pkg.b".
Proof. reflexivity. Qed.
Example resolve_failed :
  _resolve_import [("a", "a.py"); ("pkg.b", "pkg/b.py")] "numpy" = None.
Proof. reflexivity. Qed.
Example entrypoint_decorator :
  run_EntrypointVisitor
    [FunctionDef "handler" 2 [] [Pass]
       [Call (Attribute (Name "app") "get") [Constant (CStr "/x")]]]
  = ["handler"].
Proof. reflexivity. Qed.
(* ================================================================== *)
(** * Lists, sets and dictionaries *)

Lemma fold_left_inv {A B : Type} (P : A -> Prop) (f : A -> B -> A) (l : list B) :
  forall a, P a -> (forall a x, In x l -> P a -> P (f a x)) -> P (fold_left f l a).
Proof.
  induction l as [|x l IH]; intros a Ha Hstep; simpl; [exact Ha|].
  apply IH.
  - apply Hstep; [now left | exact Ha].
  - intros a' y Hy; apply Hstep; now right.
Qed.

Lemma fold_left_ext_in {A B : Type} (f g : A -> B -> A) (l : list B) :
  (forall a x, In x l -> f a x = g a x) ->
  forall a, fold_left f l a = fold_left g l a.
Proof.
  induction l as [|x l IH]; intros Hfg a; simpl; [reflexivity|].
  rewrite Hfg by now left.
  apply IH; intros a' y Hy; apply Hfg; now right.
Qed.

Lemma mem_In (x : string) (l : list string) : Py.mem x l = true <-> In x l.
Proof.
  unfold Py.mem; rewrite existsb_exists; split.
  - intros [y [Hy Heq]]; apply String.eqb_eq in Heq; now subst.
  - intros H; exists x; split; [exact H | apply String.eqb_refl].
Qed.

Lemma mem_false (x : string) (l : list string) : Py.mem x l = false <-> ~ In x l.
Proof.
  rewrite <- mem_In; destruct (Py.mem x l); split; congruence.
Qed.

Lemma In_set_add (x y : string) (s : list string) :
  In y (Py.set_add x s) <-> y = x \/ In y s.
Proof.
  unfold Py.set_add; destruct (Py.mem x s) eqn:E.
  - apply mem_In in E; split; [now right | intros [->|H]; assumption].
  - rewrite in_app_iff; simpl; split; [intros [H|[H|[]]]|intros [H|H]]; auto.
Qed.

Lemma In_fold_set_add (l acc : list string) (y : string) :
  In y (fold_left (fun acc c => Py.set_add c acc) l acc) <-> In y acc \/ In y l.
Proof.
  revert acc; induction l as [|x l IH]; intros acc; simpl.
  - tauto.
  - rewrite IH, In_set_add; intuition (subst; auto).
Qed.

Lemma In_insert_sorted (x y : string) (l : list string) :
  In y (Py.insert_sorted x l) <-> y = x \/ In y l.
Proof.
  induction l as [|z l IH]; simpl.
  - intuition.
  - destruct (String.compare x z) eqn:E; simpl.
    + apply String.compare_eq_iff in E; subst; intuition.
    + intuition.
    + rewrite IH; intuition.
Qed.

Lemma In_sorted_set (l : list string) (y : string) :
  In y (Py.sorted_set l) <-> In y l.
Proof.
  unfold Py.sorted_set.
  assert (H : forall acc, In y (fold_left (fun acc x => Py.insert_sorted x acc) l acc)
                          <-> In y acc \/ In y l).
  { induction l as [|x l IH]; intros acc; simpl; [tauto|].
    rewrite IH, In_insert_sorted; intuition (subst; auto). }
  rewrite H; simpl; tauto.
Qed.

Lemma dict_get_In {V : Type} (d : Py.dict V) (k : string) (v : V) :
  Py.dict_get d k = Some v -> In (k, v) d.
Proof.
  induction d as [|[k' v'] d IH]; simpl; [discriminate|].
  destruct (String.eqb k k') eqn:E.
  - apply String.eqb_eq in E; subst; intros [= ->]; now left.
  - intros H; right; auto.
Qed.

Lemma dict_get_None {V : Type} (d : Py.dict V) (k : string) :
  Py.dict_get d k = None <-> ~ In k (Py.keys d).
Proof.
  induction d as [|[k' v'] d IH]; simpl; [tauto|].
  destruct (String.eqb k k') eqn:E.
  - apply String.eqb_eq in E; subst; split; [discriminate | intros H; elim H; now left].
  - apply String.eqb_neq in E; rewrite IH; split.
    + intros H [H1|H1]; [congruence | auto].
    + intros H H1; apply H; now right.
Qed.

Lemma In_dict_get {V : Type} (d : Py.dict V) (k : string) (v : V) :
  NoDup (Py.keys d) -> In (k, v) d -> Py.dict_get d k = Some v.
Proof.
  induction d as [|[k' v'] d IH]; simpl; [tauto|].
  intros Hnd [H|H]; inversion Hnd as [|? ? Hnotin Hnd']; subst.
  - inversion H; subst; now rewrite String.eqb_refl.
  - destruct (String.eqb k k') eqn:E.
    + apply String.eqb_eq in E; subst.
      elim Hnotin; change (In (fst (k', v)) (map fst d)); now apply in_map.
    + auto.
Qed.

Lemma In_dict_set {V : Type} (d : Py.dict V) (k : string) (v : V) (k' : string) (v' : V) :
  In (k', v') (Py.dict_set d k v) -> (k', v') = (k, v) \/ In (k', v') d.
Proof.
  induction d as [|[k0 v0] d IH]; simpl.
  - intros [H|[]]; left; now symmetry.
  - destruct (String.eqb k k0).
    + intros [H|H]; [left; now symmetry | right; now right].
    + intros [H|H]; [right; now left|].
      destruct (IH H) as [H1|H1]; [now left | right; now right].
Qed.

Lemma keys_dict_set {V : Type} (d : Py.dict V) (k : string) (v : V) (k' : string) :
  In k' (Py.keys (Py.dict_set d k v)) <-> k' = k \/ In k' (Py.keys d).
Proof.
  induction d as [|[k0 v0] d IH]; simpl.
  - intuition.
  - destruct (String.eqb k k0) eqn:E; simpl.
    + apply String.eqb_eq in E; subst; intuition.
    + rewrite IH; intuition.
Qed.

Lemma NoDup_dict_set {V : Type} (d : Py.dict V) (k : string) (v : V) :
  NoDup (Py.keys d) -> NoDup (Py.keys (Py.dict_set d k v)).
Proof.
  induction d as [|[k0 v0] d IH]; simpl; intros Hnd.
  - constructor; [intros [] | constructor].
  - inversion Hnd as [|? ? Hnotin Hnd']; subst.
    destruct (String.eqb k k0) eqn:E; simpl.
    + apply String.eqb_eq in E; subst; now constructor.
    + apply String.eqb_neq in E; constructor; [|now apply IH].
      change (~ In k0 (Py.keys (Py.dict_set d k v))).
      rewrite keys_dict_set; intros [H|H]; [congruence | auto].
Qed.

Lemma dict_set_get_same {V : Type} (d : Py.dict V) (k : string) (v : V) :
  Py.dict_get (Py.dict_set d k v) k = Some v.
Proof.
  induction d as [|[k0 v0] d IH]; simpl.
  - now rewrite String.eqb_refl.
  - destruct (String.eqb k k0) eqn:E; simpl.
    + now rewrite String.eqb_refl.
    + now rewrite E.
Qed.

Lemma dict_set_get_other {V : Type} (d : Py.dict V) (k k' : string) (v : V) :
  k' <> k -> Py.dict_get (Py.dict_set d k v) k' = Py.dict_get d k'.
Proof.
  intros Hne; induction d as [|[k0 v0] d IH]; simpl.
  - apply String.eqb_neq in Hne; now rewrite Hne.
  - destruct (String.eqb k k0) eqn:E; simpl.
    + apply String.eqb_eq in E; subst.
      apply String.eqb_neq in Hne; now rewrite Hne.
    + destruct (String.eqb k' k0); [reflexivity | exact IH].
Qed.

Lemma In_dict_set_keep {V : Type} (d : Py.dict V) (k : string) (v : V) (k' : string) (v' : V) :
  k' <> k -> In (k', v') d -> In (k', v') (Py.dict_set d k v).
Proof.
  intros Hne; induction d as [|[k0 v0] d IH]; simpl; [tauto|].
  destruct (String.eqb k k0) eqn:E.
  - apply String.eqb_eq in E; subst.
    intros [H|H]; [inversion H; congruence | now right].
  - intros [H|H]; [now left | right; auto].
Qed.

(** ** The edge set *)

Lemma edge_eqb_eq (a b : GraphEdge) : edge_eqb a b = true <-> a = b.
Proof.
  destruct a as [[s1 t1] y1], b as [[s2 t2] y2]; simpl.
  rewrite !andb_true_iff, !String.eqb_eq; split.
  - intros [[-> ->] ->]; reflexivity.
  - intros [= -> -> ->]; auto.
Qed.

Lemma In_edges_add (e e' : GraphEdge) (es : list GraphEdge) :
  In e' (edges_add e es) <-> e' = e \/ In e' es.
Proof.
  unfold edges_add; destruct (existsb (edge_eqb e) es) eqn:E.
  - apply existsb_exists in E; destruct E as [x [Hx Heq]].
    apply edge_eqb_eq in Heq; subst x.
    split; [now right | intros [->|H]; assumption].
  - rewrite in_app_iff; simpl; intuition.
Qed.

Lemma In_insert_edge (e e' : GraphEdge) (l : list GraphEdge) :
  In e' (insert_edge e l) <-> e' = e \/ In e' l.
Proof.
  induction l as [|y l IH]; simpl.
  - intuition.
  - destruct (edge_compare e y); simpl; try rewrite IH; intuition.
Qed.

Lemma In_sorted_edges (es : list GraphEdge) (e : GraphEdge) :
  In e (sorted_edges es) <-> In e es.
Proof.
  unfold sorted_edges.
  assert (H : forall acc, In e (fold_left (fun acc x => insert_edge x acc) es acc)
                          <-> In e acc \/ In e es).
  { induction es as [|x l IH]; intros acc; simpl; [tauto|].
    rewrite IH, In_insert_edge; intuition (subst; auto). }
  rewrite H; simpl; tauto.
Qed.

(* ================================================================== *)
(** * What the assembler keeps and where its output comes from *)

Lemma resolve_import_in_keys (mm : Py.dict string) (imp t : string) :
  _resolve_import mm imp = Some t -> In t (Py.keys mm).
Proof.
  assert (Hmem : forall k, Py.dict_mem mm k = true -> In k (Py.keys mm)).
  { intros k; unfold Py.dict_mem.
    destruct (Py.dict_get mm k) as [v|] eqn:E; [|discriminate].
    intros _; apply dict_get_In in E.
    unfold Py.keys; change k with (fst (k, v)); now apply in_map. }
  unfold _resolve_import.
  destruct (Py.dict_mem mm imp) eqn:E1; [intros H; inversion H; subst; auto|].
  repeat
    match goal with
    | |- match find ?f ?l with _ => _ end = Some t -> _ =>
        let E := fresh "E" in
        destruct (find f l) as [k|] eqn:E;
        [intros H; inversion H; subst; apply find_some in E; destruct E; assumption|]
    end.
  destruct (Py.dict_mem mm (get_top_module imp)) eqn:E5; [|discriminate].
  intros H; inversion H; subst; auto.
Qed.

Lemma usable_target_spec (target : option string) (mid t : string) :
  usable_target target mid = Some t -> target = Some t /\ t <> mid.
Proof.
  unfold usable_target; destruct target as [t'|]; [|discriminate].
  destruct (Py.truthy t' && negb (String.eqb t' mid)) eqn:E; [|discriminate].
  intros H; inversion H; subst; apply andb_true_iff in E; destruct E as [_ E].
  apply negb_true_iff, String.eqb_neq in E; auto.
Qed.

Lemma usable_resolved (mm : Py.dict string) (imp mid t : string) :
  usable_target (_resolve_import mm imp) mid = Some t ->
  In t (Py.keys mm) /\ t <> mid.
Proof.
  intros H; apply usable_target_spec in H; destruct H as [H Hne].
  split; [exact (resolve_import_in_keys _ _ H) | exact Hne].
Qed.

Lemma promote_call_sound (mid call_alias : string) (imports : list string)
  (mm : Py.dict string) (es : list GraphEdge) (e : GraphEdge) :
  In e (promote_call mid call_alias imports mm es) ->
  In e es \/ exists t, e = (mid, t, "calls") /\ In t (Py.keys mm) /\ t <> mid.
Proof.
  induction imports as [|imp rest IH]; simpl; [now left|].
  destruct (String.eqb call_alias (Py.last (Py.split "." imp))); [|exact IH].
  destruct (usable_target (_resolve_import mm imp) mid) as [t|] eqn:E; [|exact IH].
  apply usable_resolved in E.
  rewrite In_edges_add; intros [->|H]; [right; exists t; tauto | now left].
Qed.

Lemma promote_call_keeps (mid call_alias : string) (imports : list string)
  (mm : Py.dict string) (es : list GraphEdge) (e : GraphEdge) :
  In e es -> In e (promote_call mid call_alias imports mm es).
Proof.
  intros He; induction imports as [|imp rest IH]; simpl; [exact He|].
  destruct (String.eqb call_alias (Py.last (Py.split "." imp))); [|exact IH].
  destruct (usable_target (_resolve_import mm imp) mid) as [t|]; [|exact IH].
  rewrite In_edges_add; now right.
Qed.

Lemma adds_edges_from_refl (mid : string) (b : Builder) : adds_edges_from mid b b.
Proof. unfold adds_edges_from; intuition. Qed.

Lemma adds_edges_from_trans (mid : string) (b1 b2 b3 : Builder) :
  adds_edges_from mid b1 b2 -> adds_edges_from mid b2 b3 -> adds_edges_from mid b1 b3.
Proof.
  intros (N1 & M1 & D1 & K1 & S1) (N2 & M2 & D2 & K2 & S2).
  unfold adds_edges_from; repeat split; try congruence.
  - auto.
  - intros e He; destruct (S2 e He) as [H|H]; [auto|].
    right; rewrite <- M1; exact H.
Qed.

Lemma import_edges_frame (is_stdlib : string -> bool) (mid : string)
  (imports : list string) (b : Builder) :
  adds_edges_from mid b (import_edges is_stdlib mid imports b).
Proof.
  unfold import_edges.
  apply fold_left_inv with (P := adds_edges_from mid b).
  - apply adds_edges_from_refl.
  - intros a imp _ Ha; eapply adds_edges_from_trans; [exact Ha|].
    destruct (usable_target (_resolve_import (module_map a) imp) mid) as [t|] eqn:E.
    + apply usable_resolved in E.
      unfold adds_edges_from; simpl; repeat split; auto.
      * intros e He; rewrite In_edges_add; now right.
      * intros e; rewrite In_edges_add; intros [->|H]; [|now left].
        right; exists t, "imports"; tauto.
    + destruct (negb (is_stdlib (get_top_module imp)));
        unfold adds_edges_from; simpl; intuition.
Qed.

Lemma call_edges_frame (mid : string) (calls imports : list string) (b : Builder) :
  adds_edges_from mid b (call_edges mid calls imports b).
Proof.
  unfold call_edges, adds_edges_from; simpl; repeat split; auto.
  - intros e He.
    apply fold_left_inv with (P := fun es => In e es); [exact He|].
    intros es c _ H; now apply promote_call_keeps.
  - intros e.
    apply fold_left_inv
      with (P := fun es =>
                   In e es ->
                   In e (edges b) \/
                   exists t ty, e = (mid, t, ty) /\ (ty = "imports" \/ ty = "calls") /\
                                In t (Py.keys (module_map b)) /\ t <> mid).
    + now left.
    + intros es c _ IH H.
      destruct (promote_call_sound _ _ _ _ _ _ H) as [H1|[t [-> Ht]]]; [auto|].
      right; exists t, "calls"; tauto.
Qed.

Lemma symbol_nodes_frame (mid filepath : string) (symbols : list (string * string * nat))
  (sc : Py.dict nat) (b : Builder) :
  let b' := symbol_nodes mid filepath symbols sc b in
  nodes b' = nodes b ++ map (symbol_node mid filepath sc) symbols /\
  module_map b' = module_map b /\
  module_details b' = module_details b /\
  (forall e, In e (edges b') <->
             In e (edges b) \/
             exists sym, In sym symbols /\
                         e = (mid, id (symbol_node mid filepath sc sym), "defines")).
Proof.
  cbv zeta; unfold symbol_nodes; revert b.
  induction symbols as [|sym rest IH]; intros b; simpl.
  - rewrite app_nil_r; split; [reflexivity|]; split; [reflexivity|];
      split; [reflexivity|]; intros e; split.
    + intros H; now left.
    + intros [H|[sym [[] _]]]; exact H.
  - specialize (IH (mkBuilder (nodes b ++ [symbol_node mid filepath sc sym])
                     (edges_add (mid, id (symbol_node mid filepath sc sym), "defines")
                        (edges b))
                     (module_map b) (external_deps b) (module_details b))).
    simpl in IH. destruct IH as (N & M & D & E).
    split; [rewrite N, <- app_assoc; reflexivity|].
    split; [exact M|]; split; [exact D|]; intros e; split.
    + rewrite E, In_edges_add; intros [[->|H]|[s [Hs ->]]]; eauto.
    + rewrite E, In_edges_add; intros [H|[s [[<-|Hs] ->]]]; eauto.
Qed.

Lemma extract_symbols_kind (tree : Module_) (name kind_ : string) (lineno : nat) :
  In (name, kind_, lineno) (extract_symbols tree) ->
  kind_ = "class" \/ kind_ = "function".
Proof.
  unfold extract_symbols; rewrite in_flat_map; intros [node [_ H]].
  destruct node; simpl in H; try contradiction;
    destruct H as [H|[]]; inversion H; auto.
Qed.

Section ProvenanceProofs.

Variable cwd : list string.
Variable ast_parse : string -> option Module_.
Variable RADON_AVAILABLE : bool.
Variable cc_visit : string -> option (list Block).
Variable is_stdlib : string -> bool.
Variable files : Py.dict string.
Variable symbol_level : bool.

Local Abbreviation provenance_ := (provenance ast_parse RADON_AVAILABLE cc_visit files).
Local Abbreviation analysed_ := (analysed ast_parse files).

Lemma analyze_parsed_module_map (b : Builder) (mid fp code : string) (tree : Module_)
  (metrics : ComplexityMetrics * list Block) :
  module_map (analyze_parsed is_stdlib symbol_level b mid fp code tree metrics)
  = module_map b.
Proof.
  unfold analyze_parsed; destruct metrics as [cx bl].
  match goal with
  | |- context [import_edges ?s ?m ?i ?b0] =>
      pose proof (import_edges_frame s m i b0) as (_ & M1 & _);
      pose proof (call_edges_frame m (iv_calls (run_ImportVisitor
                    (Py.join "." (removelast (Py.split "." mid))) tree)) i
                    (import_edges s m i b0)) as (_ & M2 & _)
  end.
  destruct (symbol_level && _).
  - match goal with
    | |- module_map (symbol_nodes ?m ?f ?sy ?sc ?b0) = _ =>
        destruct (symbol_nodes_frame m f sy sc b0) as (_ & M3 & _)
    end.
    rewrite M3, M2, M1; reflexivity.
  - rewrite M2, M1; reflexivity.
Qed.

Lemma analyze_module_module_map (b : Builder) (item : string * string) :
  module_map (analyze_module ast_parse RADON_AVAILABLE cc_visit is_stdlib files
                symbol_level b item) = module_map b.
Proof.
  destruct item as [mid fp]; unfold analyze_module.
  destruct (ast_parse _); [apply analyze_parsed_module_map | reflexivity].
Qed.

Lemma analyze_parsed_provenance (mm : Py.dict string) (b : Builder) (mid fp : string)
  (tree : Module_) :
  provenance_ mm b -> analysed_ mm mid fp tree ->
  provenance_ mm
    (analyze_parsed is_stdlib symbol_level b mid fp (code_of files fp) tree
       (metrics_of RADON_AVAILABLE cc_visit files fp)).
Proof.
  intros (Hmm & Hn & Hd & He) Han.
  unfold analyze_parsed.
  destruct (metrics_of RADON_AVAILABLE cc_visit files fp) as [cx bl] eqn:Emet.
  set (parent_pkg := Py.join "." (removelast (Py.split "." mid))).
  set (visitor := run_ImportVisitor parent_pkg tree).
  set (node := mkGraphNode mid "module" fp (get_top_module mid)
                 (StatsOf (module_stats (code_of files fp) tree parent_pkg cx)) None).
  set (b1 := mkBuilder (nodes b ++ [node]) (edges b) (module_map b) (external_deps b)
               (Py.dict_set (module_details b) mid
                  (make_details mid fp (code_of files fp) tree cx bl))).
  set (b2 := import_edges is_stdlib mid (iv_imports visitor) b1).
  set (b3 := call_edges mid (iv_calls visitor) (iv_imports visitor) b2).
  assert (P1 : provenance_ mm b1).
  { unfold provenance; simpl; split; [exact Hmm|]; split; [|split].
    - intros n; rewrite in_app_iff; intros [H|[<-|[]]]; [now apply Hn|].
      right; exists mid, fp, tree; simpl; auto.
    - intros k d H; apply In_dict_set in H; destruct H as [H|H]; [|now apply Hd].
      inversion H; subst; exists fp, tree; split; [exact Han|].
      unfold metrics_of in *; rewrite Emet; reflexivity.
    - exact He. }
  assert (F12 : adds_edges_from mid b1 b2) by apply import_edges_frame.
  assert (F23 : adds_edges_from mid b2 b3) by apply call_edges_frame.
  pose proof (adds_edges_from_trans F12 F23) as (N & M & D & _ & S).
  assert (P3 : provenance_ mm b3).
  { destruct P1 as (Hmm1 & Hn1 & Hd1 & He1).
    unfold provenance; rewrite N, M, D; split; [exact Hmm1|]; split; [exact Hn1|];
      split; [exact Hd1|].
    intros s t ty H; destruct (S _ H) as [H1|[t' [ty' [H1 _]]]]; [now apply (He1 s t ty)|].
    inversion H1; subst; exists fp, tree; exact Han. }
  destruct (symbol_level && _); [|exact P3].
  destruct (symbol_nodes_frame mid fp (extract_symbols tree)
              (map_symbol_complexities bl) b3) as (N4 & M4 & D4 & E4).
  destruct P3 as (Hmm3 & Hn3 & Hd3 & He3).
  unfold provenance; rewrite N4, M4, D4; split; [exact Hmm3|]; split; [|split].
  - intros n; rewrite in_app_iff, in_map_iff; intros [H|[[[name kd] ln] [<- Hsym]]];
      [now apply Hn3|].
    right; exists mid, fp, tree; simpl.
    split; [exact Han|]; split; [reflexivity|]; right.
    destruct (extract_symbols_kind _ _ _ _ Hsym) as [->| ->];
      repeat split; discriminate.
  - exact Hd3.
  - intros s t ty H; apply E4 in H; destruct H as [H|[sym [_ H]]];
      [now apply (He3 s t ty)|].
    inversion H; subst; exists fp, tree; exact Han.
Qed.

Lemma analyze_modules_provenance (mm : Py.dict string) (b : Builder) :
  provenance_ mm b ->
  provenance_ mm
    (_analyze_modules ast_parse RADON_AVAILABLE cc_visit is_stdlib files symbol_level b).
Proof.
  intros Hb; unfold _analyze_modules.
  destruct Hb as (Hmm & Hrest); rewrite Hmm.
  assert (Hb : provenance_ mm b) by (split; assumption).
  clear Hrest.
  apply fold_left_inv with (P := provenance_ mm); [exact Hb|].
  intros a [mid fp] Hin Ha; unfold analyze_module.
  destruct (ast_parse (Py.dict_get_default files fp "")) as [tree|] eqn:Ep; [|exact Ha].
  apply analyze_parsed_provenance; [exact Ha | split; assumption].
Qed.

Lemma external_edges_sound (ext_pkg : string) (details : Py.dict ModuleDetails)
  (es : list GraphEdge) (e : GraphEdge) :
  In e (external_edges ext_pkg details es) ->
  In e es \/
  exists k d, In (k, d) details /\ e = (k, ("external:" ++ ext_pkg)%string, "external").
Proof.
  unfold external_edges.
  apply fold_left_inv
    with (P := fun acc =>
                 In e acc ->
                 In e es \/
                 exists k d, In (k, d) details /\
                             e = (k, ("external:" ++ ext_pkg)%string, "external")).
  - now left.
  - intros acc [k d] Hin IH.
    destruct (existsb _ (md_imports d)); [|exact IH].
    rewrite In_edges_add; intros [->|H]; [right; eauto | auto].
Qed.

Lemma external_edges_keeps (ext_pkg : string) (details : Py.dict ModuleDetails)
  (es : list GraphEdge) (e : GraphEdge) :
  In e es -> In e (external_edges ext_pkg details es).
Proof.
  intros He; unfold external_edges.
  apply fold_left_inv with (P := fun acc => In e acc); [exact He|].
  intros acc [k d] _ H; destruct (existsb _ (md_imports d)); [|exact H].
  rewrite In_edges_add; now right.
Qed.

Lemma add_external_nodes_provenance (mm : Py.dict string) (b : Builder) :
  provenance_ mm b -> provenance_ mm (_add_external_nodes b).
Proof.
  intros Hb; unfold _add_external_nodes.
  apply fold_left_inv with (P := provenance_ mm); [exact Hb|].
  intros a ext_pkg _ (Hmm & Hn & Hd & He).
  unfold provenance; simpl; split; [exact Hmm|]; split; [|split].
  - intros n; rewrite in_app_iff; intros [H|[<-|[]]]; [now apply Hn | now left].
  - exact Hd.
  - intros s t ty H; apply external_edges_sound in H.
    destruct H as [H|[k [d [Hkd H]]]]; [now apply (He s t ty)|].
    inversion H; subst.
    destruct (Hd _ _ Hkd) as [fp [tree [Han _]]]; eauto.
Qed.

Lemma assemble_provenance :
  provenance_ (build_module_map cwd files (detect_roots files))
    (assemble cwd ast_parse RADON_AVAILABLE cc_visit is_stdlib files symbol_level).
Proof.
  unfold assemble.
  apply add_external_nodes_provenance, analyze_modules_provenance.
  unfold provenance, _detect_project_roots; simpl.
  split; [reflexivity|]; split; [|split]; intros; contradiction.
Qed.

Lemma build_module_map_NoDup (roots : list string) :
  NoDup (Py.keys (build_module_map cwd files roots)).
Proof.
  unfold build_module_map.
  apply fold_left_inv with (P := fun mm : Py.dict string => NoDup (Py.keys mm)).
  - constructor.
  - intros mm fp _ H; destruct (find _ roots); [now apply NoDup_dict_set | exact H].
Qed.

Lemma build_module_map_values (roots : list string) (m fp : string) :
  In (m, fp) (build_module_map cwd files roots) ->
  In fp (Py.keys files) /\
  exists root, In root roots /\ Py.startswith fp root = true.
Proof.
  unfold build_module_map.
  apply fold_left_inv
    with (P := fun mm : Py.dict string =>
                 In (m, fp) mm ->
                 In fp (Py.keys files) /\
                 exists root, In root roots /\ Py.startswith fp root = true).
  - intros [].
  - intros mm p Hp IH.
    destruct (find (fun root => Py.startswith p root) roots) as [root|] eqn:Ef;
      [|exact IH].
    intros H; apply In_dict_set in H; destruct H as [H|H]; [|auto].
    inversion H; subst.
    apply find_some in Ef; destruct Ef as [Hr Hs]; split; [exact Hp | eauto].
Qed.

End ProvenanceProofs.

(* ================================================================== *)
(** * What one analysed module adds *)

Section Growth.

Variable cwd : list string.
Variable ast_parse : string -> option Module_.
Variable RADON_AVAILABLE : bool.
Variable cc_visit : string -> option (list Block).
Variable is_stdlib : string -> bool.
Variable files : Py.dict string.
Variable symbol_level : bool.

Lemma fold_left_reaches {A B : Type} (Q : A -> Prop) (f : A -> B -> A) (l : list B)
  (x : B) :
  In x l -> (forall a, Q (f a x)) -> (forall a y, Q a -> Q (f a y)) ->
  forall a, Q (fold_left f l a).
Proof.
  intros Hin Hx Hkeep; induction l as [|y l IH]; [contradiction|].
  intros a; simpl; destruct Hin as [->|Hin].
  - apply fold_left_inv; [apply Hx | intros; now apply Hkeep].
  - now apply IH.
Qed.

(** The nodes after one analysed module: its own node, then its symbol
    nodes when symbol-level detail is on and the block list is not empty. *)
Lemma analyze_parsed_nodes (b : Builder) (mid fp code : string) (tree : Module_)
  (cx : ComplexityMetrics) (bl : list Block) :
  nodes (analyze_parsed is_stdlib symbol_level b mid fp code tree (cx, bl))
  = nodes b
    ++ [mkGraphNode mid "module" fp (get_top_module mid)
          (StatsOf (module_stats code tree
                      (Py.join "." (removelast (Py.split "." mid))) cx)) None]
    ++ (if symbol_level && negb (match bl with [] => true | _ => false end)
        then map (symbol_node mid fp (map_symbol_complexities bl)) (extract_symbols tree)
        else []).
Proof.
  unfold analyze_parsed.
  match goal with
  | |- context [call_edges ?m ?c ?i (import_edges ?s ?m ?i ?b0)] =>
      pose proof (adds_edges_from_trans (import_edges_frame s m i b0)
                    (call_edges_frame m c i (import_edges s m i b0)))
        as (N & _)
  end.
  destruct (symbol_level && _).
  - match goal with
    | |- nodes (symbol_nodes ?m ?f ?sy ?sc ?b0) = _ =>
        destruct (symbol_nodes_frame m f sy sc b0) as (N4 & _)
    end.
    rewrite N4, N; simpl; rewrite <- app_assoc; reflexivity.
  - rewrite N; simpl; reflexivity.
Qed.

Lemma analyze_parsed_edges_keep (b : Builder) (mid fp code : string) (tree : Module_)
  (metrics : ComplexityMetrics * list Block) (e : GraphEdge) :
  In e (edges b) ->
  In e (edges (analyze_parsed is_stdlib symbol_level b mid fp code tree metrics)).
Proof.
  intros He; unfold analyze_parsed; destruct metrics as [cx bl].
  match goal with
  | |- context [call_edges ?m ?c ?i (import_edges ?s ?m ?i ?b0)] =>
      pose proof (adds_edges_from_trans (import_edges_frame s m i b0)
                    (call_edges_frame m c i (import_edges s m i b0)))
        as (_ & _ & _ & K & _)
  end.
  destruct (symbol_level && _).
  - match goal with
    | |- In e (edges (symbol_nodes ?m ?f ?sy ?sc ?b0)) =>
        destruct (symbol_nodes_frame m f sy sc b0) as (_ & _ & _ & E4)
    end.
    apply E4; left; apply K; exact He.
  - apply K; exact He.
Qed.

(** The [defines] edges of the symbol loop are in the edge set. *)
Lemma analyze_parsed_defines (b : Builder) (mid fp code : string) (tree : Module_)
  (cx : ComplexityMetrics) (bl : list Block) (sym : string * string * nat) :
  symbol_level = true -> bl <> [] -> In sym (extract_symbols tree) ->
  In (mid, id (symbol_node mid fp (map_symbol_complexities bl) sym), "defines")
     (edges (analyze_parsed is_stdlib symbol_level b mid fp code tree (cx, bl))).
Proof.
  intros Hsl Hbl Hsym; unfold analyze_parsed; rewrite Hsl.
  destruct bl as [|blk bl']; [congruence|]; simpl andb; cbv iota.
  match goal with
  | |- In _ (edges (symbol_nodes ?m ?f ?sy ?sc ?b0)) =>
      destruct (symbol_nodes_frame m f sy sc b0) as (_ & _ & _ & E4)
  end.
  apply E4; right; exists sym; split; [exact Hsym | reflexivity].
Qed.

Lemma analyze_module_keeps (b : Builder) (item : string * string) :
  (forall n, In n (nodes b) ->
             In n (nodes (analyze_module ast_parse RADON_AVAILABLE cc_visit is_stdlib
                            files symbol_level b item))) /\
  (forall e, In e (edges b) ->
             In e (edges (analyze_module ast_parse RADON_AVAILABLE cc_visit is_stdlib
                            files symbol_level b item))).
Proof.
  destruct item as [mid fp]; unfold analyze_module.
  destruct (ast_parse _) as [tree|]; [|split; auto].
  split.
  - intros n Hn.
    destruct (calculate_module_complexity RADON_AVAILABLE cc_visit _) as [cx bl].
    rewrite analyze_parsed_nodes, in_app_iff; now left.
  - intros e; apply analyze_parsed_edges_keep.
Qed.

Lemma add_external_nodes_keeps (b : Builder) :
  (forall n, In n (nodes b) -> In n (nodes (_add_external_nodes b))) /\
  (forall e, In e (edges b) -> In e (edges (_add_external_nodes b))) /\
  module_details (_add_external_nodes b) = module_details b.
Proof.
  unfold _add_external_nodes.
  apply fold_left_inv
    with (P := fun a => (forall n, In n (nodes b) -> In n (nodes a)) /\
                        (forall e, In e (edges b) -> In e (edges a)) /\
                        module_details a = module_details b).
  - auto.
  - intros a ext_pkg _ (Hn & He & Hd); simpl; split; [|split].
    + intros n H; rewrite in_app_iff; left; auto.
    + intros e H; apply external_edges_keeps; auto.
    + exact Hd.
Qed.

End Growth.

(* ================================================================== *)
(** * The bounds the model gives the layout loops are not reached *)

Section LayoutTotal.

Import Layout.

Variable all_nodes : list string.

Lemma filter_length_incl {A : Type} (p q : A -> bool) (l : list A) :
  (forall x, In x l -> q x = true -> p x = true) ->
  List.length (filter q l) <= List.length (filter p l).
Proof.
  induction l as [|a l IH]; intros H; simpl; [lia|].
  assert (IH' : List.length (filter q l) <= List.length (filter p l)).
  { apply IH; intros x Hx; apply H; now right. }
  destruct (q a) eqn:Eq.
  - rewrite (H a (or_introl eq_refl) Eq); simpl; lia.
  - destruct (p a); simpl; lia.
Qed.

Lemma filter_length_strict {A : Type} (p q : A -> bool) (l : list A) (a : A) :
  (forall x, In x l -> q x = true -> p x = true) ->
  In a l -> p a = true -> q a = false ->
  List.length (filter q l) < List.length (filter p l).
Proof.
  induction l as [|b l IH]; intros H Hin Hp Hq; [contradiction|]; simpl.
  assert (Hsub : forall x, In x l -> q x = true -> p x = true).
  { intros x Hx; apply H; now right. }
  destruct Hin as [->|Hin].
  - rewrite Hp, Hq; simpl.
    pose proof (filter_length_incl p q l Hsub); lia.
  - specialize (IH Hsub Hin Hp Hq).
    destruct (q b) eqn:Eq.
    + rewrite (H b (or_introl eq_refl) Eq); simpl; lia.
    + destruct (p b); simpl; lia.
Qed.

Lemma unvisited_le_length (v : list string) :
  unvisited all_nodes v <= List.length all_nodes.
Proof. unfold unvisited; apply List.filter_length_le. Qed.

Lemma unvisited_mono (v v' : list string) :
  (forall x, In x v -> In x v') -> unvisited all_nodes v' <= unvisited all_nodes v.
Proof.
  intros H; unfold unvisited; apply filter_length_incl.
  intros x _ Hx; apply negb_true_iff in Hx; apply negb_true_iff.
  apply mem_false; apply mem_false in Hx; auto.
Qed.

Lemma unvisited_add (x : string) (v : list string) :
  In x all_nodes -> ~ In x v ->
  unvisited all_nodes (Py.set_add x v) < unvisited all_nodes v.
Proof.
  intros Hx Hv; unfold unvisited; apply filter_length_strict with (a := x).
  - intros y _ Hy; apply negb_true_iff in Hy; apply negb_true_iff.
    apply mem_false; apply mem_false in Hy.
    intros H; apply Hy; apply In_set_add; now right.
  - exact Hx.
  - apply negb_true_iff; now apply mem_false.
  - apply negb_false_iff; apply mem_In; apply In_set_add; now left.
Qed.

Lemma adj_closed (graph : Py.dict (list string)) (node x : string) :
  closed_in all_nodes graph -> In x (adj graph node) -> In x all_nodes.
Proof.
  intros Hc; unfold adj, Py.dict_get_default.
  destruct (Py.dict_get graph node) as [l|] eqn:E; [|intros []].
  intros Hx; exact (Hc node l x (dict_get_In _ _ E) Hx).
Qed.

Lemma In_dd_add_entry (d : Py.dict (list string)) (k x k' : string) (l' : list string) :
  In (k', l') (Py.dd_add d k x) ->
  In (k', l') d \/ (forall y, In y l' -> y = x \/ exists l, In (k, l) d /\ In y l).
Proof.
  unfold Py.dd_add; destruct (Py.dict_get d k) as [l|] eqn:E; intros H;
    apply In_dict_set in H; destruct H as [H|H]; auto; right; inversion H; subst.
  - intros y Hy; apply In_set_add in Hy; destruct Hy as [->|Hy]; [now left|].
    right; exists l; split; [now apply dict_get_In | exact Hy].
  - intros y [->|[]]; now left.
Qed.

Lemma build_graphs_closed (es : list GraphEdge) :
  closed_in all_nodes (fst (build_graphs all_nodes es)) /\
  closed_in all_nodes (snd (build_graphs all_nodes es)).
Proof.
  unfold build_graphs.
  apply fold_left_inv
    with (P := fun gs : Py.dict (list string) * Py.dict (list string) =>
                 closed_in all_nodes (fst gs) /\ closed_in all_nodes (snd gs)).
  - split; intros k l x [].
  - intros [g r] [[src dst] ty] _ [Hg Hr]; simpl in Hg, Hr.
    destruct (layout_edge_type ty && Py.mem src all_nodes && Py.mem dst all_nodes)
      eqn:E; [|split; assumption].
    apply andb_true_iff in E; destruct E as [E Hdst].
    apply andb_true_iff in E; destruct E as [_ Hsrc].
    apply mem_In in Hsrc, Hdst; simpl; split; intros k l x Hin Hx;
      apply In_dd_add_entry in Hin; destruct Hin as [Hin|Hin].
    + exact (Hg k l x Hin Hx).
    + destruct (Hin x Hx) as [->|[l0 [H1 H2]]]; [exact Hdst | exact (Hg _ _ _ H1 H2)].
    + exact (Hr k l x Hin Hx).
    + destruct (Hin x Hx) as [->|[l0 [H1 H2]]]; [exact Hsrc | exact (Hr _ _ _ H1 H2)].
Qed.

(** ** The first pass *)

Lemma dfs1_total (graph : Py.dict (list string)) :
  closed_in all_nodes graph ->
  forall fuel node st,
    unvisited all_nodes (Py.set_add node (fst st)) <= fuel ->
    exists st', dfs1 (S fuel) graph node st = Some st' /\
                (forall x, In x (Py.set_add node (fst st)) -> In x (fst st')).
Proof.
  intros Hclosed; induction fuel as [|fuel IH]; intros node st Hfuel.
  - (* no unvisited node is left: every neighbour is visited *)
    simpl.
    set (st1 := (Py.set_add node (fst st), snd st)).
    assert (Hfold : forall l (st0 : list string * list string),
               (forall x, In x l -> In x all_nodes) ->
               (forall x, In x (fst st1) -> In x (fst st0)) ->
               fold_left
                 (fun ost neighbor =>
                    match ost with
                    | Some st2 => if Py.mem neighbor (fst st2) then Some st2 else None
                    | None => None
                    end) l (Some st0) = Some st0).
    { induction l as [|nb l IHl]; intros st0 Hl Hsub; simpl; [reflexivity|].
      destruct (Py.mem nb (fst st0)) eqn:E; [apply IHl; auto; intros; apply Hl; now right|].
      apply mem_false in E.
      pose proof (@unvisited_add nb (fst st0) (Hl nb (or_introl eq_refl)) E) as H1.
      pose proof (@unvisited_mono (fst st1) (fst st0) Hsub) as H2.
      simpl in H2; lia. }
    rewrite (Hfold (adj graph node) st1).
    + eexists; split; [reflexivity | simpl; auto].
    + intros x Hx; exact (@adj_closed _ _ x Hclosed Hx).
    + auto.
  - change (dfs1 (S (S fuel)) graph node st)
      with (let st1 := (Py.set_add node (fst st), snd st) in
            match
              fold_left
                (fun ost neighbor =>
                   match ost with
                   | Some st2 =>
                       if Py.mem neighbor (fst st2) then Some st2
                       else dfs1 (S fuel) graph neighbor st2
                   | None => None
                   end) (adj graph node) (Some st1)
            with
            | Some st2 => Some (fst st2, snd st2 ++ [node])
            | None => None
            end).
    cbv zeta.
    set (st1 := (Py.set_add node (fst st), snd st)).
    assert (Hfold : forall l (st0 : list string * list string),
               (forall x, In x l -> In x all_nodes) ->
               (forall x, In x (fst st1) -> In x (fst st0)) ->
               exists st2,
                 fold_left
                   (fun ost neighbor =>
                      match ost with
                      | Some st3 =>
                          if Py.mem neighbor (fst st3) then Some st3
                          else dfs1 (S fuel) graph neighbor st3
                      | None => None
                      end) l (Some st0) = Some st2 /\
                 (forall x, In x (fst st0) -> In x (fst st2))).
    { induction l as [|nb l IHl]; intros st0 Hl Hsub; cbn [fold_left]; [eauto|].
      destruct (Py.mem nb (fst st0)) eqn:E.
      - apply IHl; auto; intros; apply Hl; now right.
      - apply mem_false in E.
        pose proof (@unvisited_add nb (fst st0) (Hl nb (or_introl eq_refl)) E) as H1.
        pose proof (@unvisited_mono (fst st1) (fst st0) Hsub) as H2.
        simpl in H2.
        destruct (IH nb st0) as [st' [Hdfs Hmono]]; [lia|].
        rewrite Hdfs.
        destruct (IHl st') as [st2 [Hf Hm2]].
        + intros; apply Hl; now right.
        + intros x Hx; apply Hmono, In_set_add; right; auto.
        + exists st2; split; [exact Hf|].
          intros x Hx; apply Hm2, Hmono, In_set_add; now right. }
    destruct (Hfold (adj graph node) st1) as [st2 [Hf Hm]].
    + intros x Hx; exact (@adj_closed _ _ x Hclosed Hx).
    + auto.
    + rewrite Hf; eexists; split; [reflexivity | simpl; auto].
Qed.

Lemma first_pass_total (graph : Py.dict (list string)) :
  closed_in all_nodes graph -> exists order, first_pass graph all_nodes = Some order.
Proof.
  intros Hclosed; unfold first_pass.
  assert (H : forall l (st : list string * list string),
             exists st',
               fold_left
                 (fun ost node =>
                    match ost with
                    | Some st0 =>
                        if Py.mem node (fst st0) then Some st0
                        else dfs1 (S (List.length all_nodes)) graph node st0
                    | None => None
                    end) l (Some st) = Some st').
  { induction l as [|n l IHl]; intros st; cbn [fold_left]; [eauto|].
    destruct (Py.mem n (fst st)); [apply IHl|].
    destruct (@dfs1_total graph Hclosed (List.length all_nodes) n st) as [st' [E _]];
      [apply unvisited_le_length|].
    rewrite E; apply IHl. }
  destruct (H all_nodes ([], [])) as [st' E]; rewrite E; simpl; eauto.
Qed.

(** ** The second pass *)

Lemma dfs2_total (reverse_graph : Py.dict (list string)) (cid : nat) :
  closed_in all_nodes reverse_graph ->
  forall fuel node st,
    unvisited all_nodes (Py.set_add node (fst st)) <= fuel ->
    exists st', dfs2 (S fuel) reverse_graph node cid st = Some st' /\
                (forall x, In x (Py.set_add node (fst st)) -> In x (fst st')).
Proof.
  intros Hclosed; induction fuel as [|fuel IH]; intros node st Hfuel.
  - simpl.
    set (st1 := (Py.set_add node (fst st), Py.dict_set (snd st) node cid)).
    assert (Hfold : forall l (st0 : list string * Py.dict nat),
               (forall x, In x l -> In x all_nodes) ->
               (forall x, In x (fst st1) -> In x (fst st0)) ->
               fold_left
                 (fun ost neighbor =>
                    match ost with
                    | Some st2 => if Py.mem neighbor (fst st2) then Some st2 else None
                    | None => None
                    end) l (Some st0) = Some st0).
    { induction l as [|nb l IHl]; intros st0 Hl Hsub; simpl; [reflexivity|].
      destruct (Py.mem nb (fst st0)) eqn:E; [apply IHl; auto; intros; apply Hl; now right|].
      apply mem_false in E.
      pose proof (@unvisited_add nb (fst st0) (Hl nb (or_introl eq_refl)) E) as H1.
      pose proof (@unvisited_mono (fst st1) (fst st0) Hsub) as H2.
      simpl in H2; lia. }
    rewrite (Hfold (adj reverse_graph node) st1).
    + eexists; split; [reflexivity | simpl; auto].
    + intros x Hx; exact (@adj_closed _ _ x Hclosed Hx).
    + auto.
  - change (dfs2 (S (S fuel)) reverse_graph node cid st)
      with (let st1 := (Py.set_add node (fst st), Py.dict_set (snd st) node cid) in
            fold_left
              (fun ost neighbor =>
                 match ost with
                 | Some st2 =>
                     if Py.mem neighbor (fst st2) then Some st2
                     else dfs2 (S fuel) reverse_graph neighbor cid st2
                 | None => None
                 end) (adj reverse_graph node) (Some st1)).
    cbv zeta.
    set (st1 := (Py.set_add node (fst st), Py.dict_set (snd st) node cid)).
    assert (Hfold : forall l (st0 : list string * Py.dict nat),
               (forall x, In x l -> In x all_nodes) ->
               (forall x, In x (fst st1) -> In x (fst st0)) ->
               exists st2,
                 fold_left
                   (fun ost neighbor =>
                      match ost with
                      | Some st3 =>
                          if Py.mem neighbor (fst st3) then Some st3
                          else dfs2 (S fuel) reverse_graph neighbor cid st3
                      | None => None
                      end) l (Some st0) = Some st2 /\
                 (forall x, In x (fst st0) -> In x (fst st2))).
    { induction l as [|nb l IHl]; intros st0 Hl Hsub; cbn [fold_left]; [eauto|].
      destruct (Py.mem nb (fst st0)) eqn:E.
      - apply IHl; auto; intros; apply Hl; now right.
      - apply mem_false in E.
        pose proof (@unvisited_add nb (fst st0) (Hl nb (or_introl eq_refl)) E) as H1.
        pose proof (@unvisited_mono (fst st1) (fst st0) Hsub) as H2.
        simpl in H2.
        destruct (IH nb st0) as [st' [Hdfs Hmono]]; [lia|].
        rewrite Hdfs.
        destruct (IHl st') as [st2 [Hf Hm2]].
        + intros; apply Hl; now right.
        + intros x Hx; apply Hmono, In_set_add; right; auto.
        + exists st2; split; [exact Hf|].
          intros x Hx; apply Hm2, Hmono, In_set_add; now right. }
    destruct (Hfold (adj reverse_graph node) st1) as [st2 [Hf Hm]].
    + intros x Hx; exact (@adj_closed _ _ x Hclosed Hx).
    + auto.
    + exists st2; split; [exact Hf | auto].
Qed.

Lemma second_pass_total (reverse_graph : Py.dict (list string)) (order : list string) :
  closed_in all_nodes reverse_graph ->
  exists cc, second_pass reverse_graph all_nodes order = Some cc.
Proof.
  intros Hclosed; unfold second_pass.
  match goal with
  | |- exists cc, option_map _ (fold_left ?f (rev order) ?init) = Some cc =>
      assert (H : forall l st, exists st', fold_left f l (Some st) = Some st');
      [|assert (Hx : exists st', fold_left f (rev order) init = Some st')
          by apply H;
        destruct Hx as [[[v c] n] Hx]; rewrite Hx; simpl; eauto]
  end.
  induction l as [|n l IHl]; intros [[visited component] comp_id]; cbn [fold_left];
    [eauto|].
  destruct (Py.mem n visited); [apply IHl|].
  destruct (@dfs2_total reverse_graph comp_id Hclosed (List.length all_nodes) n
              (visited, component)) as [[v' c'] [E _]];
    [apply unvisited_le_length|].
  rewrite E; apply IHl.
Qed.

End LayoutTotal.

(** ** The queue loop *)

Lemma pending_nset_decrement (in_degree : list (nat * Z)) (k : nat) :
  let in_degree' :=
    Layout.nset in_degree k (Layout.nget_default in_degree k 0 - 1)%Z in
  Layout.pending in_degree'
  + (if (Layout.nget_default in_degree' k 0 =? 0)%Z then 1 else 0)
  <= Layout.pending in_degree.
Proof.
  cbv zeta; unfold Layout.nget_default.
  induction in_degree as [|[k' v] d IH]; simpl.
  - rewrite Nat.eqb_refl; simpl; lia.
  - destruct (Nat.eqb k k') eqn:E; simpl.
    + rewrite Nat.eqb_refl; simpl.
      destruct (v - 1 =? 0)%Z eqn:Ez; [apply Z.eqb_eq in Ez|]; lia.
    + rewrite E; lia.
Qed.

Lemma relax_measure (comp_graph : list (nat * list nat)) (c : nat)
  (comp_depth : list (nat * nat)) (in_degree : list (nat * Z)) (queue : list nat) :
  let '(_, in_degree', queue') :=
    Layout.relax comp_graph c (comp_depth, in_degree, queue) in
  List.length queue' + Layout.pending in_degree'
  <= List.length queue + Layout.pending in_degree.
Proof.
  unfold Layout.relax.
  generalize (Layout.nget_default comp_graph c []); intros neighbors.
  revert comp_depth in_degree queue.
  induction neighbors as [|n neighbors IH]; intros comp_depth in_degree queue; simpl.
  - lia.
  - pose proof (pending_nset_decrement in_degree n) as Hdec; cbv zeta in Hdec.
    destruct (Layout.nget_default
                (Layout.nset in_degree n (Layout.nget_default in_degree n 0 - 1)%Z) n 0
              =? 0)%Z.
    + match goal with
      | |- context [fold_left ?f neighbors (?d, ?i, ?q)] =>
          specialize (IH d i q); destruct (fold_left f neighbors (d, i, q)) as [[d' i'] q']
      end.
      rewrite length_app in IH; simpl in IH; lia.
    + match goal with
      | |- context [fold_left ?f neighbors (?d, ?i, ?q)] =>
          specialize (IH d i q); destruct (fold_left f neighbors (d, i, q)) as [[d' i'] q']
      end.
      lia.
Qed.

Lemma kahn_total (comp_graph : list (nat * list nat)) :
  forall fuel comp_depth in_degree queue,
    List.length queue + Layout.pending in_degree < fuel ->
    exists depths,
      Layout.kahn fuel comp_graph (comp_depth, in_degree, queue) = Some depths.
Proof.
  induction fuel as [|fuel IH]; intros comp_depth in_degree queue Hfuel; [lia|].
  simpl; destruct queue as [|c queue]; [eauto|].
  pose proof (relax_measure comp_graph c comp_depth in_degree queue) as Hm.
  destruct (Layout.relax comp_graph c (comp_depth, in_degree, queue)) as [[d' i'] q'].
  apply IH; simpl in Hfuel; lia.
Qed.

(** The depth computation of the model does not reach its bounds. *)
Lemma layout_depths_total (all_nodes : list string) (es : list GraphEdge)
  (ns : list GraphNode) :
  exists depths, Layout.layout_depths all_nodes es ns = Some depths.
Proof.
  unfold Layout.layout_depths.
  destruct (build_graphs_closed all_nodes es) as [Hg Hr].
  destruct (Layout.build_graphs all_nodes es) as [graph reverse_graph]; simpl in Hg, Hr.
  destruct (first_pass_total Hg) as [order ->].
  destruct (second_pass_total order Hr) as [[component comp_id] ->].
  unfold Layout.comp_depths.
  match goal with
  | |- context [Layout.kahn (S ?f) ?g (?d, ?i, ?q)] =>
      destruct (@kahn_total g (S f) d i q) as [depths ->]; [lia|]
  end.
  simpl; eauto.
Qed.

Lemma calculate_layout_total (ns : list GraphNode) (es : list GraphEdge) :
  exists depths, Layout._calculate_layout ns es = Some depths.
Proof.
  unfold Layout._calculate_layout; destruct es as [|e es]; [eauto|].
  apply layout_depths_total.
Qed.

(** The artifact [build] describes has its [layout_depth] filled.  This
    is a fact of the bound the model gives the searches, not of the
    recursion limit of the interpreter, for which see [run_build]. *)
Lemma build_layout_total
  (cwd : list string) (ast_parse : string -> option Module_) (RADON_AVAILABLE : bool)
  (cc_visit : string -> option (list Block)) (is_stdlib : string -> bool)
  (files : Py.dict string) (symbol_level : bool) :
  exists depths,
    art_layout_depth
      (build cwd ast_parse RADON_AVAILABLE cc_visit is_stdlib files symbol_level)
    = Some depths.
Proof. unfold build; simpl; apply calculate_layout_total. Qed.

(* ================================================================== *)
(** * Runs that return and runs that do not *)

Lemma fold_left_stuck {S A : Type} (F : option S -> A -> option S) (l : list A) :
  (forall a, F None a = None) -> fold_left F l None = None.
Proof. intros H; induction l as [|a l IH]; simpl; [reflexivity | now rewrite H]. Qed.

(** Two loops over the same list, the second of which succeeds wherever
    the first one does. *)
Lemma fold_left_step_impl {S A : Type} (F G : option S -> A -> option S) :
  (forall a, F None a = None) ->
  (forall s a r, F (Some s) a = Some r -> G (Some s) a = Some r) ->
  forall l ost r, fold_left F l ost = Some r -> fold_left G l ost = Some r.
Proof.
  intros Hnone Hstep; induction l as [|a l IH]; intros ost r H; simpl in *; [exact H|].
  destruct ost as [s|].
  - destruct (F (Some s) a) as [s'|] eqn:E.
    + rewrite (Hstep _ _ _ E); apply IH; exact H.
    + rewrite (fold_left_stuck F l Hnone) in H; discriminate.
  - rewrite Hnone, (fold_left_stuck F l Hnone) in H; discriminate.
Qed.

(** A search that returns within some number of nested calls returns the
    same with more of them allowed. *)
Lemma dfs1_more_fuel (graph : Py.dict (list string)) :
  forall fuel node st r,
    Layout.dfs1 fuel graph node st = Some r ->
    Layout.dfs1 (S fuel) graph node st = Some r.
Proof.
  induction fuel as [|fuel IH]; intros node st r H; [discriminate|].
  change (Layout.dfs1 (S (S fuel)) graph node st)
    with (let st1 := (Py.set_add node (fst st), snd st) in
          match
            fold_left
              (fun ost neighbor =>
                 match ost with
                 | Some st2 =>
                     if Py.mem neighbor (fst st2) then Some st2
                     else Layout.dfs1 (S fuel) graph neighbor st2
                 | None => None
                 end) (Layout.adj graph node) (Some st1)
          with
          | Some st2 => Some (fst st2, snd st2 ++ [node])
          | None => None
          end).
  simpl in H; cbv zeta.
  match type of H with
  | match fold_left ?F ?l ?init with _ => _ end = _ =>
      destruct (fold_left F l init) as [st2|] eqn:E; [|discriminate];
      erewrite (@fold_left_step_impl _ _ F); [exact H | | | exact E]
  end.
  - reflexivity.
  - intros s a r0; cbv beta.
    destruct (Py.mem a (fst s)); [auto | apply IH].
Qed.

Lemma dfs1_fuel_le (graph : Py.dict (list string)) (node : string)
  (st r : list string * list string) (fuel fuel' : nat) :
  fuel <= fuel' ->
  Layout.dfs1 fuel graph node st = Some r -> Layout.dfs1 fuel' graph node st = Some r.
Proof.
  induction 1 as [|fuel' _ IH]; intros H; [exact H|].
  apply dfs1_more_fuel, IH, H.
Qed.

Lemma dfs2_more_fuel (reverse_graph : Py.dict (list string)) (cid : nat) :
  forall fuel node st r,
    Layout.dfs2 fuel reverse_graph node cid st = Some r ->
    Layout.dfs2 (S fuel) reverse_graph node cid st = Some r.
Proof.
  induction fuel as [|fuel IH]; intros node st r H; [discriminate|].
  change (Layout.dfs2 (S (S fuel)) reverse_graph node cid st)
    with (let st1 := (Py.set_add node (fst st), Py.dict_set (snd st) node cid) in
          fold_left
            (fun ost neighbor =>
               match ost with
               | Some st2 =>
                   if Py.mem neighbor (fst st2) then Some st2
                   else Layout.dfs2 (S fuel) reverse_graph neighbor cid st2
               | None => None
               end) (Layout.adj reverse_graph node) (Some st1)).
  simpl in H; cbv zeta.
  match type of H with
  | fold_left ?F ?l ?init = _ =>
      apply (@fold_left_step_impl _ _ F); [ | | exact H]
  end.
  - reflexivity.
  - intros s a r0; cbv beta.
    destruct (Py.mem a (fst s)); [auto | apply IH].
Qed.

Lemma dfs2_fuel_le (reverse_graph : Py.dict (list string)) (cid : nat) (node : string)
  (st r : list string * Py.dict nat) (fuel fuel' : nat) :
  fuel <= fuel' ->
  Layout.dfs2 fuel reverse_graph node cid st = Some r ->
  Layout.dfs2 fuel' reverse_graph node cid st = Some r.
Proof.
  induction 1 as [|fuel' _ IH]; intros H; [exact H|].
  apply dfs2_more_fuel, IH, H.
Qed.

Section WithinLimit.

Variable all_nodes : list string.
Variable limit : nat.

(** Where the search returns, it returns what the search bounded by the
    number of nodes returns: that one never reaches its bound. *)
Lemma dfs1_within_limit (graph : Py.dict (list string)) (node : string)
  (st r : list string * list string) :
  closed_in all_nodes graph ->
  Layout.dfs1 limit graph node st = Some r ->
  Layout.dfs1 (S (List.length all_nodes)) graph node st = Some r.
Proof.
  intros Hc H.
  destruct (Nat.le_gt_cases limit (S (List.length all_nodes))) as [Hle|Hgt].
  - exact (dfs1_fuel_le _ _ _ Hle H).
  - destruct (@dfs1_total all_nodes graph Hc (List.length all_nodes) node st)
      as [r' [E _]]; [apply unvisited_le_length|].
    assert (Hle : S (List.length all_nodes) <= limit) by lia.
    pose proof (dfs1_fuel_le _ _ _ Hle E) as E'.
    congruence.
Qed.

Lemma dfs2_within_limit (reverse_graph : Py.dict (list string)) (cid : nat)
  (node : string) (st r : list string * Py.dict nat) :
  closed_in all_nodes reverse_graph ->
  Layout.dfs2 limit reverse_graph node cid st = Some r ->
  Layout.dfs2 (S (List.length all_nodes)) reverse_graph node cid st = Some r.
Proof.
  intros Hc H.
  destruct (Nat.le_gt_cases limit (S (List.length all_nodes))) as [Hle|Hgt].
  - exact (dfs2_fuel_le _ _ _ _ Hle H).
  - destruct (@dfs2_total all_nodes reverse_graph cid Hc (List.length all_nodes) node st)
      as [r' [E _]]; [apply unvisited_le_length|].
    assert (Hle : S (List.length all_nodes) <= limit) by lia.
    pose proof (dfs2_fuel_le _ _ _ _ Hle E) as E'.
    congruence.
Qed.

Lemma first_pass_within_limit (graph : Py.dict (list string)) (order : list string) :
  closed_in all_nodes graph ->
  first_pass_within limit graph all_nodes = Some order ->
  Layout.first_pass graph all_nodes = Some order.
Proof.
  intros Hc; unfold first_pass_within, Layout.first_pass.
  match goal with
  | |- option_map _ (fold_left ?F ?l ?init) = _ -> _ =>
      destruct (fold_left F l init) as [st|] eqn:E; [|discriminate];
      intros H; erewrite (@fold_left_step_impl _ _ F); [exact H | | | exact E]
  end.
  - reflexivity.
  - intros s a r; cbv beta.
    destruct (Py.mem a (fst s)); [auto | apply dfs1_within_limit, Hc].
Qed.

Lemma second_pass_within_limit (reverse_graph : Py.dict (list string))
  (order : list string) (cc : Py.dict nat * nat) :
  closed_in all_nodes reverse_graph ->
  second_pass_within limit reverse_graph order = Some cc ->
  Layout.second_pass reverse_graph all_nodes order = Some cc.
Proof.
  intros Hc; unfold second_pass_within, Layout.second_pass.
  match goal with
  | |- option_map _ (fold_left ?F ?l ?init) = _ -> _ =>
      destruct (fold_left F l init) as [st|] eqn:E; [|discriminate];
      intros H; erewrite (@fold_left_step_impl _ _ F); [exact H | | | exact E]
  end.
  - reflexivity.
  - intros [[visited component] comp_id] a r; cbv beta iota.
    destruct (Py.mem a visited); [auto|].
    destruct (Layout.dfs2 limit reverse_graph a comp_id (visited, component))
      as [r'|] eqn:E2; [|discriminate].
    rewrite (dfs2_within_limit _ _ _ Hc E2); auto.
Qed.



Lemma layout_depths_within_limit (es : list GraphEdge) (ns : list GraphNode)
  (depths : Py.dict nat) :
  layout_depths_within limit all_nodes es ns = Some depths ->
  Layout.layout_depths all_nodes es ns = Some depths.
Proof.
  unfold layout_depths_within, Layout.layout_depths.
  destruct (build_graphs_closed all_nodes es) as [Hg Hr].
  destruct (Layout.build_graphs all_nodes es) as [graph reverse_graph]; simpl in Hg, Hr.
  destruct (first_pass_within limit graph all_nodes) as [order|] eqn:E1; [|discriminate].
  rewrite (first_pass_within_limit Hg E1).
  destruct (second_pass_within limit reverse_graph order) as [[component comp_id]|] eqn:E2;
    [|discriminate].
  rewrite (second_pass_within_limit _ Hr E2); auto.
Qed.


End WithinLimit.

Lemma calculate_layout_within_limit (limit : nat) (ns : list GraphNode)
  (es : list GraphEdge) (depths : Py.dict nat) :
  _calculate_layout_within limit ns es = Some depths ->
  Layout._calculate_layout ns es = Some depths.
Proof.
  unfold _calculate_layout_within, Layout._calculate_layout.
  destruct es as [|e es]; [auto | apply layout_depths_within_limit].
Qed.


Lemma analysis_raises_false (parse : string -> ParseOutcome) (files : Py.dict string)
  (mm : Py.dict string) :
  analysis_raises parse files mm = false <->
  (forall m fp, In (m, fp) mm -> parse (code_of files fp) <> RaisesOther).
Proof.
  unfold analysis_raises; induction mm as [|[m0 fp0] mm IH]; simpl.
  - split; [intros _ m fp [] | reflexivity].
  - rewrite orb_false_iff, IH; split.
    + intros [H0 H] m fp [E|Hin]; [|exact (H m fp Hin)].
      inversion E; subst; intros Hp; rewrite Hp in H0; discriminate.
    + intros H; split; [|intros m fp Hin; apply (H m fp); now right].
      specialize (H m0 fp0 (or_introl eq_refl)).
      destruct (parse (code_of files fp0)); congruence.
Qed.

(* ================================================================== *)
(** * Modules that do not parse, files outside the roots, symbol nodes *)

Section ArtifactFacts.

Variable cwd : list string.
Variable ast_parse : string -> option Module_.
Variable RADON_AVAILABLE : bool.
Variable cc_visit : string -> option (list Block).
Variable is_stdlib : string -> bool.
Variable files : Py.dict string.
Variable symbol_level : bool.

Local Abbreviation assembled :=
  (assemble cwd ast_parse RADON_AVAILABLE cc_visit is_stdlib files symbol_level).
Local Abbreviation artifact :=
  (build cwd ast_parse RADON_AVAILABLE cc_visit is_stdlib files symbol_level).

Lemma assembled_module_map :
  module_map assembled = build_module_map cwd files (detect_roots files).
Proof.
  pose proof (assemble_provenance cwd ast_parse RADON_AVAILABLE cc_visit is_stdlib
                files symbol_level) as (H & _); exact H.
Qed.


Lemma artifact_provenance :
  provenance ast_parse RADON_AVAILABLE cc_visit files (module_map assembled) assembled.
Proof. rewrite assembled_module_map; apply assemble_provenance. Qed.

End ArtifactFacts.

Section RunBuild.

Variable limit : nat.
Variable cwd : list string.
Variable parse : string -> ParseOutcome.
Variable RADON_AVAILABLE : bool.
Variable cc_visit : string -> option (list Block).
Variable is_stdlib : string -> bool.
Variable files : Py.dict string.
Variable symbol_level : bool.

Local Abbreviation the_run :=
  (run_build limit cwd parse RADON_AVAILABLE cc_visit is_stdlib files symbol_level).
Local Abbreviation the_builder :=
  (assemble cwd (parsed_tree parse) RADON_AVAILABLE cc_visit is_stdlib files symbol_level).
Local Abbreviation the_artifact :=
  (build cwd (parsed_tree parse) RADON_AVAILABLE cc_visit is_stdlib files symbol_level).

(** The artifact of a run that returns is the one [build] describes. *)
Lemma finished_run_is_build (art : Artifact) :
  the_run = Finished art -> art = the_artifact.
Proof.
  unfold run_build, build, assemble.
  destruct (analysis_raises _ _ _); [discriminate|].
  match goal with
  | |- context [_calculate_layout_within limit ?ns ?es] =>
      destruct (_calculate_layout_within limit ns es) as [depths|] eqn:E; [|discriminate];
      rewrite (calculate_layout_within_limit _ _ _ E)
  end.
  intros H; injection H as <-; reflexivity.
Qed.

(** A source of the module table that raises something else than
    [SyntaxError] ends the run. *)
Lemma uncaught_exception_aborts (m fp : string) :
  In (m, fp) (module_map the_builder) ->
  parse (code_of files fp) = RaisesOther ->
  the_run = Aborted.
Proof.
  intros Hin Hp; unfold run_build.
  destruct (analysis_raises _ _ _) eqn:E; [reflexivity|].
  rewrite analysis_raises_false in E.
  rewrite assembled_module_map in Hin.
  exfalso; exact (E m fp Hin Hp).
Qed.


End RunBuild.




(** C1, a run that does not return: the one source holds a NUL byte, on
    which [ast.parse] raises [ValueError]. *)
Lemma nul_byte_aborts_the_run :
  map fst nul_files = ["a.py"] /\
  nul_parse (code_of nul_files "a.py") = RaisesOther /\
  forall limit,
    run_build limit srv nul_parse false no_radon is_stdlib_fallback nul_files false
    = Aborted.
Proof. split; [|split]; [reflexivity | reflexivity | intros limit; reflexivity]. Qed.

(** C1, a run that does not return: every source parses, the search
    nests three calls along the cycle [a -> b -> c -> a] and the
    interpreter has two left; with three it returns. *)
Lemma deep_search_aborts_the_run :
  run_build 2 srv (as_outcome s5_parse) false no_radon is_stdlib_fallback s5_files false
  = Aborted /\
  exists art,
    run_build 3 srv (as_outcome s5_parse) false no_radon is_stdlib_fallback s5_files false
    = Finished art.
Proof. split; [vm_compute; reflexivity | eexists; vm_compute; reflexivity]. Qed.


(** C2, at the input where the invariant breaks: [a.py] imports [b],
    [b.py] does not parse.  The import resolves to [b], which stays in the
    module table, so the edge [(a, b, imports)] is emitted while no node
    has the id [b]. *)
Theorem edge_to_unparsed_module_dangles :
  let art := build srv broken_parse false no_radon is_stdlib_fallback broken_files false in
  art_edges art = [("a", "b", "imports")] /\
  map id (art_nodes art) = ["a"] /\
  existsb (fun n => String.eqb (id n) "b") (art_nodes art) = false.
Proof. vm_compute; repeat split. Qed.

(** C10.  A file whose path starts with none of the detected roots gets no
    entry in the module table; the artifact has no module or symbol node
    and no [module_details] entry with its path, every edge starts from a
    module of another file, and its text is still in [file_contents]. *)
Theorem file_outside_roots_is_excluded
  (cwd : list string) (ast_parse : string -> option Module_) (RADON_AVAILABLE : bool)
  (cc_visit : string -> option (list Block)) (is_stdlib : string -> bool)
  (files : Py.dict string) (symbol_level : bool) (p code : string) :
  In (p, code) files ->
  (forall root, In root (detect_roots files) -> Py.startswith p root = false) ->
  let b := assemble cwd ast_parse RADON_AVAILABLE cc_visit is_stdlib files symbol_level in
  let art := build cwd ast_parse RADON_AVAILABLE cc_visit is_stdlib files symbol_level in
  (forall m fp, In (m, fp) (module_map b) -> fp <> p) /\
  (forall n, In n (art_nodes art) -> kind n <> "external" -> path n <> p) /\
  (forall m d, In (m, d) (art_module_details art) -> md_path d <> p) /\
  (forall s t ty, In (s, t, ty) (art_edges art) ->
                  exists fp, In (s, fp) (module_map b) /\ fp <> p) /\
  In (p, code) (art_file_contents art).
Proof.
  intros Hin Hroots b art.
  pose proof (artifact_provenance cwd ast_parse RADON_AVAILABLE cc_visit is_stdlib
                files symbol_level) as (_ & Hn & Hd & He).
  assert (Hmap : forall m fp, In (m, fp) (module_map b) -> fp <> p).
  { intros m fp H Heq; subst fp b.
    rewrite assembled_module_map in H.
    apply build_module_map_values in H; destruct H as [_ [root [Hr Hs]]].
    rewrite (Hroots root Hr) in Hs; discriminate. }
  split; [exact Hmap|]; split; [|split; [|split]].
  - intros n Hnode Hkind; simpl in Hnode.
    destruct (Hn n Hnode) as [Hext|[m [fp [tree [[Han _] [Hp _]]]]]]; [contradiction|].
    rewrite Hp; exact (Hmap _ _ Han).
  - intros m d Hmd; simpl in Hmd.
    destruct (Hd _ _ Hmd) as [fp [tree [[Han _] ->]]]; simpl; exact (Hmap _ _ Han).
  - intros s t ty Hedge; simpl in Hedge; rewrite In_sorted_edges in Hedge.
    destruct (He _ _ _ Hedge) as [fp [tree [Han _]]]; exists fp; split;
      [exact Han | exact (Hmap _ _ Han)].
  - exact Hin.
Qed.

Lemma file_outside_roots_is_excluded_witness :
  let b := assemble srv empty_parse false no_radon is_stdlib_fallback
             src_and_setup_files false in
  let art := build srv empty_parse false no_radon is_stdlib_fallback
               src_and_setup_files false in
  detect_roots src_and_setup_files = ["src"] /\
  (forall m fp, In (m, fp) (module_map b) -> fp <> "setup.py") /\
  (forall n, In n (art_nodes art) -> kind n <> "external" -> path n <> "setup.py") /\
  (forall m d, In (m, d) (art_module_details art) -> md_path d <> "setup.py") /\
  (forall s t ty, In (s, t, ty) (art_edges art) ->
                  exists fp, In (s, fp) (module_map b) /\ fp <> "setup.py") /\
  In ("setup.py", "") (art_file_contents art).
Proof.
  split; [reflexivity|].
  apply (@file_outside_roots_is_excluded srv empty_parse false no_radon
           is_stdlib_fallback src_and_setup_files false "setup.py" "").
  - right; left; reflexivity.
  - intros root H; vm_compute in H; destruct H as [<-|[]]; reflexivity.
Defined.

(** C8 (as the code has it).  With symbol-level detail on, a module of the
    table that parses and for which the metric provider returned a
    non-empty block list gets, for each of its top-level class and function
    symbols, a node of that kind whose parent is the module, and a
    [defines] edge from the module's node to it. *)
Theorem symbol_nodes_are_emitted
  (cwd : list string) (ast_parse : string -> option Module_) (RADON_AVAILABLE : bool)
  (cc_visit : string -> option (list Block)) (is_stdlib : string -> bool)
  (files : Py.dict string) (module_id filepath : string) (tree : Module_)
  (name kind_ : string) (lineno : nat) :
  In (module_id, filepath)
     (module_map (assemble cwd ast_parse RADON_AVAILABLE cc_visit is_stdlib files true)) ->
  ast_parse (code_of files filepath) = Some tree ->
  snd (metrics_of RADON_AVAILABLE cc_visit files filepath) <> [] ->
  In (name, kind_, lineno) (extract_symbols tree) ->
  let art := build cwd ast_parse RADON_AVAILABLE cc_visit is_stdlib files true in
  let sym_id := (module_id ++ "." ++ name)%string in
  (kind_ = "class" \/ kind_ = "function") /\
  (exists n, In n (art_nodes art) /\ id n = module_id /\ kind n = "module") /\
  (exists n, In n (art_nodes art) /\ id n = sym_id /\ kind n = kind_ /\
             parent n = Some module_id /\ path n = filepath) /\
  In (module_id, sym_id, "defines") (art_edges art).
Proof.
  intros Hin Hparse Hblocks Hsym art sym_id.
  split; [exact (extract_symbols_kind _ _ _ _ Hsym)|].
  set (sc := map_symbol_complexities
               (snd (metrics_of RADON_AVAILABLE cc_visit files filepath))).
  set (sym_node := symbol_node module_id filepath sc (name, kind_, lineno)).
  set (mod_node := mkGraphNode module_id "module" filepath (get_top_module module_id)
                     (StatsOf (module_stats (code_of files filepath) tree
                        (Py.join "." (removelast (Py.split "." module_id)))
                        (fst (metrics_of RADON_AVAILABLE cc_visit files filepath)))) None).
  assert (H : In mod_node (art_nodes art) /\ In sym_node (art_nodes art) /\
              In (module_id, sym_id, "defines") (art_edges art)).
  { subst art; unfold build; simpl; rewrite In_sorted_edges.
    unfold assemble.
    match goal with
    | |- context [_add_external_nodes ?b0] =>
        destruct (add_external_nodes_keeps b0) as (Kn & Ke & _)
    end.
    cut (let b := _analyze_modules ast_parse RADON_AVAILABLE cc_visit is_stdlib files true
                    (_detect_project_roots cwd files (mkBuilder [] [] [] [] [])) in
         In mod_node (nodes b) /\ In sym_node (nodes b) /\
         In (module_id, sym_id, "defines") (edges b)).
    { intros (H1 & H2 & H3); auto. }
    unfold _analyze_modules.
    rewrite assembled_module_map in Hin.
    apply fold_left_reaches
      with (Q := fun b => In mod_node (nodes b) /\ In sym_node (nodes b) /\
                          In (module_id, sym_id, "defines") (edges b))
           (x := (module_id, filepath)).
    - exact Hin.
    - intros a; unfold analyze_module.
      fold (code_of files filepath); rewrite Hparse.
      fold (metrics_of RADON_AVAILABLE cc_visit files filepath).
      destruct (metrics_of RADON_AVAILABLE cc_visit files filepath) as [cx bl] eqn:Emet.
      simpl in Hblocks, sc, mod_node.
      rewrite analyze_parsed_nodes.
      destruct bl as [|blk bl']; [congruence|]; simpl andb; cbv iota.
      split; [|split].
      + rewrite !in_app_iff; right; left; now left.
      + rewrite !in_app_iff; right; right; apply in_map; exact Hsym.
      + apply (analyze_parsed_defines is_stdlib a module_id filepath
                 (code_of files filepath) tree cx (name, kind_, lineno));
          [reflexivity | discriminate | exact Hsym].
    - intros a y (H1 & H2 & H3).
      destruct (analyze_module_keeps ast_parse RADON_AVAILABLE cc_visit is_stdlib files
                  true a y) as [Kn' Ke']; auto. }
  destruct H as (H1 & H2 & H3).
  split; [exists mod_node; auto|].
  split; [exists sym_node; repeat split; auto | exact H3].
Qed.

(** C8, the claim as written fails: without radon the block list is empty
    and the function [f] of [m.py] gets neither node nor edge although
    symbol-level detail is on. *)
Lemma no_symbol_nodes_without_blocks :
  let art := build srv one_function_parse false no_radon is_stdlib_fallback
               one_function_files true in
  one_function_parse (code_of one_function_files "m.py")
    = Some [FunctionDef "f" 1 [] [Pass] []] /\
  map id (art_nodes art) = ["m"] /\
  art_edges art = [].
Proof. vm_compute; repeat split. Qed.

Lemma symbol_nodes_are_emitted_witness :
  let art := build srv one_function_parse true one_function_cc_visit is_stdlib_fallback
               one_function_files true in
  ("function" = "class" \/ "function" = "function") /\
  (exists n, In n (art_nodes art) /\ id n = "m" /\ kind n = "module") /\
  (exists n, In n (art_nodes art) /\ id n = "m.f" /\ kind n = "function" /\
             parent n = Some "m" /\ path n = "m.py") /\
  In ("m", "m.f", "defines") (art_edges art).
Proof.
  apply (@symbol_nodes_are_emitted srv one_function_parse true one_function_cc_visit
           is_stdlib_fallback one_function_files "m" "m.py"
           [FunctionDef "f" 1 [] [Pass] []] "f" "function" 1).
  - vm_compute; auto.
  - reflexivity.
  - vm_compute; discriminate.
  - vm_compute; auto.
Defined.

(* ================================================================== *)
(** * Edge endpoints *)

Section Endpoints.

Variable cwd : list string.
Variable ast_parse : string -> option Module_.
Variable RADON_AVAILABLE : bool.
Variable cc_visit : string -> option (list Block).
Variable is_stdlib : string -> bool.
Variable files : Py.dict string.
Variable symbol_level : bool.

Lemma analyze_parsed_endpoints (b : Builder) (mid fp code : string) (tree : Module_)
  (metrics : ComplexityMetrics * list Block) :
  endpoints b ->
  endpoints (analyze_parsed is_stdlib symbol_level b mid fp code tree metrics).
Proof.
  intros [Hd He]; unfold analyze_parsed; destruct metrics as [cx bl].
  set (parent_pkg := Py.join "." (removelast (Py.split "." mid))).
  set (visitor := run_ImportVisitor parent_pkg tree).
  set (node := mkGraphNode mid "module" fp (get_top_module mid)
                 (StatsOf (module_stats code tree parent_pkg cx)) None).
  set (b1 := mkBuilder (nodes b ++ [node]) (edges b) (module_map b) (external_deps b)
               (Py.dict_set (module_details b) mid
                  (make_details mid fp code tree cx bl))).
  set (b2 := import_edges is_stdlib mid (iv_imports visitor) b1).
  set (b3 := call_edges mid (iv_calls visitor) (iv_imports visitor) b2).
  assert (Hnode : exists n, In n (nodes b1) /\ id n = mid /\ kind n = "module").
  { exists node; simpl; rewrite in_app_iff; split; [right; now left | auto]. }
  assert (P1 : endpoints b1).
  { split; simpl.
    - intros k d H; apply In_dict_set in H; destruct H as [H|H].
      + inversion H; subst; exact Hnode.
      + destruct (Hd _ _ H) as [n [Hn Hrest]]; exists n; rewrite in_app_iff; auto.
    - intros s t ty H; destruct (He _ _ _ H) as [[n [Hn Hs]] Ht]; split.
      + exists n; rewrite in_app_iff; auto.
      + destruct Ht as [[n' [Hn' Hid]]|Ht]; [left; exists n'; rewrite in_app_iff; auto|].
        right; exact Ht. }
  assert (F12 : adds_edges_from mid b1 b2) by apply import_edges_frame.
  assert (F23 : adds_edges_from mid b2 b3) by apply call_edges_frame.
  pose proof (adds_edges_from_trans F12 F23) as (N & M & D & _ & S).
  assert (P3 : endpoints b3).
  { destruct P1 as [Hd1 He1]; split; rewrite N; [rewrite D; exact Hd1|].
    rewrite M; intros s t ty H.
    destruct (S _ H) as [H1|[t' [ty' [H1 [Hty [Hkey _]]]]]]; [now apply He1|].
    inversion H1; subst; split; [exact Hnode | right; split; assumption]. }
  destruct (symbol_level && _); [|exact P3].
  destruct (symbol_nodes_frame mid fp (extract_symbols tree)
              (map_symbol_complexities bl) b3) as (N4 & M4 & D4 & E4).
  destruct P3 as [Hd3 He3]; split; rewrite N4.
  - rewrite D4; intros k d H; destruct (Hd3 _ _ H) as [n [Hn Hrest]].
    exists n; rewrite in_app_iff; auto.
  - rewrite M4; intros s t ty H; apply E4 in H; destruct H as [H|[sym [Hsym H]]].
    + destruct (He3 _ _ _ H) as [[n [Hn Hs]] Ht]; split.
      * exists n; rewrite in_app_iff; auto.
      * destruct Ht as [[n' [Hn' Hid]]|Ht]; [left; exists n'; rewrite in_app_iff; auto|].
        right; exact Ht.
    + inversion H; subst; split.
      * destruct Hnode as [n [Hn Hrest]]; exists n; rewrite in_app_iff.
        split; [left; rewrite N; exact Hn | exact Hrest].
      * left; exists (symbol_node mid fp (map_symbol_complexities bl) sym).
        rewrite in_app_iff; split; [right; now apply in_map | reflexivity].
Qed.

Lemma add_external_nodes_endpoints (b : Builder) :
  endpoints b -> endpoints (_add_external_nodes b).
Proof.
  intros Hb; unfold _add_external_nodes.
  apply fold_left_inv with (P := endpoints); [exact Hb|].
  intros a ext_pkg _ [Hd He]; split; simpl.
  - intros k d H; destruct (Hd _ _ H) as [n [Hn Hrest]].
    exists n; rewrite in_app_iff; auto.
  - intros s t ty H; apply external_edges_sound in H.
    destruct H as [H|[k [d [Hkd H]]]].
    + destruct (He _ _ _ H) as [[n [Hn Hs]] Ht]; split.
      * exists n; rewrite in_app_iff; auto.
      * destruct Ht as [[n' [Hn' Hid]]|Ht]; [left; exists n'; rewrite in_app_iff; auto|].
        right; exact Ht.
    + inversion H; subst; split.
      * destruct (Hd _ _ Hkd) as [n [Hn Hrest]]; exists n; rewrite in_app_iff; auto.
      * left; eexists; rewrite in_app_iff; split; [right; left; reflexivity|].
        reflexivity.
Qed.

Lemma assemble_endpoints :
  endpoints (assemble cwd ast_parse RADON_AVAILABLE cc_visit is_stdlib files symbol_level).
Proof.
  unfold assemble; apply add_external_nodes_endpoints.
  unfold _analyze_modules.
  apply fold_left_inv with (P := endpoints).
  - split; simpl; intros; contradiction.
  - intros a [mid fp] _ Ha; unfold analyze_module.
    destruct (ast_parse _); [now apply analyze_parsed_endpoints | exact Ha].
Qed.

(** A module of the table that parses has its module node. *)
Lemma analysed_module_has_node (m fp : string) (tree : Module_) :
  In (m, fp)
     (module_map
        (assemble cwd ast_parse RADON_AVAILABLE cc_visit is_stdlib files symbol_level)) ->
  ast_parse (code_of files fp) = Some tree ->
  exists n,
    In n (nodes (assemble cwd ast_parse RADON_AVAILABLE cc_visit is_stdlib files
                   symbol_level)) /\
    id n = m /\ kind n = "module".
Proof.
  intros Hin Hparse; rewrite assembled_module_map in Hin.
  unfold assemble.
  match goal with
  | |- context [_add_external_nodes ?b0] =>
      destruct (add_external_nodes_keeps b0) as (Kn & _)
  end.
  cut (exists n,
          In n (nodes (_analyze_modules ast_parse RADON_AVAILABLE cc_visit is_stdlib files
                         symbol_level
                         (_detect_project_roots cwd files (mkBuilder [] [] [] [] [])))) /\
          id n = m /\ kind n = "module").
  { intros [n [Hn Hrest]]; exists n; auto. }
  unfold _analyze_modules.
  apply fold_left_reaches
    with (Q := fun b => exists n, In n (nodes b) /\ id n = m /\ kind n = "module")
         (x := (m, fp)).
  - exact Hin.
  - intros a; unfold analyze_module; fold (code_of files fp); rewrite Hparse.
    destruct (calculate_module_complexity RADON_AVAILABLE cc_visit (code_of files fp))
      as [cx bl].
    rewrite analyze_parsed_nodes; eexists; split.
    + rewrite !in_app_iff; right; left; left; reflexivity.
    + auto.
  - intros a y [n [Hn Hrest]]; exists n; split; [|exact Hrest].
    destruct (analyze_module_keeps ast_parse RADON_AVAILABLE cc_visit is_stdlib files
                symbol_level a y) as [Kn' _]; auto.
Qed.

(** Where C2 holds and where it does not: the source of every edge is a
    module node; the target is a node of the artifact, unless the edge is
    an [imports] or [calls] edge to a module of the table whose source did
    not parse. *)
Lemma edge_endpoints (s t ty : string) :
  let b := assemble cwd ast_parse RADON_AVAILABLE cc_visit is_stdlib files symbol_level in
  let art := build cwd ast_parse RADON_AVAILABLE cc_visit is_stdlib files symbol_level in
  In (s, t, ty) (art_edges art) ->
  (exists n, In n (art_nodes art) /\ id n = s /\ kind n = "module") /\
  ((exists n, In n (art_nodes art) /\ id n = t) \/
   ((ty = "imports" \/ ty = "calls") /\
    exists fp, In (t, fp) (module_map b) /\ ast_parse (code_of files fp) = None)).
Proof.
  intros b art H; simpl in H; rewrite In_sorted_edges in H.
  destruct assemble_endpoints as [_ He].
  destruct (He _ _ _ H) as [Hs Ht]; split; [exact Hs|].
  destruct Ht as [Ht|[Hty Hkey]]; [left; exact Ht|].
  apply in_map_iff in Hkey; destruct Hkey as [[t' fp] [Hfst Hin]]; simpl in Hfst; subst t'.
  destruct (ast_parse (code_of files fp)) as [tree|] eqn:Ep.
  - left; destruct (analysed_module_has_node _ _ Hin Ep) as [n [Hn [Hid _]]]; eauto.
  - right; split; [exact Hty | eauto].
Qed.

(** X27.  When every module of the table parses, both ends of every edge
    are nodes of the artifact. *)
Lemma edge_endpoints_when_all_parse :
  let b := assemble cwd ast_parse RADON_AVAILABLE cc_visit is_stdlib files symbol_level in
  let art := build cwd ast_parse RADON_AVAILABLE cc_visit is_stdlib files symbol_level in
  (forall m fp, In (m, fp) (module_map b) -> ast_parse (code_of files fp) <> None) ->
  forall s t ty, In (s, t, ty) (art_edges art) ->
    (exists n, In n (art_nodes art) /\ id n = s) /\
    (exists n, In n (art_nodes art) /\ id n = t).
Proof.
  intros b art Hall s t ty H.
  destruct (edge_endpoints _ _ _ H) as [[n [Hn [Hid _]]] Ht]; split; [eauto|].
  destruct Ht as [Ht|[_ [fp [Hin Hnone]]]]; [exact Ht|].
  elim (Hall _ _ Hin Hnone).
Qed.

(** X28.  [self.files[filepath]] never misses: the paths of the module
    table are keys of the input. *)
Lemma module_map_files_exist (m fp : string) :
  In (m, fp)
     (module_map
        (assemble cwd ast_parse RADON_AVAILABLE cc_visit is_stdlib files symbol_level)) ->
  Py.dict_get files fp <> None.
Proof.
  rewrite assembled_module_map; intros H.
  apply build_module_map_values in H; destruct H as [H _].
  intros Hnone; apply dict_get_None in Hnone; exact (Hnone H).
Qed.

End Endpoints.

(* ================================================================== *)
(** * Relative imports *)

Lemma lstrip_repeat_char (c : ascii) (n : nat) (s : string) :
  Py.lstrip c (Py.repeat_char c n ++ s)%string = Py.lstrip c s.
Proof.
  induction n as [|n IH]; simpl; [reflexivity|].
  rewrite Ascii.eqb_refl; exact IH.
Qed.

Lemma lstrip_not_prefixed (s : string) :
  Py.startswith s "." = false -> Py.lstrip "." s = s.
Proof.
  destruct s as [|a s]; simpl; [reflexivity|].
  unfold Py.startswith; simpl.
  destruct (ascii_dec "." a) as [<-|Hne].
  - destruct s; discriminate.
  - intros _; destruct (Ascii.eqb a ".") eqn:E; [|reflexivity].
    apply Ascii.eqb_eq in E; subst; congruence.
Qed.

Lemma length_repeat_char (c : ascii) (n : nat) (s : string) :
  String.length (Py.repeat_char c n ++ s)%string = n + String.length s.
Proof. induction n as [|n IH]; simpl; [reflexivity | now rewrite IH]. Qed.

Lemma repeat_char_startswith (n : nat) (s : string) :
  1 <= n -> Py.startswith (Py.repeat_char "." n ++ s)%string "." = true.
Proof.
  destruct n as [|n]; [lia|]; intros _; unfold Py.startswith; simpl.
  destruct (ascii_dec "." "."); [|congruence].
  destruct (Py.repeat_char "." n ++ s)%string; reflexivity.
Qed.

Lemma split_nonempty (sep : ascii) (s : string) : Py.split sep s <> [].
Proof.
  destruct s as [|a s]; simpl; [discriminate|].
  destruct (Ascii.eqb a sep); [discriminate|].
  destruct (Py.split sep s); discriminate.
Qed.

Lemma append_empty_r (s : string) : (s ++ "")%string = s.
Proof. induction s as [|a s IH]; simpl; [reflexivity | now rewrite IH]. Qed.

(** The code's [abs_base] is the base of the specification. *)
Lemma abs_base_spec (parent_pkg : string) (module : option string) (level : nat) :
  1 <= level ->
  (forall m, module = Some m -> m <> "" /\ Py.startswith m "." = false) ->
  abs_base parent_pkg module level = spec_import_base parent_pkg module level.
Proof.
  intros Hlevel Hmod.
  assert (Htext : module_text module = module).
  { destruct module as [m|]; [|reflexivity]; simpl.
    destruct (Hmod m eq_refl) as [Hne _].
    unfold Py.truthy; apply String.eqb_neq in Hne; now rewrite Hne. }
  assert (Hdepth :
            String.length (import_base module level)
            - String.length (Py.lstrip "." (import_base module level)) = level).
  { unfold import_base; rewrite Htext; destruct module as [m|].
    - destruct (Hmod m eq_refl) as [_ Hpre].
      rewrite lstrip_repeat_char, (lstrip_not_prefixed _ Hpre), length_repeat_char; lia.
    - rewrite <- (append_empty_r (Py.repeat_char "." level)).
      rewrite lstrip_repeat_char, length_repeat_char; simpl; lia. }
  assert (Hstart : Py.startswith (import_base module level) "." = true).
  { unfold import_base; rewrite Htext; destruct module as [m|].
    - now apply repeat_char_startswith.
    - rewrite <- (append_empty_r (Py.repeat_char "." level)).
      now apply repeat_char_startswith. }
  unfold abs_base; rewrite Hstart, Hdepth, Htext.
  assert (Hprefix :
            (if negb (level =? 0)%nat
                && (level <=? List.length
                                (if Py.truthy parent_pkg then Py.split "." parent_pkg
                                 else []))%nat
             then Py.join "."
                    (Py.drop_last level
                       (if Py.truthy parent_pkg then Py.split "." parent_pkg else []))
             else parent_pkg)
            = spec_resolved_base parent_pkg level).
  { unfold spec_resolved_base.
    destruct level as [|k]; [lia|]; simpl negb; simpl andb.
    destruct (Py.truthy parent_pkg) eqn:Et.
    - reflexivity.
    - unfold Py.truthy in Et; apply negb_false_iff, String.eqb_eq in Et; subst.
      simpl; destruct k; reflexivity. }
  rewrite Hprefix; unfold spec_import_base; destruct module as [m|].
  - reflexivity.
  - apply append_empty_r.
Qed.

Lemma import_from_alias_spec (base : string) (a : alias) :
  import_from_alias base a = spec_alias_records base a.
Proof.
  unfold import_from_alias, spec_alias_records, Py.truthy.
  destruct (String.eqb (alias_name a) "*"); destruct (String.eqb base "") eqn:Eb;
    simpl; try reflexivity.
  - apply String.eqb_eq in Eb; subst; simpl.
    destruct (String.eqb (alias_name a) ""); reflexivity.
  - destruct base as [|c base]; [discriminate | reflexivity].
Qed.

Lemma fold_add_imports (names : list string) (v : ImportVisitor) :
  fold_left iv_add_import names v
  = mkImportVisitor (parent_package v) (iv_imports v ++ names) (iv_calls v).
Proof.
  revert v; induction names as [|x names IH]; intros v; simpl.
  - rewrite app_nil_r; destruct v; reflexivity.
  - rewrite IH; simpl; rewrite <- app_assoc; reflexivity.
Qed.

(** C5.  A relative import of level [k >= 1] with optional base [M] (a
    dotted name, so not empty and not starting with a dot) resolves against
    the parent package as the specification says, and every alias is
    recorded, in order, as [base.alias], as the alias alone under an empty
    base, or for [*] as the base when it is not empty. *)
Theorem relative_import_resolution
  (v : ImportVisitor) (module : option string) (names : list alias) (k : nat) :
  1 <= k ->
  (forall m, module = Some m -> m <> "" /\ Py.startswith m "." = false) ->
  let base := spec_import_base (parent_package v) module k in
  visit_ImportFrom module names k v
  = mkImportVisitor (parent_package v)
      (iv_imports v ++ flat_map (spec_alias_records base) names)
      (iv_calls v).
Proof.
  intros Hk Hmod base; unfold visit_ImportFrom.
  rewrite (@abs_base_spec (parent_package v) module k Hk Hmod); fold base.
  clearbody base; revert v; induction names as [|a names IH]; intros v; simpl.
  - rewrite app_nil_r; destruct v; reflexivity.
  - rewrite fold_add_imports, import_from_alias_spec.
    rewrite IH; simpl; rewrite <- app_assoc; reflexivity.
Qed.

Lemma relative_import_resolution_witness :
  visit_ImportFrom (Some "mod") [Alias "x" None; Alias "*" None] 1 visitor_in_pkg_sub
  = mkImportVisitor "pkg.sub" ["os"; "pkg.mod.x"; "pkg.mod"] [].
Proof.
  apply (@relative_import_resolution visitor_in_pkg_sub (Some "mod")
           [Alias "x" None; Alias "*" None] 1).
  - lia.
  - intros m [= <-]; split; [discriminate | reflexivity].
Defined.

(* ================================================================== *)
(** * The call graph visitor *)

(** A fold of visits that each keep a property of the visitor keeps it. *)
Lemma fold_visit_inv {A S : Type} (f : A -> S -> S) (I : S -> S -> Prop) (l : list A) :
  (forall v, I v v) ->
  (forall v1 v2 v3, I v1 v2 -> I v2 v3 -> I v1 v3) ->
  Forall (fun a => forall v, I v (f a v)) l ->
  forall v, I v (fold_left (fun v a => f a v) l v).
Proof.
  intros Hrefl Htrans Hall; induction Hall as [|a l Ha _ IH]; intros v; simpl.
  - apply Hrefl.
  - eapply Htrans; [apply Ha | apply IH].
Qed.

(** ** The current function is restored *)

Lemma cg_call_target_current (func : expr) (v : CallGraphVisitor) :
  current_function (cg_call_target func v) = current_function v.
Proof.
  unfold cg_call_target; destruct (current_function v) as [f|] eqn:E; [|exact E].
  destruct (Py.truthy f); [|exact E].
  destruct func as [x|value attr| | | |]; try exact E; [reflexivity|].
  destruct value; try exact E; reflexivity.
Qed.

Lemma cg_visit_expr_current (e : expr) :
  forall v, current_function (cg_visit_expr e v) = current_function v.
Proof.
  induction e using expr_nested_ind; intros v; simpl; try reflexivity.
  - apply IHe.
  - transitivity (current_function (cg_visit_expr e (cg_call_target e v))).
    + apply (fold_visit_inv cg_visit_expr
               (fun v1 v2 => current_function v2 = current_function v1));
        [reflexivity | intros; congruence | exact H].
    + rewrite IHe; apply cg_call_target_current.
  - transitivity (current_function (cg_visit_expr e v)); [|apply IHe].
    apply (fold_visit_inv cg_visit_expr
             (fun v1 v2 => current_function v2 = current_function v1));
      [reflexivity | intros; congruence | exact H].
  - apply (fold_visit_inv cg_visit_expr
             (fun v1 v2 => current_function v2 = current_function v1));
      [reflexivity | intros; congruence | exact H].
Qed.

Lemma cg_visit_exprs_current (es : list expr) (v : CallGraphVisitor) :
  current_function (cg_visit_exprs es v) = current_function v.
Proof.
  unfold cg_visit_exprs.
  apply (fold_visit_inv cg_visit_expr
           (fun v1 v2 => current_function v2 = current_function v1));
    [reflexivity | intros; congruence|].
  apply Forall_forall; intros e _; apply cg_visit_expr_current.
Qed.

Lemma cg_fold_current (ss : list stmt) :
  Forall (fun s => forall v, current_function (cg_visit s v) = current_function v) ss ->
  forall v, current_function (fold_left (fun v s => cg_visit s v) ss v)
            = current_function v.
Proof.
  intros H; apply (fold_visit_inv cg_visit
                     (fun v1 v2 => current_function v2 = current_function v1));
    [reflexivity | intros; congruence | exact H].
Qed.

Lemma cg_visit_current (s : stmt) :
  forall v, current_function (cg_visit s v) = current_function v.
Proof.
  induction s using stmt_nested_ind; intros v; simpl; try reflexivity.
  - rewrite cg_visit_exprs_current, (cg_fold_current H), cg_visit_exprs_current.
    reflexivity.
  - rewrite (cg_fold_current H0), (cg_fold_current H); apply cg_visit_expr_current.
  - apply cg_visit_expr_current.
  - rewrite (cg_fold_current H); apply cg_visit_exprs_current.
Qed.

(** ** Calls outside every function are not recorded *)

Lemma cg_visit_expr_idle (e : expr) :
  forall v, current_function v = None -> cg_visit_expr e v = v.
Proof.
  induction e using expr_nested_ind; intros v Hv; simpl; try reflexivity.
  - now apply IHe.
  - assert (E : cg_call_target e v = v) by (unfold cg_call_target; now rewrite Hv).
    rewrite E, (IHe v Hv).
    clear E IHe; induction H as [|a l Ha _ IH]; simpl; [reflexivity|].
    rewrite (Ha v Hv); exact IH.
  - rewrite (IHe v Hv).
    clear IHe; induction H as [|a l Ha _ IH]; simpl; [reflexivity|].
    rewrite (Ha v Hv); exact IH.
  - induction H as [|a l Ha _ IH]; simpl; [reflexivity|].
    rewrite (Ha v Hv); exact IH.
Qed.

Lemma cg_visit_exprs_idle (es : list expr) (v : CallGraphVisitor) :
  current_function v = None -> cg_visit_exprs es v = v.
Proof.
  intros Hv; unfold cg_visit_exprs; induction es as [|e es IH]; simpl; [reflexivity|].
  rewrite (cg_visit_expr_idle e v Hv); exact IH.
Qed.

Lemma cg_fold_idle (ss : list stmt) (v : CallGraphVisitor) :
  Forall (fun s => has_def s = false ->
                   forall v, current_function v = None -> cg_visit s v = v) ss ->
  existsb has_def ss = false -> current_function v = None ->
  fold_left (fun v s => cg_visit s v) ss v = v.
Proof.
  intros Hall; induction Hall as [|s ss Hs _ IH]; simpl; [reflexivity|].
  intros Hex Hv; apply orb_false_iff in Hex; destruct Hex as [H1 H2].
  rewrite (Hs H1 v Hv); now apply IH.
Qed.

Lemma cg_visit_idle (s : stmt) :
  has_def s = false -> forall v, current_function v = None -> cg_visit s v = v.
Proof.
  induction s using stmt_nested_ind; simpl; intros Hdef v Hv;
    try discriminate; try reflexivity.
  - rewrite (cg_visit_exprs_idle _ v Hv), (cg_fold_idle v H Hdef Hv).
    now apply cg_visit_exprs_idle.
  - apply orb_false_iff in Hdef; destruct Hdef as [H1 H2].
    rewrite (cg_visit_expr_idle _ v Hv), (cg_fold_idle v H H1 Hv).
    now apply cg_fold_idle.
  - now apply cg_visit_expr_idle.
  - rewrite (cg_visit_exprs_idle _ v Hv); now apply cg_fold_idle.
Qed.

(** Only the statements that hold a function definition count. *)
Lemma call_graph_ignores_module_level (tree : Module_) :
  run_CallGraphVisitor tree = run_CallGraphVisitor (filter has_def tree).
Proof.
  unfold run_CallGraphVisitor, cg_visit_stmts.
  assert (H : forall v, current_function v = None ->
                        fold_left (fun v s => cg_visit s v) tree v
                        = fold_left (fun v s => cg_visit s v) (filter has_def tree) v).
  { induction tree as [|s tree IH]; intros v Hv; simpl; [reflexivity|].
    destruct (has_def s) eqn:E; simpl.
    - apply IH; now rewrite cg_visit_current.
    - rewrite (cg_visit_idle s E v Hv); now apply IH. }
  now apply H.
Qed.

(** ** The keys of the call graph are function definitions *)

Lemma cg_step_refl (g : string) (extra : list string) (v : CallGraphVisitor) :
  cg_step g extra v v.
Proof. unfold cg_step; auto. Qed.

Lemma cg_step_trans (g : string) (extra : list string) (v1 v2 v3 : CallGraphVisitor) :
  cg_step g extra v1 v2 -> cg_step g extra v2 v3 -> cg_step g extra v1 v3.
Proof.
  intros [C1 K1] [C2 K2]; split; [congruence|].
  intros H; destruct (K2 H) as [H2|[H2|H2]]; auto.
  rewrite C1 in H2; auto.
Qed.

Lemma cg_step_weaken (g : string) (extra extra' : list string) (v1 v2 : CallGraphVisitor) :
  (forall x, In x extra -> In x extra') ->
  cg_step g extra v1 v2 -> cg_step g extra' v1 v2.
Proof.
  intros Hsub [C K]; split; [exact C|].
  intros H; destruct (K H) as [H1|[H1|H1]]; auto.
Qed.

Lemma keys_dd_add (d : Py.dict (list string)) (k x g : string) :
  In g (Py.keys (Py.dd_add d k x)) <-> g = k \/ In g (Py.keys d).
Proof.
  unfold Py.dd_add; destruct (Py.dict_get d k); apply keys_dict_set.
Qed.

Lemma cg_call_target_step (g : string) (func : expr) (v : CallGraphVisitor) :
  cg_step g [] v (cg_call_target func v).
Proof.
  split; [apply cg_call_target_current|].
  unfold cg_call_target; destruct (current_function v) as [f|] eqn:E; [|auto].
  destruct (Py.truthy f); [|auto].
  destruct func as [x|value attr| | | |]; auto.
  - simpl; unfold cg_record; rewrite keys_dd_add; intros [->|H]; auto.
  - destruct value; auto.
    simpl; unfold cg_record; rewrite keys_dd_add; intros [->|H]; auto.
Qed.

Lemma cg_fold_step {A : Type} (f : A -> CallGraphVisitor -> CallGraphVisitor)
  (g : string) (extra : list string) (l : list A) :
  Forall (fun a => forall v, cg_step g extra v (f a v)) l ->
  forall v, cg_step g extra v (fold_left (fun v a => f a v) l v).
Proof.
  apply fold_visit_inv; [apply cg_step_refl | apply cg_step_trans].
Qed.

Lemma cg_visit_expr_step (g : string) (e : expr) :
  forall v, cg_step g [] v (cg_visit_expr e v).
Proof.
  induction e using expr_nested_ind; intros v; simpl; try apply cg_step_refl.
  - apply IHe.
  - eapply cg_step_trans; [apply cg_call_target_step|].
    eapply cg_step_trans; [apply IHe|].
    now apply cg_fold_step.
  - eapply cg_step_trans; [apply IHe | now apply cg_fold_step].
  - now apply cg_fold_step.
Qed.

Lemma cg_visit_exprs_step (g : string) (extra : list string) (es : list expr)
  (v : CallGraphVisitor) :
  cg_step g extra v (cg_visit_exprs es v).
Proof.
  apply cg_step_weaken with (extra := []); [intros x []|].
  unfold cg_visit_exprs; apply cg_fold_step.
  apply Forall_forall; intros e _; apply cg_visit_expr_step.
Qed.

Lemma cg_fold_stmts_step (g : string) (ss : list stmt) :
  Forall (fun s => forall v, cg_step g (def_names s) v (cg_visit s v)) ss ->
  forall v, cg_step g (flat_map def_names ss) v (fold_left (fun v s => cg_visit s v) ss v).
Proof.
  intros H; apply cg_fold_step.
  rewrite Forall_forall in *; intros s Hs v.
  apply cg_step_weaken with (extra := def_names s); [|now apply H].
  intros x Hx; apply in_flat_map; eauto.
Qed.

Lemma cg_visit_def_step (g name : string) (args decs : list expr) (body : list stmt)
  (v : CallGraphVisitor) :
  Forall (fun s => forall v, cg_step g (def_names s) v (cg_visit s v)) body ->
  cg_step g (name :: flat_map def_names body) v
    (cg_set_current (current_function v)
       (cg_visit_exprs decs
          (fold_left (fun v s => cg_visit s v) body
             (cg_visit_exprs args (cg_set_current (Some name) v))))).
Proof.
  intros Hbody.
  set (v0 := cg_set_current (Some name) v).
  assert (S1 : cg_step g (flat_map def_names body) v0
                 (cg_visit_exprs decs
                    (fold_left (fun v s => cg_visit s v) body (cg_visit_exprs args v0)))).
  { eapply cg_step_trans; [apply cg_visit_exprs_step|].
    eapply cg_step_trans; [now apply cg_fold_stmts_step | apply cg_visit_exprs_step]. }
  destruct S1 as [_ K]; split; [reflexivity|].
  simpl; intros H; destruct (K H) as [H1|[H1|H1]].
  - left; exact H1.
  - right; right; left; simpl in H1; congruence.
  - right; right; right; exact H1.
Qed.

Lemma cg_visit_step (g : string) (s : stmt) :
  forall v, cg_step g (def_names s) v (cg_visit s v).
Proof.
  induction s using stmt_nested_ind; intros v; simpl; try apply cg_step_refl.
  - now apply cg_visit_def_step.
  - now apply cg_visit_def_step.
  - eapply cg_step_trans; [apply cg_visit_exprs_step|].
    eapply cg_step_trans; [now apply cg_fold_stmts_step | apply cg_visit_exprs_step].
  - eapply cg_step_trans;
      [apply cg_step_weaken with (extra := []);
       [intros x [] | apply cg_visit_expr_step]|].
    eapply cg_step_trans.
    + apply cg_step_weaken with (extra := flat_map def_names body);
        [intros x Hx; apply in_app_iff; now left | now apply cg_fold_stmts_step].
    + apply cg_step_weaken with (extra := flat_map def_names orelse);
        [intros x Hx; apply in_app_iff; now right | now apply cg_fold_stmts_step].
  - apply cg_visit_expr_step.
  - eapply cg_step_trans; [apply cg_visit_exprs_step | now apply cg_fold_stmts_step].
Qed.

Lemma call_graph_keys_are_defs (tree : Module_) (g : string) :
  In g (Py.keys (cg_calls (run_CallGraphVisitor tree))) ->
  In g (flat_map def_names tree).
Proof.
  unfold run_CallGraphVisitor, cg_visit_stmts; intros H.
  destruct (@cg_fold_stmts_step g tree) with (v := mkCallGraphVisitor [] None)
    as [_ K].
  - apply Forall_forall; intros s _; apply cg_visit_step.
  - destruct (K H) as [[]|[H1|H1]]; [discriminate | exact H1].
Qed.

(** ** Inverting the call map *)

Lemma get_default_dict_set (d : Py.dict (list string)) (k t : string) (l : list string) :
  Py.dict_get_default (Py.dict_set d k l) t []
  = if String.eqb t k then l else Py.dict_get_default d t [].
Proof.
  unfold Py.dict_get_default; destruct (String.eqb t k) eqn:E.
  - apply String.eqb_eq in E; subst; now rewrite dict_set_get_same.
  - apply String.eqb_neq in E; now rewrite dict_set_get_other.
Qed.

Lemma In_dd_append (d : Py.dict (list string)) (k x t g : string) :
  In g (Py.dict_get_default (Py.dd_append d k x) t [])
  <-> In g (Py.dict_get_default d t []) \/ (t = k /\ g = x).
Proof.
  unfold Py.dd_append; destruct (Py.dict_get d k) as [l|] eqn:E;
    rewrite get_default_dict_set; destruct (String.eqb t k) eqn:Et.
  - apply String.eqb_eq in Et; subst.
    unfold Py.dict_get_default; rewrite E, in_app_iff; simpl; intuition.
  - apply String.eqb_neq in Et; intuition.
  - apply String.eqb_eq in Et; subst.
    unfold Py.dict_get_default; rewrite E; simpl; intuition.
  - apply String.eqb_neq in Et; intuition.
Qed.

Lemma In_invert_targets (targets : list string) (f t g : string) :
  forall cb,
    In g (Py.dict_get_default
            (fold_left (fun cb t' => Py.dd_append cb t' f) targets cb) t [])
    <-> In g (Py.dict_get_default cb t []) \/ (g = f /\ In t targets).
Proof.
  induction targets as [|t' targets IH]; intros cb; simpl.
  - intuition.
  - rewrite IH, In_dd_append; intuition (subst; auto).
Qed.

Lemma In_invert_calls (calls : Py.dict (list string)) (t g : string) :
  In g (Py.dict_get_default (invert_calls calls) t [])
  <-> exists targets, In (g, targets) calls /\ In t targets.
Proof.
  unfold invert_calls.
  assert (H : forall cb,
             In g (Py.dict_get_default
                     (fold_left
                        (fun cb '(f, targets) =>
                           fold_left (fun cb t' => Py.dd_append cb t' f) targets cb)
                        calls cb) t [])
             <-> In g (Py.dict_get_default cb t [])
                 \/ exists targets, In (g, targets) calls /\ In t targets).
  { induction calls as [|[f targets] calls IH]; intros cb; simpl.
    - split; [auto | intros [H|[ts [[] _]]]; exact H].
    - rewrite IH, In_invert_targets; split.
      + intros [[H|[-> H]]|[ts [H1 H2]]]; eauto.
      + intros [H|[ts [[H1|H1] H2]]]; eauto.
        inversion H1; subst; auto. }
  rewrite H; unfold Py.dict_get_default; simpl; intuition.
Qed.

Lemma In_all_called_of (calls : Py.dict (list string)) (x : string) :
  In x (all_called_of calls) <-> exists g targets, In (g, targets) calls /\ In x targets.
Proof.
  unfold all_called_of; rewrite In_fold_set_add, in_concat; simpl; split.
  - intros [[]|[ts [Hts Hx]]].
    unfold Py.values in Hts; apply in_map_iff in Hts.
    destruct Hts as [[g ts'] [Heq Hin]]; simpl in Heq; subst; eauto.
  - intros [g [ts [Hin Hx]]]; right; exists ts; split; [|exact Hx].
    unfold Py.values; change ts with (snd (g, ts)); now apply in_map.
Qed.

Lemma In_get_default (calls : Py.dict (list string)) (k x : string) :
  In x (Py.dict_get_default calls k []) -> exists targets, In (k, targets) calls /\ In x targets.
Proof.
  unfold Py.dict_get_default; destruct (Py.dict_get calls k) as [ts|] eqn:E; [|intros []].
  intros H; exists ts; split; [now apply dict_get_In | exact H].
Qed.

(* ================================================================== *)
(** * Dead functions and callers *)

Lemma In_dead_functions_of (functions : list FunctionDetails) (all_called : list string)
  (x : string) :
  In x (dead_functions_of functions all_called)
  <-> (exists f, In f functions /\ fd_name f = x /\ fd_is_entrypoint f = false)
      /\ ~ In x all_called.
Proof.
  unfold dead_functions_of; rewrite in_map_iff; split.
  - intros [f [Hname Hf]]; apply filter_In in Hf; destruct Hf as [Hf Hc].
    apply andb_true_iff in Hc; destruct Hc as [H1 H2].
    apply negb_true_iff in H1, H2; subst x; split; [eauto|].
    now apply mem_false.
  - intros [[f [Hf [Hname Hep]]] Hnot]; exists f; split; [exact Hname|].
    apply filter_In; split; [exact Hf|].
    apply mem_false in Hnot; rewrite Hname, Hnot, Hep; reflexivity.
Qed.

Lemma fill_called_by_names (cb : Py.dict (list string)) (fs : list FunctionDetails) :
  map fd_name (fill_called_by cb fs) = map fd_name fs.
Proof. unfold fill_called_by; rewrite map_map; reflexivity. Qed.

Lemma make_functions_names (tree : Module_) (sc : Py.dict nat)
  (calls : Py.dict (list string)) (eps : list string) :
  map fd_name (make_functions (extract_symbols tree) sc calls eps)
  = top_level_functions tree.
Proof.
  unfold make_functions, extract_symbols, top_level_functions.
  induction tree as [|s tree IH]; simpl; [reflexivity|].
  rewrite flat_map_app, map_app, IH.
  destruct s; reflexivity.
Qed.

Lemma In_fill_called_by (cb : Py.dict (list string)) (fs : list FunctionDetails)
  (f : FunctionDetails) :
  In f (fill_called_by cb fs) ->
  fd_called_by f = Py.dict_get_default cb (fd_name f) [] /\
  exists f0, In f0 fs /\ fd_name f0 = fd_name f /\ fd_calls f0 = fd_calls f.
Proof.
  unfold fill_called_by; rewrite in_map_iff; intros [f0 [<- Hf0]]; simpl; eauto.
Qed.

Lemma In_make_functions (symbols : list (string * string * nat)) (sc : Py.dict nat)
  (calls : Py.dict (list string)) (eps : list string) (f : FunctionDetails) :
  In f (make_functions symbols sc calls eps) ->
  fd_calls f = Py.dict_get_default calls (fd_name f) [].
Proof.
  unfold make_functions; rewrite in_flat_map; intros [[[name kd] ln] [_ H]].
  destruct (String.eqb kd "function"); [|contradiction].
  destruct H as [<-|[]]; reflexivity.
Qed.

(** C6 (as the code has it).  The dead-function list of an analysed module
    holds exactly the names of its top-level functions that are not entry
    points and occur in no call-target set of the module's call graph.
    That graph is built from the function definitions alone: a call made
    at module top level, outside every definition, is not recorded, so it
    keeps no function from being listed as dead. *)
Theorem dead_functions_characterised
  (cwd : list string) (ast_parse : string -> option Module_) (RADON_AVAILABLE : bool)
  (cc_visit : string -> option (list Block)) (is_stdlib : string -> bool)
  (files : Py.dict string) (symbol_level : bool) (m : string) (d : ModuleDetails) :
  In (m, d)
     (art_module_details
        (build cwd ast_parse RADON_AVAILABLE cc_visit is_stdlib files symbol_level)) ->
  (forall x,
     In x (md_dead_functions d) <->
     (exists f, In f (md_functions d) /\ fd_name f = x /\ fd_is_entrypoint f = false)
     /\ (forall g targets, In (g, targets) (md_call_graph d) -> ~ In x targets)) /\
  (exists tree,
     ast_parse (code_of files (md_path d)) = Some tree /\
     map fd_name (md_functions d) = top_level_functions tree /\
     md_call_graph d = cg_calls (run_CallGraphVisitor (filter has_def tree))).
Proof.
  intros Hin; simpl in Hin.
  pose proof (artifact_provenance cwd ast_parse RADON_AVAILABLE cc_visit is_stdlib
                files symbol_level) as (_ & _ & Hd & _).
  destruct (Hd _ _ Hin) as [fp [tree [[_ Hparse] ->]]]; simpl.
  split.
  - intros x; rewrite In_dead_functions_of, In_all_called_of.
    split; intros [H1 H2]; (split; [exact H1|]).
    + intros g ts Hg Hx; apply H2; eauto.
    + intros [g [ts [Hg Hx]]]; exact (H2 g ts Hg Hx).
  - exists tree; split; [exact Hparse|]; split.
    + rewrite fill_called_by_names; apply make_functions_names.
    + now rewrite <- call_graph_ignores_module_level.
Qed.

(** C6, the claim as written fails on scenario S3: [used] is invoked at
    module top level only, and it is listed as dead beside [dead]. *)
Lemma function_called_at_top_level_is_dead :
  let art := build srv s3_parse false no_radon is_stdlib_fallback s3_files false in
  s3_parse (code_of s3_files "m.py") = Some s3_tree /\
  map (fun '(m, d) => (m, md_dead_functions d)) (art_module_details art)
  = [("m", ["used"; "dead"])].
Proof. vm_compute; repeat split. Qed.

Lemma dead_functions_characterised_witness :
  exists d,
    In ("m", d)
       (art_module_details
          (build srv s3_parse false no_radon is_stdlib_fallback s3_files false)) /\
    (forall x,
       In x (md_dead_functions d) <->
       (exists f, In f (md_functions d) /\ fd_name f = x /\ fd_is_entrypoint f = false)
       /\ (forall g targets, In (g, targets) (md_call_graph d) -> ~ In x targets)) /\
    (exists tree,
       s3_parse (code_of s3_files (md_path d)) = Some tree /\
       map fd_name (md_functions d) = top_level_functions tree /\
       md_call_graph d = cg_calls (run_CallGraphVisitor (filter has_def tree))).
Proof.
  eexists; split; [vm_compute; left; reflexivity|].
  apply (@dead_functions_characterised srv s3_parse false no_radon is_stdlib_fallback
           s3_files false "m").
  vm_compute; left; reflexivity.
Defined.

(** C7 (as the code has it).  For every top-level function [f] of an
    analysed module, [called_by] holds exactly the keys [g] of the module's
    call graph whose target set contains the name of [f].  Those keys are
    the names of the function definitions at any depth, methods and nested
    functions included, so [called_by] contains the top-level callers of
    the claim but is not restricted to them. *)
Theorem called_by_characterised
  (cwd : list string) (ast_parse : string -> option Module_) (RADON_AVAILABLE : bool)
  (cc_visit : string -> option (list Block)) (is_stdlib : string -> bool)
  (files : Py.dict string) (symbol_level : bool) (m : string) (d : ModuleDetails) :
  In (m, d)
     (art_module_details
        (build cwd ast_parse RADON_AVAILABLE cc_visit is_stdlib files symbol_level)) ->
  (forall f, In f (md_functions d) ->
     forall g, In g (fd_called_by f) <->
               exists targets, In (g, targets) (md_call_graph d) /\
                               In (fd_name f) targets) /\
  (forall f g, In f (md_functions d) -> In g (md_functions d) ->
     In (fd_name f) (fd_calls g) -> In (fd_name g) (fd_called_by f)) /\
  (exists tree,
     ast_parse (code_of files (md_path d)) = Some tree /\
     forall g targets, In (g, targets) (md_call_graph d) ->
                       In g (flat_map def_names tree)).
Proof.
  intros Hin; simpl in Hin.
  pose proof (artifact_provenance cwd ast_parse RADON_AVAILABLE cc_visit is_stdlib
                files symbol_level) as (_ & _ & Hd & _).
  destruct (Hd _ _ Hin) as [fp [tree [[_ Hparse] ->]]]; simpl.
  assert (Hcb : forall f,
             In f (fill_called_by (invert_calls (cg_calls (run_CallGraphVisitor tree)))
                     (make_functions (extract_symbols tree)
                        (map_symbol_complexities
                           (snd (metrics_of RADON_AVAILABLE cc_visit files fp)))
                        (cg_calls (run_CallGraphVisitor tree))
                        (run_EntrypointVisitor tree))) ->
             forall g, In g (fd_called_by f) <->
                       exists targets,
                         In (g, targets) (cg_calls (run_CallGraphVisitor tree)) /\
                         In (fd_name f) targets).
  { intros f Hf g; apply In_fill_called_by in Hf; destruct Hf as [-> _].
    apply In_invert_calls. }
  split; [exact Hcb|]; split.
  - intros f g Hf Hg Hcall; apply (Hcb f Hf).
    apply In_fill_called_by in Hg; destruct Hg as [_ [g0 [Hg0 [Hname Hcalls]]]].
    apply In_make_functions in Hg0.
    rewrite <- Hcalls, Hg0, Hname in Hcall.
    now apply In_get_default.
  - exists tree; split; [exact Hparse|].
    intros g ts Hg; apply call_graph_keys_are_defs.
    unfold Py.keys; change g with (fst (g, ts)); now apply in_map.
Qed.

(** C7, the claim as written fails: [helper] is called from the method
    [meth] only; [meth] is in its [called_by] list although the module has
    no top-level function of that name. *)
Lemma called_by_holds_a_method :
  let art := build srv method_parse false no_radon is_stdlib_fallback method_files false in
  method_parse (code_of method_files "m.py") = Some method_tree /\
  map (fun '(m, d) =>
         (m, map (fun f => (fd_name f, fd_calls f, fd_called_by f)) (md_functions d)))
      (art_module_details art)
  = [("m", [("helper", [], ["meth"])])] /\
  exists d f,
    In ("m", d) (art_module_details art) /\ In f (md_functions d) /\
    In "meth" (fd_called_by f) /\
    ~ (exists g, In g (md_functions d) /\ fd_name g = "meth").
Proof.
  split; [reflexivity|]; split; [reflexivity|].
  eexists; eexists; split; [vm_compute; left; reflexivity|].
  split; [vm_compute; left; reflexivity|].
  split; [vm_compute; left; reflexivity|].
  intros [g [Hg Hname]]; vm_compute in Hg.
  destruct Hg as [<-|[]]; discriminate.
Qed.

Lemma called_by_characterised_witness :
  exists d,
    In ("m", d)
       (art_module_details
          (build srv method_parse false no_radon is_stdlib_fallback method_files false)) /\
    (forall f, In f (md_functions d) ->
       forall g, In g (fd_called_by f) <->
                 exists targets, In (g, targets) (md_call_graph d) /\
                                 In (fd_name f) targets) /\
    (forall f g, In f (md_functions d) -> In g (md_functions d) ->
       In (fd_name f) (fd_calls g) -> In (fd_name g) (fd_called_by f)) /\
    (exists tree,
       method_parse (code_of method_files (md_path d)) = Some tree /\
       forall g targets, In (g, targets) (md_call_graph d) ->
                         In g (flat_map def_names tree)).
Proof.
  eexists; split; [vm_compute; left; reflexivity|].
  apply (@called_by_characterised srv method_parse false no_radon is_stdlib_fallback
           method_files false "m").
  vm_compute; left; reflexivity.
Defined.

(* ================================================================== *)
(** * The working directory does not matter for archive paths *)

Lemma normpath_comps_kept (cwd xs acc : list string) :
  proper_cwd cwd = true ->
  posixpath.normpath_comps (cwd ++ xs) acc = posixpath.normpath_comps xs (acc ++ cwd).
Proof.
  revert acc; induction cwd as [|c cwd IH]; intros acc H; simpl.
  - now rewrite app_nil_r.
  - simpl in H; apply andb_true_iff in H; destruct H as [Hc Hrest].
    unfold kept_component in Hc.
    apply andb_true_iff in Hc; destruct Hc as [Hc H3].
    apply andb_true_iff in Hc; destruct Hc as [H1 H2].
    apply negb_true_iff in H1, H2, H3; rewrite H1, H2, H3; simpl.
    rewrite IH by exact Hrest; rewrite <- app_assoc; reflexivity.
Qed.

Lemma normpath_comps_no_dotdot (xs acc : list string) :
  forallb (fun c => negb (String.eqb c "..")) xs = true ->
  posixpath.normpath_comps xs acc = acc ++ posixpath.normpath_comps xs [].
Proof.
  revert acc; induction xs as [|c xs IH]; intros acc H; simpl.
  - now rewrite app_nil_r.
  - simpl in H; apply andb_true_iff in H; destruct H as [Hc Hrest].
    apply negb_true_iff in Hc; rewrite Hc.
    destruct (String.eqb c "" || String.eqb c "."); [now apply IH|].
    rewrite (IH (acc ++ [c]) Hrest), (IH [c] Hrest), <- app_assoc.
    reflexivity.
Qed.

Lemma abspath_comps_cwd (cwd : list string) (p : string) :
  proper_cwd cwd = true -> plain p = true ->
  posixpath.abspath_comps cwd p = cwd ++ posixpath.abspath_comps [] p.
Proof.
  intros Hcwd Hp; unfold plain in Hp; apply andb_true_iff in Hp.
  destruct Hp as [Hrel Hdd]; apply negb_true_iff in Hrel.
  unfold posixpath.abspath_comps; rewrite Hrel; simpl app.
  rewrite normpath_comps_kept by exact Hcwd; simpl app.
  now apply normpath_comps_no_dotdot.
Qed.

Lemma common_prefix_len_app (pre a b : list string) :
  posixpath.common_prefix_len (pre ++ a) (pre ++ b)
  = List.length pre + posixpath.common_prefix_len a b.
Proof.
  induction pre as [|c pre IH]; simpl; [reflexivity|].
  now rewrite String.eqb_refl, IH.
Qed.

Lemma relpath_cwd (cwd : list string) (path_ start : string) :
  proper_cwd cwd = true -> plain path_ = true -> plain start = true ->
  posixpath.relpath cwd path_ start = posixpath.relpath [] path_ start.
Proof.
  intros Hcwd Hp Hs; unfold posixpath.relpath.
  rewrite !(@abspath_comps_cwd cwd) by assumption.
  rewrite common_prefix_len_app, length_app, skipn_app.
  set (a := posixpath.abspath_comps [] start).
  set (b := posixpath.abspath_comps [] path_).
  set (i := posixpath.common_prefix_len a b).
  replace (List.length cwd + List.length a - (List.length cwd + i))
    with (List.length a - i) by lia.
  replace (List.length cwd + i - List.length cwd) with i by lia.
  rewrite (skipn_all2 cwd) by lia; reflexivity.
Qed.

Lemma module_key_from_path_cwd (cwd : list string) (root filepath : string) :
  proper_cwd cwd = true -> plain filepath = true -> plain root = true ->
  module_key_from_path cwd root filepath = module_key_from_path [] root filepath.
Proof.
  intros Hcwd Hp Hr; unfold module_key_from_path.
  now rewrite (@relpath_cwd cwd) by assumption.
Qed.

Section Extensionality.

Variable cwd : list string.
Variables ast_parse ast_parse' : string -> option Module_.
Variables RADON_AVAILABLE RADON_AVAILABLE' : bool.
Variables cc_visit cc_visit' : string -> option (list Block).
Variables is_stdlib is_stdlib' : string -> bool.
Variable files : Py.dict string.
Variable symbol_level : bool.

Lemma build_module_map_cwd (roots : list string) :
  proper_cwd cwd = true ->
  forallb plain (Py.keys files) = true -> forallb plain roots = true ->
  build_module_map cwd files roots = build_module_map [] files roots.
Proof.
  intros Hcwd Hfiles Hroots; unfold build_module_map.
  apply fold_left_ext_in; intros mm fp Hfp.
  destruct (find (fun root => Py.startswith fp root) roots) as [root|] eqn:Ef;
    [|reflexivity].
  apply find_some in Ef; destruct Ef as [Hroot _].
  rewrite forallb_forall in Hfiles, Hroots.
  now rewrite (@module_key_from_path_cwd cwd) by auto.
Qed.

(** [build] reads the working directory through the module keys only. *)
Lemma build_cwd :
  proper_cwd cwd = true ->
  forallb plain (Py.keys files) = true ->
  forallb plain (detect_roots files) = true ->
  build cwd ast_parse RADON_AVAILABLE cc_visit is_stdlib files symbol_level
  = build [] ast_parse RADON_AVAILABLE cc_visit is_stdlib files symbol_level.
Proof.
  intros Hcwd Hfiles Hroots.
  unfold build, assemble, _detect_project_roots; simpl.
  now rewrite build_module_map_cwd by assumption.
Qed.

Lemma import_edges_ext (mid : string) (imports : list string) (b : Builder) :
  (forall imp, In imp imports ->
               is_stdlib (get_top_module imp) = is_stdlib' (get_top_module imp)) ->
  import_edges is_stdlib mid imports b = import_edges is_stdlib' mid imports b.
Proof.
  intros H; unfold import_edges; apply fold_left_ext_in; intros a imp Himp.
  now rewrite (H imp Himp).
Qed.

(** [build] reads its collaborators only at the files of the input and at
    the top-level names of the imports of the analysed modules. *)
Lemma build_ext :
  (forall p, In p (Py.keys files) ->
             ast_parse (code_of files p) = ast_parse' (code_of files p)) ->
  (forall p, In p (Py.keys files) ->
             calculate_module_complexity RADON_AVAILABLE cc_visit (code_of files p)
             = calculate_module_complexity RADON_AVAILABLE' cc_visit' (code_of files p)) ->
  (forall m fp tree imp,
     In (m, fp) (build_module_map cwd files (detect_roots files)) ->
     ast_parse' (code_of files fp) = Some tree ->
     In imp (iv_imports
               (run_ImportVisitor (Py.join "." (removelast (Py.split "." m))) tree)) ->
     is_stdlib (get_top_module imp) = is_stdlib' (get_top_module imp)) ->
  build cwd ast_parse RADON_AVAILABLE cc_visit is_stdlib files symbol_level
  = build cwd ast_parse' RADON_AVAILABLE' cc_visit' is_stdlib' files symbol_level.
Proof.
  intros Hparse Hmetrics Hstd.
  assert (E : assemble cwd ast_parse RADON_AVAILABLE cc_visit is_stdlib files symbol_level
              = assemble cwd ast_parse' RADON_AVAILABLE' cc_visit' is_stdlib' files
                  symbol_level).
  { unfold assemble, _analyze_modules, _detect_project_roots; simpl.
    f_equal; apply fold_left_ext_in; intros a [m fp] Hitem.
    pose proof (@build_module_map_values cwd files _ m fp Hitem) as [Hkey _].
    unfold analyze_module; fold (code_of files fp).
    rewrite (Hparse fp Hkey), (Hmetrics fp Hkey).
    destruct (ast_parse' (code_of files fp)) as [tree|] eqn:Ep; [|reflexivity].
    unfold analyze_parsed.
    destruct (calculate_module_complexity RADON_AVAILABLE' cc_visit' (code_of files fp))
      as [cx bl].
    rewrite (import_edges_ext m _ _ (fun imp Himp => Hstd m fp tree imp Hitem Ep Himp)).
    reflexivity. }
  unfold build; now rewrite E.
Qed.

End Extensionality.

(* ================================================================== *)
(** * Scenarios S1 and S2 *)

(** C3 (as the code has it).  For the single file [m.py] holding
    [import numpy as np] and a call [np.array([])], with numpy outside the
    standard library: the artifact has the module node [m] and exactly one
    external node [external:numpy], and exactly one edge,
    [(m, external:numpy, external)].  The import does not resolve to a
    module, so neither an [imports] nor a [calls] edge is produced. *)
Theorem external_import_scenario
  (cwd : list string) (ast_parse : string -> option Module_) (RADON_AVAILABLE : bool)
  (cc_visit : string -> option (list Block)) (is_stdlib : string -> bool)
  (symbol_level : bool) :
  proper_cwd cwd = true ->
  ast_parse s2_source = Some s2_tree ->
  is_stdlib "numpy" = false ->
  let art := build cwd ast_parse RADON_AVAILABLE cc_visit is_stdlib s2_files symbol_level in
  node_ids art = [("m", "module"); ("external:numpy", "external")] /\
  art_edges art = [("m", "external:numpy", "external")].
Proof.
  intros Hcwd Hparse Hstd art; subst art.
  rewrite build_cwd by (assumption || reflexivity).
  assert (Hp : forall p, In p (Py.keys s2_files) ->
                         ast_parse (code_of s2_files p) = s2_parse (code_of s2_files p)).
  { intros p Hin; vm_compute in Hin; destruct Hin as [<-|[]].
    change (code_of s2_files "m.py") with s2_source.
    rewrite Hparse; reflexivity. }
  assert (Hs : forall m fp tree imp,
             In (m, fp) (build_module_map [] s2_files (detect_roots s2_files)) ->
             s2_parse (code_of s2_files fp) = Some tree ->
             In imp (iv_imports
                       (run_ImportVisitor
                          (Py.join "." (removelast (Py.split "." m))) tree)) ->
             is_stdlib (get_top_module imp) = (fun _ => false) (get_top_module imp)).
  { intros m fp tree imp Hin Htree Himp.
    vm_compute in Hin; destruct Hin as [Hin|[]]; inversion Hin; subst m fp.
    vm_compute in Htree; inversion Htree; subst tree.
    vm_compute in Himp; destruct Himp as [<-|[]]; exact Hstd. }
  destruct RADON_AVAILABLE;
    [destruct (cc_visit s2_source) as [[|blk bl]|] eqn:Ecc|].
  - rewrite (@build_ext [] ast_parse s2_parse true true cc_visit (fun _ => Some [])
               is_stdlib (fun _ => false) s2_files symbol_level Hp); [| |exact Hs].
    + destruct symbol_level; vm_compute; auto.
    + intros p Hin; vm_compute in Hin; destruct Hin as [<-|[]].
      change (code_of s2_files "m.py") with s2_source.
      unfold calculate_module_complexity; rewrite Ecc; reflexivity.
  - rewrite (@build_ext [] ast_parse s2_parse true true cc_visit
               (fun _ => Some (blk :: bl))
               is_stdlib (fun _ => false) s2_files symbol_level Hp); [| |exact Hs].
    + destruct symbol_level; vm_compute; auto.
    + intros p Hin; vm_compute in Hin; destruct Hin as [<-|[]].
      change (code_of s2_files "m.py") with s2_source.
      unfold calculate_module_complexity; rewrite Ecc; reflexivity.
  - rewrite (@build_ext [] ast_parse s2_parse true true cc_visit (fun _ => None)
               is_stdlib (fun _ => false) s2_files symbol_level Hp); [| |exact Hs].
    + destruct symbol_level; vm_compute; auto.
    + intros p Hin; vm_compute in Hin; destruct Hin as [<-|[]].
      change (code_of s2_files "m.py") with s2_source.
      unfold calculate_module_complexity; rewrite Ecc; reflexivity.
  - rewrite (@build_ext [] ast_parse s2_parse false false cc_visit no_radon
               is_stdlib (fun _ => false) s2_files symbol_level Hp); [| |exact Hs].
    + destruct symbol_level; vm_compute; auto.
    + intros p _; reflexivity.
Qed.

(** C3, the claim as written fails: the only edge of scenario S2 has type
    [external]; the edges [(m, external:numpy, imports)] and
    [(m, external:numpy, calls)] are not in the artifact. *)
Lemma external_import_has_no_calls_edge :
  let art := build srv s2_parse false no_radon is_stdlib_fallback s2_files false in
  s2_parse (code_of s2_files "m.py") = Some s2_tree /\
  is_stdlib_fallback "numpy" = false /\
  art_edges art = [("m", "external:numpy", "external")] /\
  existsb (edge_eqb ("m", "external:numpy", "imports")) (art_edges art) = false /\
  existsb (edge_eqb ("m", "external:numpy", "calls")) (art_edges art) = false.
Proof. vm_compute; repeat split. Qed.

Lemma external_import_scenario_witness :
  let art := build srv s2_parse false no_radon is_stdlib_fallback s2_files false in
  node_ids art = [("m", "module"); ("external:numpy", "external")] /\
  art_edges art = [("m", "external:numpy", "external")].
Proof.
  apply (@external_import_scenario srv s2_parse false no_radon is_stdlib_fallback false);
    reflexivity.
Defined.

(** C4 (as the code has it).  For the three files [pkg/__init__],
    [pkg/a] holding [from . import b], and [pkg/b]: the directory [pkg] is
    taken as the project root, so the module ids are relative to it: the
    empty id for the package itself, [a] and [b]; the artifact has these
    three module nodes, the single edge [(a, b, imports)] and no external
    node. *)
Theorem relative_import_scenario
  (cwd : list string) (ast_parse : string -> option Module_) (RADON_AVAILABLE : bool)
  (cc_visit : string -> option (list Block)) (is_stdlib : string -> bool)
  (symbol_level : bool) :
  proper_cwd cwd = true ->
  ast_parse "" = Some [] ->
  ast_parse s1_import_source = Some s1_import_tree ->
  let art := build cwd ast_parse RADON_AVAILABLE cc_visit is_stdlib s1_files symbol_level in
  detect_roots s1_files = ["pkg"] /\
  node_ids art = [("", "module"); ("a", "module"); ("b", "module")] /\
  art_edges art = [("a", "b", "imports")].
Proof.
  intros Hcwd Hempty Hparse art; subst art; split; [reflexivity|].
  rewrite build_cwd by (assumption || reflexivity).
  assert (Hp : forall p, In p (Py.keys s1_files) ->
                         ast_parse (code_of s1_files p) = s1_parse (code_of s1_files p)).
  { intros p Hin; vm_compute in Hin; destruct Hin as [<-|[<-|[<-|[]]]].
    - change (code_of s1_files "pkg/__init__.py") with ""; now rewrite Hempty.
    - change (code_of s1_files "pkg/a.py") with s1_import_source; now rewrite Hparse.
    - change (code_of s1_files "pkg/b.py") with ""; now rewrite Hempty. }
  assert (Hs : forall m fp tree imp,
             In (m, fp) (build_module_map [] s1_files (detect_roots s1_files)) ->
             s1_parse (code_of s1_files fp) = Some tree ->
             In imp (iv_imports
                       (run_ImportVisitor
                          (Py.join "." (removelast (Py.split "." m))) tree)) ->
             is_stdlib (get_top_module imp) = is_stdlib (get_top_module imp))
    by reflexivity.
  assert (Hblank : forall r p,
             In p (Py.keys s1_files) -> code_of s1_files p = "" ->
             calculate_module_complexity RADON_AVAILABLE cc_visit (code_of s1_files p)
             = calculate_module_complexity RADON_AVAILABLE (fun _ => r) (code_of s1_files p)).
  { intros r p _ ->; unfold calculate_module_complexity; simpl is_blank.
    rewrite orb_true_r; reflexivity. }
  assert (Hm : forall r,
             cc_visit s1_import_source = r ->
             forall p, In p (Py.keys s1_files) ->
             calculate_module_complexity RADON_AVAILABLE cc_visit (code_of s1_files p)
             = calculate_module_complexity RADON_AVAILABLE (fun _ => r) (code_of s1_files p)).
  { intros r Hr p Hin; pose proof Hin as Hin'; vm_compute in Hin'.
    destruct Hin' as [<-|[<-|[<-|[]]]].
    - apply Hblank; [exact Hin | reflexivity].
    - change (code_of s1_files "pkg/a.py") with s1_import_source.
      unfold calculate_module_complexity; rewrite Hr; reflexivity.
    - apply Hblank; [exact Hin | reflexivity]. }
  destruct (cc_visit s1_import_source) as [[|blk bl]|] eqn:Ecc.
  - rewrite (@build_ext [] ast_parse s1_parse RADON_AVAILABLE RADON_AVAILABLE cc_visit
               (fun _ => Some []) is_stdlib is_stdlib s1_files symbol_level Hp
               (Hm _ eq_refl) Hs).
    destruct RADON_AVAILABLE; destruct symbol_level; vm_compute; auto.
  - rewrite (@build_ext [] ast_parse s1_parse RADON_AVAILABLE RADON_AVAILABLE cc_visit
               (fun _ => Some (blk :: bl)) is_stdlib is_stdlib s1_files symbol_level Hp
               (Hm _ eq_refl) Hs).
    destruct RADON_AVAILABLE; destruct symbol_level; vm_compute; auto.
  - rewrite (@build_ext [] ast_parse s1_parse RADON_AVAILABLE RADON_AVAILABLE cc_visit
               (fun _ => None) is_stdlib is_stdlib s1_files symbol_level Hp
               (Hm _ eq_refl) Hs).
    destruct RADON_AVAILABLE; destruct symbol_level; vm_compute; auto.
Qed.

(** C4, the claim as written fails: the module ids of scenario S1 are the
    empty id, [a] and [b], not [pkg], [pkg.a] and [pkg.b], and the import
    edge joins [a] to [b]. *)
Lemma relative_import_ids_drop_the_root :
  let art := build srv s1_parse false no_radon is_stdlib_fallback s1_files false in
  s1_parse (code_of s1_files "pkg/a.py") = Some s1_import_tree /\
  node_ids art = [("", "module"); ("a", "module"); ("b", "module")] /\
  existsb (fun n => String.eqb (id n) "pkg.a") (art_nodes art) = false /\
  existsb (edge_eqb ("pkg.a", "pkg.b", "imports")) (art_edges art) = false.
Proof. vm_compute; repeat split. Qed.

Lemma relative_import_scenario_witness :
  let art := build srv s1_parse false no_radon is_stdlib_fallback s1_files false in
  detect_roots s1_files = ["pkg"] /\
  node_ids art = [("", "module"); ("a", "module"); ("b", "module")] /\
  art_edges art = [("a", "b", "imports")].
Proof.
  apply (@relative_import_scenario srv s1_parse false no_radon is_stdlib_fallback false);
    reflexivity.
Defined.

(* ================================================================== *)
(** * Depths *)

(** Scenario S5: the cycle [a -> b -> c -> a] is one component at depth 1,
    and [d], which imports [a], is at depth 0. *)
Lemma scc_layering_scenario :
  let art := build srv s5_parse false no_radon is_stdlib_fallback s5_files false in
  art_edges art
  = [("a", "b", "imports"); ("b", "c", "imports"); ("c", "a", "imports");
     ("d", "a", "imports")] /\
  art_layout_depth art = Some [("a", 1); ("b", 1); ("c", 1); ("d", 0)].
Proof. vm_compute; split; reflexivity. Qed.

(** C9, at the input where the layering breaks.  The package [a] defines
    a function [b] and has a submodule [a/b]; with symbol-level detail the
    only edge is [(a, a.b, defines)], so the layout graph has no edge and
    both modules are source components.  [comp_graph] is filled from every
    edge whose ends have a component, without the test on the edge type
    that builds [graph], and [a.b] is a module id: the module [a.b] gets
    depth 1. *)
Theorem defines_edge_shifts_module_depth :
  let art := build srv clash_parse true clash_cc_visit is_stdlib_fallback clash_files true in
  node_ids art = [("a", "module"); ("a.b", "function"); ("a.b", "module")] /\
  art_edges art = [("a", "a.b", "defines")] /\
  filter (fun '(_, _, ty) => Layout.layout_edge_type ty) (art_edges art) = [] /\
  art_layout_depth art = Some [("a", 0); ("a.b", 1)].
Proof. vm_compute; repeat split. Qed.

(** ** Every order of iteration *)

Lemma inserts_complete {A : Type} (x : A) (l1 l2 : list A) :
  In (l1 ++ x :: l2) (inserts x (l1 ++ l2)).
Proof.
  induction l1 as [|y l1 IH]; simpl.
  - destruct l2; simpl; now left.
  - right; apply in_map; exact IH.
Qed.

Lemma perms_complete {A : Type} (l l' : list A) :
  Permutation l l' -> In l' (perms l).
Proof.
  revert l'; induction l as [|x l IH]; intros l' H; simpl.
  - apply Permutation_nil in H; subst; now left.
  - assert (Hx : In x l') by (eapply Permutation_in; [exact H | now left]).
    apply in_split in Hx; destruct Hx as [l1 [l2 ->]].
    apply Permutation_cons_app_inv in H.
    apply in_flat_map; exists (l1 ++ l2); split; [now apply IH|].
    apply inserts_complete.
Qed.

Lemma depths_eqb_eq (a b : option (Py.dict nat)) : depths_eqb a b = true -> a = b.
Proof.
  destruct a as [x|], b as [y|]; simpl; try discriminate; [|reflexivity].
  intros H; apply andb_true_iff in H; destruct H as [Hlen H]; f_equal.
  apply Nat.eqb_eq in Hlen; revert y Hlen H.
  induction x as [|[k1 v1] x IH]; intros [|[k2 v2] y] Hlen H; simpl in *;
    try discriminate; [reflexivity|].
  apply andb_true_iff in H; destruct H as [H1 H2].
  apply andb_true_iff in H1; destruct H1 as [Hk Hv].
  apply String.eqb_eq in Hk; apply Nat.eqb_eq in Hv; subst.
  f_equal; apply IH; [lia | exact H2].
Qed.

Lemma depths_in_every_order_sound (all_nodes ns : list string) (edges es : list GraphEdge)
  (nodes : list GraphNode) (expected : Py.dict nat) :
  depths_in_every_order all_nodes edges nodes expected = true ->
  Permutation all_nodes ns -> Permutation edges es ->
  Layout.layout_depths ns es nodes = Some expected.
Proof.
  unfold depths_in_every_order; intros H Hns Hes.
  rewrite forallb_forall in H.
  specialize (H ns (perms_complete Hns)); rewrite forallb_forall in H.
  exact (depths_eqb_eq _ _ (H es (perms_complete Hes))).
Qed.

Unset Implicit Arguments.

Lemma s5_depths_checked :
  depths_in_every_order (Layout.all_nodes_of (nodes s5_builder)) (edges s5_builder)
    (nodes s5_builder) [("a", 1); ("b", 1); ("c", 1); ("d", 0)] = true.
Proof. vm_compute; reflexivity. Qed.

(** Scenario S5 in every order in which Python may iterate the node set
    and the edge set: [a], [b], [c] at depth 1 and [d] at depth 0. *)
Lemma scc_layering_in_every_order (ns : list string) (es : list GraphEdge) :
  Permutation (Layout.all_nodes_of (nodes s5_builder)) ns ->
  Permutation (edges s5_builder) es ->
  Layout.layout_depths ns es (nodes s5_builder)
  = Some [("a", 1); ("b", 1); ("c", 1); ("d", 0)].
Proof. apply depths_in_every_order_sound; exact s5_depths_checked. Qed.

Lemma clash_depths_checked :
  depths_in_every_order (Layout.all_nodes_of (nodes clash_builder)) (edges clash_builder)
    (nodes clash_builder) [("a", 0); ("a.b", 1)] = true.
Proof. vm_compute; reflexivity. Qed.

(** The depth 1 of the module [a.b] in every such order. *)
Lemma defines_edge_shifts_depth_in_every_order (ns : list string) (es : list GraphEdge) :
  Permutation (Layout.all_nodes_of (nodes clash_builder)) ns ->
  Permutation (edges clash_builder) es ->
  Layout.layout_depths ns es (nodes clash_builder) = Some [("a", 0); ("a.b", 1)].
Proof. apply depths_in_every_order_sound; exact clash_depths_checked. Qed.

(* ================================================================== *)
(** * The graph in closed form *)

Lemma promote_call_promoted (mid call_alias : string) (imports : list string)
  (mm : Py.dict string) (es : list GraphEdge) :
  promote_call mid call_alias imports mm es
  = match promoted mid call_alias imports mm with
    | Some t => edges_add (mid, t, "calls") es
    | None => es
    end.
Proof.
  induction imports as [|imp rest IH]; simpl; [reflexivity|].
  destruct (String.eqb call_alias (Py.last (Py.split "." imp))); [|exact IH].
  destruct (usable_target (_resolve_import mm imp) mid); [reflexivity | exact IH].
Qed.

Lemma promoted_import (mid call_alias : string) (imports : list string)
  (mm : Py.dict string) (t : string) :
  promoted mid call_alias imports mm = Some t ->
  exists imp, In imp imports /\ call_alias = Py.last (Py.split "." imp) /\
              usable_target (_resolve_import mm imp) mid = Some t.
Proof.
  induction imports as [|imp rest IH]; simpl; [discriminate|].
  destruct (String.eqb call_alias (Py.last (Py.split "." imp))) eqn:E.
  - destruct (usable_target (_resolve_import mm imp) mid) as [t'|] eqn:Eu.
    + intros H; inversion H; subst; exists imp.
      apply String.eqb_eq in E; auto.
    + intros H; destruct (IH H) as [i [Hi Hrest]]; exists i; auto.
  - intros H; destruct (IH H) as [i [Hi Hrest]]; exists i; auto.
Qed.

Lemma import_edges_exact (is_stdlib : string -> bool) (mid : string)
  (imports : list string) (b : Builder) :
  nodes (import_edges is_stdlib mid imports b) = nodes b /\
  module_map (import_edges is_stdlib mid imports b) = module_map b /\
  module_details (import_edges is_stdlib mid imports b) = module_details b /\
  (forall e, In e (edges (import_edges is_stdlib mid imports b)) <->
             In e (edges b) \/ In e (import_edge_list (module_map b) mid imports)) /\
  (forall p, In p (external_deps (import_edges is_stdlib mid imports b)) <->
             In p (external_deps b) \/
             In p (external_list is_stdlib (module_map b) mid imports)).
Proof.
  unfold import_edges, import_edge_list, external_list.
  revert b; induction imports as [|imp rest IH]; intros b; simpl.
  - repeat split; auto; intros [H|[]]; exact H.
  - destruct (usable_target (_resolve_import (module_map b) imp) mid) as [t|] eqn:E.
    + match goal with
      | |- context [fold_left ?f rest ?b0] => destruct (IH b0) as (N & M & D & He & Hp)
      end.
      simpl in N, M, D, He, Hp.
      split; [exact N|]; split; [exact M|]; split; [exact D|]; split.
      * intros e; rewrite He, In_edges_add; simpl; intuition.
      * intros p; rewrite Hp; simpl; intuition.
    + destruct (is_stdlib (get_top_module imp)) eqn:Es; simpl.
      * destruct (IH b) as (N & M & D & He & Hp).
        split; [exact N|]; split; [exact M|]; split; [exact D|]; split;
          [exact He | exact Hp].
      * match goal with
        | |- context [fold_left ?f rest ?b0] => destruct (IH b0) as (N & M & D & He & Hp)
        end.
        simpl in N, M, D, He, Hp.
        split; [exact N|]; split; [exact M|]; split; [exact D|]; split.
        -- exact He.
        -- intros p; rewrite Hp, In_set_add; simpl; intuition.
Qed.

Lemma call_edges_exact (mid : string) (calls imports : list string) (b : Builder) :
  forall e, In e (edges (call_edges mid calls imports b)) <->
            In e (edges b) \/ In e (call_edge_list (module_map b) mid calls imports).
Proof.
  unfold call_edges, call_edge_list; simpl.
  generalize (edges b) as es.
  induction calls as [|c calls IH]; intros es e; simpl.
  - intuition.
  - rewrite IH, promote_call_promoted, in_app_iff.
    destruct (promoted mid c imports (module_map b)) as [t|]; simpl.
    + rewrite In_edges_add; intuition.
    + intuition.
Qed.

Lemma symbol_nodes_external_deps (mid fp : string) (symbols : list (string * string * nat))
  (sc : Py.dict nat) (b : Builder) :
  external_deps (symbol_nodes mid fp symbols sc b) = external_deps b.
Proof.
  unfold symbol_nodes; revert b; induction symbols as [|s rest IH]; intros b; simpl;
    [reflexivity|].
  rewrite IH; reflexivity.
Qed.

(** One analysed module: what it appends to every table of the builder. *)
Lemma analyze_parsed_exact (is_stdlib : string -> bool) (symbol_level : bool)
  (b : Builder) (mid fp code : string) (tree : Module_)
  (cx : ComplexityMetrics) (bl : list Block) :
  let b' := analyze_parsed is_stdlib symbol_level b mid fp code tree (cx, bl) in
  let visitor := module_visitor mid tree in
  module_map b' = module_map b /\
  module_details b'
  = Py.dict_set (module_details b) mid (make_details mid fp code tree cx bl) /\
  (forall e, In e (edges b') <->
             In e (edges b) \/
             In e (import_edge_list (module_map b) mid (iv_imports visitor)
                   ++ call_edge_list (module_map b) mid (iv_calls visitor)
                        (iv_imports visitor)
                   ++ define_edge_list symbol_level mid fp tree bl)) /\
  (forall p, In p (external_deps b') <->
             In p (external_deps b) \/
             In p (external_list is_stdlib (module_map b) mid (iv_imports visitor))).
Proof.
  cbv zeta; unfold analyze_parsed, module_visitor, define_edge_list, has_blocks.
  set (parent_pkg := Py.join "." (removelast (Py.split "." mid))).
  set (visitor := run_ImportVisitor parent_pkg tree).
  set (node := mkGraphNode mid "module" fp (get_top_module mid)
                 (StatsOf (module_stats code tree parent_pkg cx)) None).
  set (b1 := mkBuilder (nodes b ++ [node]) (edges b) (module_map b) (external_deps b)
               (Py.dict_set (module_details b) mid
                  (make_details mid fp code tree cx bl))).
  destruct (import_edges_exact is_stdlib mid (iv_imports visitor) b1)
    as (N2 & M2 & D2 & E2 & P2).
  set (b2 := import_edges is_stdlib mid (iv_imports visitor) b1) in *.
  pose proof (call_edges_exact mid (iv_calls visitor) (iv_imports visitor) b2) as E3.
  set (b3 := call_edges mid (iv_calls visitor) (iv_imports visitor) b2) in *.
  assert (M3 : module_map b3 = module_map b) by (simpl; exact M2).
  assert (D3 : module_details b3 = module_details b1) by (simpl; exact D2).
  assert (P3 : external_deps b3 = external_deps b2) by reflexivity.
  assert (E13 : forall e,
             In e (edges b3) <->
             In e (edges b) \/
             In e (import_edge_list (module_map b) mid (iv_imports visitor)) \/
             In e (call_edge_list (module_map b) mid (iv_calls visitor)
                     (iv_imports visitor))).
  { intros e; rewrite E3, E2, M2; simpl; tauto. }
  destruct (symbol_level && negb match bl with [] => true | _ :: _ => false end).
  - destruct (symbol_nodes_frame mid fp (extract_symbols tree)
                (map_symbol_complexities bl) b3) as (_ & M4 & D4 & E4).
    rewrite M4, D4, symbol_nodes_external_deps, P3.
    split; [exact M3|]; split; [rewrite D3; reflexivity|]; split.
    + intros e; rewrite E4, E13, !in_app_iff, in_map_iff.
      split.
      * intros [[H|[H|H]]|[sym [Hs He]]]; auto.
        right; right; right; exists sym; auto.
      * intros [H|[H|[H|[sym [He Hs]]]]]; auto.
        right; exists sym; auto.
    + intros p; rewrite P2; reflexivity.
  - rewrite P3; split; [exact M3|]; split; [rewrite D3; reflexivity|]; split.
    + intros e; rewrite E13, !in_app_iff; simpl; tauto.
    + intros p; rewrite P2; reflexivity.
Qed.

(* ================================================================== *)
(** * The loops over the module table in closed form *)

Lemma dict_set_fresh {V : Type} (d : Py.dict V) (k : string) (v : V) :
  ~ In k (Py.keys d) -> Py.dict_set d k v = d ++ [(k, v)].
Proof.
  induction d as [|[k' v'] d IH]; simpl; intros H; [reflexivity|].
  destruct (String.eqb k k') eqn:E.
  - apply String.eqb_eq in E; subst; exfalso; apply H; left; reflexivity.
  - rewrite IH; [reflexivity | intros Hin; apply H; right; exact Hin].
Qed.

Section ClosedForms.

Variable ast_parse : string -> option Module_.
Variable RADON_AVAILABLE : bool.
Variable cc_visit : string -> option (list Block).
Variable is_stdlib : string -> bool.
Variable files : Py.dict string.
Variable symbol_level : bool.

Local Abbreviation step :=
  (analyze_module ast_parse RADON_AVAILABLE cc_visit is_stdlib files symbol_level).
Local Abbreviation nodes_of :=
  (item_nodes ast_parse RADON_AVAILABLE cc_visit files symbol_level).
Local Abbreviation details_of :=
  (item_details ast_parse RADON_AVAILABLE cc_visit files).
Local Abbreviation edges_of :=
  (item_edges ast_parse RADON_AVAILABLE cc_visit files symbol_level).
Local Abbreviation externals_of := (item_externals ast_parse is_stdlib files).

(** One turn of the loop of [_analyze_modules]. *)
Lemma analyze_module_exact (b : Builder) (item : string * string) :
  module_map (step b item) = module_map b /\
  nodes (step b item) = nodes b ++ nodes_of item /\
  module_details (step b item)
  = fold_left (fun d kv => Py.dict_set d (fst kv) (snd kv)) (details_of item)
      (module_details b) /\
  (forall e, In e (edges (step b item)) <->
             In e (edges b) \/ In e (edges_of (module_map b) item)) /\
  (forall p, In p (external_deps (step b item)) <->
             In p (external_deps b) \/ In p (externals_of (module_map b) item)).
Proof.
  destruct item as [mid fp].
  unfold analyze_module, item_nodes, item_details, item_edges, item_externals,
    metrics_of, code_of.
  destruct (ast_parse (Py.dict_get_default files fp "")) as [tree|].
  - destruct (calculate_module_complexity RADON_AVAILABLE cc_visit
                (Py.dict_get_default files fp "")) as [cx bl] eqn:Em.
    destruct (analyze_parsed_exact is_stdlib symbol_level b mid fp
                (Py.dict_get_default files fp "") tree cx bl) as (M & D & E & P).
    split; [exact M|]; split; [|split; [exact D|split; [exact E | exact P]]].
    rewrite analyze_parsed_nodes; unfold module_node, has_blocks; simpl.
    reflexivity.
  - simpl; rewrite app_nil_r.
    repeat split; auto; try tauto; intros [H|[]]; exact H.
Qed.

(** The loop of [_analyze_modules] over a part [l] of the module table. *)
Lemma analyze_fold_exact (l : list (string * string)) (b : Builder) :
  module_map (fold_left step l b) = module_map b /\
  nodes (fold_left step l b) = nodes b ++ flat_map nodes_of l /\
  (NoDup (Py.keys l) ->
   (forall k, In k (Py.keys l) -> ~ In k (Py.keys (module_details b))) ->
   module_details (fold_left step l b) = module_details b ++ flat_map details_of l) /\
  (forall e, In e (edges (fold_left step l b)) <->
             In e (edges b) \/ In e (flat_map (edges_of (module_map b)) l)) /\
  (forall p, In p (external_deps (fold_left step l b)) <->
             In p (external_deps b) \/ In p (flat_map (externals_of (module_map b)) l)).
Proof.
  revert b; induction l as [|item l IH]; intros b; simpl.
  - rewrite !app_nil_r; repeat split; auto; try tauto; intros [H|[]]; exact H.
  - destruct (analyze_module_exact b item) as (M1 & N1 & D1 & E1 & P1).
    destruct (IH (step b item)) as (M & N & D & E & P).
    split; [rewrite M; exact M1|].
    split; [rewrite N, N1, <- app_assoc; reflexivity|].
    split; [|split].
    + intros Hnd Hfresh.
      inversion Hnd as [|k ks Hk Hks]; subst.
      assert (D1' : module_details (step b item) = module_details b ++ details_of item).
      { rewrite D1; destruct item as [mid fp]; unfold item_details.
        destruct (ast_parse (code_of files fp)); simpl.
        - apply dict_set_fresh, Hfresh; left; reflexivity.
        - rewrite app_nil_r; reflexivity. }
      rewrite D, D1', <- app_assoc; [reflexivity | exact Hks |].
      intros k' Hk' Hin; rewrite D1' in Hin; unfold Py.keys in Hin.
      rewrite map_app, in_app_iff in Hin; destruct Hin as [Hin|Hin].
      * apply (Hfresh k'); [right; exact Hk' | exact Hin].
      * destruct item as [mid fp]; unfold item_details in Hin.
        destruct (ast_parse (code_of files fp)); simpl in Hin; [|contradiction].
        destruct Hin as [<-|[]]; apply Hk; exact Hk'.
    + intros e; rewrite E, E1, M1, in_app_iff; tauto.
    + intros p; rewrite P, P1, M1, in_app_iff; tauto.
Qed.

End ClosedForms.

(** The edge loop of [_add_external_nodes] for one package. *)
Lemma external_edges_exact (ext_pkg : string) (details : Py.dict ModuleDetails)
  (es : list GraphEdge) (e : GraphEdge) :
  In e (external_edges ext_pkg details es) <->
  In e es \/ In e (external_edge_list details ext_pkg).
Proof.
  unfold external_edges, external_edge_list; revert es.
  induction details as [|[mid d] details IH]; intros es; simpl; [tauto|].
  rewrite IH, in_app_iff.
  destruct (existsb _ (md_imports d)); simpl.
  - rewrite In_edges_add; intuition.
  - tauto.
Qed.

Lemma add_external_nodes_fold (pkgs : list string) (b : Builder) :
  let b' :=
    fold_left
      (fun b ext_pkg =>
         mkBuilder
           (nodes b
            ++ [mkGraphNode ("external:" ++ ext_pkg) "external" ("external/" ++ ext_pkg)
                  "external" ExternalPackage None])
           (external_edges ext_pkg (module_details b) (edges b))
           (module_map b) (external_deps b) (module_details b))
      pkgs b in
  nodes b' = nodes b ++ map external_node pkgs /\
  module_map b' = module_map b /\
  external_deps b' = external_deps b /\
  module_details b' = module_details b /\
  (forall e, In e (edges b') <->
             In e (edges b) \/
             exists pkg, In pkg pkgs /\ In e (external_edge_list (module_details b) pkg)).
Proof.
  cbv zeta; revert b; induction pkgs as [|pkg pkgs IH]; intros b; simpl.
  - rewrite app_nil_r; repeat split; auto.
    intros [H|[pkg [[] _]]]; exact H.
  - match goal with
    | |- context [fold_left ?f pkgs ?b0] => destruct (IH b0) as (N & M & P & D & E)
    end.
    simpl in N, M, P, D, E.
    split; [rewrite N, <- app_assoc; reflexivity|].
    split; [exact M|]; split; [exact P|]; split; [exact D|].
    intros e; rewrite E, external_edges_exact; split.
    + intros [[H|H]|[p [Hp H]]]; auto.
      * right; exists pkg; auto.
      * right; exists p; auto.
    + intros [H|[p [[<-|Hp] H]]]; auto.
      right; exists p; auto.
Qed.

Lemma add_external_nodes_exact (b : Builder) :
  nodes (_add_external_nodes b)
  = nodes b ++ map external_node (Py.sorted_set (external_deps b)) /\
  module_map (_add_external_nodes b) = module_map b /\
  external_deps (_add_external_nodes b) = external_deps b /\
  module_details (_add_external_nodes b) = module_details b /\
  (forall e, In e (edges (_add_external_nodes b)) <->
             In e (edges b) \/
             exists pkg, In pkg (external_deps b) /\
                         In e (external_edge_list (module_details b) pkg)).
Proof.
  destruct (add_external_nodes_fold (Py.sorted_set (external_deps b)) b)
    as (N & M & P & D & E).
  unfold _add_external_nodes.
  split; [exact N|]; split; [exact M|]; split; [exact P|]; split; [exact D|].
  intros e; rewrite E; split.
  - intros [H|[p [Hp H]]]; auto.
    right; exists p; split; [|exact H]. rewrite In_sorted_set in Hp; exact Hp.
  - intros [H|[p [Hp H]]]; auto.
    right; exists p; split; [|exact H]. rewrite In_sorted_set; exact Hp.
Qed.

Section Assembled.

Variable cwd : list string.
Variable ast_parse : string -> option Module_.
Variable RADON_AVAILABLE : bool.
Variable cc_visit : string -> option (list Block).
Variable is_stdlib : string -> bool.
Variable files : Py.dict string.
Variable symbol_level : bool.

Local Abbreviation built :=
  (assemble cwd ast_parse RADON_AVAILABLE cc_visit is_stdlib files symbol_level).
Local Abbreviation table := (build_module_map cwd files (detect_roots files)).

(** The builder [build] reads: every table of it, from the module table. *)
Lemma assemble_exact :
  module_map built = table /\
  nodes built
  = flat_map (item_nodes ast_parse RADON_AVAILABLE cc_visit files symbol_level) table
    ++ map external_node (Py.sorted_set (external_deps built)) /\
  module_details built
  = flat_map (item_details ast_parse RADON_AVAILABLE cc_visit files) table /\
  (forall e, In e (edges built) <->
             In e (flat_map
                     (item_edges ast_parse RADON_AVAILABLE cc_visit files symbol_level
                        table) table) \/
             exists pkg, In pkg (external_deps built) /\
                         In e (external_edge_list (module_details built) pkg)) /\
  (forall p, In p (external_deps built) <->
             In p (flat_map (item_externals ast_parse is_stdlib files table) table)).
Proof.
  unfold assemble.
  set (b0 := _detect_project_roots cwd files (mkBuilder [] [] [] [] [])).
  destruct (analyze_fold_exact ast_parse RADON_AVAILABLE cc_visit is_stdlib files
              symbol_level (module_map b0) b0) as (M & N & D & E & P).
  fold (_analyze_modules ast_parse RADON_AVAILABLE cc_visit is_stdlib files
          symbol_level b0) in M, N, D, E, P.
  set (b1 := _analyze_modules ast_parse RADON_AVAILABLE cc_visit is_stdlib files
               symbol_level b0) in *.
  destruct (add_external_nodes_exact b1) as (N2 & M2 & P2 & D2 & E2).
  assert (D' : module_details b1
               = flat_map (item_details ast_parse RADON_AVAILABLE cc_visit files) table).
  { rewrite D; [reflexivity | apply build_module_map_NoDup |].
    intros k _ []. }
  split; [rewrite M2, M; reflexivity|].
  split; [rewrite N2, N, P2; reflexivity|].
  split; [rewrite D2; exact D'|].
  split.
  - intros e; rewrite E2, E, P2, D2; simpl; tauto.
  - intros p; rewrite P2, P; simpl; tauto.
Qed.

End Assembled.

(* ================================================================== *)
(** * The shape of the emitted graph *)

Lemma filter_flat_map {A B : Type} (f : B -> bool) (g : A -> list B) (l : list A) :
  filter f (flat_map g l) = flat_map (fun x => filter f (g x)) l.
Proof.
  induction l as [|x l IH]; simpl; [reflexivity|].
  rewrite filter_app, IH; reflexivity.
Qed.

Lemma filter_all {A : Type} (f : A -> bool) (l : list A) :
  (forall x, In x l -> f x = true) -> filter f l = l.
Proof.
  induction l as [|x l IH]; simpl; intros H; [reflexivity|].
  rewrite (H x (or_introl eq_refl)), IH; [reflexivity|].
  intros y Hy; apply H; right; exact Hy.
Qed.

Lemma filter_none {A : Type} (f : A -> bool) (l : list A) :
  (forall x, In x l -> f x = false) -> filter f l = [].
Proof.
  induction l as [|x l IH]; simpl; intros H; [reflexivity|].
  rewrite (H x (or_introl eq_refl)), IH; [reflexivity|].
  intros y Hy; apply H; right; exact Hy.
Qed.

Lemma length_flat_map_sum {A B : Type} (f g h k : A -> list B) (l : list A) :
  (forall x, List.length (f x)
             = List.length (g x) + List.length (h x) + List.length (k x)) ->
  List.length (flat_map f l)
  = List.length (flat_map g l) + List.length (flat_map h l)
    + List.length (flat_map k l).
Proof.
  intros H; induction l as [|x l IH]; simpl; [reflexivity|].
  rewrite !length_app, IH, H; lia.
Qed.

Lemma append_self (s x : string) : (s ++ x)%string = s -> x = "".
Proof.
  induction s as [|c s IH]; simpl; intros H; [exact H|].
  inversion H; auto.
Qed.

Lemma symbol_node_fields (m fp : string) (sc : Py.dict nat) (name k : string)
  (lineno : nat) :
  let n := symbol_node m fp sc (name, k, lineno) in
  id n = (m ++ "." ++ name)%string /\ kind n = k /\ path n = fp /\
  project n = get_top_module m /\ parent n = Some m.
Proof. cbv zeta; simpl; repeat split. Qed.

Lemma symbol_node_kind (m fp : string) (sc : Py.dict nat) (tree : Module_)
  (n : GraphNode) :
  In n (map (symbol_node m fp sc) (extract_symbols tree)) ->
  kind n = "class" \/ kind n = "function".
Proof.
  rewrite in_map_iff; intros [[[name k] lineno] [<- Hin]]; simpl.
  exact (extract_symbols_kind tree name k lineno Hin).
Qed.

Section ItemNodes.

Variable ast_parse : string -> option Module_.
Variable RADON_AVAILABLE : bool.
Variable cc_visit : string -> option (list Block).
Variable files : Py.dict string.
Variable symbol_level : bool.

Local Abbreviation nodes_of :=
  (item_nodes ast_parse RADON_AVAILABLE cc_visit files symbol_level).
Local Abbreviation details_of :=
  (item_details ast_parse RADON_AVAILABLE cc_visit files).

Local Abbreviation item_symbol_nodes :=
  (item_symbol_nodes ast_parse RADON_AVAILABLE cc_visit files symbol_level).

Lemma item_nodes_modules (item : string * string) :
  map id (nodes_of_kind ["module"] (nodes_of item)) = Py.keys (details_of item).
Proof.
  destruct item as [m fp]; unfold item_nodes, item_details, nodes_of_kind.
  destruct (ast_parse (code_of files fp)) as [tree|]; [|reflexivity].
  simpl; f_equal.
  rewrite filter_none; [reflexivity|].
  intros n Hn; destruct (symbol_level && _); [|contradiction].
  apply symbol_node_kind in Hn; destruct Hn as [-> | ->]; reflexivity.
Qed.

Lemma item_nodes_symbols (item : string * string) :
  nodes_of_kind ["class"; "function"] (nodes_of item) = item_symbol_nodes item.
Proof.
  destruct item as [m fp]; unfold item_symbol_nodes, item_nodes, nodes_of_kind.
  destruct (ast_parse (code_of files fp)) as [tree|]; [|reflexivity].
  simpl; apply filter_all.
  intros n Hn; destruct (symbol_level && _); [|contradiction].
  apply symbol_node_kind in Hn; destruct Hn as [-> | ->]; reflexivity.
Qed.

Lemma item_nodes_externals (item : string * string) :
  nodes_of_kind ["external"] (nodes_of item) = [].
Proof.
  destruct item as [m fp]; unfold item_nodes, nodes_of_kind.
  destruct (ast_parse (code_of files fp)) as [tree|]; [|reflexivity].
  simpl; apply filter_none.
  intros n Hn; destruct (symbol_level && _); [|contradiction].
  apply symbol_node_kind in Hn; destruct Hn as [-> | ->]; reflexivity.
Qed.

Lemma item_nodes_length (item : string * string) :
  List.length (nodes_of item)
  = List.length (details_of item) + List.length (item_symbol_nodes item).
Proof.
  destruct item as [m fp]; unfold item_symbol_nodes, item_nodes, item_details.
  destruct (ast_parse (code_of files fp)); reflexivity.
Qed.

Lemma keys_item_details (l : list (string * string)) (k : string) :
  In k (Py.keys (flat_map details_of l)) -> In k (Py.keys l).
Proof.
  unfold Py.keys; rewrite !in_map_iff.
  intros [[k' d] [Hk Hin]]; simpl in Hk; subst k'.
  apply in_flat_map in Hin; destruct Hin as [[m fp] [Hl Hd]].
  unfold item_details in Hd; destruct (ast_parse (code_of files fp)); [|contradiction].
  destruct Hd as [Hd|[]]; inversion Hd; subst.
  exists (k, fp); auto.
Qed.

Lemma NoDup_item_details (l : list (string * string)) :
  NoDup (Py.keys l) -> NoDup (Py.keys (flat_map details_of l)).
Proof.
  induction l as [|[m fp] l IH]; simpl; intros H; [constructor|].
  inversion H as [|k ks Hk Hks]; subst.
  unfold Py.keys; rewrite map_app; fold (Py.keys (flat_map details_of l)).
  unfold item_details at 1; destruct (ast_parse (code_of files fp)); simpl.
  - constructor; [|exact (IH Hks)].
    intros Hin; apply Hk, keys_item_details, Hin.
  - exact (IH Hks).
Qed.

Lemma length_item_details (l : list (string * string)) :
  List.length (flat_map details_of l) <= List.length l.
Proof.
  induction l as [|[m fp] l IH]; [simpl; lia|].
  cbn [flat_map List.length]; rewrite length_app; unfold item_details at 1.
  destruct (ast_parse (code_of files fp)); cbn [List.length]; lia.
Qed.

End ItemNodes.

Lemma external_nodes_kinds (pkgs : list string) :
  nodes_of_kind ["module"] (map external_node pkgs) = [] /\
  nodes_of_kind ["class"; "function"] (map external_node pkgs) = [] /\
  nodes_of_kind ["external"] (map external_node pkgs) = map external_node pkgs.
Proof.
  unfold nodes_of_kind; repeat split.
  - apply filter_none; intros n Hn; apply in_map_iff in Hn.
    destruct Hn as [p [<- _]]; reflexivity.
  - apply filter_none; intros n Hn; apply in_map_iff in Hn.
    destruct Hn as [p [<- _]]; reflexivity.
  - apply filter_all; intros n Hn; apply in_map_iff in Hn.
    destruct Hn as [p [<- _]]; reflexivity.
Qed.

Lemma length_dict_set {V : Type} (d : Py.dict V) (k : string) (v : V) :
  List.length (Py.dict_set d k v) <= S (List.length d).
Proof.
  induction d as [|[k' v'] d IH]; simpl; [lia|].
  destruct (String.eqb k k'); simpl; lia.
Qed.

Lemma length_build_module_map (cwd : list string) (files : Py.dict string)
  (roots : list string) :
  List.length (build_module_map cwd files roots) <= List.length files.
Proof.
  unfold build_module_map, Py.keys; rewrite <- (length_map fst files).
  generalize (map fst files) as l.
  assert (H : forall (l : list string) (acc : Py.dict string),
             List.length
               (fold_left
                  (fun module_map filepath =>
                     match find (fun root => Py.startswith filepath root) roots with
                     | Some root =>
                         Py.dict_set module_map
                           (module_key_from_path cwd root filepath) filepath
                     | None => module_map
                     end) l acc)
             <= List.length acc + List.length l).
  { induction l as [|fp l IH]; intros acc; simpl; [lia|].
    etransitivity; [apply IH|].
    destruct (find _ roots); [|lia].
    pose proof (length_dict_set acc (module_key_from_path cwd s fp) fp); lia. }
  intros l; exact (H l []).
Qed.

Lemma length_insert_edge (e : GraphEdge) (l : list GraphEdge) :
  List.length (insert_edge e l) = S (List.length l).
Proof.
  induction l as [|y l IH]; simpl; [reflexivity|].
  destruct (edge_compare e y); simpl; rewrite ?IH; reflexivity.
Qed.

Lemma length_sorted_edges (es : list GraphEdge) :
  List.length (sorted_edges es) = List.length es.
Proof.
  unfold sorted_edges.
  assert (H : forall l acc,
             List.length (fold_left (fun acc e => insert_edge e acc) l acc)
             = List.length acc + List.length l).
  { induction l as [|e l IH]; intros acc; simpl; [lia|].
    rewrite IH, length_insert_edge; lia. }
  exact (H es []).
Qed.

(* ================================================================== *)
(** * The order of strings and of edges *)

Lemma ascii_compare_eq (a b : ascii) : Ascii.compare a b = Datatypes.Eq -> a = b.
Proof.
  unfold Ascii.compare; intros H; apply N.compare_eq in H.
  rewrite <- (ascii_N_embedding a), <- (ascii_N_embedding b), H; reflexivity.
Qed.

Lemma ascii_compare_lt_trans (a b c : ascii) :
  Ascii.compare a b = Lt -> Ascii.compare b c = Lt -> Ascii.compare a c = Lt.
Proof.
  unfold Ascii.compare; rewrite !N.compare_lt_iff; lia.
Qed.

Lemma string_compare_refl (s : string) : String.compare s s = Datatypes.Eq.
Proof.
  induction s as [|c s IH]; simpl; [reflexivity|].
  unfold Ascii.compare; rewrite N.compare_refl; exact IH.
Qed.

Lemma string_compare_eq (a b : string) : String.compare a b = Datatypes.Eq <-> a = b.
Proof.
  split; [apply String.compare_eq_iff | intros ->; apply string_compare_refl].
Qed.

Lemma string_compare_lt_trans (a b c : string) :
  String.compare a b = Lt -> String.compare b c = Lt -> String.compare a c = Lt.
Proof.
  revert b c; induction a as [|x a IH]; intros [|y b] [|z c]; simpl;
    try discriminate; try reflexivity.
  destruct (Ascii.compare x y) eqn:Exy; try discriminate;
    destruct (Ascii.compare y z) eqn:Eyz; try discriminate; intros H1 H2.
  - apply ascii_compare_eq in Exy, Eyz; subst.
    unfold Ascii.compare; rewrite N.compare_refl; exact (IH _ _ H1 H2).
  - apply ascii_compare_eq in Exy; subst; rewrite Eyz; reflexivity.
  - apply ascii_compare_eq in Eyz; subst; rewrite Exy; reflexivity.
  - rewrite (ascii_compare_lt_trans _ _ _ Exy Eyz); reflexivity.
Qed.

Lemma string_compare_gt_lt (a b : string) :
  String.compare a b = Gt -> String.compare b a = Lt.
Proof.
  intros H; rewrite String.compare_antisym, H; reflexivity.
Qed.

(** [sorted(set(l))] is strictly increasing. *)
Lemma insert_sorted_sorted (x : string) (l : list string) :
  StronglySorted (fun a b => String.compare a b = Lt) l ->
  StronglySorted (fun a b => String.compare a b = Lt) (Py.insert_sorted x l).
Proof.
  induction l as [|y l IH]; simpl; intros H.
  - constructor; constructor.
  - inversion H as [|y' l' Hl Hy]; subst.
    destruct (String.compare x y) eqn:E.
    + exact H.
    + constructor; [exact H|].
      constructor; [exact E|].
      rewrite Forall_forall in Hy |- *; intros z Hz.
      exact (string_compare_lt_trans _ _ _ E (Hy z Hz)).
    + constructor; [exact (IH Hl)|].
      rewrite Forall_forall in Hy |- *; intros z Hz.
      apply In_insert_sorted in Hz; destruct Hz as [->|Hz].
      * exact (string_compare_gt_lt _ _ E).
      * exact (Hy z Hz).
Qed.

Lemma sorted_set_sorted (l : list string) :
  StronglySorted (fun a b => String.compare a b = Lt) (Py.sorted_set l).
Proof.
  unfold Py.sorted_set.
  apply fold_left_inv
    with (P := StronglySorted (fun a b => String.compare a b = Lt)).
  - constructor.
  - intros acc x _ H; exact (insert_sorted_sorted x acc H).
Qed.

Lemma strictly_sorted_NoDup (l : list string) :
  StronglySorted (fun a b => String.compare a b = Lt) l -> NoDup l.
Proof.
  induction 1 as [|x l Hl IH Hx]; constructor; [|exact IH].
  intros Hin; rewrite Forall_forall in Hx; specialize (Hx x Hin).
  rewrite string_compare_refl in Hx; discriminate.
Qed.

Lemma edge_compare_eq (a b : GraphEdge) : edge_compare a b = Datatypes.Eq <-> a = b.
Proof.
  destruct a as [[s1 t1] y1], b as [[s2 t2] y2]; simpl; split.
  - destruct (String.compare s1 s2) eqn:Es; try discriminate.
    destruct (String.compare t1 t2) eqn:Et; try discriminate.
    intros Ey; apply string_compare_eq in Es, Et, Ey; subst; reflexivity.
  - intros H; inversion H; subst; rewrite !string_compare_refl; reflexivity.
Qed.

Lemma edge_compare_lt_trans (a b c : GraphEdge) :
  edge_lt a b -> edge_lt b c -> edge_lt a c.
Proof.
  unfold edge_lt; destruct a as [[s1 t1] y1], b as [[s2 t2] y2], c as [[s3 t3] y3]; simpl.
  destruct (String.compare s1 s2) eqn:E12; try discriminate;
    destruct (String.compare s2 s3) eqn:E23; try discriminate.
  - apply string_compare_eq in E12, E23; subst; rewrite string_compare_refl.
    destruct (String.compare t1 t2) eqn:F12; try discriminate;
      destruct (String.compare t2 t3) eqn:F23; try discriminate.
    + apply string_compare_eq in F12, F23; subst; rewrite string_compare_refl.
      apply string_compare_lt_trans.
    + apply string_compare_eq in F12; subst; rewrite F23; auto.
    + apply string_compare_eq in F23; subst; rewrite F12; auto.
    + rewrite (string_compare_lt_trans _ _ _ F12 F23); auto.
  - apply string_compare_eq in E12; subst; rewrite E23; auto.
  - apply string_compare_eq in E23; subst; rewrite E12; auto.
  - rewrite (string_compare_lt_trans _ _ _ E12 E23); auto.
Qed.

Lemma edge_compare_gt_lt (a b : GraphEdge) : edge_compare a b = Gt -> edge_lt b a.
Proof.
  unfold edge_lt; destruct a as [[s1 t1] y1], b as [[s2 t2] y2]; simpl.
  rewrite (String.compare_antisym s2 s1), (String.compare_antisym t2 t1),
    (String.compare_antisym y2 y1).
  destruct (String.compare s1 s2); simpl; try discriminate; auto.
  destruct (String.compare t1 t2); simpl; try discriminate; auto.
  intros ->; reflexivity.
Qed.

Lemma insert_edge_sorted (e : GraphEdge) (l : list GraphEdge) :
  ~ In e l -> StronglySorted edge_lt l -> StronglySorted edge_lt (insert_edge e l).
Proof.
  induction l as [|y l IH]; simpl; intros Hn H.
  - constructor; constructor.
  - inversion H as [|y' l' Hl Hy]; subst.
    destruct (edge_compare e y) eqn:E.
    + apply edge_compare_eq in E; subst; elim Hn; left; reflexivity.
    + constructor; [exact H|].
      constructor; [exact E|].
      rewrite Forall_forall in Hy |- *; intros z Hz.
      exact (edge_compare_lt_trans _ _ _ E (Hy z Hz)).
    + constructor; [apply IH; [intros Hin; apply Hn; right; exact Hin | exact Hl]|].
      rewrite Forall_forall in Hy |- *; intros z Hz.
      apply In_insert_edge in Hz; destruct Hz as [->|Hz].
      * exact (edge_compare_gt_lt _ _ E).
      * exact (Hy z Hz).
Qed.

(** [sorted(self.edges)] of a set is strictly increasing. *)
Lemma sorted_edges_sorted (es : list GraphEdge) :
  NoDup es -> StronglySorted edge_lt (sorted_edges es).
Proof.
  unfold sorted_edges.
  assert (H : forall l acc,
             NoDup l -> (forall e, In e l -> ~ In e acc) ->
             StronglySorted edge_lt acc ->
             StronglySorted edge_lt (fold_left (fun acc e => insert_edge e acc) l acc)).
  { induction l as [|e l IH]; intros acc Hnd Hfresh Hs; simpl; [exact Hs|].
    inversion Hnd as [|e' l' He Hl]; subst.
    apply IH; [exact Hl | |].
    - intros x Hx Hin; apply In_insert_edge in Hin; destruct Hin as [->|Hin].
      + exact (He Hx).
      + exact (Hfresh x (or_intror Hx) Hin).
    - apply insert_edge_sorted; [apply Hfresh; left; reflexivity | exact Hs]. }
  intros Hnd; apply H; [exact Hnd | intros e _ [] | constructor].
Qed.

Lemma edge_sorted_NoDup (l : list GraphEdge) : StronglySorted edge_lt l -> NoDup l.
Proof.
  induction 1 as [|x l Hl IH Hx]; constructor; [|exact IH].
  intros Hin; rewrite Forall_forall in Hx; specialize (Hx x Hin).
  unfold edge_lt in Hx; rewrite (proj2 (edge_compare_eq x x) eq_refl) in Hx; discriminate.
Qed.

Lemma NoDup_edges_add (e : GraphEdge) (es : list GraphEdge) :
  NoDup es -> NoDup (edges_add e es).
Proof.
  unfold edges_add; intros H; destruct (existsb (edge_eqb e) es) eqn:E; [exact H|].
  apply NoDup_app; [exact H | constructor; [intros [] | constructor] |].
  intros x Hx [Heq|[]]; subst x.
  assert (Ht : existsb (edge_eqb e) es = true).
  { apply existsb_exists; exists e; split; [exact Hx | apply edge_eqb_eq; reflexivity]. }
  rewrite Ht in E; discriminate.
Qed.

(* ================================================================== *)
(** * What holds of the edge set whenever it holds after every [add] *)

Section EdgeInvariant.

Variable P : list GraphEdge -> Prop.
Hypothesis P_add : forall e es, P es -> P (edges_add e es).

Lemma import_edges_inv (is_stdlib : string -> bool) (mid : string)
  (imports : list string) (b : Builder) :
  P (edges b) -> P (edges (import_edges is_stdlib mid imports b)).
Proof.
  unfold import_edges; revert b; induction imports as [|imp rest IH]; intros b H;
    simpl; [exact H|].
  apply IH.
  destruct (usable_target _ mid); simpl; [apply P_add; exact H|].
  destruct (negb _); exact H.
Qed.

Lemma promote_call_inv (mid call_alias : string) (imports : list string)
  (mm : Py.dict string) (es : list GraphEdge) :
  P es -> P (promote_call mid call_alias imports mm es).
Proof.
  intros H; rewrite promote_call_promoted.
  destruct (promoted mid call_alias imports mm); [apply P_add|]; exact H.
Qed.

Lemma call_edges_inv (mid : string) (calls imports : list string) (b : Builder) :
  P (edges b) -> P (edges (call_edges mid calls imports b)).
Proof.
  unfold call_edges; simpl; generalize (edges b) as es.
  induction calls as [|c calls IH]; intros es H; simpl; [exact H|].
  apply IH, promote_call_inv, H.
Qed.

Lemma symbol_nodes_inv (mid fp : string) (symbols : list (string * string * nat))
  (sc : Py.dict nat) (b : Builder) :
  P (edges b) -> P (edges (symbol_nodes mid fp symbols sc b)).
Proof.
  unfold symbol_nodes; revert b; induction symbols as [|s rest IH]; intros b H;
    simpl; [exact H|].
  apply IH; simpl; apply P_add; exact H.
Qed.

Lemma analyze_module_inv (ast_parse : string -> option Module_)
  (RADON_AVAILABLE : bool) (cc_visit : string -> option (list Block))
  (is_stdlib : string -> bool) (files : Py.dict string) (symbol_level : bool)
  (b : Builder) (item : string * string) :
  P (edges b) ->
  P (edges (analyze_module ast_parse RADON_AVAILABLE cc_visit is_stdlib files
              symbol_level b item)).
Proof.
  intros H; destruct item as [mid fp]; unfold analyze_module.
  destruct (ast_parse _) as [tree|]; [|exact H].
  unfold analyze_parsed; destruct (calculate_module_complexity _ _ _) as [cx bl].
  destruct (symbol_level && _).
  - apply symbol_nodes_inv, call_edges_inv, import_edges_inv; exact H.
  - apply call_edges_inv, import_edges_inv; exact H.
Qed.

Lemma external_edges_inv (ext_pkg : string) (details : Py.dict ModuleDetails)
  (es : list GraphEdge) :
  P es -> P (external_edges ext_pkg details es).
Proof.
  unfold external_edges; revert es; induction details as [|[m d] details IH];
    intros es H; simpl; [exact H|].
  apply IH; destruct (existsb _ (md_imports d)); [apply P_add|]; exact H.
Qed.

Lemma add_external_nodes_inv (b : Builder) :
  P (edges b) -> P (edges (_add_external_nodes b)).
Proof.
  unfold _add_external_nodes; generalize (Py.sorted_set (external_deps b)) as pkgs.
  intros pkgs; revert b; induction pkgs as [|p pkgs IH]; intros b H; simpl; [exact H|].
  apply IH; simpl; apply external_edges_inv; exact H.
Qed.

Lemma assemble_inv (cwd : list string) (ast_parse : string -> option Module_)
  (RADON_AVAILABLE : bool) (cc_visit : string -> option (list Block))
  (is_stdlib : string -> bool) (files : Py.dict string) (symbol_level : bool) :
  P [] ->
  P (edges (assemble cwd ast_parse RADON_AVAILABLE cc_visit is_stdlib files
              symbol_level)).
Proof.
  intros H; unfold assemble; apply add_external_nodes_inv.
  unfold _analyze_modules.
  apply fold_left_inv with (P := fun b : Builder => P (edges b)).
  - exact H.
  - intros b item _ Hb; apply analyze_module_inv; exact Hb.
Qed.

End EdgeInvariant.

Lemma assemble_edges_NoDup (cwd : list string) (ast_parse : string -> option Module_)
  (RADON_AVAILABLE : bool) (cc_visit : string -> option (list Block))
  (is_stdlib : string -> bool) (files : Py.dict string) (symbol_level : bool) :
  NoDup (edges (assemble cwd ast_parse RADON_AVAILABLE cc_visit is_stdlib files
                  symbol_level)).
Proof.
  apply assemble_inv with (P := @NoDup GraphEdge).
  - intros e es; apply NoDup_edges_add.
  - constructor.
Qed.

(* ================================================================== *)
(** * Where every edge, package and details entry comes from *)

Lemma In_import_edge_list (mm : Py.dict string) (mid : string) (imports : list string)
  (e : GraphEdge) :
  In e (import_edge_list mm mid imports) <->
  exists imp t, In imp imports /\
                usable_target (_resolve_import mm imp) mid = Some t /\
                e = (mid, t, "imports").
Proof.
  unfold import_edge_list; rewrite in_flat_map; split.
  - intros [imp [Hin H]].
    destruct (usable_target (_resolve_import mm imp) mid) as [t|] eqn:E; [|contradiction].
    destruct H as [<-|[]]; exists imp, t; auto.
  - intros [imp [t [Hin [E ->]]]]; exists imp; rewrite E; split; [exact Hin | left; auto].
Qed.

Lemma In_call_edge_list (mm : Py.dict string) (mid : string)
  (calls imports : list string) (e : GraphEdge) :
  In e (call_edge_list mm mid calls imports) <->
  exists c t, In c calls /\ promoted mid c imports mm = Some t /\ e = (mid, t, "calls").
Proof.
  unfold call_edge_list; rewrite in_flat_map; split.
  - intros [c [Hin H]].
    destruct (promoted mid c imports mm) as [t|] eqn:E; [|contradiction].
    destruct H as [<-|[]]; exists c, t; auto.
  - intros [c [t [Hin [E ->]]]]; exists c; rewrite E; split; [exact Hin | left; auto].
Qed.

Lemma In_define_edge_list (symbol_level : bool) (mid fp : string) (tree : Module_)
  (blocks : list Block) (e : GraphEdge) :
  In e (define_edge_list symbol_level mid fp tree blocks) <->
  symbol_level = true /\ blocks <> [] /\
  exists name k lineno,
    In (name, k, lineno) (extract_symbols tree) /\
    e = (mid, (mid ++ "." ++ name)%string, "defines").
Proof.
  unfold define_edge_list, has_blocks; split.
  - destruct symbol_level; [|intros []].
    destruct blocks as [|b bl]; [intros []|]; simpl.
    rewrite in_map_iff; intros [[[name k] lineno] [<- Hin]].
    split; [reflexivity|]; split; [discriminate|].
    exists name, k, lineno; auto.
  - intros [-> [Hbl [name [k [lineno [Hin ->]]]]]].
    destruct blocks as [|b bl]; [elim Hbl; reflexivity|]; simpl.
    rewrite in_map_iff; exists (name, k, lineno); auto.
Qed.

Lemma In_external_list (is_stdlib : string -> bool) (mm : Py.dict string)
  (mid : string) (imports : list string) (p : string) :
  In p (external_list is_stdlib mm mid imports) <->
  exists imp, In imp imports /\
              usable_target (_resolve_import mm imp) mid = None /\
              is_stdlib (get_top_module imp) = false /\
              p = get_top_module imp.
Proof.
  unfold external_list; rewrite in_flat_map; split.
  - intros [imp [Hin H]].
    destruct (usable_target (_resolve_import mm imp) mid) as [t|] eqn:E; [contradiction|].
    destruct (is_stdlib (get_top_module imp)) eqn:Es; [contradiction|].
    destruct H as [<-|[]]; exists imp; auto.
  - intros [imp [Hin [E [Es ->]]]]; exists imp; rewrite E, Es.
    split; [exact Hin | left; auto].
Qed.

Lemma In_external_edge_list (details : Py.dict ModuleDetails) (pkg : string)
  (e : GraphEdge) :
  In e (external_edge_list details pkg) <->
  exists m d imp, In (m, d) details /\ In imp (md_imports d) /\
                  get_top_module imp = pkg /\
                  e = (m, ("external:" ++ pkg)%string, "external").
Proof.
  unfold external_edge_list; rewrite in_flat_map; split.
  - intros [[m d] [Hin H]].
    destruct (existsb _ (md_imports d)) eqn:E; [|contradiction].
    destruct H as [<-|[]].
    apply existsb_exists in E; destruct E as [imp [Himp E]].
    apply String.eqb_eq in E; exists m, d, imp; auto.
  - intros [m [d [imp [Hin [Himp [Htop ->]]]]]]; exists (m, d); split; [exact Hin|].
    assert (E : existsb (fun imp => String.eqb (get_top_module imp) pkg) (md_imports d)
                = true).
    { apply existsb_exists; exists imp; split; [exact Himp | apply String.eqb_eq, Htop]. }
    rewrite E; left; reflexivity.
Qed.

Section Origins.

Variable cwd : list string.
Variable ast_parse : string -> option Module_.
Variable RADON_AVAILABLE : bool.
Variable cc_visit : string -> option (list Block).
Variable is_stdlib : string -> bool.
Variable files : Py.dict string.
Variable symbol_level : bool.

Local Abbreviation built :=
  (assemble cwd ast_parse RADON_AVAILABLE cc_visit is_stdlib files symbol_level).
Local Abbreviation table := (build_module_map cwd files (detect_roots files)).
Local Abbreviation analysed_ := (analysed ast_parse files table).
Local Abbreviation blocks_of :=
  (fun fp => snd (metrics_of RADON_AVAILABLE cc_visit files fp)).

Lemma details_origin (m : string) (d : ModuleDetails) :
  In (m, d) (module_details built) <->
  exists fp tree,
    analysed_ m fp tree /\
    d = make_details m fp (code_of files fp) tree
          (fst (metrics_of RADON_AVAILABLE cc_visit files fp)) (blocks_of fp).
Proof.
  destruct (assemble_exact cwd ast_parse RADON_AVAILABLE cc_visit is_stdlib files
              symbol_level) as (_ & _ & D & _).
  rewrite D, in_flat_map; unfold analysed; split.
  - intros [[m' fp] [Hin H]]; unfold item_details in H.
    destruct (ast_parse (code_of files fp)) as [tree|] eqn:E; [|contradiction].
    destruct H as [H|[]]; inversion H; subst; exists fp, tree; auto.
  - intros [fp [tree [[Hin E] ->]]]; exists (m, fp); split; [exact Hin|].
    unfold item_details; rewrite E; left; reflexivity.
Qed.

Lemma external_dep_origin (pkg : string) :
  In pkg (external_deps built) <->
  exists m fp tree imp,
    analysed_ m fp tree /\
    In imp (iv_imports (module_visitor m tree)) /\
    usable_target (_resolve_import table imp) m = None /\
    is_stdlib (get_top_module imp) = false /\
    pkg = get_top_module imp.
Proof.
  destruct (assemble_exact cwd ast_parse RADON_AVAILABLE cc_visit is_stdlib files
              symbol_level) as (_ & _ & _ & _ & P).
  rewrite P, in_flat_map; unfold analysed; split.
  - intros [[m fp] [Hin H]]; unfold item_externals in H.
    destruct (ast_parse (code_of files fp)) as [tree|] eqn:E; [|contradiction].
    apply In_external_list in H; destruct H as [imp H].
    exists m, fp, tree, imp; tauto.
  - intros [m [fp [tree [imp [[Hin E] H]]]]]; exists (m, fp); split; [exact Hin|].
    unfold item_externals; rewrite E; apply In_external_list; exists imp; exact H.
Qed.

Lemma edge_origin (e : GraphEdge) :
  In e (edges built) <->
  (exists m fp tree imp t,
     analysed_ m fp tree /\ In imp (iv_imports (module_visitor m tree)) /\
     usable_target (_resolve_import table imp) m = Some t /\
     e = (m, t, "imports")) \/
  (exists m fp tree c t,
     analysed_ m fp tree /\ In c (iv_calls (module_visitor m tree)) /\
     promoted m c (iv_imports (module_visitor m tree)) table = Some t /\
     e = (m, t, "calls")) \/
  (exists m fp tree name k lineno,
     analysed_ m fp tree /\ symbol_level = true /\ blocks_of fp <> [] /\
     In (name, k, lineno) (extract_symbols tree) /\
     e = (m, (m ++ "." ++ name)%string, "defines")) \/
  (exists m d pkg imp,
     In pkg (external_deps built) /\ In (m, d) (module_details built) /\
     In imp (md_imports d) /\ get_top_module imp = pkg /\
     e = (m, ("external:" ++ pkg)%string, "external")).
Proof.
  destruct (assemble_exact cwd ast_parse RADON_AVAILABLE cc_visit is_stdlib files
              symbol_level) as (_ & _ & _ & E & _).
  rewrite E, in_flat_map; unfold analysed; split.
  - intros [[[m fp] [Hin H]]|[pkg [Hp H]]].
    + unfold item_edges in H.
      destruct (ast_parse (code_of files fp)) as [tree|] eqn:Ep; [|contradiction].
      rewrite !in_app_iff in H; destruct H as [H|[H|H]].
      * apply In_import_edge_list in H; destruct H as [imp [t H]].
        left; exists m, fp, tree, imp, t; tauto.
      * apply In_call_edge_list in H; destruct H as [c [t H]].
        right; left; exists m, fp, tree, c, t; tauto.
      * apply In_define_edge_list in H.
        destruct H as [Hs [Hb [name [k [lineno H]]]]].
        right; right; left; exists m, fp, tree, name, k, lineno; tauto.
    + apply In_external_edge_list in H; destruct H as [m [d [imp H]]].
      right; right; right; exists m, d, pkg, imp; tauto.
  - intros [H|[H|[H|H]]].
    + destruct H as [m [fp [tree [imp [t [[Hin Ep] H]]]]]].
      left; exists (m, fp); split; [exact Hin|].
      unfold item_edges; rewrite Ep, !in_app_iff; left.
      apply In_import_edge_list; exists imp, t; exact H.
    + destruct H as [m [fp [tree [c [t [[Hin Ep] H]]]]]].
      left; exists (m, fp); split; [exact Hin|].
      unfold item_edges; rewrite Ep, !in_app_iff; right; left.
      apply In_call_edge_list; exists c, t; exact H.
    + destruct H as [m [fp [tree [name [k [lineno [[Hin Ep] [Hs [Hb H]]]]]]]]].
      left; exists (m, fp); split; [exact Hin|].
      unfold item_edges; rewrite Ep, !in_app_iff; right; right.
      apply In_define_edge_list; split; [exact Hs|]; split; [exact Hb|].
      exists name, k, lineno; exact H.
    + destruct H as [m [d [pkg [imp [Hp H]]]]].
      right; exists pkg; split; [exact Hp|].
      apply In_external_edge_list; exists m, d, imp; exact H.
Qed.

End Origins.

(* ================================================================== *)
(** * Where every node comes from *)

Section NodeOrigins.

Variable cwd : list string.
Variable ast_parse : string -> option Module_.
Variable RADON_AVAILABLE : bool.
Variable cc_visit : string -> option (list Block).
Variable is_stdlib : string -> bool.
Variable files : Py.dict string.
Variable symbol_level : bool.

Local Abbreviation built :=
  (assemble cwd ast_parse RADON_AVAILABLE cc_visit is_stdlib files symbol_level).
Local Abbreviation table := (build_module_map cwd files (detect_roots files)).
Local Abbreviation analysed_ := (analysed ast_parse files table).
Local Abbreviation nodes_of :=
  (item_nodes ast_parse RADON_AVAILABLE cc_visit files symbol_level).
Local Abbreviation details_of :=
  (item_details ast_parse RADON_AVAILABLE cc_visit files).
Local Abbreviation symbols_of :=
  (item_symbol_nodes ast_parse RADON_AVAILABLE cc_visit files symbol_level).
Local Abbreviation blocks_of :=
  (fun fp => snd (metrics_of RADON_AVAILABLE cc_visit files fp)).

Lemma node_origin (n : GraphNode) :
  In n (nodes built) <->
  (exists m fp tree,
     analysed_ m fp tree /\
     n = module_node m fp (code_of files fp) tree
           (fst (metrics_of RADON_AVAILABLE cc_visit files fp))) \/
  (exists m fp tree sym,
     analysed_ m fp tree /\ symbol_level = true /\ blocks_of fp <> [] /\
     In sym (extract_symbols tree) /\
     n = symbol_node m fp (map_symbol_complexities (blocks_of fp)) sym) \/
  (exists pkg, In pkg (external_deps built) /\ n = external_node pkg).
Proof.
  destruct (assemble_exact cwd ast_parse RADON_AVAILABLE cc_visit is_stdlib files
              symbol_level) as (_ & N & _).
  rewrite N, in_app_iff, in_flat_map, in_map_iff; unfold analysed; split.
  - intros [[[m fp] [Hin H]]|[pkg [<- Hp]]].
    + unfold item_nodes in H.
      destruct (ast_parse (code_of files fp)) as [tree|] eqn:Ep; [|contradiction].
      destruct H as [<-|H]; [left; exists m, fp, tree; auto|].
      unfold has_blocks in H; destruct symbol_level; [|contradiction].
      destruct (snd (metrics_of RADON_AVAILABLE cc_visit files fp)) as [|b bl] eqn:Eb;
        [contradiction|].
      simpl in H; apply in_map_iff in H; destruct H as [sym [<- Hs]].
      right; left; exists m, fp, tree, sym; rewrite Eb; repeat split; auto.
      discriminate.
    + right; right; exists pkg; split; [|reflexivity].
      rewrite In_sorted_set in Hp; exact Hp.
  - intros [[m [fp [tree [[Hin Ep] ->]]]]|[H|[pkg [Hp ->]]]].
    + left; exists (m, fp); split; [exact Hin|].
      unfold item_nodes; rewrite Ep; left; reflexivity.
    + destruct H as [m [fp [tree [sym [[Hin Ep] [Hs [Hb [Hsym ->]]]]]]]].
      left; exists (m, fp); split; [exact Hin|].
      unfold item_nodes; rewrite Ep; right.
      unfold has_blocks; rewrite Hs.
      destruct (snd (metrics_of RADON_AVAILABLE cc_visit files fp)) as [|b bl];
        [elim Hb; reflexivity|].
      simpl; apply in_map; exact Hsym.
    + right; exists pkg; split; [reflexivity | rewrite In_sorted_set; exact Hp].
Qed.

Lemma modules_of_flat_map (l : list (string * string)) :
  map id (nodes_of_kind ["module"] (flat_map nodes_of l))
  = Py.keys (flat_map details_of l).
Proof.
  induction l as [|item l IH]; [reflexivity|].
  cbn [flat_map]; unfold nodes_of_kind, Py.keys in *.
  rewrite filter_app, !map_app, IH; f_equal.
  apply item_nodes_modules.
Qed.

Lemma externals_of_flat_map (l : list (string * string)) :
  nodes_of_kind ["external"] (flat_map nodes_of l) = [].
Proof.
  induction l as [|item l IH]; [reflexivity|].
  cbn [flat_map]; unfold nodes_of_kind in *.
  rewrite filter_app, IH, app_nil_r; apply item_nodes_externals.
Qed.

Lemma node_kinds (n : GraphNode) :
  In n (nodes built) ->
  kind n = "module" \/ kind n = "class" \/ kind n = "function" \/ kind n = "external".
Proof.
  rewrite node_origin.
  intros [[m [fp [tree [_ ->]]]]|[[m [fp [tree [[[name k] l] [_ [_ [_ [Hs ->]]]]]]]]|
                                   [pkg [_ ->]]]]; simpl; auto.
  apply extract_symbols_kind in Hs; tauto.
Qed.

End NodeOrigins.

Lemma count_kind_partition (ns : list GraphNode) :
  (forall n, In n ns ->
     kind n = "module" \/ kind n = "class" \/ kind n = "function" \/
     kind n = "external") ->
  count_kind ["module"] ns + count_kind ["class"; "function"] ns
  + count_kind ["external"] ns
  = List.length ns.
Proof.
  unfold count_kind, nodes_of_kind.
  induction ns as [|n ns IH]; intros H; [reflexivity|].
  assert (IH' := IH (fun x Hx => H x (or_intror Hx))).
  cbn [filter List.length].
  destruct (H n (or_introl eq_refl)) as [E|[E|[E|E]]]; rewrite E; simpl in IH' |- *; lia.
Qed.

(* ================================================================== *)
(** * Properties of the artifact *)

Section ArtifactProperties.

Variable cwd : list string.
Variable ast_parse : string -> option Module_.
Variable RADON_AVAILABLE : bool.
Variable cc_visit : string -> option (list Block).
Variable is_stdlib : string -> bool.
Variable files : Py.dict string.
Variable symbol_level : bool.

Local Abbreviation built :=
  (assemble cwd ast_parse RADON_AVAILABLE cc_visit is_stdlib files symbol_level).
Local Abbreviation art :=
  (build cwd ast_parse RADON_AVAILABLE cc_visit is_stdlib files symbol_level).
Local Abbreviation table := (build_module_map cwd files (detect_roots files)).
Local Abbreviation analysed_ := (analysed ast_parse files table).

(** X1.  The order of the node list.  The nodes come module by module in
    the order of the module table (the order of the input files): the
    module node, directly followed by its symbol nodes in source order
    when symbol-level detail is on and radon returned blocks; a file that
    does not parse contributes nothing.  The external packages follow,
    after every module, sorted by name. *)
Theorem node_emission_order :
  art_nodes art
  = flat_map (item_nodes ast_parse RADON_AVAILABLE cc_visit files symbol_level)
      (module_map built)
    ++ map external_node (Py.sorted_set (external_deps built)).
Proof.
  destruct (assemble_exact cwd ast_parse RADON_AVAILABLE cc_visit is_stdlib files
              symbol_level) as (M & N & _).
  simpl; rewrite M; exact N.
Qed.

Lemma details_keys_are_module_ids :
  Py.keys (module_details built) = map id (nodes_of_kind ["module"] (nodes built)).
Proof.
  destruct (assemble_exact cwd ast_parse RADON_AVAILABLE cc_visit is_stdlib files
              symbol_level) as (_ & N & D & _).
  rewrite N, D; unfold nodes_of_kind; rewrite filter_app, map_app.
  destruct (external_nodes_kinds (Py.sorted_set (external_deps built))) as (E & _).
  unfold nodes_of_kind in E; rewrite E, app_nil_r.
  symmetry; apply modules_of_flat_map.
Qed.

(** X2.  [module_details] and the module nodes go together: the keys of
    [module_details] are the ids of the nodes of kind [module], in the
    same order, and no id occurs twice. *)
Theorem module_details_follow_module_nodes :
  Py.keys (art_module_details art)
  = map id (nodes_of_kind ["module"] (art_nodes art)) /\
  NoDup (Py.keys (art_module_details art)).
Proof.
  split; [exact details_keys_are_module_ids|].
  destruct (assemble_exact cwd ast_parse RADON_AVAILABLE cc_visit is_stdlib files
              symbol_level) as (_ & _ & D & _).
  simpl; rewrite D; apply NoDup_item_details, build_module_map_NoDup.
Qed.

(** X3.  The counts of [metadata] add up: every node is counted as a
    module, a symbol or an external package, exactly once; there are as
    many modules as [module_details] entries and never more than input
    files; [total_edges] is the length of the emitted edge list, and
    [total_external] the number of distinct external packages. *)
Theorem metadata_counts_add_up :
  let meta := build_metadata files built in
  total_modules meta + total_symbols meta + total_external meta
  = List.length (art_nodes art) /\
  total_modules meta = List.length (art_module_details art) /\
  total_modules meta <= total_files meta /\
  total_external meta = List.length (Py.sorted_set (external_deps built)) /\
  total_edges meta = List.length (art_edges art).
Proof.
  cbv zeta; simpl.
  split; [apply count_kind_partition; intros n; apply node_kinds|].
  assert (Hm : count_kind ["module"] (nodes built) = List.length (module_details built)).
  { pose proof details_keys_are_module_ids as H.
    unfold count_kind; rewrite <- (length_map id), <- H; unfold Py.keys.
    apply length_map. }
  split; [exact Hm|]; split; [|split].
  - rewrite Hm.
    destruct (assemble_exact cwd ast_parse RADON_AVAILABLE cc_visit is_stdlib files
                symbol_level) as (_ & _ & D & _).
    rewrite D; etransitivity; [apply length_item_details|].
    apply length_build_module_map.
  - destruct (assemble_exact cwd ast_parse RADON_AVAILABLE cc_visit is_stdlib files
                symbol_level) as (_ & N & _).
    unfold count_kind; rewrite N; unfold nodes_of_kind; rewrite filter_app, length_app.
    pose proof (externals_of_flat_map ast_parse RADON_AVAILABLE cc_visit files
                  symbol_level table) as E1.
    destruct (external_nodes_kinds (Py.sorted_set (external_deps built)))
      as (_ & _ & E2).
    unfold nodes_of_kind in E1, E2; rewrite E1, E2, length_map; reflexivity.
  - symmetry; apply length_sorted_edges.
Qed.

(** X4.  Every emitted edge has one of the four types and the shape of
    its type.  It starts from a module with a [module_details] entry.  An
    [imports] or [calls] edge ends at another module of the module table;
    a [defines] edge ends at [source.name]; an [external] edge ends at
    [external:package] for a package outside the standard library.  So an
    [imports], [calls] or [defines] edge is never a self loop. *)
Theorem edges_are_typed (s t ty : string) :
  In (s, t, ty) (art_edges art) ->
  In s (Py.keys (art_module_details art)) /\
  (((ty = "imports" \/ ty = "calls") /\ s <> t /\ In t (Py.keys (module_map built))) \/
   (ty = "defines" /\ s <> t /\ symbol_level = true /\
    exists name, t = (s ++ "." ++ name)%string) \/
   (ty = "external" /\
    exists pkg, t = ("external:" ++ pkg)%string /\ is_stdlib pkg = false)).
Proof.
  simpl; rewrite In_sorted_edges, edge_origin, assembled_module_map.
  assert (Hkey : forall m fp tree, analysed_ m fp tree ->
                                   In m (Py.keys (module_details built))).
  { intros m fp tree Han; unfold Py.keys; apply in_map_iff.
    eexists (m, _); split; [reflexivity|].
    apply details_origin; exists fp, tree; split; [exact Han | reflexivity]. }
  intros [H|[H|[H|H]]].
  - destruct H as [m [fp [tree [imp [t' [Han [_ [Hu He]]]]]]]]; injection He as Es Et Ety; subst s t ty.
    split; [exact (Hkey _ _ _ Han)|]; left.
    apply usable_resolved in Hu; destruct Hu as [Hk Hne]; auto.
  - destruct H as [m [fp [tree [c [t' [Han [_ [Hp He]]]]]]]]; injection He as Es Et Ety; subst s t ty.
    split; [exact (Hkey _ _ _ Han)|]; left.
    apply promoted_import in Hp; destruct Hp as [imp [_ [_ Hu]]].
    apply usable_resolved in Hu; destruct Hu as [Hk Hne]; auto.
  - destruct H as [m [fp [tree [name [k [l [Han [Hs [_ [_ He]]]]]]]]]].
    injection He as Es Et Ety; subst s t ty.
    split; [exact (Hkey _ _ _ Han)|]; right; left.
    split; [reflexivity|]; split; [|split; [exact Hs | exists name; reflexivity]].
    intros Heq; symmetry in Heq; apply append_self in Heq; discriminate.
  - destruct H as [m [d [pkg [imp [Hp [Hd [_ [_ He]]]]]]]].
    injection He as Es Et Ety; subst s t ty.
    split; [unfold Py.keys; apply in_map_iff; exists (m, d); auto|]; right; right.
    split; [reflexivity|]; exists pkg; split; [reflexivity|].
    apply external_dep_origin in Hp.
    destruct Hp as [m' [fp' [tree' [imp' [_ [_ [_ [Hstd Heq]]]]]]]].
    rewrite Heq; exact Hstd.
Qed.

(** X5.  A [calls] edge never stands alone: the import that promoted the
    call has put the [imports] edge between the same two modules. *)
Theorem calls_edge_has_imports_edge (s t : string) :
  let emitted :=
    art_edges
      (build cwd ast_parse RADON_AVAILABLE cc_visit is_stdlib files symbol_level) in
  In (s, t, "calls") emitted -> In (s, t, "imports") emitted.
Proof.
  cbv zeta; simpl; rewrite !In_sorted_edges, !edge_origin.
  intros [H|[H|[H|H]]].
  - destruct H as [m [fp [tree [imp [t' [_ [_ [_ He]]]]]]]]; discriminate.
  - destruct H as [m [fp [tree [c [t' [Han [_ [Hp He]]]]]]]]; injection He as Es Et; subst s t.
    apply promoted_import in Hp; destruct Hp as [imp [Hin [_ Hu]]].
    left; exists m, fp, tree, imp, t'; auto.
  - destruct H as [m [fp [tree [name [k [l [_ [_ [_ [_ He]]]]]]]]]]; discriminate.
  - destruct H as [m [d [pkg [imp [_ [_ [_ [_ He]]]]]]]]; discriminate.
Qed.

(** X6.  The external nodes, exactly.  A node of kind [external] is the
    node of a package [pkg] that is the top segment of some import of an
    analysed module which does not resolve to another module of the table
    and which [is_stdlib] does not take for the standard library; and
    every such package has its node. *)
Theorem external_nodes_characterised (n : GraphNode) :
  (In n (art_nodes art) /\ kind n = "external") <->
  exists pkg m fp tree imp,
    n = external_node pkg /\
    analysed_ m fp tree /\
    In imp (iv_imports (module_visitor m tree)) /\
    usable_target (_resolve_import table imp) m = None /\
    is_stdlib pkg = false /\
    pkg = get_top_module imp.
Proof.
  simpl; rewrite node_origin; split.
  - intros [[H|[H|H]] Hk].
    + destruct H as [m [fp [tree [_ ->]]]]; discriminate.
    + destruct H as [m [fp [tree [[[name k] l] [_ [_ [_ [Hs ->]]]]]]]]; simpl in Hk.
      subst k; apply extract_symbols_kind in Hs; destruct Hs; discriminate.
    + destruct H as [pkg [Hp ->]]; apply external_dep_origin in Hp.
      destruct Hp as [m [fp [tree [imp [Han [Hin [Hu [Hstd Heq]]]]]]]].
      subst pkg; exists (get_top_module imp), m, fp, tree, imp; repeat split; auto; apply Han.
  - intros [pkg [m [fp [tree [imp [-> [Han [Hin [Hu [Hstd Heq]]]]]]]]]].
    split; [|reflexivity].
    right; right; exists pkg; split; [|reflexivity].
    apply external_dep_origin; exists m, fp, tree, imp; subst pkg; auto 10.
Qed.

(** X7.  The [external] edges, exactly.  There is an edge from [s] to
    [external:pkg] if and only if [pkg] has an external node and the
    [module_details] of [s] list an import whose top segment is [pkg];
    whether that import of [s] resolved inside the project plays no
    part. *)
Theorem external_edges_characterised (s t : string) :
  In (s, t, "external") (art_edges art) <->
  exists pkg d imp,
    t = ("external:" ++ pkg)%string /\
    In (external_node pkg) (art_nodes art) /\
    In (s, d) (art_module_details art) /\
    In imp (md_imports d) /\ get_top_module imp = pkg.
Proof.
  simpl; rewrite In_sorted_edges, edge_origin; split.
  - intros [H|[H|[H|H]]].
    + destruct H as [m [fp [tree [imp [t' [_ [_ [_ He]]]]]]]]; discriminate.
    + destruct H as [m [fp [tree [c [t' [_ [_ [_ He]]]]]]]]; discriminate.
    + destruct H as [m [fp [tree [name [k [l [_ [_ [_ [_ He]]]]]]]]]]; discriminate.
    + destruct H as [m [d [pkg [imp [Hp [Hd [Hin [Htop He]]]]]]]]; injection He as Es Et; subst s t pkg.
      exists (get_top_module imp), d, imp; repeat split; auto.
      apply node_origin; right; right; exists (get_top_module imp); auto.
  - intros [pkg [d [imp [-> [Hn [Hd [Hin Htop]]]]]]].
    right; right; right; exists s, d, pkg, imp; repeat split; auto.
    apply node_origin in Hn; destruct Hn as [H|[H|H]].
    + destruct H as [m [fp [tree [_ He]]]]; discriminate.
    + destruct H as [m [fp [tree [[[name k] l] [_ [_ [_ [Hs He]]]]]]]].
      inversion He.
    + destruct H as [pkg' [Hp He]]; inversion He as [[Hid]].
      subst pkg'; exact Hp.
Qed.

(** X8.  No external node is left alone: the module whose unresolved
    import brought the package in has an [external] edge to its node. *)
Theorem external_node_has_incoming_edge (pkg : string) :
  In (external_node pkg) (art_nodes art) ->
  exists s, In (s, ("external:" ++ pkg)%string, "external") (art_edges art) /\
            In s (Py.keys (art_module_details art)).
Proof.
  intros Hn.
  assert (Hp : In pkg (external_deps built)).
  { simpl in Hn; apply node_origin in Hn; destruct Hn as [H|[H|H]].
    - destruct H as [m [fp [tree [_ He]]]]; discriminate.
    - destruct H as [m [fp [tree [[[name k] l] [_ [_ [_ [Hs He]]]]]]]].
      inversion He.
    - destruct H as [pkg' [Hp He]]; inversion He as [[Hid]].
      subst pkg'; exact Hp. }
  pose proof Hp as Ho; apply external_dep_origin in Ho.
  destruct Ho as [m [fp [tree [imp [Han [Hin [_ [_ Heq]]]]]]]].
  assert (Hd : In (m, make_details m fp (code_of files fp) tree
                        (fst (metrics_of RADON_AVAILABLE cc_visit files fp))
                        (snd (metrics_of RADON_AVAILABLE cc_visit files fp)))
                  (module_details built)).
  { apply details_origin; exists fp, tree; auto. }
  exists m; split.
  - simpl; rewrite In_sorted_edges, edge_origin; right; right; right.
    eexists m, _, pkg, imp; repeat split; [exact Hp | exact Hd | exact Hin | auto].
  - simpl; unfold Py.keys; apply in_map_iff; eexists (m, _); split; [|exact Hd].
    reflexivity.
Qed.

(** X9.  The emitted edge list is the edge set in strictly increasing
    tuple order: it has the same members, each once. *)
Theorem emitted_edges_strictly_sorted :
  StronglySorted edge_lt (art_edges art) /\
  NoDup (art_edges art) /\
  (forall e, In e (art_edges art) <-> In e (edges built)).
Proof.
  assert (Hs : StronglySorted edge_lt (art_edges art)).
  { simpl; apply sorted_edges_sorted, assemble_edges_NoDup. }
  split; [exact Hs|]; split; [exact (edge_sorted_NoDup _ Hs)|].
  intros e; simpl; apply In_sorted_edges.
Qed.

(** X10.  A symbol node hangs under its module: a node that is neither a
    module nor an external package is a class or a function, exists only
    with symbol-level detail, names as its parent a module node of the
    artifact with the same path and project, and has the id
    [parent.name]. *)
Theorem symbol_node_has_parent (n : GraphNode) :
  In n (art_nodes art) -> kind n <> "module" -> kind n <> "external" ->
  symbol_level = true /\
  (kind n = "class" \/ kind n = "function") /\
  exists p name,
    In p (art_nodes art) /\ kind p = "module" /\
    parent n = Some (id p) /\ id n = (id p ++ "." ++ name)%string /\
    path n = path p /\ project n = project p.
Proof.
  simpl; intros Hn Hm He; apply node_origin in Hn; destruct Hn as [H|[H|H]].
  - destruct H as [m [fp [tree [_ ->]]]]; elim Hm; reflexivity.
  - destruct H as [m [fp [tree [[[name k] l] [Han [Hs [_ [Hsym ->]]]]]]]].
    split; [exact Hs|]; split; [exact (extract_symbols_kind _ _ _ _ Hsym)|].
    exists (module_node m fp (code_of files fp) tree
              (fst (metrics_of RADON_AVAILABLE cc_visit files fp))), name.
    split; [|simpl; auto 10].
    apply node_origin; left; exists m, fp, tree; auto.
  - destruct H as [pkg [_ ->]]; elim He; reflexivity.
Qed.

End ArtifactProperties.

Lemma edges_are_typed_witness :
  In "main" (Py.keys (art_module_details demo_artifact)) /\
  ((("calls" = "imports" \/ "calls" = "calls") /\ "main" <> "util" /\
    In "util" (Py.keys (module_map demo_builder))) \/
   ("calls" = "defines" /\ "main" <> "util" /\ true = true /\
    exists name, "util" = ("main" ++ "." ++ name)%string) \/
   ("calls" = "external" /\
    exists pkg, "util" = ("external:" ++ pkg)%string /\
                is_stdlib_fallback pkg = false)).
Proof.
  apply (edges_are_typed srv demo_parse true demo_cc_visit is_stdlib_fallback
           demo_files true "main" "util" "calls").
  vm_compute; tauto.
Defined.

Lemma calls_edge_has_imports_edge_witness :
  In ("main", "util", "imports") (art_edges demo_artifact).
Proof.
  apply (calls_edge_has_imports_edge srv demo_parse true demo_cc_visit
           is_stdlib_fallback demo_files true "main" "util").
  vm_compute; tauto.
Defined.

Lemma external_node_has_incoming_edge_witness :
  exists s, In (s, "external:requests", "external") (art_edges demo_artifact) /\
            In s (Py.keys (art_module_details demo_artifact)).
Proof.
  apply (external_node_has_incoming_edge srv demo_parse true demo_cc_visit
           is_stdlib_fallback demo_files true "requests").
  vm_compute; tauto.
Defined.

Lemma symbol_node_has_parent_witness :
  let n := mkGraphNode "util.run" "function" "app/util.py" "util"
             (StatsOf (mkNodeStats 0 0 0 0 (Some (mkComplexityMetrics 1 1 0))))
             (Some "util") in
  true = true /\
  (kind n = "class" \/ kind n = "function") /\
  exists p name,
    In p (art_nodes demo_artifact) /\ kind p = "module" /\
    parent n = Some (id p) /\ id n = (id p ++ "." ++ name)%string /\
    path n = path p /\ project n = project p.
Proof.
  apply (symbol_node_has_parent srv demo_parse true demo_cc_visit is_stdlib_fallback
           demo_files true).
  - vm_compute; tauto.
  - discriminate.
  - discriminate.
Defined.

(* ================================================================== *)
(** * Strings: splitting, joining, stripping *)

Lemma prefix_char (sep c : ascii) (rest : string) :
  String.prefix (String sep "") (String c rest) = Ascii.eqb c sep.
Proof.
  simpl; destruct (ascii_dec sep c) as [->|Hne].
  - rewrite Ascii.eqb_refl; destruct rest; reflexivity.
  - symmetry; apply Ascii.eqb_neq; congruence.
Qed.

Lemma contains_cons (sep c : ascii) (rest : string) :
  Py.contains (String c rest) (String sep "")
  = Ascii.eqb c sep || Py.contains rest (String sep "").
Proof.
  change (Py.contains (String c rest) (String sep ""))
    with (String.prefix (String sep "") (String c rest)
          || Py.contains rest (String sep "")).
  rewrite prefix_char; reflexivity.
Qed.

Lemma split_no_sep (sep : ascii) (s : string) :
  Py.contains s (String sep "") = false -> Py.split sep s = [s].
Proof.
  induction s as [|c s IH]; [reflexivity|].
  rewrite contains_cons; intros H; apply orb_false_iff in H; destruct H as [Hc Hs].
  simpl; rewrite Hc, (IH Hs); reflexivity.
Qed.

Lemma split_app_sep (sep : ascii) (a b : string) :
  Py.contains a (String sep "") = false ->
  Py.split sep (a ++ String sep b) = a :: Py.split sep b.
Proof.
  induction a as [|c a IH]; intros H.
  - simpl; rewrite Ascii.eqb_refl; reflexivity.
  - rewrite contains_cons in H; apply orb_false_iff in H; destruct H as [Hc Ha].
    simpl; rewrite Hc, (IH Ha); reflexivity.
Qed.

(** [sep.join(parts).split(sep)] gives the parts back when none of them
    holds the separator. *)
Lemma split_join (sep : ascii) (l : list string) :
  l <> [] ->
  (forall c, In c l -> Py.contains c (String sep "") = false) ->
  Py.split sep (Py.join (String sep "") l) = l.
Proof.
  unfold Py.join; induction l as [|x l IH]; intros Hne H; [elim Hne; reflexivity|].
  destruct l as [|y l].
  - simpl; apply split_no_sep, H; left; reflexivity.
  - change (String.concat (String sep "") (x :: y :: l))
      with (x ++ String sep (String.concat (String sep "") (y :: l)))%string.
    rewrite split_app_sep by (apply H; left; reflexivity).
    rewrite IH; [reflexivity | discriminate |].
    intros c Hc; apply H; right; exact Hc.
Qed.

Lemma rstrip_app_char (c x : ascii) (a : string) :
  Ascii.eqb x c = false ->
  Py.rstrip c (a ++ String x "") = (a ++ String x "")%string.
Proof.
  intros Hx; induction a as [|y a IH]; simpl.
  - rewrite Hx; reflexivity.
  - rewrite IH; destruct (a ++ String x "")%string eqn:E; [|reflexivity].
    destruct a; discriminate.
Qed.

Lemma string_app_assoc (a b c : string) :
  ((a ++ b) ++ c)%string = (a ++ (b ++ c))%string.
Proof. induction a as [|x a IH]; simpl; [reflexivity | rewrite IH; reflexivity]. Qed.

Lemma concat_app_last (sep : string) (l : list string) (x : string) :
  l <> [] ->
  String.concat sep (l ++ [x]) = (String.concat sep l ++ sep ++ x)%string.
Proof.
  induction l as [|y l IH]; intros Hne; [elim Hne; reflexivity|].
  destruct l as [|z l].
  - reflexivity.
  - change (String.concat sep ((y :: z :: l) ++ [x]))
      with (y ++ sep ++ String.concat sep ((z :: l) ++ [x]))%string.
    rewrite IH by discriminate.
    change (String.concat sep (y :: z :: l))
      with (y ++ sep ++ String.concat sep (z :: l))%string.
    rewrite !string_app_assoc; reflexivity.
Qed.

(** A joined path whose last component ends in [y] ends in [y]. *)
Lemma join_ends_with (sep : string) (l : list string) (stem : string) :
  exists a, String.concat sep (l ++ [(stem ++ ".py")%string]) = (a ++ "y")%string.
Proof.
  destruct l as [|x l].
  - exists (stem ++ ".p")%string; simpl.
    rewrite string_app_assoc; reflexivity.
  - rewrite concat_app_last by discriminate.
    exists (String.concat sep (x :: l) ++ sep ++ stem ++ ".p")%string.
    rewrite !string_app_assoc; reflexivity.
Qed.

Lemma last_app_single (l : list string) (x : string) : Py.last (l ++ [x]) = x.
Proof. unfold Py.last; apply last_last. Qed.

Lemma splitext_aux_py (seen : bool) : posixpath.splitext_aux "py" seen = None.
Proof. reflexivity. Qed.

Lemma splitext_aux_stem (stem : string) (seen : bool) :
  seen || has_non_dot stem = true ->
  posixpath.splitext_aux (stem ++ ".py") seen = Some stem.
Proof.
  revert seen; induction stem as [|c stem IH]; intros seen H.
  - rewrite orb_false_r in H; subst seen; reflexivity.
  - change (posixpath.splitext_aux (String c stem ++ ".py") seen)
      with (let is_dot := Ascii.eqb c "." in
            match posixpath.splitext_aux (stem ++ ".py") (seen || negb is_dot) with
            | Some r => Some (String c r)
            | None => if is_dot && seen then Some EmptyString else None
            end).
    cbv zeta; rewrite IH; [reflexivity|].
    unfold has_non_dot in *; simpl in H.
    destruct (Ascii.eqb c "."); simpl in *.
    + rewrite orb_false_r; exact H.
    + rewrite orb_true_r; reflexivity.
Qed.

Lemma splitext_root_stem (stem : string) :
  has_non_dot stem = true -> posixpath.splitext_root (stem ++ ".py") = stem.
Proof.
  intros H; unfold posixpath.splitext_root; rewrite splitext_aux_stem; [reflexivity|].
  exact H.
Qed.

Lemma eqb_append_py (stem : string) :
  String.eqb (stem ++ ".py") "__init__.py" = String.eqb stem "__init__".
Proof.
  destruct (String.eqb stem "__init__") eqn:E.
  - apply String.eqb_eq in E; subst; reflexivity.
  - apply String.eqb_neq; intros H; apply String.eqb_neq in E; apply E.
    change "__init__.py" with ("__init__" ++ ".py")%string in H.
    revert H; generalize "__init__"; clear E.
    induction stem as [|c stem IH]; intros [|d t] H; simpl in H; try reflexivity.
    + destruct t as [|? [|? [|? ?]]]; discriminate.
    + destruct stem as [|? [|? [|? ?]]]; discriminate.
    + injection H as -> H; f_equal; exact (IH _ H).
Qed.

(* ================================================================== *)
(** * Paths made of plain components *)

Lemma path_component_kept (c : string) :
  path_component c = true ->
  kept_component c = true /\ Py.contains c "/" = false.
Proof.
  unfold path_component; intros H; apply andb_true_iff in H; destruct H as [H1 H2].
  apply negb_true_iff in H2; auto.
Qed.

Lemma normpath_comps_all_kept (l acc : list string) :
  forallb kept_component l = true -> posixpath.normpath_comps l acc = acc ++ l.
Proof.
  revert acc; induction l as [|c l IH]; intros acc H; simpl.
  - rewrite app_nil_r; reflexivity.
  - simpl in H; apply andb_true_iff in H; destruct H as [Hc Hl].
    unfold kept_component in Hc.
    apply andb_true_iff in Hc; destruct Hc as [Hc H3].
    apply andb_true_iff in Hc; destruct Hc as [H1 H2].
    apply negb_true_iff in H1, H2, H3; rewrite H1, H2, H3; simpl.
    rewrite IH by exact Hl; rewrite <- app_assoc; reflexivity.
Qed.

Lemma startswith_slash_join (l : list string) :
  forallb path_component l = true -> Py.startswith (Py.join "/" l) "/" = false.
Proof.
  destruct l as [|x l]; [reflexivity|]; simpl; intros H.
  apply andb_true_iff in H; destruct H as [Hx _].
  apply path_component_kept in Hx; destruct Hx as [Hk Hs].
  unfold Py.startswith, Py.join.
  assert (Hx : exists c r, x = String c r /\ Ascii.eqb c "/" = false).
  { destruct x as [|c r]; [discriminate|].
    rewrite contains_cons in Hs; apply orb_false_iff in Hs; destruct Hs; eauto. }
  destruct Hx as [c [r [-> Hc]]].
  assert (E : forall t, String.prefix "/" (String c t) = false).
  { intros t; rewrite prefix_char; exact Hc. }
  destruct l; simpl String.concat; apply E.
Qed.

(** The components [abspath] finds in a path joined from plain components. *)
Lemma abspath_comps_join (cwd l : list string) :
  proper_cwd cwd = true -> forallb path_component l = true ->
  posixpath.abspath_comps cwd (Py.join "/" l) = cwd ++ l.
Proof.
  intros Hcwd Hl; unfold posixpath.abspath_comps.
  rewrite startswith_slash_join by exact Hl.
  destruct l as [|x l].
  - simpl; rewrite normpath_comps_kept by exact Hcwd; simpl.
    rewrite app_nil_r; reflexivity.
  - rewrite split_join.
    + apply normpath_comps_all_kept with (acc := []).
      rewrite forallb_app; apply andb_true_iff; split; [exact Hcwd|].
      rewrite forallb_forall in Hl |- *; intros c Hc.
      exact (proj1 (path_component_kept c (Hl c Hc))).
    + discriminate.
    + rewrite forallb_forall in Hl; intros c Hc.
      exact (proj2 (path_component_kept c (Hl c Hc))).
Qed.

Lemma common_prefix_len_self (a b : list string) :
  posixpath.common_prefix_len a (a ++ b) = List.length a.
Proof.
  induction a as [|x a IH]; simpl; [reflexivity|].
  rewrite String.eqb_refl, IH; reflexivity.
Qed.

(** [relpath] of a path below its start: the components after the start. *)
Lemma relpath_below (cwd root_comps rest : list string) :
  proper_cwd cwd = true ->
  forallb path_component (root_comps ++ rest) = true -> rest <> [] ->
  posixpath.relpath cwd (Py.join "/" (root_comps ++ rest)) (Py.join "/" root_comps)
  = Py.join "/" rest.
Proof.
  intros Hcwd Hall Hne; unfold posixpath.relpath.
  assert (Hr : forallb path_component root_comps = true).
  { rewrite forallb_app in Hall; apply andb_true_iff in Hall; tauto. }
  rewrite !abspath_comps_join by assumption.
  rewrite (app_assoc cwd root_comps rest), common_prefix_len_self.
  rewrite Nat.sub_diag, skipn_app, Nat.sub_diag, skipn_all; simpl.
  destruct rest; [elim Hne; reflexivity | reflexivity].
Qed.

(* ================================================================== *)
(** * Module ids *)

Lemma filter_components (l : list string) :
  forallb kept_component l = true ->
  filter (fun p => Py.truthy p && negb (String.eqb p ".")) l = l.
Proof.
  intros H; apply filter_all; intros c Hc.
  rewrite forallb_forall in H; specialize (H c Hc); unfold kept_component in H.
  apply andb_true_iff in H; destruct H as [H _]; exact H.
Qed.

Lemma stem_is_kept (stem : string) :
  has_non_dot stem = true ->
  Py.truthy stem && negb (String.eqb stem ".") = true.
Proof.
  unfold has_non_dot, Py.truthy; destruct stem as [|c [|d stem]]; simpl;
    [discriminate | |].
  - destruct (Ascii.eqb c "."); [discriminate | reflexivity].
  - intros _; destruct (Ascii.eqb c "."); reflexivity.
Qed.

Lemma file_name_component (stem : string) :
  Py.contains stem "/" = false -> path_component (stem ++ ".py") = true.
Proof.
  intros H; unfold path_component; apply andb_true_iff; split.
  - destruct (join_ends_with "/" [] stem) as [a Ha]; simpl in Ha.
    rewrite Ha; unfold kept_component.
    rewrite !andb_true_iff, !negb_true_iff, !String.eqb_neq.
    repeat split; intros E; destruct a as [|x [|y [|z a]]]; discriminate.
  - apply negb_true_iff.
    induction stem as [|c stem IH]; [reflexivity|].
    rewrite contains_cons in H; apply orb_false_iff in H; destruct H as [Hc Hs].
    change (String c stem ++ ".py")%string with (String c (stem ++ ".py")).
    rewrite contains_cons, Hc, (IH Hs); reflexivity.
Qed.

(** X11.  The module id of a file is its path below the root with dots
    for slashes and without the [.py]: [root/a/b/c.py] is [a.b.c], and a
    package file [root/a/b/__init__.py] is [a.b] (the empty id when the
    file lies directly in the root).  This holds for every root, the empty
    one included, and whatever the working directory of the server is. *)
Theorem module_key_from_components
  (cwd root_comps dirs : list string) (stem : string) :
  proper_cwd cwd = true ->
  forallb path_component (root_comps ++ dirs) = true ->
  Py.contains stem "/" = false ->
  has_non_dot stem = true ->
  module_key_from_path cwd (Py.join "/" root_comps)
    (Py.join "/" (root_comps ++ dirs ++ [(stem ++ ".py")%string]))
  = if String.eqb stem "__init__" then Py.join "." dirs
    else Py.join "." (dirs ++ [stem]).
Proof.
  intros Hcwd Hall Hslash Hstem; unfold module_key_from_path.
  assert (Hrest : forallb path_component (dirs ++ [(stem ++ ".py")%string]) = true).
  { rewrite forallb_app in Hall |- *; apply andb_true_iff in Hall.
    destruct Hall as [_ Hd]; rewrite Hd; simpl.
    rewrite file_name_component by exact Hslash; reflexivity. }
  assert (Hd : forallb kept_component dirs = true).
  { rewrite forallb_app in Hrest; apply andb_true_iff in Hrest; destruct Hrest as [H _].
    rewrite forallb_forall in H |- *; intros c Hc.
    exact (proj1 (path_component_kept c (H c Hc))). }
  rewrite relpath_below; [| exact Hcwd | | destruct dirs; discriminate].
  2:{ rewrite forallb_app in Hall |- *; apply andb_true_iff in Hall.
      destruct Hall as [Hr _]; rewrite Hr; exact Hrest. }
  assert (Hparts : Py.split "/"
                     (Py.rstrip "/" (Py.join "/" (dirs ++ [(stem ++ ".py")%string])))
                   = dirs ++ [(stem ++ ".py")%string]).
  { destruct (join_ends_with "/" dirs stem) as [a Ha].
    unfold Py.join; rewrite Ha, rstrip_app_char by reflexivity; rewrite <- Ha.
    apply split_join; [destruct dirs; discriminate|].
    rewrite forallb_forall in Hrest; intros c Hc.
    exact (proj2 (path_component_kept c (Hrest c Hc))). }
  rewrite !Hparts.
  rewrite last_app_single, removelast_last, eqb_append_py.
  destruct (String.eqb stem "__init__").
  - rewrite filter_components by exact Hd; reflexivity.
  - rewrite splitext_root_stem by exact Hstem.
    rewrite filter_app, filter_components by exact Hd; simpl.
    rewrite stem_is_kept by exact Hstem; reflexivity.
Qed.

Lemma module_key_from_components_witness :
  module_key_from_path srv (Py.join "/" ["src"])
    (Py.join "/" (["src"] ++ ["pkg"; "core"] ++ [("mod" ++ ".py")%string]))
  = if String.eqb "mod" "__init__" then Py.join "." ["pkg"; "core"]
    else Py.join "." (["pkg"; "core"] ++ ["mod"]).
Proof.
  apply (module_key_from_components srv ["src"] ["pkg"; "core"] "mod");
    reflexivity.
Defined.

(* ================================================================== *)
(** * The module table *)

(** A dictionary filled by a loop: the entry for a key comes from the last
    element of the loop that wrote it. *)
Lemma fold_dict_set_last (f : string -> option string) (k x : string) (l : list string)
  (init : Py.dict string) :
  Py.dict_get
    (fold_left
       (fun d y => match f y with Some k' => Py.dict_set d k' y | None => d end) l init)
    k = Some x <->
  (exists l1 l2, l = l1 ++ x :: l2 /\ f x = Some k /\
                 forall y, In y l2 -> f y <> Some k) \/
  ((forall y, In y l -> f y <> Some k) /\ Py.dict_get init k = Some x).
Proof.
  revert init; induction l as [|a l IH]; intros init; simpl.
  - split; [intros H; right; split; [intros y []| exact H]|].
    intros [[l1 [l2 [H _]]]|[_ H]]; [destruct l1; discriminate | exact H].
  - rewrite IH; split.
    + intros [[l1 [l2 [-> H]]]|[Hall Hget]].
      * left; exists (a :: l1), l2; split; [reflexivity | exact H].
      * destruct (f a) as [k'|] eqn:Ea.
        -- destruct (String.eqb k k') eqn:E.
           ++ apply String.eqb_eq in E; subst k'.
              rewrite dict_set_get_same in Hget; injection Hget as <-.
              left; exists [], l; auto.
           ++ apply String.eqb_neq in E.
              rewrite dict_set_get_other in Hget by exact E.
              right; split; [|exact Hget].
              intros y [<-|Hy]; [rewrite Ea; congruence | exact (Hall y Hy)].
        -- right; split; [|exact Hget].
           intros y [<-|Hy]; [rewrite Ea; discriminate | exact (Hall y Hy)].
    + intros [[l1 [l2 [Hl [Hx Hl2]]]]|[Hall Hget]].
      * destruct l1 as [|b l1]; simpl in Hl; injection Hl as -> ->.
        -- right; split; [exact Hl2|].
           rewrite Hx; apply dict_set_get_same.
        -- left; exists l1, l2; auto.
      * right; split; [intros y Hy; apply Hall; right; exact Hy|].
        destruct (f a) as [k'|] eqn:Ea; [|exact Hget].
        rewrite dict_set_get_other; [exact Hget|].
        intros ->; apply (Hall a); [left; reflexivity | exact Ea].
Qed.

Lemma build_module_map_fold (cwd : list string) (files : Py.dict string)
  (roots : list string) :
  build_module_map cwd files roots
  = fold_left
      (fun d y =>
         match file_module_id cwd roots y with
         | Some k' => Py.dict_set d k' y
         | None => d
         end)
      (Py.keys files) [].
Proof.
  unfold build_module_map; apply fold_left_ext_in; intros mm fp _.
  unfold file_module_id; destruct (find _ roots); reflexivity.
Qed.

(** X12.  The module table, exactly: [m] stands for the file [fp] if and
    only if [fp] is the last input file, in the order of the input, whose
    module id is [m].  When two files have the same id, the later one
    takes it and the earlier file is not analysed. *)
Theorem module_table_characterised
  (cwd : list string) (ast_parse : string -> option Module_) (RADON_AVAILABLE : bool)
  (cc_visit : string -> option (list Block)) (is_stdlib : string -> bool)
  (files : Py.dict string) (symbol_level : bool) (m fp : string) :
  In (m, fp)
     (module_map
        (assemble cwd ast_parse RADON_AVAILABLE cc_visit is_stdlib files symbol_level))
  <->
  exists before after,
    Py.keys files = before ++ fp :: after /\
    file_module_id cwd (detect_roots files) fp = Some m /\
    forall fp', In fp' after -> file_module_id cwd (detect_roots files) fp' <> Some m.
Proof.
  rewrite assembled_module_map.
  pose proof (build_module_map_NoDup cwd files (detect_roots files)) as Hnd.
  assert (Hget : In (m, fp) (build_module_map cwd files (detect_roots files)) <->
                 Py.dict_get (build_module_map cwd files (detect_roots files)) m
                 = Some fp).
  { split; [apply In_dict_get; exact Hnd | apply dict_get_In]. }
  rewrite Hget, build_module_map_fold, fold_dict_set_last; split.
  - intros [H|[_ H]]; [exact H | discriminate].
  - intros H; left; exact H.
Qed.

(* ================================================================== *)
(** * Project roots *)

Lemma In_candidates (dirs : list string) (acc : list string) (r : string) :
  In r
    (fold_left
       (fun candidates d =>
          if Py.mem (top_directory d) root_names
          then Py.set_add (top_directory d) candidates else candidates)
       dirs acc) <->
  In r acc \/ (In r root_names /\ exists d, In d dirs /\ top_directory d = r).
Proof.
  revert acc; induction dirs as [|d dirs IH]; intros acc; cbn [fold_left].
  - split; [auto | intros [H|[_ [d [[] _]]]]; exact H].
  - rewrite IH; destruct (Py.mem (top_directory d) root_names) eqn:E.
    + rewrite In_set_add; apply mem_In in E; split.
      * intros [[->|H]|[Hr [d' [Hd' Ht]]]].
        -- right; split; [exact E|]; exists d; split; [left|]; reflexivity.
        -- left; exact H.
        -- right; split; [exact Hr|]; exists d'; split; [right|]; assumption.
      * intros [H|[Hr [d' [[<-|Hd'] Ht]]]].
        -- left; right; exact H.
        -- left; left; symmetry; exact Ht.
        -- right; split; [exact Hr|]; exists d'; split; assumption.
    + apply mem_false in E; split.
      * intros [H|[Hr [d' [Hd' Ht]]]].
        -- left; exact H.
        -- right; split; [exact Hr|]; exists d'; split; [right|]; assumption.
      * intros [H|[Hr [d' [[<-|Hd'] Ht]]]].
        -- left; exact H.
        -- subst r; elim E; exact Hr.
        -- right; split; [exact Hr|]; exists d'; split; assumption.
Qed.

Lemma In_first_segments (paths acc : list string) (r : string) :
  In r
    (fold_left
       (fun c p =>
          if Py.contains p "/" then Py.set_add (Py.first (Py.split "/" p)) c else c)
       paths acc) <->
  In r acc \/
  exists p, In p paths /\ Py.contains p "/" = true /\ r = Py.first (Py.split "/" p).
Proof.
  revert acc; induction paths as [|p paths IH]; intros acc; cbn [fold_left].
  - split; [auto | intros [H|[p [[] _]]]; exact H].
  - rewrite IH; destruct (Py.contains p "/") eqn:E.
    + rewrite In_set_add; split.
      * intros [[->|H]|[p' [Hp' H]]].
        -- right; exists p; split; [left; reflexivity|]; split; [exact E | reflexivity].
        -- left; exact H.
        -- right; exists p'; split; [right; exact Hp' | exact H].
      * intros [H|[p' [[<-|Hp'] [Hc Hr]]]].
        -- left; right; exact H.
        -- left; left; exact Hr.
        -- right; exists p'; auto.
    + split.
      * intros [H|[p' [Hp' H]]].
        -- left; exact H.
        -- right; exists p'; split; [right; exact Hp' | exact H].
      * intros [H|[p' [[<-|Hp'] [Hc Hr]]]].
        -- left; exact H.
        -- rewrite E in Hc; discriminate.
        -- right; exists p'; auto.
Qed.

(** X13.  The project roots.  There is always at least one root and the
    roots are strictly sorted.  When some file lies in a directory whose
    first segment is one of [src], [python], [lib], [pkg], [app], the roots
    are exactly those first segments.  Otherwise the roots are the first
    segments of all paths with a slash; and when no path has a slash the
    only root is the empty one, which is a prefix of every path. *)
Theorem detect_roots_characterised (files : Py.dict string) :
  let roots := detect_roots files in
  let named r :=
    In r root_names /\
    exists p, In p (Py.keys files) /\ top_directory (posixpath.dirname p) = r in
  roots <> [] /\
  StronglySorted (fun a b => String.compare a b = Lt) roots /\
  ((exists r, named r) -> forall r, In r roots <-> named r) /\
  (~ (exists r, named r) ->
   forall r, In r roots <->
     (exists p, In p (Py.keys files) /\ Py.contains p "/" = true /\
                r = Py.first (Py.split "/" p)) \/
     ((forall p, In p (Py.keys files) -> Py.contains p "/" = false) /\ r = "")).
Proof.
  cbv zeta; unfold detect_roots.
  set (dirs := Py.sorted_set (map posixpath.dirname (Py.keys files))).
  set (cands := fold_left _ dirs []).
  set (firsts := fold_left _ (Py.keys files) []).
  assert (Hc : forall r, In r cands <->
                 In r root_names /\
                 exists p, In p (Py.keys files) /\
                           top_directory (posixpath.dirname p) = r).
  { intros r; unfold cands; etransitivity; [apply In_candidates|]; split.
    - intros [[]|[Hr [d [Hd Ht]]]]; split; [exact Hr|].
      unfold dirs in Hd; rewrite In_sorted_set, in_map_iff in Hd.
      destruct Hd as [p [<- Hp]]; eauto.
    - intros [Hr [p [Hp Ht]]]; right; split; [exact Hr|].
      exists (posixpath.dirname p); split; [|exact Ht].
      unfold dirs; rewrite In_sorted_set; apply in_map; exact Hp. }
  assert (Hf : forall r, In r firsts <->
                 exists p, In p (Py.keys files) /\ Py.contains p "/" = true /\
                           r = Py.first (Py.split "/" p)).
  { intros r; unfold firsts; rewrite In_first_segments; split; [|auto].
    intros [[]|H]; exact H. }
  clearbody cands firsts; clear dirs.
  split; [|split; [apply sorted_set_sorted|split]].
  - assert (Hne : forall l, l <> [] -> Py.sorted_set l <> []).
    { intros [|x l] Hl H; [elim Hl; reflexivity|].
      assert (Hin : In x (Py.sorted_set (x :: l)))
        by (rewrite In_sorted_set; left; reflexivity).
      rewrite H in Hin; exact Hin. }
    apply Hne; destruct cands; [destruct firsts|]; discriminate.
  - intros [r0 Hr0] r; rewrite In_sorted_set.
    destruct cands as [|c cs].
    + apply Hc in Hr0; destruct Hr0.
    + apply Hc.
  - intros Hnone r; rewrite In_sorted_set.
    destruct cands as [|c cs].
    + destruct firsts as [|x xs].
      * split.
        -- intros [<-|[]]; right; split; [|reflexivity].
           intros p Hp; destruct (Py.contains p "/") eqn:E; [|reflexivity].
           assert (Hin : In (Py.first (Py.split "/" p)) []) by (apply Hf; eauto).
           destruct Hin.
        -- intros [H|[_ ->]]; [apply Hf in H; destruct H | left; reflexivity].
      * rewrite Hf; split; [auto|].
        intros [H|[Hall _]]; [exact H|].
        assert (Hx : In x (x :: xs)) by (left; reflexivity).
        apply Hf in Hx; destruct Hx as [p [Hp [Hcn _]]].
        rewrite (Hall p Hp) in Hcn; discriminate.
    + elim Hnone; exists c; apply Hc; left; reflexivity.
Qed.

(* ================================================================== *)
(** * Import resolution *)

Lemma find_none_iff {A : Type} (f : A -> bool) (l : list A) :
  find f l = None <-> forall x, In x l -> f x = false.
Proof.
  split; [apply find_none|].
  induction l as [|x l IH]; intros H; simpl; [reflexivity|].
  rewrite (H x (or_introl eq_refl)); apply IH; intros y Hy; apply H; right; exact Hy.
Qed.

Lemma dict_mem_In {V : Type} (d : Py.dict V) (k : string) :
  Py.dict_mem d k = true <-> In k (Py.keys d).
Proof.
  unfold Py.dict_mem; destruct (Py.dict_get d k) as [v|] eqn:E.
  - split; [intros _|reflexivity].
    apply dict_get_In in E; unfold Py.keys; apply in_map_iff; exists (k, v); auto.
  - split; [discriminate|]; intros H; apply dict_get_None in E; elim (E H).
Qed.

(** X14.  Import resolution.  Whatever it returns is a module id of the
    table; a name that is itself a module id resolves to itself; and it
    gives up exactly when no module id is the name, ends with [.name],
    has the last segment of the name as its last segment, contains the
    name as a substring, or is the first segment of the name. *)
Theorem resolve_import_characterised (module_map : Py.dict string) (import_name : string) :
  (forall target, _resolve_import module_map import_name = Some target ->
                  In target (Py.keys module_map)) /\
  (In import_name (Py.keys module_map) ->
   _resolve_import module_map import_name = Some import_name) /\
  (_resolve_import module_map import_name = None <->
   forall key, In key (Py.keys module_map) ->
     key <> import_name /\
     Py.endswith key ("." ++ import_name) = false /\
     Py.last (Py.split "." key) <> Py.last (Py.split "." import_name) /\
     Py.contains key import_name = false /\
     key <> get_top_module import_name).
Proof.
  split; [intros t; apply resolve_import_in_keys|]; split.
  - intros H; unfold _resolve_import.
    rewrite (proj2 (dict_mem_In module_map import_name) H); reflexivity.
  - unfold _resolve_import.
    destruct (Py.dict_mem module_map import_name) eqn:E1.
    { split; [discriminate|]; intros H; apply dict_mem_In in E1.
      destruct (H _ E1) as [Hne _]; elim Hne; reflexivity. }
    destruct (find _ (Py.keys module_map)) as [k|] eqn:E2.
    { split; [discriminate|]; intros H; apply find_some in E2; destruct E2 as [Hk E2].
      destruct (H _ Hk) as (_ & He & _); rewrite He in E2; discriminate. }
    destruct (find (fun key => String.eqb (Py.last (Py.split "." key))
                                 (Py.last (Py.split "." import_name)))
                (Py.keys module_map)) as [k|] eqn:E3.
    { split; [discriminate|]; intros H; apply find_some in E3; destruct E3 as [Hk E3].
      destruct (H _ Hk) as (_ & _ & Hl & _); apply String.eqb_eq in E3; elim (Hl E3). }
    destruct (find (fun key => Py.contains key import_name) (Py.keys module_map))
      as [k|] eqn:E4.
    { split; [discriminate|]; intros H; apply find_some in E4; destruct E4 as [Hk E4].
      destruct (H _ Hk) as (_ & _ & _ & Hc & _); rewrite Hc in E4; discriminate. }
    destruct (Py.dict_mem module_map (get_top_module import_name)) eqn:E5.
    { split; [discriminate|]; intros H; apply dict_mem_In in E5.
      destruct (H _ E5) as (_ & _ & _ & _ & Hne); elim Hne; reflexivity. }
    split; [intros _|reflexivity].
    intros key Hk; rewrite find_none_iff in E2, E3, E4.
    split; [intros ->; apply dict_mem_In in Hk; rewrite Hk in E1; discriminate|].
    split; [exact (E2 _ Hk)|].
    split; [intros Heq; specialize (E3 _ Hk); apply String.eqb_neq in E3; exact (E3 Heq)|].
    split; [exact (E4 _ Hk)|].
    intros ->; apply dict_mem_In in Hk; rewrite Hk in E5; discriminate.
Qed.

(* ================================================================== *)
(** * Closed instances of the endpoint lemmas *)

Lemma edge_endpoints_when_all_parse_witness :
  (exists n, In n (art_nodes demo_artifact) /\ id n = "main") /\
  (exists n, In n (art_nodes demo_artifact) /\ id n = "util").
Proof.
  apply (edge_endpoints_when_all_parse srv demo_parse true demo_cc_visit
           is_stdlib_fallback demo_files true) with (ty := "imports").
  - intros m fp H; vm_compute in H.
    destruct H as [H|[H|[]]]; injection H as <- <-; discriminate.
  - vm_compute; tauto.
Defined.

Lemma module_map_files_exist_witness : Py.dict_get demo_files "app/util.py" <> None.
Proof.
  apply (module_map_files_exist srv demo_parse true demo_cc_visit is_stdlib_fallback
           demo_files true "util" "app/util.py").
  vm_compute; tauto.
Defined.

(* ================================================================== *)
(** * The visitors in closed form *)

Lemma fold_visit_flat_map {S A B : Type} (visit : A -> S -> S)
  (extend : S -> list B -> S) (h : S -> A -> list B) (l : list A) :
  (forall v, extend v [] = v) ->
  (forall v a b, extend (extend v a) b = extend v (a ++ b)) ->
  (forall v a x, h (extend v a) x = h v x) ->
  Forall (fun x => forall v, visit x v = extend v (h v x)) l ->
  forall v, fold_left (fun v x => visit x v) l v = extend v (flat_map (h v) l).
Proof.
  intros Hnil Happ Hh Hl; induction Hl as [|x l Hx Hl IH]; intros v; simpl.
  - symmetry; apply Hnil.
  - rewrite IH, Hx, Happ; f_equal; f_equal.
    clear -Hh; induction l as [|y l IH]; simpl; [reflexivity|].
    rewrite Hh, IH; reflexivity.
Qed.

Lemma set_add_all_app (a b s : list string) :
  set_add_all (a ++ b) s = set_add_all b (set_add_all a s).
Proof. unfold set_add_all; apply fold_left_app. Qed.

Lemma In_set_add_all (names s : list string) (x : string) :
  In x (set_add_all names s) <-> In x s \/ In x names.
Proof. apply In_fold_set_add. Qed.

Lemma NoDup_set_add (x : string) (s : list string) : NoDup s -> NoDup (Py.set_add x s).
Proof.
  unfold Py.set_add; intros H; destruct (Py.mem x s) eqn:E; [exact H|].
  apply mem_false in E.
  apply NoDup_app; [exact H | constructor; [intros [] | constructor] |].
  intros y Hy [<-|[]]; exact (E Hy).
Qed.

Lemma NoDup_set_add_all (names s : list string) :
  NoDup s -> NoDup (set_add_all names s).
Proof.
  unfold set_add_all; revert s; induction names as [|x names IH]; intros s H; simpl;
    [exact H|].
  apply IH, NoDup_set_add, H.
Qed.

Lemma set_add_twice (x : string) (s : list string) :
  Py.set_add x (Py.set_add x s) = Py.set_add x s.
Proof.
  unfold Py.set_add at 1.
  assert (H : Py.mem x (Py.set_add x s) = true)
    by (apply mem_In, In_set_add; left; reflexivity).
  rewrite H; reflexivity.
Qed.

(** ** [ImportVisitor] *)

Lemma iv_extend_nil (v : ImportVisitor) : iv_extend v [] [] = v.
Proof. destruct v; unfold iv_extend; simpl; rewrite app_nil_r; reflexivity. Qed.

Lemma iv_extend_extend (v : ImportVisitor) (i1 c1 i2 c2 : list string) :
  iv_extend (iv_extend v i1 c1) i2 c2 = iv_extend v (i1 ++ i2) (c1 ++ c2).
Proof.
  unfold iv_extend; simpl; rewrite <- app_assoc, set_add_all_app; reflexivity.
Qed.

Lemma iv_call_target_extend (func : expr) (v : ImportVisitor) :
  iv_call_target func v = iv_extend v [] (call_receiver func).
Proof.
  unfold iv_call_target, call_receiver, iv_extend, iv_add_call.
  destruct func as [x|value attr| | | |]; try (symmetry; apply iv_extend_nil).
  - simpl; rewrite app_nil_r; reflexivity.
  - destruct value; try (symmetry; apply iv_extend_nil).
    simpl; rewrite app_nil_r; reflexivity.
Qed.

Lemma iv_fold_exprs (es : list expr) :
  Forall (fun e => forall v,
            iv_visit_expr e v = iv_extend v [] (expr_calls call_receiver e)) es ->
  forall v, fold_left (fun v a => iv_visit_expr a v) es v
            = iv_extend v [] (flat_map (expr_calls call_receiver) es).
Proof.
  intros H.
  apply (fold_visit_flat_map iv_visit_expr (fun v c => iv_extend v [] c)
           (fun _ e => expr_calls call_receiver e)).
  - apply iv_extend_nil.
  - intros v a b; apply iv_extend_extend.
  - reflexivity.
  - exact H.
Qed.

Lemma iv_visit_expr_extend (e : expr) :
  forall v, iv_visit_expr e v = iv_extend v [] (expr_calls call_receiver e).
Proof.
  induction e as [x|value attr IH|func args IHf IHa|l ops comps IHl IHc|c|children IH]
    using expr_nested_ind; intros v; simpl.
  - symmetry; apply iv_extend_nil.
  - apply IH.
  - rewrite (iv_fold_exprs _ IHa), IHf, iv_call_target_extend, !iv_extend_extend.
    reflexivity.
  - rewrite (iv_fold_exprs _ IHc), IHl, iv_extend_extend; reflexivity.
  - symmetry; apply iv_extend_nil.
  - apply (iv_fold_exprs _ IH).
Qed.

Lemma iv_visit_exprs_extend (es : list expr) (v : ImportVisitor) :
  iv_visit_exprs es v = iv_extend v [] (flat_map (expr_calls call_receiver) es).
Proof.
  unfold iv_visit_exprs; apply iv_fold_exprs, Forall_forall.
  intros e _; apply iv_visit_expr_extend.
Qed.

Lemma iv_fold_stmts (ss : list stmt) :
  Forall (fun s => forall v,
            iv_visit s v
            = iv_extend v (stmt_imports (parent_package v) s) (stmt_receivers s)) ss ->
  forall v, fold_left (fun v s => iv_visit s v) ss v
            = iv_extend v (flat_map (stmt_imports (parent_package v)) ss)
                (flat_map stmt_receivers ss).
Proof.
  intros H; induction H as [|s ss Hs Hss IH]; intros v; simpl.
  - symmetry; apply iv_extend_nil.
  - rewrite IH, Hs, iv_extend_extend; reflexivity.
Qed.

Lemma visit_Import_extend (names : list alias) (v : ImportVisitor) :
  visit_Import names v = iv_extend v (map alias_name names) [].
Proof.
  unfold visit_Import; revert v; induction names as [|a names IH]; intros v; simpl.
  - symmetry; apply iv_extend_nil.
  - rewrite IH; unfold iv_extend, iv_add_import; simpl.
    rewrite <- app_assoc; reflexivity.
Qed.

Lemma iv_add_imports_extend (imps : list string) (v : ImportVisitor) :
  fold_left iv_add_import imps v = iv_extend v imps [].
Proof.
  revert v; induction imps as [|i imps IH]; intros v; simpl.
  - symmetry; apply iv_extend_nil.
  - rewrite IH; unfold iv_extend, iv_add_import; simpl.
    rewrite <- app_assoc; reflexivity.
Qed.

Lemma visit_ImportFrom_extend (module : option string) (names : list alias)
  (level : nat) (v : ImportVisitor) :
  visit_ImportFrom module names level v
  = iv_extend v
      (flat_map (import_from_alias (abs_base (parent_package v) module level)) names) [].
Proof.
  unfold visit_ImportFrom.
  generalize (abs_base (parent_package v) module level) as abs; intros abs.
  revert v; induction names as [|a names IH]; intros v; simpl.
  - symmetry; apply iv_extend_nil.
  - rewrite IH, iv_add_imports_extend, iv_extend_extend; reflexivity.
Qed.

Lemma iv_visit_extend (s : stmt) :
  forall v, iv_visit s v
            = iv_extend v (stmt_imports (parent_package v) s) (stmt_receivers s).
Proof.
  induction s as [name lineno args body decs IH|name lineno args body decs IH|
                  name lineno bases body decs IH|names|module names level|
                  test body orelse IHb IHo|value|exprs stmts IH]
    using stmt_nested_ind; intros v; simpl.
  - rewrite iv_visit_exprs_extend, (iv_fold_stmts _ IH), iv_visit_exprs_extend,
      !iv_extend_extend; simpl; rewrite !app_nil_r; reflexivity.
  - rewrite iv_visit_exprs_extend, (iv_fold_stmts _ IH), iv_visit_exprs_extend,
      !iv_extend_extend; simpl; rewrite !app_nil_r; reflexivity.
  - rewrite iv_visit_exprs_extend, (iv_fold_stmts _ IH), iv_visit_exprs_extend,
      !iv_extend_extend; simpl; rewrite !app_nil_r; reflexivity.
  - apply visit_Import_extend.
  - apply visit_ImportFrom_extend.
  - rewrite (iv_fold_stmts _ IHo), (iv_fold_stmts _ IHb), iv_visit_expr_extend,
      !iv_extend_extend; reflexivity.
  - apply iv_visit_expr_extend.
  - rewrite (iv_fold_stmts _ IH), iv_visit_exprs_extend, iv_extend_extend; reflexivity.
Qed.

(** X15.  What [ImportVisitor] collects.  The import list holds the
    names of every [import] and [from ... import] of the file in source
    order, whether at top level or nested in functions, classes,
    conditionals and other blocks, with repetitions kept and the [as]
    names ignored.  The call set holds the name of every called function
    and the receiver of every method call on a plain name. *)
Theorem import_visitor_closed_form (parent_pkg : string) (tree : Module_) :
  run_ImportVisitor parent_pkg tree
  = mkImportVisitor parent_pkg (flat_map (stmt_imports parent_pkg) tree)
      (set_add_all (flat_map stmt_receivers tree) []).
Proof.
  unfold run_ImportVisitor; rewrite iv_fold_stmts.
  - reflexivity.
  - apply Forall_forall; intros s _; apply iv_visit_extend.
Qed.

(** ** [CallGraphVisitor] *)

Lemma cg_extend_nil (v : CallGraphVisitor) : cg_extend v [] = v.
Proof. destruct v; reflexivity. Qed.

Lemma cg_extend_extend (v : CallGraphVisitor) (a b : list (string * string)) :
  cg_extend (cg_extend v a) b = cg_extend v (a ++ b).
Proof.
  unfold cg_extend, record_all; simpl; rewrite fold_left_app; reflexivity.
Qed.

Lemma calls_under_app (cur : option string) (a b : list string) :
  calls_under cur (a ++ b) = calls_under cur a ++ calls_under cur b.
Proof.
  unfold calls_under; destruct cur as [f|]; [|reflexivity].
  destruct (Py.truthy f); [apply map_app | reflexivity].
Qed.

Lemma cg_call_target_extend (func : expr) (v : CallGraphVisitor) :
  cg_call_target func v = cg_extend v (calls_under (current_function v) (call_target func)).
Proof.
  unfold cg_call_target, calls_under.
  destruct (current_function v) as [f|] eqn:E; [|symmetry; apply cg_extend_nil].
  destruct (Py.truthy f); [|symmetry; apply cg_extend_nil].
  unfold call_target, cg_extend, record_all.
  destruct func as [x|value attr| | | |]; try (symmetry; apply cg_extend_nil).
  - simpl; rewrite E; reflexivity.
  - destruct value; try (symmetry; apply cg_extend_nil).
    simpl; rewrite E; reflexivity.
Qed.

Lemma cg_fold_exprs (es : list expr) :
  Forall (fun e => forall v,
            cg_visit_expr e v
            = cg_extend v (calls_under (current_function v) (expr_calls call_target e)))
         es ->
  forall v, fold_left (fun v a => cg_visit_expr a v) es v
            = cg_extend v
                (calls_under (current_function v)
                   (flat_map (expr_calls call_target) es)).
Proof.
  intros H; induction H as [|e es He Hes IH]; intros v; simpl.
  - unfold calls_under; destruct (current_function v) as [f|];
      [destruct (Py.truthy f)|]; symmetry; apply cg_extend_nil.
  - rewrite IH, He, cg_extend_extend, calls_under_app; reflexivity.
Qed.

Lemma cg_visit_expr_extend (e : expr) :
  forall v, cg_visit_expr e v
            = cg_extend v (calls_under (current_function v) (expr_calls call_target e)).
Proof.
  assert (Hnil : forall v, v = cg_extend v (calls_under (current_function v) [])).
  { intros v; unfold calls_under; destruct (current_function v) as [f|];
      [destruct (Py.truthy f)|]; symmetry; apply cg_extend_nil. }
  induction e as [x|value attr IH|func args IHf IHa|l ops comps IHl IHc|c|children IH]
    using expr_nested_ind; intros v; simpl.
  - apply Hnil.
  - apply IH.
  - rewrite (cg_fold_exprs _ IHa), IHf, cg_call_target_extend, !cg_extend_extend.
    simpl; rewrite !calls_under_app; reflexivity.
  - rewrite (cg_fold_exprs _ IHc), IHl, cg_extend_extend; simpl.
    rewrite calls_under_app; reflexivity.
  - apply Hnil.
  - apply (cg_fold_exprs _ IH).
Qed.

Lemma cg_visit_exprs_extend (es : list expr) (v : CallGraphVisitor) :
  cg_visit_exprs es v
  = cg_extend v (calls_under (current_function v) (flat_map (expr_calls call_target) es)).
Proof.
  unfold cg_visit_exprs; apply cg_fold_exprs, Forall_forall.
  intros e _; apply cg_visit_expr_extend.
Qed.

Lemma cg_fold_stmts (ss : list stmt) :
  Forall (fun s => forall v,
            cg_visit s v = cg_extend v (stmt_calls (current_function v) s)) ss ->
  forall v, fold_left (fun v s => cg_visit s v) ss v
            = cg_extend v (flat_map (stmt_calls (current_function v)) ss).
Proof.
  intros H; induction H as [|s ss Hs Hss IH]; intros v; simpl.
  - symmetry; apply cg_extend_nil.
  - rewrite IH, Hs, cg_extend_extend; reflexivity.
Qed.

Lemma cg_visit_def_extend (name : string) (args : list expr) (body : list stmt)
  (decs : list expr) (v : CallGraphVisitor) :
  Forall (fun s => forall v,
            cg_visit s v = cg_extend v (stmt_calls (current_function v) s)) body ->
  cg_set_current (current_function v)
    (cg_visit_exprs decs
       (fold_left (fun v s => cg_visit s v) body
          (cg_visit_exprs args (cg_set_current (Some name) v))))
  = cg_extend v
      (calls_under (Some name) (flat_map (expr_calls call_target) args)
       ++ flat_map (stmt_calls (Some name)) body
       ++ calls_under (Some name) (flat_map (expr_calls call_target) decs)).
Proof.
  intros IH.
  rewrite cg_visit_exprs_extend, (cg_fold_stmts _ IH), cg_visit_exprs_extend,
    !cg_extend_extend; simpl.
  unfold cg_set_current, cg_extend; simpl; reflexivity.
Qed.

Lemma cg_visit_extend (s : stmt) :
  forall v, cg_visit s v = cg_extend v (stmt_calls (current_function v) s).
Proof.
  induction s as [name lineno args body decs IH|name lineno args body decs IH|
                  name lineno bases body decs IH|names|module names level|
                  test body orelse IHb IHo|value|exprs stmts IH]
    using stmt_nested_ind; intros v; simpl.
  - apply cg_visit_def_extend, IH.
  - apply cg_visit_def_extend, IH.
  - rewrite cg_visit_exprs_extend, (cg_fold_stmts _ IH), cg_visit_exprs_extend,
      !cg_extend_extend; simpl; reflexivity.
  - symmetry; apply cg_extend_nil.
  - symmetry; apply cg_extend_nil.
  - rewrite (cg_fold_stmts _ IHo), (cg_fold_stmts _ IHb), cg_visit_expr_extend,
      !cg_extend_extend; simpl; reflexivity.
  - apply cg_visit_expr_extend.
  - rewrite (cg_fold_stmts _ IH), cg_visit_exprs_extend, cg_extend_extend; reflexivity.
Qed.

Lemma In_dd_add (d : Py.dict (list string)) (k x f t : string) :
  In t (Py.dict_get_default (Py.dd_add d k x) f [])
  <-> In t (Py.dict_get_default d f []) \/ (f = k /\ t = x).
Proof.
  unfold Py.dd_add; destruct (Py.dict_get d k) as [l|] eqn:E;
    rewrite get_default_dict_set; destruct (String.eqb f k) eqn:Ef.
  - apply String.eqb_eq in Ef; subst.
    unfold Py.dict_get_default; rewrite E, In_set_add; intuition.
  - apply String.eqb_neq in Ef; intuition.
  - apply String.eqb_eq in Ef; subst.
    unfold Py.dict_get_default; rewrite E; simpl; intuition.
  - apply String.eqb_neq in Ef; intuition.
Qed.

Lemma In_record_all (pairs : list (string * string)) (calls : Py.dict (list string))
  (f t : string) :
  In t (Py.dict_get_default (record_all pairs calls) f [])
  <-> In t (Py.dict_get_default calls f []) \/ In (f, t) pairs.
Proof.
  unfold record_all; revert calls; induction pairs as [|[g u] pairs IH]; intros calls;
    simpl; [tauto|].
  rewrite IH; unfold cg_record; rewrite In_dd_add; split.
  - intros [[H|[-> ->]]|H]; auto.
  - intros [H|[H|H]]; auto.
    injection H as -> ->; auto.
Qed.

(** Entries of a [defaultdict(set)] filled by [add]: unique keys, and
    every set is without repetition and not empty. *)
Lemma record_all_well_formed (pairs : list (string * string))
  (calls : Py.dict (list string)) :
  NoDup (Py.keys calls) ->
  (forall f ts, In (f, ts) calls -> NoDup ts /\ ts <> []) ->
  NoDup (Py.keys (record_all pairs calls)) /\
  (forall f ts, In (f, ts) (record_all pairs calls) -> NoDup ts /\ ts <> []).
Proof.
  unfold record_all; revert calls; induction pairs as [|[g u] pairs IH];
    intros calls Hk Hv; simpl; [auto|].
  apply IH; unfold cg_record, Py.dd_add.
  - destruct (Py.dict_get calls g); apply NoDup_dict_set, Hk.
  - intros f ts Hin; destruct (Py.dict_get calls g) as [l|] eqn:E;
      apply In_dict_set in Hin; destruct Hin as [Hin|Hin]; try (apply (Hv _ _ Hin)).
    + injection Hin as -> ->; apply dict_get_In in E; destruct (Hv _ _ E) as [Hn _].
      split; [apply NoDup_set_add, Hn|].
      intros Hnil.
      assert (Hu : In u (Py.set_add u l)) by (apply In_set_add; left; reflexivity).
      rewrite Hnil in Hu; exact Hu.
    + injection Hin as -> ->; split; [|discriminate].
      constructor; [intros [] | constructor].
Qed.

(** X16.  The call graph, exactly.  [calls[f]] holds [t] if and only if
    a call of the name [t], or of a method [t] on a plain name, stands
    inside a function definition named [f] and in no function definition
    nested more deeply; the default values and the decorators of a
    definition count as inside it, so [@app.route(...)] on [f] records
    [route] under [f].  Calls outside every function are not recorded.
    The keys are unique and no key has an empty set. *)
Theorem call_graph_characterised (tree : Module_) :
  let calls := cg_calls (run_CallGraphVisitor tree) in
  calls = record_all (flat_map (stmt_calls None) tree) [] /\
  (forall f t, In t (Py.dict_get_default calls f []) <->
               In (f, t) (flat_map (stmt_calls None) tree)) /\
  NoDup (Py.keys calls) /\
  (forall f ts, In (f, ts) calls -> NoDup ts /\ ts <> []).
Proof.
  cbv zeta.
  assert (E : cg_calls (run_CallGraphVisitor tree)
              = record_all (flat_map (stmt_calls None) tree) []).
  { unfold run_CallGraphVisitor, cg_visit_stmts; rewrite cg_fold_stmts.
    - reflexivity.
    - apply Forall_forall; intros s _; apply cg_visit_extend. }
  rewrite E; split; [reflexivity|]; split.
  - intros f t; rewrite In_record_all; simpl; tauto.
  - apply record_all_well_formed; [constructor | intros f ts []].
Qed.

(** ** [EntrypointVisitor] *)

Lemma ep_decorators_marks (name : string) (decs : list expr) (eps : list string) :
  ep_decorators name decs eps
  = set_add_all (if existsb decorator_marks decs then [name] else []) eps.
Proof.
  unfold ep_decorators; revert eps; induction decs as [|d decs IH]; intros eps; simpl;
    [reflexivity|].
  rewrite IH; destruct (decorator_marks d); simpl; [|reflexivity].
  destruct (existsb decorator_marks decs); simpl; [apply set_add_twice | reflexivity].
Qed.

Lemma ep_fold_stmts (ss : list stmt) :
  Forall (fun s => forall eps, ep_visit s eps = set_add_all (stmt_entrypoints s) eps) ss ->
  forall eps, fold_left (fun eps s => ep_visit s eps) ss eps
              = set_add_all (flat_map stmt_entrypoints ss) eps.
Proof.
  intros H; induction H as [|s ss Hs Hss IH]; intros eps; simpl; [reflexivity|].
  rewrite IH, Hs, set_add_all_app; reflexivity.
Qed.

Lemma ep_visit_closed (s : stmt) :
  forall eps, ep_visit s eps = set_add_all (stmt_entrypoints s) eps.
Proof.
  induction s as [name lineno args body decs IH|name lineno args body decs IH|
                  name lineno bases body decs IH|names|module names level|
                  test body orelse IHb IHo|value|exprs stmts IH]
    using stmt_nested_ind; intros eps; simpl.
  - rewrite (ep_fold_stmts _ IH), ep_decorators_marks, set_add_all_app; reflexivity.
  - rewrite (ep_fold_stmts _ IH), ep_decorators_marks, set_add_all_app; reflexivity.
  - apply (ep_fold_stmts _ IH).
  - reflexivity.
  - reflexivity.
  - rewrite (ep_fold_stmts _ IHo), (ep_fold_stmts _ IHb), !set_add_all_app.
    destruct (is_main_guard test); reflexivity.
  - reflexivity.
  - apply (ep_fold_stmts _ IH).
Qed.

(** X17.  The entry points, exactly: the names of the function
    definitions, synchronous or not and at any depth, that carry a
    decorator [app] or [route], an attribute [get], [post], [put],
    [delete], [patch] or [route], or a call of such an attribute; and
    [__main__] when some [if] at any depth compares [__name__] with
    [==] to the constant [__main__].  No name is listed twice. *)
Theorem entrypoints_characterised (tree : Module_) :
  run_EntrypointVisitor tree = set_add_all (flat_map stmt_entrypoints tree) [] /\
  (forall name, In name (run_EntrypointVisitor tree) <->
                In name (flat_map stmt_entrypoints tree)) /\
  NoDup (run_EntrypointVisitor tree).
Proof.
  assert (E : run_EntrypointVisitor tree
              = set_add_all (flat_map stmt_entrypoints tree) []).
  { unfold run_EntrypointVisitor; apply ep_fold_stmts, Forall_forall.
    intros s _; apply ep_visit_closed. }
  rewrite E; split; [reflexivity|]; split.
  - intros name; rewrite In_set_add_all; simpl; tauto.
  - apply NoDup_set_add_all; constructor.
Qed.

(* ================================================================== *)
(** * Module details and complexity *)

Lemma symbols_partition (tree : Module_) :
  List.length (extract_symbols tree)
  = List.length (filter (fun '(_, k, _) => String.eqb k "class") (extract_symbols tree))
    + List.length
        (filter (fun '(_, k, _) => String.eqb k "function") (extract_symbols tree)).
Proof.
  unfold extract_symbols; induction tree as [|s tree IH]; [reflexivity|].
  cbn [flat_map]; rewrite !filter_app, !length_app, IH.
  destruct s; simpl; lia.
Qed.

Lemma length_make_functions (symbols : list (string * string * nat))
  (sc : Py.dict nat) (calls : Py.dict (list string)) (eps : list string) :
  List.length (make_functions symbols sc calls eps)
  = List.length (filter (fun '(_, k, _) => String.eqb k "function") symbols).
Proof.
  unfold make_functions; induction symbols as [|[[name k] l] symbols IH];
    [reflexivity|].
  cbn [flat_map filter]; rewrite length_app, IH.
  destruct (String.eqb k "function"); reflexivity.
Qed.

(** X18.  The numbers of a [module_details] entry agree with its lists
    and with the module node.  The entry belongs to an analysed file;
    [symbols] is the number of classes plus the number of functions of
    the statistics; there are as many function records as counted
    functions and as many recorded imports as counted imports; the line
    count is the number of newlines plus one; and the module node of the
    artifact carries the same statistics. *)
Theorem module_details_counts
  (cwd : list string) (ast_parse : string -> option Module_) (RADON_AVAILABLE : bool)
  (cc_visit : string -> option (list Block)) (is_stdlib : string -> bool)
  (files : Py.dict string) (symbol_level : bool) (m : string) (d : ModuleDetails) :
  let b := assemble cwd ast_parse RADON_AVAILABLE cc_visit is_stdlib files symbol_level in
  let art := build cwd ast_parse RADON_AVAILABLE cc_visit is_stdlib files symbol_level in
  In (m, d) (art_module_details art) ->
  In (m, md_path d) (module_map b) /\
  ast_parse (code_of files (md_path d)) <> None /\
  md_symbols d = ns_classes (md_stats d) + ns_functions (md_stats d) /\
  List.length (md_functions d) = ns_functions (md_stats d) /\
  List.length (md_imports d) = ns_imports (md_stats d) /\
  ns_lines (md_stats d) = Py.count "010" (code_of files (md_path d)) + 1 /\
  In (mkGraphNode m "module" (md_path d) (get_top_module m) (StatsOf (md_stats d)) None)
     (art_nodes art).
Proof.
  cbv zeta; simpl; intros H; apply details_origin in H.
  destruct H as [fp [tree [Han ->]]]; pose proof Han as [Hin Hp]; simpl.
  rewrite assembled_module_map.
  split; [exact Hin|]; split; [rewrite Hp; discriminate|].
  split; [apply symbols_partition|].
  split; [unfold fill_called_by; rewrite length_map; apply length_make_functions|].
  split; [reflexivity|]; split; [reflexivity|].
  apply node_origin; left; exists m, fp, tree; split; [exact Han | reflexivity].
Qed.

Lemma module_details_counts_witness :
  let d := make_details "util" "app/util.py" demo_util_source demo_util_tree
             (mkComplexityMetrics 1 1 0) [mkBlock "run" None 1] in
  In ("util", md_path d) (module_map demo_builder) /\
  demo_parse (code_of demo_files (md_path d)) <> None /\
  md_symbols d = ns_classes (md_stats d) + ns_functions (md_stats d) /\
  List.length (md_functions d) = ns_functions (md_stats d) /\
  List.length (md_imports d) = ns_imports (md_stats d) /\
  ns_lines (md_stats d) = Py.count "010" (code_of demo_files (md_path d)) + 1 /\
  In (mkGraphNode "util" "module" (md_path d) (get_top_module "util")
        (StatsOf (md_stats d)) None)
     (art_nodes demo_artifact).
Proof.
  apply (module_details_counts srv demo_parse true demo_cc_visit is_stdlib_fallback
           demo_files true "util").
  vm_compute; tauto.
Defined.

Lemma fold_max_bound (l : list nat) (acc : nat) :
  acc <= fold_left Nat.max l acc /\
  (forall x, In x l -> x <= fold_left Nat.max l acc) /\
  (fold_left Nat.max l acc = acc \/ In (fold_left Nat.max l acc) l).
Proof.
  revert acc; induction l as [|x l IH]; intros acc; simpl.
  - split; [lia|]; split; [intros x []|left; reflexivity].
  - destruct (IH (Nat.max acc x)) as (H1 & H2 & H3).
    split; [lia|]; split.
    + intros y [<-|Hy]; [lia | exact (H2 y Hy)].
    + destruct H3 as [H3|H3]; [|right; right; exact H3].
      rewrite H3; destruct (Nat.max_spec acc x) as [[_ E]|[_ E]]; rewrite E; auto.
Qed.

(** X19.  The module metrics.  [block_count] is the number of blocks
    returned and [high_complexity_blocks] the number of them above 10,
    so never more.  Blocks are returned only when radon is available, the
    source is not blank and [cc_visit] succeeds with a non-empty list; then
    [max_complexity] is the complexity of some block and no block exceeds
    it.  Without blocks the metrics are [1, 0, 0] when [cc_visit] answered
    the empty list, and all zero when radon is missing, the source is
    blank or [cc_visit] raised. *)
Theorem module_complexity_characterised
  (RADON_AVAILABLE : bool) (cc_visit : string -> option (list Block)) (code : string) :
  let metrics := fst (calculate_module_complexity RADON_AVAILABLE cc_visit code) in
  let blocks := snd (calculate_module_complexity RADON_AVAILABLE cc_visit code) in
  block_count metrics = List.length blocks /\
  high_complexity_blocks metrics
  = List.length (filter (fun b => (10 <? block_complexity b)%nat) blocks) /\
  high_complexity_blocks metrics <= block_count metrics /\
  (blocks <> [] ->
   RADON_AVAILABLE = true /\ is_blank code = false /\ cc_visit code = Some blocks /\
   (forall b, In b blocks -> block_complexity b <= max_complexity metrics) /\
   (exists b, In b blocks /\ block_complexity b = max_complexity metrics)) /\
  (blocks = [] ->
   (metrics = mkComplexityMetrics 1 0 0 /\ RADON_AVAILABLE = true /\
    is_blank code = false /\ cc_visit code = Some []) \/
   (metrics = default_metrics /\
    (RADON_AVAILABLE = false \/ is_blank code = true \/ cc_visit code = None))).
Proof.
  cbv zeta; unfold calculate_module_complexity.
  destruct RADON_AVAILABLE; simpl.
  2:{ split; [reflexivity|]; split; [reflexivity|]; split; [lia|].
      split; [intros H; elim H; reflexivity|].
      intros _; right; split; [reflexivity | left; reflexivity]. }
  destruct (is_blank code) eqn:Eb; simpl.
  { split; [reflexivity|]; split; [reflexivity|]; split; [lia|].
    split; [intros H; elim H; reflexivity|].
    intros _; right; split; [reflexivity | right; left; reflexivity]. }
  destruct (cc_visit code) as [[|b bl]|] eqn:Ec;
    cbn [fst snd block_count high_complexity_blocks max_complexity].
  - simpl; split; [reflexivity|]; split; [reflexivity|]; split; [lia|].
    split; [intros H; elim H; reflexivity|].
    intros _; left; repeat split; reflexivity.
  - assert (Hf : forall l : list Block,
               List.length (filter (fun c => (10 <? c)%nat) (map block_complexity l))
               = List.length (filter (fun b => (10 <? block_complexity b)%nat) l)).
    { induction l as [|x l IH]; simpl; [reflexivity|].
      destruct (10 <? block_complexity x)%nat; simpl; rewrite IH; reflexivity. }
    split; [reflexivity|]; split; [exact (Hf (b :: bl))|].
    split; [rewrite (Hf (b :: bl)); apply (filter_length_le _ (b :: bl))|].
    split; [|discriminate].
    intros _; split; [reflexivity|]; split; [reflexivity|]; split; [reflexivity|].
    destruct (fold_max_bound (map block_complexity (b :: bl)) 0) as (H1 & H2 & H3).
    split.
    + intros x Hx; apply H2, in_map, Hx.
    + destruct H3 as [H3|H3].
      * exists b; split; [left; reflexivity|].
        rewrite H3; specialize (H2 (block_complexity b) (or_introl eq_refl)).
        rewrite H3 in H2; lia.
      * apply in_map_iff in H3; destruct H3 as [x [Hx Hin]].
        exists x; split; [exact Hin | exact Hx].
  - simpl; split; [reflexivity|]; split; [reflexivity|]; split; [lia|].
    split; [intros H; elim H; reflexivity|].
    intros _; right; split; [reflexivity | right; right; reflexivity].
Qed.

Lemma fold_dict_set_total {A V : Type} (key : A -> string) (value : A -> V)
  (k : string) (v : V) (l : list A) (init : Py.dict V) :
  Py.dict_get (fold_left (fun d y => Py.dict_set d (key y) (value y)) l init) k = Some v
  <->
  (exists l1 x l2, l = l1 ++ x :: l2 /\ key x = k /\ value x = v /\
                   forall y, In y l2 -> key y <> k) \/
  ((forall y, In y l -> key y <> k) /\ Py.dict_get init k = Some v).
Proof.
  revert init; induction l as [|a l IH]; intros init; simpl.
  - split; [intros H; right; split; [intros y []| exact H]|].
    intros [[l1 [x [l2 [H _]]]]|[_ H]]; [destruct l1; discriminate | exact H].
  - rewrite IH; split.
    + intros [[l1 [x [l2 [-> H]]]]|[Hall Hget]].
      * left; exists (a :: l1), x, l2; split; [reflexivity | exact H].
      * destruct (String.eqb k (key a)) eqn:E.
        -- apply String.eqb_eq in E; subst k.
           rewrite dict_set_get_same in Hget; injection Hget as <-.
           left; exists [], a, l; auto.
        -- apply String.eqb_neq in E.
           rewrite dict_set_get_other in Hget by exact E.
           right; split; [|exact Hget].
           intros y [<-|Hy]; [congruence | exact (Hall y Hy)].
    + intros [[l1 [x [l2 [Hl [Hk [Hv Hl2]]]]]]|[Hall Hget]].
      * destruct l1 as [|b l1]; simpl in Hl; injection Hl as -> ->.
        -- right; split; [exact Hl2|].
           subst k v; apply dict_set_get_same.
        -- left; exists l1, x, l2; auto.
      * right; split; [intros y Hy; apply Hall; right; exact Hy|].
        rewrite dict_set_get_other; [exact Hget|].
        intros ->; apply (Hall a); [left; reflexivity | reflexivity].
Qed.

(** X20.  The complexity recorded for a name is that of the last block
    filed under it: a function under its name, a method under
    [Class.method].  When a name is defined twice, the earlier block is
    overwritten. *)
Theorem symbol_complexity_is_last_block (blocks : list Block) (key : string) (c : nat) :
  Py.dict_get (map_symbol_complexities blocks) key = Some c <->
  exists before block after,
    blocks = before ++ block :: after /\
    block_key block = key /\ block_complexity block = c /\
    forall later, In later after -> block_key later <> key.
Proof.
  unfold map_symbol_complexities.
  change (Py.dict_get
            (fold_left (fun d y => Py.dict_set d (block_key y) (block_complexity y))
               blocks []) key = Some c <->
          exists before block after,
            blocks = before ++ block :: after /\
            block_key block = key /\ block_complexity block = c /\
            forall later, In later after -> block_key later <> key).
  rewrite fold_dict_set_total; split.
  - intros [H|[_ H]]; [exact H | discriminate].
  - intros H; left; exact H.
Qed.

(* ================================================================== *)
(** * [should_skip_directory] *)

Lemma prefix_cons (a b : ascii) (c s : string) :
  String.prefix (String a c) (String b s) = true <-> a = b /\ String.prefix c s = true.
Proof.
  simpl; destruct (ascii_dec a b) as [->|Hne]; [tauto|].
  split; [discriminate | intros [H _]; elim (Hne H)].
Qed.

Lemma prefix_nil (s : string) : String.prefix "" s = true.
Proof. destruct s; reflexivity. Qed.

Lemma contains_unfold (s sub : string) :
  Py.contains s sub
  = String.prefix sub s ||
    match s with EmptyString => false | String _ rest => Py.contains rest sub end.
Proof. destruct s; reflexivity. Qed.

Lemma prefix_lower (c s : string) :
  String.prefix c s = true -> String.prefix (lower c) (lower s) = true.
Proof.
  revert s; induction c as [|a c IH]; intros s H; [apply prefix_nil|].
  destruct s as [|b s]; [discriminate|].
  apply prefix_cons in H; destruct H as [-> H].
  cbn [lower]; apply prefix_cons; split; [reflexivity | exact (IH _ H)].
Qed.

Lemma contains_lower (s c : string) :
  Py.contains s c = true -> Py.contains (lower s) (lower c) = true.
Proof.
  induction s as [|a s IH]; rewrite contains_unfold; intros H.
  - rewrite orb_false_r in H; apply prefix_lower in H.
    rewrite contains_unfold, H; reflexivity.
  - apply orb_true_iff in H; cbn [lower]; rewrite contains_unfold.
    apply orb_true_iff; destruct H as [H|H].
    + left; apply (prefix_lower _ (String a s)), H.
    + right; exact (IH H).
Qed.

(** The first component of the split path is a prefix of the path as it
    was before the backslashes were replaced. *)
Lemma first_component_prefix (s h : string) (t : list string) :
  Py.split "/" (replace_char "\" "/" s) = h :: t -> String.prefix h s = true.
Proof.
  revert h t; induction s as [|a s IH]; intros h t; cbn [replace_char Py.split].
  - intros H; injection H as <- _; reflexivity.
  - destruct (Ascii.eqb a "\") eqn:Eb.
    + rewrite Ascii.eqb_refl; intros H; injection H as <- _; reflexivity.
    + destruct (Ascii.eqb a "/") eqn:Es.
      * intros H; injection H as <- _; reflexivity.
      * destruct (Py.split "/" (replace_char "\" "/" s)) as [|h' t'] eqn:E.
        -- intros H; injection H as <- _.
           apply prefix_cons; split; [reflexivity | apply prefix_nil].
        -- intros H; injection H as <- _.
           apply prefix_cons; split; [reflexivity | exact (IH _ _ eq_refl)].
Qed.

(** Every component of the split path is a substring of the path. *)
Lemma component_is_substring (s c : string) :
  In c (Py.split "/" (replace_char "\" "/" s)) -> Py.contains s c = true.
Proof.
  induction s as [|a s IH].
  - intros [<-|[]]; reflexivity.
  - intros H; rewrite contains_unfold; apply orb_true_iff.
    destruct (Py.split "/" (replace_char "\" "/" (String a s))) as [|h t] eqn:E;
      [destruct H|].
    destruct H as [<-|H]; [left; exact (first_component_prefix _ _ _ E)|].
    right; apply IH.
    cbn [replace_char Py.split] in E.
    destruct (Ascii.eqb (if Ascii.eqb a "\" then "/"%char else a) "/").
    + injection E as _ <-; exact H.
    + destruct (Py.split "/" (replace_char "\" "/" s)) as [|h' t'].
      * injection E as _ <-; destruct H.
      * injection E as _ <-; right; exact H.
Qed.

Lemma skip_names_are_lower :
  forallb (fun d => String.eqb (lower d) d) SKIP_DIRECTORIES = true.
Proof. vm_compute; reflexivity. Qed.

(** X21.  [should_skip_directory] is a substring test: a path is skipped
    if and only if its lowered text contains one of the directory names
    somewhere, be it inside a longer file or directory name; the test on
    the components of the path adds nothing.  So [environment.py],
    [rebuild/] or [distance.py] are skipped like [env/], [build/] and
    [dist/]. *)
Theorem should_skip_is_substring_test (path : string) :
  should_skip_directory path = true <->
  exists skip_dir,
    In skip_dir SKIP_DIRECTORIES /\ Py.contains (lower path) skip_dir = true.
Proof.
  unfold should_skip_directory; rewrite existsb_exists; split.
  - intros [d [Hd H]]; exists d; split; [exact Hd|].
    apply orb_true_iff in H; destruct H as [H|H]; [|exact H].
    apply mem_In, component_is_substring, contains_lower in H.
    pose proof skip_names_are_lower as Hl; rewrite forallb_forall in Hl.
    specialize (Hl d Hd); apply String.eqb_eq in Hl; rewrite Hl in H; exact H.
  - intros [d [Hd H]]; exists d; split; [exact Hd|].
    rewrite H; apply orb_true_r.
Qed.

(* ================================================================== *)
(** * [extract_python_files] *)

Lemma endswith_unfold (s p : string) :
  Py.endswith s p
  = String.eqb s p ||
    match s with EmptyString => false | String _ rest => Py.endswith rest p end.
Proof. destruct s; reflexivity. Qed.

Lemma endswith_py_not_slash (s : string) :
  Py.endswith s ".py" = true -> Py.endswith s "/" = false.
Proof.
  induction s as [|a s IH]; [discriminate|].
  rewrite (endswith_unfold (String a s) ".py"), (endswith_unfold (String a s) "/").
  intros H; apply orb_true_iff in H; destruct H as [H|H].
  - apply String.eqb_eq in H; injection H as -> ->; reflexivity.
  - rewrite (IH H), orb_false_r.
    destruct s as [|b s]; [discriminate|].
    apply String.eqb_neq; discriminate.
Qed.

Lemma replace_char_removes (old new : ascii) (s : string) :
  Ascii.eqb new old = false ->
  Py.contains (replace_char old new s) (String old "") = false.
Proof.
  intros Hne; induction s as [|a s IH]; [reflexivity|].
  cbn [replace_char]; rewrite contains_cons, IH, orb_false_r.
  destruct (Ascii.eqb a old) eqn:E; [exact Hne | exact E].
Qed.

(** What one name does to the files. *)
Lemma extract_step_files (zf : ZipFile) (st : Py.dict string * Folder)
  (original : string) :
  fst (extract_step zf st original)
  = if accepted zf original then
      match read zf (replace_char "\" "/" original) with
      | Some content => Py.dict_set (fst st) (replace_char "\" "/" original) content
      | None => fst st
      end
    else fst st.
Proof.
  unfold extract_step, accepted.
  destruct (Py.startswith original "__MACOSX"); [reflexivity|].
  destruct (Py.contains original "__pycache__"); [reflexivity|]; simpl.
  destruct (should_skip_directory (replace_char "\" "/" original)); [reflexivity|].
  simpl.
  destruct (Py.endswith (replace_char "\" "/" original) ".py") eqn:Epy; simpl.
  - rewrite (endswith_py_not_slash _ Epy).
    destruct (read zf (replace_char "\" "/" original)) as [content|]; [|reflexivity].
    destruct (Z.of_nat (String.length content) >? MAX_SINGLE_FILE_SIZE)%Z; reflexivity.
  - destruct (Py.endswith (replace_char "\" "/" original) "/"); reflexivity.
Qed.

Lemma accepted_spec (zf : ZipFile) (original : string) :
  accepted zf original = true ->
  exists content,
    read zf (replace_char "\" "/" original) = Some content /\
    Py.startswith original "__MACOSX" = false /\
    Py.contains original "__pycache__" = false /\
    should_skip_directory (replace_char "\" "/" original) = false /\
    Py.endswith (replace_char "\" "/" original) ".py" = true /\
    (Z.of_nat (String.length content) <= MAX_SINGLE_FILE_SIZE)%Z.
Proof.
  unfold accepted; intros H.
  repeat (apply andb_true_iff in H; destruct H as [H ?]).
  destruct (read zf (replace_char "\" "/" original)) as [content|]; [|discriminate].
  exists content; repeat split;
    try (apply negb_true_iff; assumption); try assumption.
  match goal with
  | Hs : negb (_ >? _)%Z = true |- _ => apply negb_true_iff in Hs; lia
  end.
Qed.

(** The files after the names [l]. *)
Lemma extract_fold_files (zf : ZipFile) (l : list string)
  (st : Py.dict string * Folder) :
  let files := fst (fold_left (extract_step zf) l st) in
  (NoDup (Py.keys (fst st)) -> NoDup (Py.keys files)) /\
  (forall name, In name (Py.keys files) <->
     In name (Py.keys (fst st)) \/
     exists original, In original l /\ accepted zf original = true /\
                      name = replace_char "\" "/" original) /\
  ((forall name content, In (name, content) (fst st) -> read zf name = Some content) ->
   forall name content, In (name, content) files -> read zf name = Some content).
Proof.
  cbv zeta; revert st; induction l as [|original l IH]; intros st; cbn [fold_left].
  - split; [auto|]; split; [|auto].
    intros name; split; [auto | intros [H|[o [[] _]]]; exact H].
  - destruct (IH (extract_step zf st original)) as (Hnd & Hkeys & Hread).
    pose proof (extract_step_files zf st original) as Hstep.
    split; [|split].
    + intros H; apply Hnd; rewrite Hstep.
      destruct (accepted zf original); [|exact H].
      destruct (read zf _); [apply NoDup_dict_set|]; exact H.
    + intros name; rewrite Hkeys, Hstep.
      destruct (accepted zf original) eqn:Ea.
      * destruct (accepted_spec _ _ Ea) as [content [Hr _]]; rewrite Hr.
        rewrite keys_dict_set; split.
        -- intros [[->|H]|[o [Ho H]]]; eauto 6.
           ++ right; exists original; repeat split; auto; left; reflexivity.
           ++ right; exists o; split; [right; exact Ho | exact H].
        -- intros [H|[o [[<-|Ho] [Hacc ->]]]]; eauto 6.
      * split.
        -- intros [H|[o [Ho H]]]; eauto 6.
           right; exists o; split; [right; exact Ho | exact H].
        -- intros [H|[o [[<-|Ho] [Hacc Hn]]]]; eauto 6; congruence.
    + intros H; apply Hread; rewrite Hstep.
      destruct (accepted zf original) eqn:Ea; [|exact H].
      destruct (read zf (replace_char "\" "/" original)) as [content|] eqn:Er; [|exact H].
      intros name c Hin; apply In_dict_set in Hin; destruct Hin as [Hin|Hin].
      * injection Hin as -> ->; exact Er.
      * exact (H _ _ Hin).
Qed.

(** X22.  What [extract_python_files] returns as files.  It returns only
    when the archive has at most 100000 names.  The keys are the names,
    with backslashes turned into slashes, of exactly those archive members
    that do not start with [__MACOSX], do not contain [__pycache__], are
    not skipped by [should_skip_directory], end in [.py], can be read under
    the new name and are not larger than 50 MiB; no key occurs twice, and
    each key stands for the text read under it. *)
Theorem extracted_files_characterised (zf : ZipFile) (files : Py.dict string)
  (folder_structure : Folder) :
  extract_python_files (Some zf) = Returned files folder_structure ->
  (Z.of_nat (List.length (namelist zf)) <= MAX_FILES)%Z /\
  NoDup (Py.keys files) /\
  (forall name, In name (Py.keys files) <->
     exists original, In original (namelist zf) /\ accepted zf original = true /\
                      name = replace_char "\" "/" original) /\
  (forall name content, In (name, content) files ->
     read zf name = Some content /\
     Py.endswith name ".py" = true /\
     should_skip_directory name = false /\
     Py.contains name "\" = false /\
     (Z.of_nat (String.length content) <= MAX_SINGLE_FILE_SIZE)%Z).
Proof.
  unfold extract_python_files.
  destruct (Z.of_nat (List.length (namelist zf)) >? MAX_FILES)%Z eqn:En; [discriminate|].
  destruct (fold_left (extract_step zf) (namelist zf) ([], root_folder))
    as [files' fs'] eqn:Ef.
  intros H; injection H as -> ->.
  destruct (extract_fold_files zf (namelist zf) ([], root_folder)) as (Hnd & Hkeys & Hread).
  rewrite Ef in Hnd, Hkeys, Hread; simpl in Hnd, Hkeys, Hread.
  split; [lia|]; split; [apply Hnd; constructor|]; split.
  - intros name; rewrite Hkeys; split; [intros [[]|H]; exact H | auto].
  - intros name content Hin.
    assert (Hr : read zf name = Some content)
      by (apply (Hread (fun _ _ F => match F with end) _ _ Hin)).
    assert (Hk : In name (Py.keys files)).
    { unfold Py.keys; apply in_map_iff; exists (name, content); auto. }
    apply Hkeys in Hk; destruct Hk as [[]|[original [_ [Hacc ->]]]].
    destruct (accepted_spec _ _ Hacc) as [c [Hr' [_ [_ [Hs [Hpy Hsz]]]]]].
    rewrite Hr in Hr'; injection Hr' as <-.
    split; [exact Hr|]; split; [exact Hpy|]; split; [exact Hs|]; split; [|exact Hsz].
    apply replace_char_removes; reflexivity.
Qed.

Lemma extracted_files_characterised_witness :
  let files := [("proj/app.py", "import pkg.mod"); ("proj/pkg/mod.py", "")] in
  (Z.of_nat (List.length (namelist sample_zip)) <= MAX_FILES)%Z /\
  NoDup (Py.keys files) /\
  (forall name, In name (Py.keys files) <->
     exists original, In original (namelist sample_zip) /\
                      accepted sample_zip original = true /\
                      name = replace_char "\" "/" original) /\
  (forall name content, In (name, content) files ->
     read sample_zip name = Some content /\
     Py.endswith name ".py" = true /\
     should_skip_directory name = false /\
     Py.contains name "\" = false /\
     (Z.of_nat (String.length content) <= MAX_SINGLE_FILE_SIZE)%Z).
Proof.
  eapply (extracted_files_characterised sample_zip).
  vm_compute; reflexivity.
Defined.

(** ** The folder structure *)

Lemma has_file_add (dirs : list string) (e : FileEntry) (f : Folder) :
  has_file dirs e (with_folder dirs (append_file e) f).
Proof.
  revert f; induction dirs as [|p dirs IH]; intros f.
  - exists (append_file e f); split; [reflexivity|].
    destruct f; simpl; apply in_or_app; right; left; reflexivity.
  - destruct f as [n ch fl]; cbn [with_folder children folder_name folder_files].
    destruct (IH (match Py.dict_get ch p with
                  | Some c => c
                  | None => mkFolder p [] []
                  end)) as [g [Hg He]].
    exists g; split; [|exact He].
    cbn [folder_at children]; rewrite dict_set_get_same; exact Hg.
Qed.

Lemma has_file_keep (e : FileEntry) (k : Folder -> Folder) (parts : list string) :
  (forall ds g, has_file ds e g -> has_file ds e (k g)) ->
  forall dirs f, has_file dirs e f -> has_file dirs e (with_folder parts k f).
Proof.
  intros Hk; induction parts as [|p parts IH]; intros dirs f H; [exact (Hk _ _ H)|].
  destruct f as [n ch fl]; cbn [with_folder children folder_name folder_files].
  destruct dirs as [|q dirs].
  - destruct H as [g [Hg He]]; injection Hg as <-.
    eexists; split; [reflexivity | exact He].
  - destruct H as [g [Hg He]]; cbn [folder_at children] in Hg.
    destruct (Py.dict_get ch q) as [c|] eqn:Eq; [|discriminate].
    destruct (String.eqb q p) eqn:E.
    + apply String.eqb_eq in E; subst q; rewrite Eq.
      destruct (IH dirs c (ex_intro _ g (conj Hg He))) as [g' [Hg' He']].
      exists g'; split; [|exact He'].
      cbn [folder_at children]; rewrite dict_set_get_same; exact Hg'.
    + apply String.eqb_neq in E.
      exists g; split; [|exact He].
      cbn [folder_at children]; rewrite dict_set_get_other by exact E.
      rewrite Eq; exact Hg.
Qed.

Lemma has_file_append (e e' : FileEntry) (ds : list string) (g : Folder) :
  has_file ds e g -> has_file ds e (append_file e' g).
Proof.
  destruct g as [n ch fl]; intros [g' [Hg He]]; destruct ds as [|q ds].
  - injection Hg as <-; eexists; split; [reflexivity|].
    simpl in *; apply in_or_app; left; exact He.
  - exists g'; split; [exact Hg | exact He].
Qed.

Lemma extract_step_tree (zf : ZipFile) (st : Py.dict string * Folder)
  (original : string) :
  (forall name content, In (name, content) (fst st) -> read zf name = Some content) ->
  (forall name content, In (name, content) (fst st) ->
     has_file (removelast (Py.split "/" name)) (entry_of name content) (snd st)) ->
  forall name content, In (name, content) (fst (extract_step zf st original)) ->
    has_file (removelast (Py.split "/" name)) (entry_of name content)
      (snd (extract_step zf st original)).
Proof.
  intros Hread H name content; unfold extract_step.
  destruct (Py.startswith original "__MACOSX" || Py.contains original "__pycache__");
    [apply H|].
  destruct (should_skip_directory (replace_char "\" "/" original)); [apply H|].
  destruct (Py.endswith (replace_char "\" "/" original) "/").
  { cbn [fst snd]; intros Hin; apply has_file_keep; [auto | exact (H _ _ Hin)]. }
  destruct (Py.endswith (replace_char "\" "/" original) ".py"); [|apply H].
  destruct (read zf (replace_char "\" "/" original)) as [c|] eqn:Er; [|apply H].
  destruct (Z.of_nat (String.length c) >? MAX_SINGLE_FILE_SIZE)%Z; [apply H|].
  cbn [fst snd]; intros Hin; apply In_dict_set in Hin; destruct Hin as [Hin|Hin].
  - injection Hin as -> ->; apply has_file_add.
  - apply has_file_keep; [intros ds g; apply has_file_append | exact (H _ _ Hin)].
Qed.

Lemma extract_step_reads (zf : ZipFile) (st : Py.dict string * Folder)
  (original : string) :
  (forall name content, In (name, content) (fst st) -> read zf name = Some content) ->
  forall name content, In (name, content) (fst (extract_step zf st original)) ->
    read zf name = Some content.
Proof.
  intros H name content; rewrite extract_step_files.
  destruct (accepted zf original); [|apply H].
  destruct (read zf (replace_char "\" "/" original)) as [c|] eqn:Er; [|apply H].
  intros Hin; apply In_dict_set in Hin; destruct Hin as [Hin|Hin].
  - injection Hin as -> ->; exact Er.
  - exact (H _ _ Hin).
Qed.

(** X23.  The folder structure holds every returned file: the folder
    reached from the root along the directories of the path lists the file
    with its name, its full path and the length of its text. *)
Theorem extracted_files_are_in_the_tree (zf : ZipFile) (files : Py.dict string)
  (folder_structure : Folder) (name content : string) :
  extract_python_files (Some zf) = Returned files folder_structure ->
  In (name, content) files ->
  has_file (removelast (Py.split "/" name)) (entry_of name content) folder_structure.
Proof.
  unfold extract_python_files.
  destruct (Z.of_nat (List.length (namelist zf)) >? MAX_FILES)%Z; [discriminate|].
  destruct (fold_left (extract_step zf) (namelist zf) ([], root_folder))
    as [files' fs'] eqn:Ef.
  intros H; injection H as -> ->.
  assert (Hinv : forall l st,
             (forall n c, In (n, c) (fst st) -> read zf n = Some c) ->
             (forall n c, In (n, c) (fst st) ->
                has_file (removelast (Py.split "/" n)) (entry_of n c) (snd st)) ->
             forall n c, In (n, c) (fst (fold_left (extract_step zf) l st)) ->
               has_file (removelast (Py.split "/" n)) (entry_of n c)
                 (snd (fold_left (extract_step zf) l st))).
  { induction l as [|o l IH]; intros st Hr Ht; cbn [fold_left]; [exact Ht|].
    apply IH; [apply extract_step_reads, Hr | apply extract_step_tree; assumption]. }
  intros Hin.
  specialize (Hinv (namelist zf) ([], root_folder)
                (fun _ _ F => match F with end) (fun _ _ F => match F with end)
                name content).
  rewrite Ef in Hinv; exact (Hinv Hin).
Qed.

Lemma extracted_files_are_in_the_tree_witness :
  has_file (removelast (Py.split "/" "proj/pkg/mod.py")) (entry_of "proj/pkg/mod.py" "")
    (mkFolder "root"
       [("proj",
         mkFolder "proj"
           [("pkg", mkFolder "pkg" [] [mkFileEntry "mod.py" "proj/pkg/mod.py" 0])]
           [mkFileEntry "app.py" "proj/app.py" 14])]
       []).
Proof.
  apply (extracted_files_are_in_the_tree sample_zip
           [("proj/app.py", "import pkg.mod"); ("proj/pkg/mod.py", "")]).
  - vm_compute; reflexivity.
  - right; left; reflexivity.
Defined.

(** When [extract_python_files] refuses an archive.  It raises
    the status 400 exactly when the archive cannot be opened or lists
    more than 100000 names; no file inside it, unreadable or too large,
    makes it raise. *)
Lemma extract_raises_only_400 (zf : option ZipFile) :
  (forall status, extract_python_files zf = Raised status -> status = 400) /\
  ((exists status, extract_python_files zf = Raised status) <->
   match zf with
   | None => True
   | Some z => (MAX_FILES < Z.of_nat (List.length (namelist z)))%Z
   end).
Proof.
  unfold extract_python_files; destruct zf as [z|].
  - destruct (Z.of_nat (List.length (namelist z)) >? MAX_FILES)%Z eqn:E.
    + split; [intros s H; injection H as <-; reflexivity|].
      split; [intros _; lia | intros _; eauto].
    + destruct (fold_left (extract_step z) (namelist z) ([], root_folder)).
      split; [discriminate|].
      split; [intros [s H]; discriminate | intros H; lia].
  - split; [intros s H; injection H as <-; reflexivity|].
    split; [auto | intros _; eauto].
Qed.

(* ================================================================== *)
(** * Which nodes get a depth *)

Lemma keys_assign_depths (ns : list GraphNode) (component : Py.dict nat)
  (comp_depth : list (nat * nat)) (k : string) :
  In k (Py.keys (Layout.assign_depths ns component comp_depth)) <->
  exists n, In n ns /\ id n = k /\
            (Layout.layout_kind (kind n) = true \/
             exists p, parent n = Some p /\ p <> "").
Proof.
  unfold Layout.assign_depths.
  set (depth_of := fun node_id : string =>
         Layout.nget_default comp_depth (Py.dict_get_default component node_id 0) 0).
  assert (H : forall acc,
             In k (Py.keys
                     (fold_left
                        (fun layout_depth node =>
                           if Layout.layout_kind (kind node) then
                             Py.dict_set layout_depth (id node) (depth_of (id node))
                           else
                             match parent node with
                             | Some p =>
                                 if Py.truthy p
                                 then Py.dict_set layout_depth (id node) (depth_of p)
                                 else layout_depth
                             | None => layout_depth
                             end) ns acc)) <->
             In k (Py.keys acc) \/
             exists n, In n ns /\ id n = k /\
                       (Layout.layout_kind (kind n) = true \/
                        exists p, parent n = Some p /\ p <> "")).
  { induction ns as [|n ns IH]; intros acc; cbn [fold_left].
    - split; [auto | intros [H|[n [[] _]]]; exact H].
    - rewrite IH; split.
      + intros [H|[n' [Hn' H]]].
        * destruct (Layout.layout_kind (kind n)) eqn:Ek.
          -- apply keys_dict_set in H; destruct H as [->|H]; [|left; exact H].
             right; exists n; split; [left; reflexivity|]; auto.
          -- destruct (parent n) as [p|] eqn:Ep; [|left; exact H].
             destruct (Py.truthy p) eqn:Et; [|left; exact H].
             apply keys_dict_set in H; destruct H as [->|H]; [|left; exact H].
             right; exists n; split; [left; reflexivity|]; split; [reflexivity|].
             right; exists p; split; [exact Ep|].
             intros ->; discriminate.
        * right; exists n'; split; [right; exact Hn' | exact H].
      + intros [H|[n' [[<-|Hn'] [Hid Hc]]]].
        * left; destruct (Layout.layout_kind (kind n)).
          -- apply keys_dict_set; right; exact H.
          -- destruct (parent n) as [p|]; [|exact H].
             destruct (Py.truthy p); [apply keys_dict_set; right|]; exact H.
        * left; destruct Hc as [Hc|[p [Hp Hne]]].
          -- rewrite Hc; apply keys_dict_set; left; symmetry; exact Hid.
          -- destruct (Layout.layout_kind (kind n));
               [apply keys_dict_set; left; symmetry; exact Hid|].
             rewrite Hp.
             assert (Ht : Py.truthy p = true).
             { unfold Py.truthy; apply negb_true_iff, String.eqb_neq; exact Hne. }
             rewrite Ht; apply keys_dict_set; left; symmetry; exact Hid.
        * right; exists n'; auto. }
  destruct (H []) as [H1 H2]; split.
  - intros Hk; destruct (H1 Hk) as [[]|H']; exact H'.
  - intros Hk; apply H2; right; exact Hk.
Qed.

Lemma layout_depths_assigned (all_nodes : list string) (es : list GraphEdge)
  (ns : list GraphNode) (depths : Py.dict nat) :
  Layout.layout_depths all_nodes es ns = Some depths ->
  exists component comp_depth, depths = Layout.assign_depths ns component comp_depth.
Proof.
  unfold Layout.layout_depths.
  destruct (Layout.build_graphs all_nodes es) as [graph reverse_graph].
  destruct (Layout.first_pass graph all_nodes) as [order|]; [|discriminate].
  destruct (Layout.second_pass reverse_graph all_nodes order) as [[component comp_id]|];
    [|discriminate].
  destruct (Layout.comp_depths _ comp_id) as [cd|]; [|discriminate].
  intros H; injection H as <-; eauto.
Qed.

(** X24.  Which nodes get a layout depth, in the artifact of a run that
    returns.  Without any edge [layout_depth] is empty.  With an edge,
    its keys are exactly the ids of the module nodes, the external nodes
    and the nodes whose parent is not empty; so the symbol nodes of the
    module with the empty id, the package file directly in a root, get
    none. *)
Theorem layout_depth_keys
  (limit : nat) (cwd : list string) (parse : string -> ParseOutcome)
  (RADON_AVAILABLE : bool) (cc_visit : string -> option (list Block))
  (is_stdlib : string -> bool) (files : Py.dict string) (symbol_level : bool)
  (art : Artifact) :
  run_build limit cwd parse RADON_AVAILABLE cc_visit is_stdlib files symbol_level
  = Finished art ->
  exists depths,
    art_layout_depth art = Some depths /\
    (art_edges art = [] -> depths = []) /\
    (art_edges art <> [] ->
     forall k, In k (Py.keys depths) <->
       exists n, In n (art_nodes art) /\ id n = k /\
                 (Layout.layout_kind (kind n) = true \/
                  exists p, parent n = Some p /\ p <> "")).
Proof.
  intros Hrun; apply finished_run_is_build in Hrun; subst art.
  destruct (build_layout_total cwd (parsed_tree parse) RADON_AVAILABLE cc_visit is_stdlib
              files symbol_level) as [depths Hd].
  exists depths; split; [exact Hd|].
  unfold build in *; cbn [art_layout_depth art_edges art_nodes] in *.
  set (b := assemble cwd (parsed_tree parse) RADON_AVAILABLE cc_visit is_stdlib files
              symbol_level) in *.
  pose proof (length_sorted_edges (edges b)) as Hlen.
  unfold Layout._calculate_layout in Hd; split.
  - intros He; rewrite He in Hlen; destruct (edges b); [|discriminate].
    injection Hd as <-; reflexivity.
  - intros Hne k; destruct (edges b) as [|e es] eqn:Ee; [elim Hne; reflexivity|].
    apply layout_depths_assigned in Hd; destruct Hd as [component [cd ->]].
    apply keys_assign_depths.
Qed.

Lemma layout_depth_keys_witness :
  run_build 1000 srv (as_outcome demo_parse) true demo_cc_visit is_stdlib_fallback
    demo_files true = Finished demo_artifact /\
  option_map Py.keys (art_layout_depth demo_artifact)
  = Some ["main"; "util"; "util.run"; "external:requests"] /\
  exists depths,
    art_layout_depth demo_artifact = Some depths /\
    (art_edges demo_artifact = [] -> depths = []) /\
    (art_edges demo_artifact <> [] ->
     forall k, In k (Py.keys depths) <->
       exists n, In n (art_nodes demo_artifact) /\ id n = k /\
                 (Layout.layout_kind (kind n) = true \/
                  exists p, parent n = Some p /\ p <> "")).
Proof.
  split; [vm_compute; reflexivity|].
  split; [vm_compute; reflexivity|].
  apply (layout_depth_keys 1000 srv (as_outcome demo_parse) true demo_cc_visit
           is_stdlib_fallback demo_files true demo_artifact).
  vm_compute; reflexivity.
Defined.

(* ================================================================== *)
(** * The working directory *)

Lemma detect_roots_sources (files : Py.dict string) (r : string) :
  In r (detect_roots files) ->
  In r root_names \/ r = "" \/
  exists p, In p (Py.keys files) /\ Py.contains p "/" = true /\
            r = Py.first (Py.split "/" p).
Proof.
  unfold detect_roots; rewrite In_sorted_set.
  set (dirs := Py.sorted_set (map posixpath.dirname (Py.keys files))).
  destruct (fold_left _ dirs []) as [|c cs] eqn:Ec.
  - destruct (fold_left _ (Py.keys files) []) as [|x xs] eqn:Ex.
    + intros [<-|[]]; auto.
    + rewrite <- Ex; intros H; apply In_first_segments in H.
      destruct H as [[]|H]; auto.
  - rewrite <- Ec; intros H.
    assert (H' : In r [] \/
                 (In r root_names /\ exists d, In d dirs /\ top_directory d = r))
      by (apply In_candidates; exact H).
    destruct H' as [[]|[H' _]]; auto.
Qed.

Lemma split_components_no_sep (sep : ascii) (s c : string) :
  In c (Py.split sep s) -> Py.contains c (String sep "") = false.
Proof.
  revert c; induction s as [|a s IH]; intros c; cbn [Py.split].
  - intros [<-|[]]; reflexivity.
  - destruct (Ascii.eqb a sep) eqn:E.
    + intros [<-|H]; [reflexivity | exact (IH _ H)].
    + destruct (Py.split sep s) as [|h t] eqn:Es.
      * intros [<-|[]]; rewrite contains_cons, E; reflexivity.
      * intros [<-|H].
        -- rewrite contains_cons, E; apply IH; left; reflexivity.
        -- apply IH; right; exact H.
Qed.

Lemma split_head_in (sep : ascii) (s : string) : In (Py.first (Py.split sep s)) (Py.split sep s).
Proof.
  pose proof (split_nonempty sep s) as H.
  destruct (Py.split sep s); [elim H; reflexivity | left; reflexivity].
Qed.

Lemma no_slash_plain (c : string) :
  Py.contains c "/" = false -> c <> ".." -> plain c = true.
Proof.
  intros Hs Hd; unfold plain; rewrite (split_no_sep _ _ Hs); simpl.
  apply String.eqb_neq in Hd; rewrite Hd; simpl.
  unfold Py.startswith; destruct c as [|a c]; [reflexivity|].
  rewrite contains_cons in Hs; apply orb_false_iff in Hs; destruct Hs as [Ha _].
  rewrite prefix_char, Ha; reflexivity.
Qed.

Lemma detect_roots_plain (files : Py.dict string) :
  forallb plain (Py.keys files) = true -> forallb plain (detect_roots files) = true.
Proof.
  intros H; rewrite forallb_forall in H |- *; intros r Hr.
  apply detect_roots_sources in Hr; destruct Hr as [Hr|[->|[p [Hp [_ ->]]]]].
  - simpl in Hr; destruct Hr as [<-|[<-|[<-|[<-|[<-|[]]]]]]; reflexivity.
  - reflexivity.
  - apply no_slash_plain.
    + apply (split_components_no_sep "/" p), split_head_in.
    + specialize (H p Hp); unfold plain in H; apply andb_true_iff in H.
      destruct H as [_ H]; rewrite forallb_forall in H.
      specialize (H _ (split_head_in "/" p)).
      apply negb_true_iff, String.eqb_neq in H; exact H.
Qed.

(** X25.  The server's working directory does not show in the result.
    [module_key_from_path] goes through [posixpath.relpath], which reads
    the working directory; for input paths that are relative and have no
    [..] component, as long as the working directory is a normal absolute
    path, the whole artifact is the same under any two working
    directories. *)
Theorem artifact_independent_of_cwd
  (cwd cwd' : list string) (ast_parse : string -> option Module_)
  (RADON_AVAILABLE : bool) (cc_visit : string -> option (list Block))
  (is_stdlib : string -> bool) (files : Py.dict string) (symbol_level : bool) :
  proper_cwd cwd = true -> proper_cwd cwd' = true ->
  forallb plain (Py.keys files) = true ->
  build cwd ast_parse RADON_AVAILABLE cc_visit is_stdlib files symbol_level
  = build cwd' ast_parse RADON_AVAILABLE cc_visit is_stdlib files symbol_level.
Proof.
  intros Hc Hc' Hp; pose proof (detect_roots_plain files Hp) as Hr.
  rewrite (@build_cwd cwd ast_parse RADON_AVAILABLE cc_visit is_stdlib files
             symbol_level Hc Hp Hr).
  rewrite (@build_cwd cwd' ast_parse RADON_AVAILABLE cc_visit is_stdlib files
             symbol_level Hc' Hp Hr).
  reflexivity.
Qed.

Lemma artifact_independent_of_cwd_witness :
  build srv demo_parse true demo_cc_visit is_stdlib_fallback demo_files true
  = build ["home"; "user"] demo_parse true demo_cc_visit is_stdlib_fallback
      demo_files true.
Proof.
  apply (artifact_independent_of_cwd srv ["home"; "user"]); reflexivity.
Defined.

(* ================================================================== *)
(** * The [imports] edges, exactly *)

(** X26.  There is an [imports] edge from [s] to [t] if and only if the
    file of [s] parses and one of its imports resolves to [t], where [t]
    is not the empty id and not [s] itself.  An import that resolves to
    the module itself, or to the module with the empty id, gives no edge. *)
Theorem imports_edges_characterised
  (cwd : list string) (ast_parse : string -> option Module_) (RADON_AVAILABLE : bool)
  (cc_visit : string -> option (list Block)) (is_stdlib : string -> bool)
  (files : Py.dict string) (symbol_level : bool) (s t : string) :
  let b := assemble cwd ast_parse RADON_AVAILABLE cc_visit is_stdlib files symbol_level in
  let art := build cwd ast_parse RADON_AVAILABLE cc_visit is_stdlib files symbol_level in
  In (s, t, "imports") (art_edges art) <->
  exists fp tree imp,
    In (s, fp) (module_map b) /\ ast_parse (code_of files fp) = Some tree /\
    In imp (iv_imports (module_visitor s tree)) /\
    _resolve_import (module_map b) imp = Some t /\ t <> "" /\ t <> s.
Proof.
  cbv zeta; simpl; rewrite In_sorted_edges, edge_origin, assembled_module_map.
  assert (Hu : forall target,
             usable_target target s = Some t <-> target = Some t /\ t <> "" /\ t <> s).
  { intros target; unfold usable_target; destruct target as [t'|];
      [|split; [discriminate | intros [H _]; discriminate]].
    unfold Py.truthy; destruct (String.eqb t' "") eqn:E1; simpl.
    - apply String.eqb_eq in E1; subst t'; split; [discriminate|].
      intros [H [Hne _]]; injection H as <-; elim Hne; reflexivity.
    - destruct (String.eqb t' s) eqn:E2; simpl.
      + apply String.eqb_eq in E2; subst t'; split; [discriminate|].
        intros [H [_ Hne]]; injection H as <-; elim Hne; reflexivity.
      + apply String.eqb_neq in E1, E2; split.
        * intros H; injection H as <-; auto.
        * intros [H _]; exact H. }
  split.
  - intros [H|[H|[H|H]]].
    + destruct H as [m [fp [tree [imp [t' [[Hin Hp] [Himp [Hus He]]]]]]]].
      injection He as <- <-; apply Hu in Hus.
      exists fp, tree, imp; tauto.
    + destruct H as [m [fp [tree [c [t' [_ [_ [_ He]]]]]]]]; discriminate.
    + destruct H as [m [fp [tree [name [k [l [_ [_ [_ [_ He]]]]]]]]]]; discriminate.
    + destruct H as [m [d [pkg [imp [_ [_ [_ [_ He]]]]]]]]; discriminate.
  - intros [fp [tree [imp [Hin [Hp [Himp H]]]]]].
    left; exists s, fp, tree, imp, t; repeat split; auto.
    apply Hu; exact H.
Qed.

(* ================================================================== *)
(** * The [calls] edges, exactly *)

Lemma promoted_first (mid call_alias : string) (imports : list string)
  (mm : Py.dict string) (t : string) :
  promoted mid call_alias imports mm = Some t <->
  exists before imp after,
    imports = before ++ imp :: after /\
    call_alias = Py.last (Py.split "." imp) /\
    usable_target (_resolve_import mm imp) mid = Some t /\
    forall earlier, In earlier before ->
      call_alias = Py.last (Py.split "." earlier) ->
      usable_target (_resolve_import mm earlier) mid = None.
Proof.
  induction imports as [|i imports IH]; cbn [promoted].
  - split; [discriminate | intros [b [imp [a [H _]]]]; destruct b; discriminate].
  - assert (Hcons : forall b imp a,
               i :: imports = b ++ imp :: a ->
               (b = [] /\ imp = i /\ a = imports) \/
               (exists b', b = i :: b' /\ imports = b' ++ imp :: a)).
    { intros [|x b] imp a H; simpl in H; injection H as Hi Hl.
      - left; auto.
      - right; exists b; subst x; auto. }
    destruct (String.eqb call_alias (Py.last (Py.split "." i))) eqn:E.
    + apply String.eqb_eq in E.
      destruct (usable_target (_resolve_import mm i) mid) as [t'|] eqn:Eu.
      * split.
        -- intros H; injection H as <-.
           exists [], i, imports; repeat split; auto; intros e [].
        -- intros [b [imp [a [Hl [Ha [Hu Hb]]]]]].
           destruct (Hcons _ _ _ Hl) as [[-> [-> ->]]|[b' [-> Hl']]].
           ++ rewrite Eu in Hu; exact Hu.
           ++ rewrite (Hb i (or_introl eq_refl) E) in Eu; discriminate.
      * rewrite IH; split.
        -- intros [b [imp [a [Hl [Ha [Hu Hb]]]]]].
           exists (i :: b), imp, a; rewrite Hl; repeat split; auto.
           intros e [<-|He] Hlast; [exact Eu | exact (Hb e He Hlast)].
        -- intros [b [imp [a [Hl [Ha [Hu Hb]]]]]].
           destruct (Hcons _ _ _ Hl) as [[-> [-> ->]]|[b' [-> Hl']]].
           ++ rewrite Eu in Hu; discriminate.
           ++ exists b', imp, a; repeat split; auto.
              intros e He; apply Hb; right; exact He.
    + apply String.eqb_neq in E; rewrite IH; split.
      * intros [b [imp [a [Hl [Ha [Hu Hb]]]]]].
        exists (i :: b), imp, a; rewrite Hl; repeat split; auto.
        intros e [<-|He] Hlast; [elim (E Hlast) | exact (Hb e He Hlast)].
      * intros [b [imp [a [Hl [Ha [Hu Hb]]]]]].
        destruct (Hcons _ _ _ Hl) as [[-> [-> ->]]|[b' [-> Hl']]].
        -- elim (E Ha).
        -- exists b', imp, a; repeat split; auto.
           intros e He; apply Hb; right; exact He.
Qed.

(** X29.  There is a [calls] edge from [s] to [t] if and only if the
    file of [s] parses, some name [c] is called in it (directly, or as the
    receiver of a method call), and [t] is what the first import whose
    last dotted segment is [c] and which resolves to another module
    resolves to.  The alias given by [as] plays no part: a call through
    an alias promotes nothing unless the alias is the last segment of an
    imported name. *)
Theorem calls_edges_characterised
  (cwd : list string) (ast_parse : string -> option Module_) (RADON_AVAILABLE : bool)
  (cc_visit : string -> option (list Block)) (is_stdlib : string -> bool)
  (files : Py.dict string) (symbol_level : bool) (s t : string) :
  let b := assemble cwd ast_parse RADON_AVAILABLE cc_visit is_stdlib files symbol_level in
  let art := build cwd ast_parse RADON_AVAILABLE cc_visit is_stdlib files symbol_level in
  In (s, t, "calls") (art_edges art) <->
  exists fp tree c before imp after,
    In (s, fp) (module_map b) /\ ast_parse (code_of files fp) = Some tree /\
    In c (iv_calls (module_visitor s tree)) /\
    iv_imports (module_visitor s tree) = before ++ imp :: after /\
    c = Py.last (Py.split "." imp) /\
    usable_target (_resolve_import (module_map b) imp) s = Some t /\
    forall earlier, In earlier before ->
      c = Py.last (Py.split "." earlier) ->
      usable_target (_resolve_import (module_map b) earlier) s = None.
Proof.
  cbv zeta; simpl; rewrite In_sorted_edges, edge_origin, assembled_module_map; split.
  - intros [H|[H|[H|H]]].
    + destruct H as [m [fp [tree [imp [t' [_ [_ [_ He]]]]]]]]; discriminate.
    + destruct H as [m [fp [tree [c [t' [[Hin Hp] [Hc [Hpr He]]]]]]]].
      injection He as <- <-; apply promoted_first in Hpr.
      destruct Hpr as [before [imp [after Hpr]]].
      exists fp, tree, c, before, imp, after; tauto.
    + destruct H as [m [fp [tree [name [k [l [_ [_ [_ [_ He]]]]]]]]]]; discriminate.
    + destruct H as [m [d [pkg [imp [_ [_ [_ [_ He]]]]]]]]; discriminate.
  - intros [fp [tree [c [before [imp [after [Hin [Hp [Hc H]]]]]]]]].
    right; left; exists s, fp, tree, c, t; repeat split; auto.
    apply promoted_first; exists before, imp, after; exact H.
Qed.

(* ================================================================== *)
(** * Symbols sit at the depth of their module *)

Lemma assign_depths_get (component : Py.dict nat) (comp_depth : list (nat * nat))
  (ns : list GraphNode) (n : GraphNode) :
  NoDup (map id ns) -> In n ns ->
  let depth_of node_id :=
    Layout.nget_default comp_depth (Py.dict_get_default component node_id 0) 0 in
  (Layout.layout_kind (kind n) = true ->
   Py.dict_get (Layout.assign_depths ns component comp_depth) (id n)
   = Some (depth_of (id n))) /\
  (Layout.layout_kind (kind n) = false ->
   forall p, parent n = Some p -> p <> "" ->
   Py.dict_get (Layout.assign_depths ns component comp_depth) (id n)
   = Some (depth_of p)).
Proof.
  intros Hnd Hin depth_of; unfold Layout.assign_depths; fold depth_of.
  set (step := fun (layout_depth : Py.dict nat) (node : GraphNode) =>
         if Layout.layout_kind (kind node) then
           Py.dict_set layout_depth (id node) (depth_of (id node))
         else
           match parent node with
           | Some p =>
               if Py.truthy p then Py.dict_set layout_depth (id node) (depth_of p)
               else layout_depth
           | None => layout_depth
           end).
  assert (Hkeep : forall l acc k,
             ~ In k (map id l) ->
             Py.dict_get (fold_left step l acc) k = Py.dict_get acc k).
  { induction l as [|x l IH]; intros acc k Hk; cbn [fold_left]; [reflexivity|].
    rewrite IH by (intros H; apply Hk; right; exact H).
    assert (Hx : k <> id x) by (intros ->; apply Hk; left; reflexivity).
    unfold step; destruct (Layout.layout_kind (kind x));
      [apply dict_set_get_other, Hx|].
    destruct (parent x) as [p|]; [|reflexivity].
    destruct (Py.truthy p); [apply dict_set_get_other, Hx | reflexivity]. }
  assert (Hfold : forall l acc,
             NoDup (map id l) -> In n l ->
             (Layout.layout_kind (kind n) = true ->
              Py.dict_get (fold_left step l acc) (id n) = Some (depth_of (id n))) /\
             (Layout.layout_kind (kind n) = false ->
              forall p, parent n = Some p -> p <> "" ->
              Py.dict_get (fold_left step l acc) (id n) = Some (depth_of p))).
  { induction l as [|x l IH]; intros acc Hl Hn; [destruct Hn|].
    inversion Hl as [|y ys Hx Hys]; subst; cbn [fold_left].
    destruct Hn as [->|Hn]; [|exact (IH _ Hys Hn)].
    rewrite (Hkeep l _ _ Hx); unfold step; split.
    - intros ->; apply dict_set_get_same.
    - intros -> p -> Hp.
      assert (Ht : Py.truthy p = true)
        by (unfold Py.truthy; apply negb_true_iff, String.eqb_neq; exact Hp).
      rewrite Ht; apply dict_set_get_same. }
  exact (Hfold ns [] Hnd Hin).
Qed.

(** X30.  A symbol node has the depth of its module.  When the graph has
    an edge and no two nodes share an id, every class or function node
    whose parent id is not empty is given the same depth as the module
    node it names as parent. *)
Theorem symbol_depth_is_module_depth
  (cwd : list string) (ast_parse : string -> option Module_) (RADON_AVAILABLE : bool)
  (cc_visit : string -> option (list Block)) (is_stdlib : string -> bool)
  (files : Py.dict string) (symbol_level : bool) (n : GraphNode) (depths : Py.dict nat) :
  let art := build cwd ast_parse RADON_AVAILABLE cc_visit is_stdlib files symbol_level in
  art_layout_depth art = Some depths ->
  art_edges art <> [] ->
  NoDup (map id (art_nodes art)) ->
  In n (art_nodes art) -> kind n <> "module" -> kind n <> "external" ->
  forall p, parent n = Some p -> p <> "" ->
    (exists m, In m (art_nodes art) /\ kind m = "module" /\ id m = p) /\
    exists depth, Py.dict_get depths (id n) = Some depth /\
                  Py.dict_get depths p = Some depth.
Proof.
  cbv zeta; unfold build; cbn [art_layout_depth art_edges art_nodes].
  set (b := assemble cwd ast_parse RADON_AVAILABLE cc_visit is_stdlib files
              symbol_level).
  intros Hd Hne Hnd Hn Hm He p Hp Hpne.
  assert (Hmod : exists m, In m (nodes b) /\ kind m = "module" /\ id m = p).
  { unfold b in Hn; apply node_origin in Hn; destruct Hn as [H|[H|H]].
    - destruct H as [m [fp [tree [_ ->]]]]; elim Hm; reflexivity.
    - destruct H as [m [fp [tree [[[name k] l] [Han [_ [_ [_ ->]]]]]]]].
      simpl in Hp; injection Hp as <-.
      exists (module_node m fp (code_of files fp) tree
                (fst (metrics_of RADON_AVAILABLE cc_visit files fp))).
      split; [|split; reflexivity].
      apply node_origin; left; exists m, fp, tree; auto.
    - destruct H as [pkg [_ ->]]; elim He; reflexivity. }
  split; [exact Hmod|].
  destruct Hmod as [m [Hmin [Hmk Hmid]]].
  unfold Layout._calculate_layout in Hd.
  destruct (edges b) as [|e es] eqn:Ee.
  { elim Hne; reflexivity. }
  apply layout_depths_assigned in Hd; destruct Hd as [component [cd ->]].
  destruct (assign_depths_get component cd (nodes b) n Hnd Hn) as [_ Hsym].
  destruct (assign_depths_get component cd (nodes b) m Hnd Hmin) as [Hmodule _].
  assert (Hk : Layout.layout_kind (kind n) = false).
  { unfold Layout.layout_kind; simpl.
    apply String.eqb_neq in Hm, He; rewrite Hm, He; reflexivity. }
  eexists; split; [exact (Hsym Hk p Hp Hpne)|].
  rewrite <- Hmid; apply Hmodule; rewrite Hmk; reflexivity.
Qed.

Lemma symbol_depth_is_module_depth_witness :
  let n := mkGraphNode "util.run" "function" "app/util.py" "util"
             (StatsOf (mkNodeStats 0 0 0 0 (Some (mkComplexityMetrics 1 1 0))))
             (Some "util") in
  (exists m, In m (art_nodes demo_artifact) /\ kind m = "module" /\ id m = "util") /\
  exists depth,
    Py.dict_get [("main", 0); ("util", 1); ("util.run", 1); ("external:requests", 1)]
      (id n) = Some depth /\
    Py.dict_get [("main", 0); ("util", 1); ("util.run", 1); ("external:requests", 1)]
      "util" = Some depth.
Proof.
  intros n.
  apply (symbol_depth_is_module_depth srv demo_parse true demo_cc_visit
           is_stdlib_fallback demo_files true n
           [("main", 0); ("util", 1); ("util.run", 1); ("external:requests", 1)]).
  - vm_compute; reflexivity.
  - vm_compute; discriminate.
  - vm_compute; repeat constructor; simpl; intuition discriminate.
  - vm_compute; tauto.
  - discriminate.
  - discriminate.
  - reflexivity.
  - discriminate.
Defined.
